(* ===== verification/_CoqProject ===== *)
-Q . S2P
Prelude.v
RustStd.v
CommandIds.v
Error.v
Types.v
Frame.v
Slip.v
Command.v
CommandLayout.v
ResponseTypes.v
Response.v
ResponseFacts.v
Connection.v
ConnectionFacts.v
Client.v
Broadcast.v
Tls.v
Gate.v
VeluxNode.v
NodeFacts.v
RustText.v
Mqtt.v
MqttFacts.v
Broker.v
MqttQueue.v
HassDiscovery.v
HassFacts.v
Bridge.v
BridgeLogic.v
BridgeFacts.v
BridgeCommands.v
BridgeTiming.v
BridgeSnapshot.v
BridgeMirror.v
BridgeQueue.v
BridgeRun.v
BridgeEvents.v
Setup.v
SetupFacts.v
Link.v
Wire.v
EndToEnd.v
Redaction.v
Testing.v
Fakes.v
BridgeTests.v
ContractTests.v
ActorTests.v
CommandTests.v
CodecTests.v
ResponseTests.v
Cli.v
Program.v
