(* ===== verification/Prelude.v ===== *)
(** * velux2mqtt: a verification development

    velux2mqtt connects a Velux KLF 200 gateway to an MQTT broker: it discovers the covers and
    groups of the gateway, publishes their state, obeys commands, and announces them to Home
    Assistant. This library models the program in Rocq, function by function, and proves what
    makes it correct. This file is its root: the documentation, and the prelude the other files
    share.

    ** The parts and how they interact

    A byte stream from the gateway is cut into frames by the SLIP decoder ([Slip]), parsed by the
    frame codec ([Frame]) and decoded into responses ([Response]); requests ([Command]) go the
    other way. The connection actor ([Connection]) owns that stream, sends one request at a time
    and correlates confirmations with requests; clients ([Client]) talk to it through a channel
    and to its notifications through a broadcast. A set-up task ([Setup]) connects ([Tls]), logs
    in and discovers, and hands a prepared gateway to the bridge. The bridge ([Bridge]) is a loop
    over the events of the broker, of the gateway and of its timers: it keeps the node cache
    ([VeluxNode]), publishes through the topic layout ([Mqtt]) and the discovery
    ([HassDiscovery]), and turns commands into requests. The command line ([Cli]) builds its
    configuration.

    ** Files and the sources they model (paths under src/src/)

    - [Prelude], [RustStd], [RustText]: outcomes, machine integers, byte lists; the functions of
      the standard library on strings the program uses.
    - [CommandIds] (klf200/command_id.rs), [Error] (klf200/error.rs), [Types] (klf200/types.rs):
      command identifiers, errors, protocol values and the session-identifier allocator.
    - [Frame] (klf200/frame.rs), [Slip] (klf200/slip.rs): the codecs, with their theorems.
    - [Command] (klf200/command.rs): requests and encoders; [CommandLayout]: the layout
      specification the encoders refine.
    - [ResponseTypes], [Response] (klf200/response.rs): responses and decoders;
      [ResponseFacts]: their type invariant, safety and error behaviour.
    - [Connection] (klf200/connection.rs, [run_actor] and the reader): the actor as a function of
      its turns; [ConnectionFacts]: its invariants.
    - [Client] (klf200/connection.rs, impl Klf200Client): operations over the actor, with their
      theorem. [Gate]: the same operations as programs that stop at each await, called by
      several tasks that share the request gate. [Broadcast]: the channel of the events as an
      interface, and how much the actor broadcasts.
    - [Tls] (klf200/connection.rs, [connect], [build_tls_config] and the verifiers): connecting,
      and which certificate is accepted.
    - [VeluxNode] (veluxnode.rs): nodes and the cache; [NodeFacts]: their invariant and the
      specifications of the operations.
    - [Mqtt] (mqtt.rs), [MqttFacts]: configuration, topics, command parser, publications,
      connection. [Broker]: the retained messages of a broker, an abstract specification.
      [MqttQueue] (mqtt.rs, [publish] and [publish_all]): publishing through the bounded channel
      of the client of the event loop, an interface with an instance.
    - [HassDiscovery] (hassdiscovery.rs), [HassFacts]: the discovery of Home Assistant.
    - [Bridge] (bridge.rs, VeluxMqttBridge and its loop): state, handlers, [step], [run_until].
      [BridgeLogic]: the rules for handlers. [BridgeFacts]: invariant, progress, availability,
      failures and delays. [BridgeCommands]: commands. [BridgeTiming]: the loop with the deadline
      of its reconnect timer. [BridgeSnapshot] and [BridgeMirror]: the specification towards
      subscribers, and the bridge's refinement of it. [BridgeQueue]: how much a handler publishes,
      and the handlers on the bounded channel. [BridgeRun]: a whole run, which returns or waits in
      a call, and the shutdown. [BridgeEvents]: a refresh against the event buffer of the
      connection.
    - [Setup] (bridge.rs, [prepare_gateway] to [query_initial_status], GatewaySetup, and the
      implementation of Gateway for the client); [SetupFacts]: its theorems.
    - [Link] (klf200/connection.rs, [from_stream] and [send_unlocked]): reader, actor and client
      composed, and what that composition promises the set-up and the bridge. [Wire]: what the
      peer of the stream reads of the requests. [EndToEnd]: a notification from the bytes of the
      stream to the messages of the broker.
    - [Redaction] ([fmt::Debug] in klf200/frame.rs, klf200/command.rs, klf200/response.rs and
      mqtt.rs): what is shown of a value that may hold a secret.
    - [Cli] (bin/velux2mqtt.rs): the command line, its validation, and [main]. [Program]: a run
      of the program from its command line to its exit.
    - [Testing], [CodecTests], [CommandTests], [ResponseTests], [Fakes], [BridgeTests] (the
      [mod tests] of klf200/command_id.rs, types.rs, frame.rs, slip.rs, command.rs, response.rs,
      mqtt.rs and bridge.rs): the source's unit tests, run on the model. [Fakes] is the fake
      gateway and broker of the tests of the bridge, as instances of the interfaces.
      [ContractTests], [ActorTests] (the files of tests/ but hardware_klf.rs, and the TLS test
      of klf200/connection.rs): the integration tests; [ActorTests.Rig] is the duplex stream,
      the paused clock and the tasks of the tests of the actor.

    ** How the program is represented

    A call that can fail or panic is an [outcome]: [Ok], [Err] or [Panic]. Every slice access,
    and every addition to an [Instant], that the code checks at run time can be [Panic] in the
    model, so the absence of panics is proved. Integers are [Z] with their ranges as predicates
    ([is_u8], [is_u16], ...), strings are lists of bytes with UTF-8 validity as a predicate, maps
    are [gmap] with iteration in ascending key order where the code iterates over a BTreeMap.
    Delays of the bridge are nanoseconds, saturating as [Duration]s do; those of the connection
    are milliseconds. The last instant is [Connection.INSTANT_MAX] for the actor and a parameter
    of the bridge's environment; statements without panics assume that the deadlines fit
    ([ConnectionFacts.turn_fits], [Link.schedule_fits], [BridgeFacts.clock_fits]).

    Asynchronous code is a function of what the scheduler, the network, the clock and the other
    tasks deliver, which are inputs: the turns of the actor, the items of a broadcast receiver
    up to the timeout, the events of the bridge. The bridge and the set-up task act on an
    environment, a class ([Bridge.Environment], [Setup.Gateway], [Tls.Network]) whose answers
    are arbitrary functions of the history of the actions before; the history is part of the
    result of a handler, so the order of publications and requests is part of every statement.
    Time may pass while the loop waits ([Action.Wait] in the history). Handlers are written as if
    every call returned; the loop that runs them ([Bridge.serve]) stops in the first call that the
    environment says never does ([call_returns]), and [Bridge.Ended] tells the two ends apart.
    What is assumed of such an environment is a class of laws ([BridgeLogic.Lawful],
    [SetupFacts.LawfulGateway], [Tls.VerifyingLibrary], [BridgeSnapshot.Serializing],
    [BridgeTiming.MonotoneClock], [MqttQueue.BoundedChannel], [BridgeQueue.Accepting],
    [Broadcast.BroadcastChannel]): no call panics, a random number is within its limits,
    responses are decoded responses, the TLS library obeys the verifier and its cryptography
    checks signatures, JSON serialization succeeds, the clock does not run backwards, a channel
    is bounded, closed or not, and first-in first-out, publications are accepted, a broadcast
    receiver yields what is buffered for it and reports how much it missed. Each has an instance
    that the witnesses use; [SetupFacts.client_implements_gateway] shows that the client
    satisfies the laws of the gateway, and [Link.stream_serves_bridge] that it does over the
    actor, whatever bytes arrive.

    ** What the theorems show

    - Wire format: frames round-trip, and SLIP segments are reported independently of each other
      and of how reads cut the stream; the decoder resynchronises; encoders write exactly the
      layout of their request; decoders never panic and produce well-formed responses.
    - Actor: every request is answered exactly once, one is in flight at a time, and only the
      confirmation of the same command and session answers it; sessions are tracked only when
      accepted; no run panics.
    - Client: discovery collects exactly the notified items; operations do not panic; calls of
      several tasks are serialized, wherever they are interleaved or dropped.
    - The stream: what the peer reads are the frames of requests in the order they were taken.
    - Secrets: values that differ in secrets alone are shown alike.
    - Connecting: a pinned certificate is compared byte for byte, and the peer proved that it
      holds its key.
    - Set-up: the order of what a completed set-up did, and the session of each query; a connected gateway is handed over or
      closed, wherever the task is cancelled or fails; what is handed over satisfies the
      invariant of the loop, which takes it over.
    - Nodes: the cache's operations keep its invariant and do exactly what they report; an action
      becomes a request exactly when it resolves.
    - MQTT and Home Assistant: topics never collide; the parser accepts exactly the commands;
      what is advertised is understood; a publication leaves the current discovery retained.
    - Bridge: an invariant of the loop; a run ends only by its signal, in order, or waits for ever
      in a call that never returns; each handler's effect on every branch; reconnect delays within bounds, and set-ups
      spaced by them; how many publications each handler makes, that none waits while the channel
      has room for them, and that a snapshot that does not fit stops the bridge; and the
      refinement of the abstract specification: the broker retains, at every moment, on every
      live topic what the mirror of the bridge's state says.
    - Refresh and event buffer: a refresh of few enough covers keeps every notification the
      bridge waits for; one of too many overruns the buffer and costs the connection.
    - End to end: notifications cut into any pieces are read, broadcast, handled in order, and
      the broker retains the states they lead to.
    - Command line: its parser and validation agree with the bridge's validation, and when the
      program starts; a run of the program does not panic, and ends in order when it ends with
      success.
    - Tests: every unit and integration test modelled passes by computation; the properties
      slip.rs samples hold of every frame of the sampled lengths.

    ** Fuel and bounds

    The trimming loops of [RustStd] have the length of the string as fuel; each round removes a
    byte, and [trim_matches_trimmed] shows that nothing is left to trim. The allocation of a
    session identifier runs the at most 65535 rounds of the source. All other recursion is
    structural: over the payload, the chunk read, the turns, the items received, the events. The
    fakes of the tests read JSON with the length of the text as fuel, and deliver at most as many
    notifications at once as their broadcast channel holds, 64.

    ** Not modelled, and why

    - The runtime (tokio), the clock, sockets, rustls, rumqttc, serde_json, clap, fastrand and
      the file system: inputs and classes, as described above. JSON values are modelled up to
      what the serializers are handed; their text is a parameter.
    - The bounds of the channels between actor and clients: sending on a full channel waits in
      the code, and the model has the order of what arrives. A broadcast receiver that lags is an
      item of its stream; when it does is the subject of [Broadcast] and [BridgeEvents]. The bound
      of the channel to the broker is modelled ([MqttQueue]).
    - The contexts anyhow adds to errors and log messages; derived [Debug] representations;
      the timestamps and build metadata the package provides. [Percentage::percent] is a
      rational, not a float.
    - What a failed write wrote: it records no bytes, though a part of the frame, which the peer
      cannot complete to a frame, may have left.
    - A write that stalls: a turn of the actor has the result of its write, so a peer that stops
      reading, for which the actor waits without serving its timeouts, is a turn that never
      comes.
    - The verification of a signature itself, which the verifiers delegate to the library.
    - The closing of a gateway by a cancelled set-up that never returns: the set-up is taken to end.
    - Finding the options in the arguments and the environment; of the parser's checks, the
      conflict between the two TLS options is modelled.
    - The tests of the option parser, which test clap, and those of tests/hardware_klf.rs, which
      need a gateway; the declarations in lib.rs and klf200/mod.rs.

    ** Further work

    The actor's command channel as a bounded queue, and its capacity as the number of callers
    that can be waiting; fairness of the request gate, whose mutex serves callers in order. *)

From stdpp Require Export base list strings pretty numbers gmap.
From Stdlib Require Export ZArith Lia.

Open Scope Z_scope.

(** ** Outcomes: a Rust call returns [Ok], returns [Err], or panics

    A slice index or range out of bounds panics, so every access of the model
    that Rust checks at run time is partial here, and "does not panic" is a
    theorem about the caller. *)
Inductive outcome (E A : Type) : Type :=
| Ok (a : A)
| Err (e : E)
| Panic.

Arguments Ok {E A} a.
Arguments Err {E A} e.
Arguments Panic {E A}.

Global Instance outcome_ret {E} : MRet (outcome E) := λ A a, Ok a.
Global Instance outcome_bind {E} : MBind (outcome E) := λ A B f m,
  match m with Ok a => f a | Err e => Err e | Panic => Panic end.
Global Instance outcome_fmap {E} : FMap (outcome E) := λ A B f m,
  match m with Ok a => Ok (f a) | Err e => Err e | Panic => Panic end.

Declare Scope outcome_scope.
Delimit Scope outcome_scope with outcome.

(** [l[i]], [&l[a..b]], [l[i] = x] and [l[a..b].copy_from_slice(src)]; a range
    is written [a ..< b] because Rocq's grammar reserves the two dots. *)
Definition index {E} (l : list Z) (i : nat) : outcome E Z :=
  match l !! i with Some x => Ok x | None => Panic end.

Definition slice {E} (l : list Z) (a b : nat) : outcome E (list Z) :=
  if decide (a ≤ b ≤ length l)%nat then Ok (take (b - a) (drop a l)) else Panic.

Definition store {E} (l : list Z) (i : nat) (x : Z) : outcome E (list Z) :=
  if decide (i < length l)%nat then Ok (<[i := x]> l) else Panic.

Definition copy_from_slice {E} (l : list Z) (a b : nat) (src : list Z) : outcome E (list Z) :=
  if decide (a ≤ b ≤ length l ∧ length src = b - a)%nat
  then Ok (take a l ++ src ++ drop b l)
  else Panic.

Notation "l .[ i ]" := (index l i%nat) (at level 1, left associativity, format "l .[ i ]") : outcome_scope.
Notation "l .[ a '..<' b ]" := (slice l a%nat b%nat)
  (at level 1, left associativity, format "l .[ a  '..<'  b ]") : outcome_scope.
Notation "l .[ i <- x ]" := (store l i%nat x)
  (at level 1, left associativity, format "l .[ i  <-  x ]") : outcome_scope.
Notation "l .[ a '..<' b <- src ]" := (copy_from_slice l a%nat b%nat src)
  (at level 1, left associativity, format "l .[ a  '..<'  b  <-  src ]") : outcome_scope.
Open Scope outcome_scope.

(** [map_err], [ok_or] and [Option::then_some] *)
Definition ok_or {E A} (o : option A) (e : E) : outcome E A :=
  match o with Some a => Ok a | None => Err e end.

Definition then_some {A} (b : bool) (a : A) : option A := if b then Some a else None.

Lemma outcome_bind_Ok {E A B} (m : outcome E A) (f : A → outcome E B) b :
  m ≫= f = Ok b ↔ ∃ a, m = Ok a ∧ f a = Ok b.
Proof. destruct m; cbn; naive_solver. Qed.

(** [collect::<Result<Vec<_>, _>>()] succeeds when every item is [Ok]. *)
Lemma mapM_id_Ok {E A} (l : list (outcome E A)) k : mapM id l = Ok k ↔ l = Ok <$> k.
Proof.
  revert k. induction l as [|r l IH]; intros k.
  { split; [by intros [= <-]|]. by destruct k. }
  destruct k as [|a k]; cbn; rewrite outcome_bind_Ok; setoid_rewrite outcome_bind_Ok.
  - split; [by intros (? & _ & ? & _ & [=])|done].
  - split.
    + intros (b & -> & k' & Hk%IH & [= <- <-]). by rewrite Hk.
    + intros [= -> Hl]. exists a. split; [done|]. exists k. by rewrite IH.
Qed.

(** ** Partial correctness with absence of panics

    [returns m Q]: [m] does not panic, and its value satisfies [Q] when it is
    [Ok]. The single rule for bind makes both follow the code's structure. *)
Definition returns {E A} (m : outcome E A) (Q : A → Prop) : Prop :=
  match m with Ok a => Q a | Err _ => True | Panic => False end.

Section returns.
Context {E : Type}.

Lemma returns_ok {A} (Q : A → Prop) (a : A) : Q a → returns (E := E) (Ok a) Q.
Proof. done. Qed.

Lemma returns_err {A} (Q : A → Prop) (e : E) : returns (Err e) Q.
Proof. done. Qed.

Lemma returns_ret {A} (Q : A → Prop) (a : A) : Q a → returns (E := E) (mret a) Q.
Proof. done. Qed.

Lemma returns_bind {A B} (m : outcome E A) (f : A → outcome E B) R Q :
  returns m R → (∀ a, R a → returns (f a) Q) → returns (m ≫= f) Q.
Proof. destruct m; simpl; auto. Qed.

Lemma returns_fmap {A B} (m : outcome E A) (f : A → B) R Q :
  returns m R → (∀ a, R a → Q (f a)) → returns (f <$> m) Q.
Proof. destruct m; simpl; auto. Qed.

Lemma returns_mono {A} (m : outcome E A) (Q R : A → Prop) :
  returns m Q → (∀ a, Q a → R a) → returns m R.
Proof. destruct m; simpl; auto. Qed.

Lemma returns_no_panic {A} (m : outcome E A) Q : returns m Q → m ≠ Panic.
Proof. by destruct m. Qed.

Lemma returns_ok_inv {A} (m : outcome E A) Q a : returns m Q → m = Ok a → Q a.
Proof. by intros ? ->. Qed.

Lemma returns_ok_or {A} (o : option A) (e : E) (Q : A → Prop) :
  (∀ a, o = Some a → Q a) → returns (ok_or o e) Q.
Proof. destruct o; simpl; auto. Qed.

Lemma returns_mapM {A B} (f : A → outcome E B) (l : list A) (Q : B → Prop) :
  (∀ a, a ∈ l → returns (f a) Q) → returns (mapM f l) (λ k, Forall Q k ∧ length k = length l).
Proof.
  induction l as [|x l IH]; intros H; simpl; [split; [constructor|done]|].
  apply returns_bind with (R := Q); [apply H; left|]. intros b Hb.
  eapply returns_bind; [apply IH; intros; apply H; by right|].
  intros k [? Hk]. simpl. split; [by constructor|simpl; lia].
Qed.
End returns.

(** ** Machine integers

    A [w]-bit integer is a [Z] in range; each predicate is decidable. *)
Definition is_u8 (x : Z) : Prop := 0 ≤ x < 256.
Definition is_u16 (x : Z) : Prop := 0 ≤ x < 65536.
Definition is_u32 (x : Z) : Prop := 0 ≤ x < 4294967296.
Definition is_i8 (x : Z) : Prop := -128 ≤ x < 128.
Definition is_i16 (x : Z) : Prop := -32768 ≤ x < 32768.

Global Instance is_u8_dec x : Decision (is_u8 x) := ltac:(unfold is_u8; apply _).
Global Instance is_u16_dec x : Decision (is_u16 x) := ltac:(unfold is_u16; apply _).
Global Instance is_u32_dec x : Decision (is_u32 x) := ltac:(unfold is_u32; apply _).
Global Instance is_i8_dec x : Decision (is_i8 x) := ltac:(unfold is_i8; apply _).
Global Instance is_i16_dec x : Decision (is_i16 x) := ltac:(unfold is_i16; apply _).

(** [lia] with the width predicates unfolded and division by constants. *)
Ltac width_lia :=
  unfold is_u8, is_u16, is_u32, is_i8, is_i16 in *;
  Z.div_mod_to_equations; lia.

(** [to_be_bytes] and [from_be_bytes] *)
Definition u16_to_be_bytes (x : Z) : list Z := [x / 256; x mod 256].
Definition u32_to_be_bytes (x : Z) : list Z :=
  [x / 16777216; (x / 65536) mod 256; (x / 256) mod 256; x mod 256].
Definition u16_from_be_bytes (a b : Z) : Z := a * 256 + b.
Definition u32_from_be_bytes (a b c d : Z) : Z := ((a * 256 + b) * 256 + c) * 256 + d.
Definition i8_from_be_bytes (a : Z) : Z := if a <? 128 then a else a - 256.
Definition i16_from_be_bytes (a b : Z) : Z :=
  let x := u16_from_be_bytes a b in if x <? 32768 then x else x - 65536.

(** A fixed array [[u8; n]] *)
Definition byte_array (n : nat) (l : list Z) : Prop := length l = n ∧ Forall is_u8 l.
Global Instance byte_array_dec n l : Decision (byte_array n l) := ltac:(unfold byte_array; apply _).

(** [u8::from(bool)] and [u8::try_from(usize)] *)
Definition u8_from_bool (b : bool) : Z := if b then 1 else 0.
Definition u8_try_from (n : nat) : option Z :=
  if decide (n < 256)%nat then Some (Z.of_nat n) else None.

Lemma u16_to_be_bytes_u8 x : is_u16 x → Forall is_u8 (u16_to_be_bytes x).
Proof. intros; repeat constructor; width_lia. Qed.

Lemma u32_to_be_bytes_u8 x : is_u32 x → Forall is_u8 (u32_to_be_bytes x).
Proof. intros; repeat constructor; width_lia. Qed.

Lemma u16_from_be_bytes_u16 a b : is_u8 a → is_u8 b → is_u16 (u16_from_be_bytes a b).
Proof. unfold u16_from_be_bytes; width_lia. Qed.

Lemma u32_from_be_bytes_u32 a b c d :
  is_u8 a → is_u8 b → is_u8 c → is_u8 d → is_u32 (u32_from_be_bytes a b c d).
Proof. unfold u32_from_be_bytes; width_lia. Qed.

Lemma i8_from_be_bytes_i8 a : is_u8 a → is_i8 (i8_from_be_bytes a).
Proof. unfold i8_from_be_bytes; case_match; width_lia. Qed.

Lemma i16_from_be_bytes_i16 a b : is_u8 a → is_u8 b → is_i16 (i16_from_be_bytes a b).
Proof. unfold i16_from_be_bytes, u16_from_be_bytes; case_match; width_lia. Qed.

Lemma u16_from_to_be_bytes x : u16_from_be_bytes (x / 256) (x mod 256) = x.
Proof. unfold u16_from_be_bytes; width_lia. Qed.

Lemma u16_to_from_be_bytes a b :
  is_u8 b → u16_to_be_bytes (u16_from_be_bytes a b) = [a; b].
Proof. intros; unfold u16_to_be_bytes, u16_from_be_bytes; repeat f_equal; width_lia. Qed.

Lemma u32_from_to_be_bytes x :
  u32_from_be_bytes (x / 16777216) ((x / 65536) mod 256) ((x / 256) mod 256) (x mod 256) = x.
Proof. unfold u32_from_be_bytes; width_lia. Qed.

Lemma u8_from_bool_u8 b : is_u8 (u8_from_bool b).
Proof. destruct b; unfold is_u8; simpl; lia. Qed.

Lemma u8_try_from_small n : (n < 256)%nat → u8_try_from n = Some (Z.of_nat n).
Proof. intros; unfold u8_try_from; by rewrite decide_True. Qed.

Lemma lxor_u8 a b : is_u8 a → is_u8 b → is_u8 (Z.lxor a b).
Proof.
  unfold is_u8; intros Ha Hb.
  assert (0 ≤ Z.lxor a b) by (apply Z.lxor_nonneg; lia).
  split; [done|]. change 256 with (2 ^ 8) in *.
  destruct (decide (Z.lxor a b = 0)) as [->|]; [lia|].
  apply Z.log2_lt_pow2; [lia|].
  pose proof (Z.log2_lxor a b ltac:(lia) ltac:(lia)).
  assert (∀ x, 0 ≤ x < 2 ^ 8 → Z.log2 x < 8).
  { intros x Hx. destruct (decide (x = 0)) as [->|]; [done|]. apply Z.log2_lt_pow2; lia. }
  pose proof (H1 a Ha). pose proof (H1 b Hb). lia.
Qed.

(** ** Ranges: what an in-bounds access returns *)
Section ranges.
Context {E : Type}.
Implicit Types (l src : list Z) (i a b : nat).

Lemma index_lookup l i x : l !! i = Some x → index (E := E) l i = Ok x.
Proof. unfold index. by intros ->. Qed.

Lemma index_ok_inv l i x : index (E := E) l i = Ok x → l !! i = Some x.
Proof. unfold index. case_match; naive_solver. Qed.

Lemma returns_index (P : Z → Prop) l i :
  (i < length l)%nat → Forall P l → returns (index (E := E) l i) P.
Proof.
  intros Hi HP. destruct (lookup_lt_is_Some_2 l i Hi) as [x Hx].
  rewrite (index_lookup _ _ _ Hx). simpl. by eapply Forall_lookup_1.
Qed.

Lemma returns_slice (P : Z → Prop) l a b :
  (a ≤ b ≤ length l)%nat → Forall P l →
  returns (slice (E := E) l a b) (λ s, Forall P s ∧ length s = (b - a)%nat).
Proof.
  intros Hab HP. unfold slice. rewrite decide_True by done. simpl. split.
  - by apply Forall_take, Forall_drop.
  - rewrite length_take, length_drop. lia.
Qed.

Lemma returns_store (P : Z → Prop) l i x :
  (i < length l)%nat → Forall P l → P x →
  returns (store (E := E) l i x) (λ s, Forall P s ∧ length s = length l).
Proof.
  intros Hi HP Hx. unfold store. rewrite decide_True by done. simpl. split.
  - by apply Forall_insert.
  - by rewrite length_insert.
Qed.

Lemma returns_copy (P : Z → Prop) l a b src :
  (a ≤ b ≤ length l)%nat → length src = (b - a)%nat → Forall P l → Forall P src →
  returns (copy_from_slice (E := E) l a b src) (λ s, Forall P s ∧ length s = length l).
Proof.
  intros Hab Hs HP HPs. unfold copy_from_slice. rewrite decide_True by done. simpl. split.
  - apply Forall_app; split; [by apply Forall_take|].
    apply Forall_app; split; [done|by apply Forall_drop].
  - rewrite !length_app, length_take, length_drop. lia.
Qed.

(** Writing the next field of a buffer whose written prefix is [done]. *)
Lemma store_next pre x y rest i :
  length pre = i → store (E := E) (pre ++ y :: rest) i x = Ok (pre ++ x :: rest).
Proof.
  intros <-. unfold store. rewrite decide_True.
  - f_equal. rewrite <- (Nat.add_0_r (length pre)) at 1. by rewrite insert_app_r.
  - rewrite length_app; simpl; lia.
Qed.

Lemma copy_next pre src old rest a b :
  length pre = a → length src = (b - a)%nat → length old = (b - a)%nat → (a ≤ b)%nat →
  copy_from_slice (E := E) (pre ++ old ++ rest) a b src = Ok (pre ++ src ++ rest).
Proof.
  intros <- Hs Ho Hab. unfold copy_from_slice. rewrite decide_True.
  - f_equal. rewrite take_app_length. f_equal. f_equal.
    rewrite app_assoc, drop_app_length'; [done|]. rewrite length_app. lia.
  - rewrite !length_app. lia.
Qed.

(** Reading a field out of a buffer at the end of a known prefix. *)
Lemma index_app pre x rest i :
  length pre = i → index (E := E) (pre ++ x :: rest) i = Ok x.
Proof.
  intros <-. apply index_lookup. by rewrite list_lookup_middle.
Qed.

Lemma slice_app pre mid rest a b :
  length pre = a → b = (a + length mid)%nat →
  slice (E := E) (pre ++ mid ++ rest) a b = Ok mid.
Proof.
  intros <- ->. unfold slice. rewrite decide_True by (rewrite !length_app; lia).
  f_equal. rewrite drop_app_length.
  replace (length pre + length mid - length pre)%nat with (length mid) by lia.
  by rewrite take_app_length.
Qed.

(** Reading past a segment of known length, and reading the segment itself. *)
Lemma index_skip seg l n i :
  length seg = n → (n ≤ i)%nat → index (E := E) (seg ++ l) i = index l (i - n).
Proof. intros <- Hi. unfold index. by rewrite lookup_app_r. Qed.

Lemma slice_skip seg l n a b :
  length seg = n → (n ≤ a ≤ b)%nat → slice (E := E) (seg ++ l) a b = slice l (a - n) (b - n).
Proof.
  intros <- Ha. unfold slice. rewrite length_app, drop_app_ge by lia.
  replace (b - length seg - (a - length seg))%nat with (b - a)%nat by lia.
  repeat case_decide; done || lia.
Qed.

Lemma slice_cons x l a b : slice (E := E) (x :: l) (S a) (S b) = slice l a b.
Proof. unfold slice. simpl. repeat case_decide; done || lia. Qed.

Lemma slice_segment seg l n : length seg = n → slice (E := E) (seg ++ l) 0 n = Ok seg.
Proof.
  intros <-. unfold slice. rewrite decide_True by (rewrite length_app; lia).
  by rewrite Nat.sub_0_r, drop_0, take_app_length.
Qed.

Lemma slice_whole seg n : length seg = n → slice (E := E) seg 0 n = Ok seg.
Proof. intros. rewrite <- (app_nil_r seg) at 1. by apply slice_segment. Qed.
End ranges.

Lemma Forall_u8_zero n : Forall is_u8 (replicate n 0).
Proof. apply Forall_replicate. unfold is_u8; lia. Qed.

(** ** Strings as bytes

    A Rust [String] is its UTF-8 bytes; the model's [string] is a byte
    sequence, and UTF-8 validity is a separate predicate. *)
Definition bytes_of (s : string) : list Z :=
  (λ c, Z.of_N (Ascii.N_of_ascii c)) <$> String.list_ascii_of_string s.
Definition string_of (bs : list Z) : string :=
  String.string_of_list_ascii ((λ b, Ascii.ascii_of_N (Z.to_N b)) <$> bs).

Lemma string_of_bytes_of s : string_of (bytes_of s) = s.
Proof.
  unfold string_of, bytes_of. rewrite <- list_fmap_compose.
  rewrite <- (String.string_of_list_ascii_of_string s) at 2. f_equal.
  rewrite <- (list_fmap_id (String.list_ascii_of_string s)) at 2.
  apply list_fmap_ext. intros i c _. simpl.
  by rewrite N2Z.id, Ascii.ascii_N_embedding.
Qed.

Lemma bytes_of_string_of bs : Forall is_u8 bs → bytes_of (string_of bs) = bs.
Proof.
  intros H. unfold string_of, bytes_of.
  rewrite String.list_ascii_of_string_of_list_ascii, <- list_fmap_compose.
  rewrite <- (list_fmap_id bs) at 2. apply list_fmap_ext. intros i b Hb. simpl.
  pose proof (Forall_lookup_1 _ _ _ _ H Hb) as Hu. unfold is_u8 in Hu.
  rewrite Ascii.N_ascii_embedding by lia. lia.
Qed.

Lemma bytes_of_u8 s : Forall is_u8 (bytes_of s).
Proof.
  unfold bytes_of. apply Forall_fmap, Forall_true. intros c. simpl.
  pose proof (Ascii.N_ascii_bounded c). unfold is_u8. lia.
Qed.

Lemma bytes_of_inj s t : bytes_of s = bytes_of t → s = t.
Proof. intros H. by rewrite <- (string_of_bytes_of s), H, string_of_bytes_of. Qed.

Lemma length_bytes_of s : length (bytes_of s) = String.length s.
Proof.
  unfold bytes_of. rewrite length_fmap. induction s as [|c s IH]; simpl; congruence.
Qed.

(** ** Automation shared by the components

    [klf] holds the facts that discharge the side conditions of the
    [returns_*] rules: byte ranges, lengths and widths. *)
Create HintDb klf.

#[export] Hint Resolve returns_ok returns_err returns_ret : klf.
#[export] Hint Resolve u16_to_be_bytes_u8 u32_to_be_bytes_u8 u16_from_be_bytes_u16
  u32_from_be_bytes_u32 i8_from_be_bytes_i8 i16_from_be_bytes_i16 u8_from_bool_u8
  bytes_of_u8 Forall_u8_zero : klf.
#[export] Hint Extern 2 (is_u8 _) => unfold is_u8 in *; lia : klf.
#[export] Hint Extern 2 (is_u16 _) => unfold is_u16, is_u8 in *; lia : klf.
#[export] Hint Extern 2 (@eq nat _ _) => lia : klf.
#[export] Hint Extern 2 (_ < _)%nat => lia : klf.
#[export] Hint Extern 2 (_ ≤ _ ≤ _)%nat => lia : klf.

(** One step through a monadic body: bind, then the rule of the access. *)
Ltac returns_access :=
  match goal with
  | |- returns (index _ _) _ => apply returns_index
  | |- returns (slice _ _ _) _ => apply returns_slice
  | |- returns (store _ _ _) _ => apply returns_store
  | |- returns (copy_from_slice _ _ _ _) _ => apply returns_copy
  end.

(** ** Histories: a list that grew by elements with [P] *)
Definition extends {A} (P : A → Prop) (h h' : list A) : Prop := ∃ t, h' = h ++ t ∧ Forall P t.

Global Instance extends_preorder {A} (P : A → Prop) : PreOrder (extends P).
Proof.
  split.
  - intros h. exists []. by rewrite app_nil_r.
  - intros h ? ? (t & -> & Ht) (t' & -> & Ht'). exists (t ++ t').
    rewrite app_assoc, Forall_app. done.
Qed.

Lemma extends_snoc {A} (P : A → Prop) h a : P a → extends P h (h ++ [a]).
Proof. intros. exists [a]. by rewrite Forall_singleton. Qed.

Lemma extends_weaken {A} (P Q : A → Prop) h h' : (∀ a, P a → Q a) → extends P h h' → extends Q h h'.
Proof. intros HPQ (t & -> & Ht). exists t. split; [done|]. by eapply Forall_impl. Qed.
