(* ===== verification/RustStd.v ===== *)
(** * The Rust standard library functions on strings the program uses

    [str::strip_prefix], [str::strip_suffix], [str::ends_with] and [str::trim_matches], with
    their specifications as equations on concatenation, and the validity of UTF-8. *)

From S2P Require Import Prelude.

Local Open Scope string_scope.

Fixpoint strip_prefix (p s : string) : option string :=
  match p, s with
  | EmptyString, _ => Some s
  | String a p', String b s' => if Ascii.eqb a b then strip_prefix p' s' else None
  | String _ _, EmptyString => None
  end.

Fixpoint strip_suffix (suf s : string) : option string :=
  if String.eqb s suf then Some ""
  else match s with
       | EmptyString => None
       | String c s' => String c <$> strip_suffix suf s'
       end.

Definition ends_with (suf s : string) : bool :=
  if strip_suffix suf s is Some _ then true else false.

Lemma string_app_nil_l s : "" +:+ s = s.
Proof. reflexivity. Qed.

Lemma string_app_cons c s t : String c s +:+ t = String c (s +:+ t).
Proof. reflexivity. Qed.

Lemma string_app_nil_r s : s +:+ "" = s.
Proof. induction s as [|c s IH]; [done|]. by rewrite string_app_cons, IH. Qed.

Lemma string_app_assoc s t u : s +:+ (t +:+ u) = (s +:+ t) +:+ u.
Proof. induction s as [|c s IH]; [done|]. by rewrite !string_app_cons, IH. Qed.

Lemma strip_prefix_Some p s r : strip_prefix p s = Some r ↔ s = p +:+ r.
Proof.
  revert s. induction p as [|a p IH]; intros s; cbn [strip_prefix].
  - rewrite string_app_nil_l. naive_solver.
  - rewrite string_app_cons. destruct s as [|b s]; [done|].
    destruct (Ascii.eqb_spec a b) as [->|Hne]; [|clear IH; naive_solver].
    rewrite IH. split; [by intros ->|intros [= H]; exact H].
Qed.

Lemma strip_suffix_self suf : strip_suffix suf suf = Some "".
Proof. by destruct suf; cbn [strip_suffix]; rewrite String.eqb_refl. Qed.

Lemma strip_suffix_unfold suf s :
  strip_suffix suf s =
    if String.eqb s suf then Some ""
    else match s with "" => None | String c s' => String c <$> strip_suffix suf s' end.
Proof. by destruct s. Qed.

Lemma strip_suffix_sound suf s r : strip_suffix suf s = Some r → s = r +:+ suf.
Proof.
  revert r. induction s as [|c s IH]; intros r; rewrite strip_suffix_unfold;
    case_match eqn:Heq; [apply String.eqb_eq in Heq as <-; by intros [= <-]|done|
                         apply String.eqb_eq in Heq as <-; by intros [= <-]|].
  destruct (strip_suffix suf s) as [r'|] eqn:Hs; [|done]. cbn.
  intros [= <-]. by rewrite string_app_cons, <- (IH r' eq_refl).
Qed.

Lemma string_length_app s t : String.length (s +:+ t) = (String.length s + String.length t)%nat.
Proof. induction s as [|c s IH]; [done|]. rewrite string_app_cons. simpl. congruence. Qed.

Lemma strip_suffix_app suf r : strip_suffix suf (r +:+ suf) = Some r.
Proof.
  induction r as [|c r IH]; [apply strip_suffix_self|].
  rewrite string_app_cons. cbn [strip_suffix].
  destruct (String.eqb_spec (String c (r +:+ suf)) suf) as [Heq|_]; [|by rewrite IH].
  apply (f_equal String.length) in Heq. simpl in Heq. rewrite string_length_app in Heq. lia.
Qed.

Lemma strip_suffix_Some suf s r : strip_suffix suf s = Some r ↔ s = r +:+ suf.
Proof. split; [apply strip_suffix_sound|intros ->; apply strip_suffix_app]. Qed.

Lemma ends_with_iff suf s : ends_with suf s = true ↔ ∃ r, s = r +:+ suf.
Proof.
  unfold ends_with. destruct (strip_suffix suf s) as [r|] eqn:Hs.
  - apply strip_suffix_Some in Hs. naive_solver.
  - split; [done|]. intros [r Hr]. apply strip_suffix_Some in Hr. congruence.
Qed.

(** ** Trimming ([str::trim], [str::trim_matches])

    A character is the string of its UTF-8 bytes, and a set of characters a list of them.
    Each round of the loops removes at least one byte, so the length is enough fuel. *)
Fixpoint first_some {A B} (f : A → option B) (l : list A) : option B :=
  match l with
  | [] => None
  | a :: l => match f a with Some b => Some b | None => first_some f l end
  end.

Fixpoint trim_start_loop (fuel : nat) (chars : list string) (s : string) : string :=
  match fuel with
  | O => s
  | S fuel =>
      match first_some (λ c, strip_prefix c s) chars with
      | Some s => trim_start_loop fuel chars s
      | None => s
      end
  end.

Fixpoint trim_end_loop (fuel : nat) (chars : list string) (s : string) : string :=
  match fuel with
  | O => s
  | S fuel =>
      match first_some (λ c, strip_suffix c s) chars with
      | Some s => trim_end_loop fuel chars s
      | None => s
      end
  end.

Definition trim_start_matches (chars : list string) (s : string) : string :=
  trim_start_loop (String.length s) chars s.
Definition trim_end_matches (chars : list string) (s : string) : string :=
  trim_end_loop (String.length s) chars s.
Definition trim_matches (chars : list string) (s : string) : string :=
  trim_end_matches chars (trim_start_matches chars s).

(** The characters with the Unicode property [White_Space] *)
Definition whitespace : list string :=
  string_of <$>
    [[9]; [10]; [11]; [12]; [13]; [32]; [194; 133]; [194; 160]; [225; 154; 128];
     [226; 128; 128]; [226; 128; 129]; [226; 128; 130]; [226; 128; 131]; [226; 128; 132];
     [226; 128; 133]; [226; 128; 134]; [226; 128; 135]; [226; 128; 136]; [226; 128; 137];
     [226; 128; 138]; [226; 128; 168]; [226; 128; 169]; [226; 128; 175]; [226; 129; 159];
     [227; 128; 128]]%Z.

Definition trim (s : string) : string := trim_matches whitespace s.

(** No character of the set begins or ends the string. *)
Definition trimmed (chars : list string) (s : string) : Prop :=
  ∀ c, c ∈ chars → strip_prefix c s = None ∧ strip_suffix c s = None.

Lemma first_some_None {A B} (f : A → option B) l :
  first_some f l = None ↔ ∀ a, a ∈ l → f a = None.
Proof.
  induction l as [|x l IH]; cbn [first_some].
  - split; [by intros _ a ?%elem_of_nil|done].
  - destruct (f x) eqn:Hx.
    + split; [done|]. intros H. rewrite (H x) in Hx by left. done.
    + rewrite IH. split; [intros H a [->|?]%elem_of_cons; auto|]. intros H a ?. apply H. by right.
Qed.

Lemma first_some_Some {A B} (f : A → option B) l b :
  first_some f l = Some b → ∃ a, a ∈ l ∧ f a = Some b.
Proof.
  induction l as [|x l IH]; cbn [first_some]; [done|]. destruct (f x) eqn:Hx.
  - intros [= ->]. exists x. split; [left|done].
  - intros (a & ? & ?)%IH. exists a. split; [by right|done].
Qed.

Section trimming.
Context (chars : list string) (Hne : "" ∉ chars).

Lemma strip_prefix_shorter c s r :
  c ∈ chars → strip_prefix c s = Some r → (String.length r < String.length s)%nat.
Proof.
  intros Hc ->%strip_prefix_Some. rewrite string_length_app. destruct c; [done|]. simpl. lia.
Qed.

Lemma strip_suffix_shorter c s r :
  c ∈ chars → strip_suffix c s = Some r → (String.length r < String.length s)%nat.
Proof.
  intros Hc ->%strip_suffix_Some. rewrite string_length_app. destruct c; [done|]. simpl. lia.
Qed.

Lemma trim_start_loop_spec fuel s :
  (String.length s ≤ fuel)%nat →
  (∀ c, c ∈ chars → strip_prefix c (trim_start_loop fuel chars s) = None)
  ∧ ∃ p, s = p +:+ trim_start_loop fuel chars s.
Proof.
  revert s. induction fuel as [|fuel IH]; intros s Hf; cbn [trim_start_loop].
  - destruct s; [|simpl in Hf; lia]. split; [|by exists ""]. intros c Hc. by destruct c.
  - destruct (first_some _ chars) as [r|] eqn:Hr.
    + apply first_some_Some in Hr as (c & Hc & Hs). pose proof (strip_prefix_shorter _ _ _ Hc Hs).
      destruct (IH r ltac:(lia)) as [Hno [p Hp]]. split; [done|].
      apply strip_prefix_Some in Hs. exists (c +:+ p). by rewrite Hs, <- string_app_assoc, <- Hp.
    + split; [by apply first_some_None|]. by exists "".
Qed.

Lemma trim_end_loop_spec fuel s :
  (String.length s ≤ fuel)%nat →
  (∀ c, c ∈ chars → strip_suffix c (trim_end_loop fuel chars s) = None)
  ∧ ∃ q, s = trim_end_loop fuel chars s +:+ q.
Proof.
  revert s. induction fuel as [|fuel IH]; intros s Hf; cbn [trim_end_loop].
  - destruct s; [|simpl in Hf; lia]. split; [|by exists ""]. intros c Hc. by destruct c.
  - destruct (first_some _ chars) as [r|] eqn:Hr.
    + apply first_some_Some in Hr as (c & Hc & Hs). pose proof (strip_suffix_shorter _ _ _ Hc Hs).
      destruct (IH r ltac:(lia)) as [Hno [q Hq]]. split; [done|].
      apply strip_suffix_Some in Hs. exists (q +:+ c). by rewrite Hs, string_app_assoc, <- Hq.
    + split; [by apply first_some_None|]. exists "". by rewrite string_app_nil_r.
Qed.

(** Trimming gives a trimmed string, and leaves a trimmed one alone. *)
Lemma trim_matches_trimmed s : trimmed chars (trim_matches chars s).
Proof.
  unfold trim_matches, trim_end_matches, trim_start_matches.
  destruct (trim_start_loop_spec (String.length s) s (le_n _)) as [Hs _].
  set (t := trim_start_loop _ _ s) in *. clearbody t.
  destruct (trim_end_loop_spec (String.length t) t (le_n _)) as [He [q Hq]].
  intros c Hc. split; [|auto]. destruct (strip_prefix c _) as [r|] eqn:Hr; [|done].
  apply strip_prefix_Some in Hr. specialize (Hs c Hc). rewrite Hq, Hr, <- string_app_assoc in Hs.
  rewrite (proj2 (strip_prefix_Some c _ _) eq_refl) in Hs. done.
Qed.

Lemma trim_matches_id s : trimmed chars s → trim_matches chars s = s.
Proof.
  intros Hs. unfold trim_matches, trim_start_matches, trim_end_matches.
  assert (first_some (λ c, strip_prefix c s) chars = None) as H1
    by (apply first_some_None; intros; by apply Hs).
  assert (first_some (λ c, strip_suffix c s) chars = None) as H2
    by (apply first_some_None; intros; by apply Hs).
  assert (∀ n, trim_start_loop n chars s = s) as -> by (intros []; cbn; by rewrite ?H1).
  by destruct (String.length s); cbn; rewrite ?H2.
Qed.
End trimming.

Lemma whitespace_nonempty : "" ∉ whitespace.
Proof. apply (bool_decide_unpack _). vm_compute. exact I. Qed.

(** ** UTF-8 ([str::from_utf8])

    The well-formed byte sequences of Unicode Table 3-7: no overlong forms, no
    surrogates, nothing above U+10FFFF. *)
Definition between (lo hi b : Z) : bool := (lo <=? b)%Z && (b <=? hi)%Z.
Definition continuation (b : Z) : bool := between 128 191 b.

Fixpoint utf8_valid (bs : list Z) : bool :=
  match bs with
  | [] => true
  | b0 :: r0 =>
      if between 0 127 b0 then utf8_valid r0
      else match r0 with
      | [] => false
      | b1 :: r1 =>
          if between 194 223 b0 then continuation b1 && utf8_valid r1
          else match r1 with
          | [] => false
          | b2 :: r2 =>
              if between 224 239 b0 then
                between (if (b0 =? 224)%Z then 160 else 128) (if (b0 =? 237)%Z then 159 else 191) b1
                && continuation b2 && utf8_valid r2
              else match r2 with
              | [] => false
              | b3 :: r3 =>
                  between 240 244 b0
                  && between (if (b0 =? 240)%Z then 144 else 128)
                       (if (b0 =? 244)%Z then 143 else 191) b1
                  && continuation b2 && continuation b3 && utf8_valid r3
              end
          end
      end
  end.

Definition from_utf8 (bs : list Z) : option string :=
  if utf8_valid bs then Some (string_of bs) else None.

(** The invariant of Rust's [str]: the bytes are UTF-8. *)
Definition is_str (s : string) : Prop := utf8_valid (bytes_of s) = true.

Global Instance is_str_dec s : Decision (is_str s).
Proof. unfold is_str. apply _. Defined.

Lemma from_utf8_bytes_of s : is_str s → from_utf8 (bytes_of s) = Some s.
Proof. unfold is_str, from_utf8. intros ->. by rewrite string_of_bytes_of. Qed.

Lemma from_utf8_is_str bs s : Forall is_u8 bs → from_utf8 bs = Some s → is_str s ∧ bytes_of s = bs.
Proof.
  unfold from_utf8, is_str. intros Hu. destruct (utf8_valid bs) eqn:Hv; [|done].
  intros [= <-]. by rewrite bytes_of_string_of.
Qed.
