(* ===== verification/CommandIds.v ===== *)
(** * Command identifiers (klf200/command_id.rs)

    The 16-bit command identifiers of the KLF 200 API, the registry of the 150
    known ones with their names, and the name-based classification the
    connection actor relies on: the kind of a command and the confirmation a
    request expects. *)

From S2P Require Import Prelude RustStd.

Record CommandId := CommandId_new { raw : Z }.

Global Instance CommandId_eq_dec : EqDecision CommandId.
Proof. solve_decision. Defined.

Module CommandKind.
Inductive t := Request | Confirmation | Notification | Unknown.

Global Instance eq_dec : EqDecision t.
Proof. solve_decision. Defined.
End CommandKind.

Module KnownCommand.
Record t := new { id : CommandId; name : string }.

Global Instance eq_dec : EqDecision t.
Proof. solve_decision. Defined.

Definition kind (k : t) : CommandKind.t :=
  if ends_with "_REQ" (name k) then CommandKind.Request
  else if ends_with "_CFM" (name k) then CommandKind.Confirmation
  else if ends_with "_NTF" (name k) then CommandKind.Notification
  else CommandKind.Unknown.
End KnownCommand.

(** ** The registry: [known_commands!] *)

Definition GW_ERROR_NTF : CommandId := CommandId_new 0x0000.
Definition GW_REBOOT_REQ : CommandId := CommandId_new 0x0001.
Definition GW_REBOOT_CFM : CommandId := CommandId_new 0x0002.
Definition GW_SET_FACTORY_DEFAULT_REQ : CommandId := CommandId_new 0x0003.
Definition GW_SET_FACTORY_DEFAULT_CFM : CommandId := CommandId_new 0x0004.
Definition GW_GET_VERSION_REQ : CommandId := CommandId_new 0x0008.
Definition GW_GET_VERSION_CFM : CommandId := CommandId_new 0x0009.
Definition GW_GET_PROTOCOL_VERSION_REQ : CommandId := CommandId_new 0x000A.
Definition GW_GET_PROTOCOL_VERSION_CFM : CommandId := CommandId_new 0x000B.
Definition GW_GET_STATE_REQ : CommandId := CommandId_new 0x000C.
Definition GW_GET_STATE_CFM : CommandId := CommandId_new 0x000D.
Definition GW_LEAVE_LEARN_STATE_REQ : CommandId := CommandId_new 0x000E.
Definition GW_LEAVE_LEARN_STATE_CFM : CommandId := CommandId_new 0x000F.
Definition GW_GET_NETWORK_SETUP_REQ : CommandId := CommandId_new 0x00E0.
Definition GW_GET_NETWORK_SETUP_CFM : CommandId := CommandId_new 0x00E1.
Definition GW_SET_NETWORK_SETUP_REQ : CommandId := CommandId_new 0x00E2.
Definition GW_SET_NETWORK_SETUP_CFM : CommandId := CommandId_new 0x00E3.
Definition GW_CS_GET_SYSTEMTABLE_DATA_REQ : CommandId := CommandId_new 0x0100.
Definition GW_CS_GET_SYSTEMTABLE_DATA_CFM : CommandId := CommandId_new 0x0101.
Definition GW_CS_GET_SYSTEMTABLE_DATA_NTF : CommandId := CommandId_new 0x0102.
Definition GW_CS_DISCOVER_NODES_REQ : CommandId := CommandId_new 0x0103.
Definition GW_CS_DISCOVER_NODES_CFM : CommandId := CommandId_new 0x0104.
Definition GW_CS_DISCOVER_NODES_NTF : CommandId := CommandId_new 0x0105.
Definition GW_CS_REMOVE_NODES_REQ : CommandId := CommandId_new 0x0106.
Definition GW_CS_REMOVE_NODES_CFM : CommandId := CommandId_new 0x0107.
Definition GW_CS_VIRGIN_STATE_REQ : CommandId := CommandId_new 0x0108.
Definition GW_CS_VIRGIN_STATE_CFM : CommandId := CommandId_new 0x0109.
Definition GW_CS_CONTROLLER_COPY_REQ : CommandId := CommandId_new 0x010A.
Definition GW_CS_CONTROLLER_COPY_CFM : CommandId := CommandId_new 0x010B.
Definition GW_CS_CONTROLLER_COPY_NTF : CommandId := CommandId_new 0x010C.
Definition GW_CS_CONTROLLER_COPY_CANCEL_NTF : CommandId := CommandId_new 0x010D.
Definition GW_CS_RECEIVE_KEY_REQ : CommandId := CommandId_new 0x010E.
Definition GW_CS_RECEIVE_KEY_CFM : CommandId := CommandId_new 0x010F.
Definition GW_CS_RECEIVE_KEY_NTF : CommandId := CommandId_new 0x0110.
Definition GW_CS_PGC_JOB_NTF : CommandId := CommandId_new 0x0111.
Definition GW_CS_SYSTEM_TABLE_UPDATE_NTF : CommandId := CommandId_new 0x0112.
Definition GW_CS_GENERATE_NEW_KEY_REQ : CommandId := CommandId_new 0x0113.
Definition GW_CS_GENERATE_NEW_KEY_CFM : CommandId := CommandId_new 0x0114.
Definition GW_CS_GENERATE_NEW_KEY_NTF : CommandId := CommandId_new 0x0115.
Definition GW_CS_REPAIR_KEY_REQ : CommandId := CommandId_new 0x0116.
Definition GW_CS_REPAIR_KEY_CFM : CommandId := CommandId_new 0x0117.
Definition GW_CS_REPAIR_KEY_NTF : CommandId := CommandId_new 0x0118.
Definition GW_CS_ACTIVATE_CONFIGURATION_MODE_REQ : CommandId := CommandId_new 0x0119.
Definition GW_CS_ACTIVATE_CONFIGURATION_MODE_CFM : CommandId := CommandId_new 0x011A.
Definition GW_GET_NODE_INFORMATION_REQ : CommandId := CommandId_new 0x0200.
Definition GW_GET_NODE_INFORMATION_CFM : CommandId := CommandId_new 0x0201.
Definition GW_GET_ALL_NODES_INFORMATION_REQ : CommandId := CommandId_new 0x0202.
Definition GW_GET_ALL_NODES_INFORMATION_CFM : CommandId := CommandId_new 0x0203.
Definition GW_GET_ALL_NODES_INFORMATION_NTF : CommandId := CommandId_new 0x0204.
Definition GW_GET_ALL_NODES_INFORMATION_FINISHED_NTF : CommandId := CommandId_new 0x0205.
Definition GW_SET_NODE_VARIATION_REQ : CommandId := CommandId_new 0x0206.
Definition GW_SET_NODE_VARIATION_CFM : CommandId := CommandId_new 0x0207.
Definition GW_SET_NODE_NAME_REQ : CommandId := CommandId_new 0x0208.
Definition GW_SET_NODE_NAME_CFM : CommandId := CommandId_new 0x0209.
Definition GW_NODE_INFORMATION_CHANGED_NTF : CommandId := CommandId_new 0x020C.
Definition GW_SET_NODE_ORDER_AND_PLACEMENT_REQ : CommandId := CommandId_new 0x020D.
Definition GW_SET_NODE_ORDER_AND_PLACEMENT_CFM : CommandId := CommandId_new 0x020E.
Definition GW_GET_NODE_INFORMATION_NTF : CommandId := CommandId_new 0x0210.
Definition GW_NODE_STATE_POSITION_CHANGED_NTF : CommandId := CommandId_new 0x0211.
Definition GW_GET_GROUP_INFORMATION_REQ : CommandId := CommandId_new 0x0220.
Definition GW_GET_GROUP_INFORMATION_CFM : CommandId := CommandId_new 0x0221.
Definition GW_SET_GROUP_INFORMATION_REQ : CommandId := CommandId_new 0x0222.
Definition GW_SET_GROUP_INFORMATION_CFM : CommandId := CommandId_new 0x0223.
Definition GW_GROUP_INFORMATION_CHANGED_NTF : CommandId := CommandId_new 0x0224.
Definition GW_DELETE_GROUP_REQ : CommandId := CommandId_new 0x0225.
Definition GW_DELETE_GROUP_CFM : CommandId := CommandId_new 0x0226.
Definition GW_NEW_GROUP_REQ : CommandId := CommandId_new 0x0227.
Definition GW_NEW_GROUP_CFM : CommandId := CommandId_new 0x0228.
Definition GW_GET_ALL_GROUPS_INFORMATION_REQ : CommandId := CommandId_new 0x0229.
Definition GW_GET_ALL_GROUPS_INFORMATION_CFM : CommandId := CommandId_new 0x022A.
Definition GW_GET_ALL_GROUPS_INFORMATION_NTF : CommandId := CommandId_new 0x022B.
Definition GW_GET_ALL_GROUPS_INFORMATION_FINISHED_NTF : CommandId := CommandId_new 0x022C.
Definition GW_GROUP_DELETED_NTF : CommandId := CommandId_new 0x022D.
Definition GW_GET_GROUP_INFORMATION_NTF : CommandId := CommandId_new 0x0230.
Definition GW_HOUSE_STATUS_MONITOR_ENABLE_REQ : CommandId := CommandId_new 0x0240.
Definition GW_HOUSE_STATUS_MONITOR_ENABLE_CFM : CommandId := CommandId_new 0x0241.
Definition GW_HOUSE_STATUS_MONITOR_DISABLE_REQ : CommandId := CommandId_new 0x0242.
Definition GW_HOUSE_STATUS_MONITOR_DISABLE_CFM : CommandId := CommandId_new 0x0243.
Definition GW_COMMAND_SEND_REQ : CommandId := CommandId_new 0x0300.
Definition GW_COMMAND_SEND_CFM : CommandId := CommandId_new 0x0301.
Definition GW_COMMAND_RUN_STATUS_NTF : CommandId := CommandId_new 0x0302.
Definition GW_COMMAND_REMAINING_TIME_NTF : CommandId := CommandId_new 0x0303.
Definition GW_SESSION_FINISHED_NTF : CommandId := CommandId_new 0x0304.
Definition GW_STATUS_REQUEST_REQ : CommandId := CommandId_new 0x0305.
Definition GW_STATUS_REQUEST_CFM : CommandId := CommandId_new 0x0306.
Definition GW_STATUS_REQUEST_NTF : CommandId := CommandId_new 0x0307.
Definition GW_WINK_SEND_REQ : CommandId := CommandId_new 0x0308.
Definition GW_WINK_SEND_CFM : CommandId := CommandId_new 0x0309.
Definition GW_WINK_SEND_NTF : CommandId := CommandId_new 0x030A.
Definition GW_SET_LIMITATION_REQ : CommandId := CommandId_new 0x0310.
Definition GW_SET_LIMITATION_CFM : CommandId := CommandId_new 0x0311.
Definition GW_GET_LIMITATION_STATUS_REQ : CommandId := CommandId_new 0x0312.
Definition GW_GET_LIMITATION_STATUS_CFM : CommandId := CommandId_new 0x0313.
Definition GW_LIMITATION_STATUS_NTF : CommandId := CommandId_new 0x0314.
Definition GW_MODE_SEND_REQ : CommandId := CommandId_new 0x0320.
Definition GW_MODE_SEND_CFM : CommandId := CommandId_new 0x0321.
Definition GW_MODE_SEND_NTF : CommandId := CommandId_new 0x0322.
Definition GW_INITIALIZE_SCENE_REQ : CommandId := CommandId_new 0x0400.
Definition GW_INITIALIZE_SCENE_CFM : CommandId := CommandId_new 0x0401.
Definition GW_INITIALIZE_SCENE_NTF : CommandId := CommandId_new 0x0402.
Definition GW_INITIALIZE_SCENE_CANCEL_REQ : CommandId := CommandId_new 0x0403.
Definition GW_INITIALIZE_SCENE_CANCEL_CFM : CommandId := CommandId_new 0x0404.
Definition GW_RECORD_SCENE_REQ : CommandId := CommandId_new 0x0405.
Definition GW_RECORD_SCENE_CFM : CommandId := CommandId_new 0x0406.
Definition GW_RECORD_SCENE_NTF : CommandId := CommandId_new 0x0407.
Definition GW_DELETE_SCENE_REQ : CommandId := CommandId_new 0x0408.
Definition GW_DELETE_SCENE_CFM : CommandId := CommandId_new 0x0409.
Definition GW_RENAME_SCENE_REQ : CommandId := CommandId_new 0x040A.
Definition GW_RENAME_SCENE_CFM : CommandId := CommandId_new 0x040B.
Definition GW_GET_SCENE_LIST_REQ : CommandId := CommandId_new 0x040C.
Definition GW_GET_SCENE_LIST_CFM : CommandId := CommandId_new 0x040D.
Definition GW_GET_SCENE_LIST_NTF : CommandId := CommandId_new 0x040E.
Definition GW_GET_SCENE_INFOAMATION_REQ : CommandId := CommandId_new 0x040F.
Definition GW_GET_SCENE_INFOAMATION_CFM : CommandId := CommandId_new 0x0410.
Definition GW_GET_SCENE_INFOAMATION_NTF : CommandId := CommandId_new 0x0411.
Definition GW_ACTIVATE_SCENE_REQ : CommandId := CommandId_new 0x0412.
Definition GW_ACTIVATE_SCENE_CFM : CommandId := CommandId_new 0x0413.
Definition GW_STOP_SCENE_REQ : CommandId := CommandId_new 0x0415.
Definition GW_STOP_SCENE_CFM : CommandId := CommandId_new 0x0416.
Definition GW_SCENE_INFORMATION_CHANGED_NTF : CommandId := CommandId_new 0x0419.
Definition GW_ACTIVATE_PRODUCTGROUP_REQ : CommandId := CommandId_new 0x0447.
Definition GW_ACTIVATE_PRODUCTGROUP_CFM : CommandId := CommandId_new 0x0448.
Definition GW_ACTIVATE_PRODUCTGROUP_NTF : CommandId := CommandId_new 0x0449.
Definition GW_GET_CONTACT_INPUT_LINK_LIST_REQ : CommandId := CommandId_new 0x0460.
Definition GW_GET_CONTACT_INPUT_LINK_LIST_CFM : CommandId := CommandId_new 0x0461.
Definition GW_SET_CONTACT_INPUT_LINK_REQ : CommandId := CommandId_new 0x0462.
Definition GW_SET_CONTACT_INPUT_LINK_CFM : CommandId := CommandId_new 0x0463.
Definition GW_REMOVE_CONTACT_INPUT_LINK_REQ : CommandId := CommandId_new 0x0464.
Definition GW_REMOVE_CONTACT_INPUT_LINK_CFM : CommandId := CommandId_new 0x0465.
Definition GW_GET_ACTIVATION_LOG_HEADER_REQ : CommandId := CommandId_new 0x0500.
Definition GW_GET_ACTIVATION_LOG_HEADER_CFM : CommandId := CommandId_new 0x0501.
Definition GW_CLEAR_ACTIVATION_LOG_REQ : CommandId := CommandId_new 0x0502.
Definition GW_CLEAR_ACTIVATION_LOG_CFM : CommandId := CommandId_new 0x0503.
Definition GW_GET_ACTIVATION_LOG_LINE_REQ : CommandId := CommandId_new 0x0504.
Definition GW_GET_ACTIVATION_LOG_LINE_CFM : CommandId := CommandId_new 0x0505.
Definition GW_ACTIVATION_LOG_UPDATED_NTF : CommandId := CommandId_new 0x0506.
Definition GW_GET_MULTIPLE_ACTIVATION_LOG_LINES_REQ : CommandId := CommandId_new 0x0507.
Definition GW_GET_MULTIPLE_ACTIVATION_LOG_LINES_NTF : CommandId := CommandId_new 0x0508.
Definition GW_GET_MULTIPLE_ACTIVATION_LOG_LINES_CFM : CommandId := CommandId_new 0x0509.
Definition GW_SET_UTC_REQ : CommandId := CommandId_new 0x2000.
Definition GW_SET_UTC_CFM : CommandId := CommandId_new 0x2001.
Definition GW_RTC_SET_TIME_ZONE_REQ : CommandId := CommandId_new 0x2002.
Definition GW_RTC_SET_TIME_ZONE_CFM : CommandId := CommandId_new 0x2003.
Definition GW_GET_LOCAL_TIME_REQ : CommandId := CommandId_new 0x2004.
Definition GW_GET_LOCAL_TIME_CFM : CommandId := CommandId_new 0x2005.
Definition GW_PASSWORD_ENTER_REQ : CommandId := CommandId_new 0x3000.
Definition GW_PASSWORD_ENTER_CFM : CommandId := CommandId_new 0x3001.
Definition GW_PASSWORD_CHANGE_REQ : CommandId := CommandId_new 0x3002.
Definition GW_PASSWORD_CHANGE_CFM : CommandId := CommandId_new 0x3003.
Definition GW_PASSWORD_CHANGE_NTF : CommandId := CommandId_new 0x3004.

Definition ALL_KNOWN_COMMANDS : list KnownCommand.t :=
  [ KnownCommand.new GW_ERROR_NTF "GW_ERROR_NTF";
    KnownCommand.new GW_REBOOT_REQ "GW_REBOOT_REQ";
    KnownCommand.new GW_REBOOT_CFM "GW_REBOOT_CFM";
    KnownCommand.new GW_SET_FACTORY_DEFAULT_REQ "GW_SET_FACTORY_DEFAULT_REQ";
    KnownCommand.new GW_SET_FACTORY_DEFAULT_CFM "GW_SET_FACTORY_DEFAULT_CFM";
    KnownCommand.new GW_GET_VERSION_REQ "GW_GET_VERSION_REQ";
    KnownCommand.new GW_GET_VERSION_CFM "GW_GET_VERSION_CFM";
    KnownCommand.new GW_GET_PROTOCOL_VERSION_REQ "GW_GET_PROTOCOL_VERSION_REQ";
    KnownCommand.new GW_GET_PROTOCOL_VERSION_CFM "GW_GET_PROTOCOL_VERSION_CFM";
    KnownCommand.new GW_GET_STATE_REQ "GW_GET_STATE_REQ";
    KnownCommand.new GW_GET_STATE_CFM "GW_GET_STATE_CFM";
    KnownCommand.new GW_LEAVE_LEARN_STATE_REQ "GW_LEAVE_LEARN_STATE_REQ";
    KnownCommand.new GW_LEAVE_LEARN_STATE_CFM "GW_LEAVE_LEARN_STATE_CFM";
    KnownCommand.new GW_GET_NETWORK_SETUP_REQ "GW_GET_NETWORK_SETUP_REQ";
    KnownCommand.new GW_GET_NETWORK_SETUP_CFM "GW_GET_NETWORK_SETUP_CFM";
    KnownCommand.new GW_SET_NETWORK_SETUP_REQ "GW_SET_NETWORK_SETUP_REQ";
    KnownCommand.new GW_SET_NETWORK_SETUP_CFM "GW_SET_NETWORK_SETUP_CFM";
    KnownCommand.new GW_CS_GET_SYSTEMTABLE_DATA_REQ "GW_CS_GET_SYSTEMTABLE_DATA_REQ";
    KnownCommand.new GW_CS_GET_SYSTEMTABLE_DATA_CFM "GW_CS_GET_SYSTEMTABLE_DATA_CFM";
    KnownCommand.new GW_CS_GET_SYSTEMTABLE_DATA_NTF "GW_CS_GET_SYSTEMTABLE_DATA_NTF";
    KnownCommand.new GW_CS_DISCOVER_NODES_REQ "GW_CS_DISCOVER_NODES_REQ";
    KnownCommand.new GW_CS_DISCOVER_NODES_CFM "GW_CS_DISCOVER_NODES_CFM";
    KnownCommand.new GW_CS_DISCOVER_NODES_NTF "GW_CS_DISCOVER_NODES_NTF";
    KnownCommand.new GW_CS_REMOVE_NODES_REQ "GW_CS_REMOVE_NODES_REQ";
    KnownCommand.new GW_CS_REMOVE_NODES_CFM "GW_CS_REMOVE_NODES_CFM";
    KnownCommand.new GW_CS_VIRGIN_STATE_REQ "GW_CS_VIRGIN_STATE_REQ";
    KnownCommand.new GW_CS_VIRGIN_STATE_CFM "GW_CS_VIRGIN_STATE_CFM";
    KnownCommand.new GW_CS_CONTROLLER_COPY_REQ "GW_CS_CONTROLLER_COPY_REQ";
    KnownCommand.new GW_CS_CONTROLLER_COPY_CFM "GW_CS_CONTROLLER_COPY_CFM";
    KnownCommand.new GW_CS_CONTROLLER_COPY_NTF "GW_CS_CONTROLLER_COPY_NTF";
    KnownCommand.new GW_CS_CONTROLLER_COPY_CANCEL_NTF "GW_CS_CONTROLLER_COPY_CANCEL_NTF";
    KnownCommand.new GW_CS_RECEIVE_KEY_REQ "GW_CS_RECEIVE_KEY_REQ";
    KnownCommand.new GW_CS_RECEIVE_KEY_CFM "GW_CS_RECEIVE_KEY_CFM";
    KnownCommand.new GW_CS_RECEIVE_KEY_NTF "GW_CS_RECEIVE_KEY_NTF";
    KnownCommand.new GW_CS_PGC_JOB_NTF "GW_CS_PGC_JOB_NTF";
    KnownCommand.new GW_CS_SYSTEM_TABLE_UPDATE_NTF "GW_CS_SYSTEM_TABLE_UPDATE_NTF";
    KnownCommand.new GW_CS_GENERATE_NEW_KEY_REQ "GW_CS_GENERATE_NEW_KEY_REQ";
    KnownCommand.new GW_CS_GENERATE_NEW_KEY_CFM "GW_CS_GENERATE_NEW_KEY_CFM";
    KnownCommand.new GW_CS_GENERATE_NEW_KEY_NTF "GW_CS_GENERATE_NEW_KEY_NTF";
    KnownCommand.new GW_CS_REPAIR_KEY_REQ "GW_CS_REPAIR_KEY_REQ";
    KnownCommand.new GW_CS_REPAIR_KEY_CFM "GW_CS_REPAIR_KEY_CFM";
    KnownCommand.new GW_CS_REPAIR_KEY_NTF "GW_CS_REPAIR_KEY_NTF";
    KnownCommand.new GW_CS_ACTIVATE_CONFIGURATION_MODE_REQ "GW_CS_ACTIVATE_CONFIGURATION_MODE_REQ";
    KnownCommand.new GW_CS_ACTIVATE_CONFIGURATION_MODE_CFM "GW_CS_ACTIVATE_CONFIGURATION_MODE_CFM";
    KnownCommand.new GW_GET_NODE_INFORMATION_REQ "GW_GET_NODE_INFORMATION_REQ";
    KnownCommand.new GW_GET_NODE_INFORMATION_CFM "GW_GET_NODE_INFORMATION_CFM";
    KnownCommand.new GW_GET_ALL_NODES_INFORMATION_REQ "GW_GET_ALL_NODES_INFORMATION_REQ";
    KnownCommand.new GW_GET_ALL_NODES_INFORMATION_CFM "GW_GET_ALL_NODES_INFORMATION_CFM";
    KnownCommand.new GW_GET_ALL_NODES_INFORMATION_NTF "GW_GET_ALL_NODES_INFORMATION_NTF";
    KnownCommand.new GW_GET_ALL_NODES_INFORMATION_FINISHED_NTF "GW_GET_ALL_NODES_INFORMATION_FINISHED_NTF";
    KnownCommand.new GW_SET_NODE_VARIATION_REQ "GW_SET_NODE_VARIATION_REQ";
    KnownCommand.new GW_SET_NODE_VARIATION_CFM "GW_SET_NODE_VARIATION_CFM";
    KnownCommand.new GW_SET_NODE_NAME_REQ "GW_SET_NODE_NAME_REQ";
    KnownCommand.new GW_SET_NODE_NAME_CFM "GW_SET_NODE_NAME_CFM";
    KnownCommand.new GW_NODE_INFORMATION_CHANGED_NTF "GW_NODE_INFORMATION_CHANGED_NTF";
    KnownCommand.new GW_SET_NODE_ORDER_AND_PLACEMENT_REQ "GW_SET_NODE_ORDER_AND_PLACEMENT_REQ";
    KnownCommand.new GW_SET_NODE_ORDER_AND_PLACEMENT_CFM "GW_SET_NODE_ORDER_AND_PLACEMENT_CFM";
    KnownCommand.new GW_GET_NODE_INFORMATION_NTF "GW_GET_NODE_INFORMATION_NTF";
    KnownCommand.new GW_NODE_STATE_POSITION_CHANGED_NTF "GW_NODE_STATE_POSITION_CHANGED_NTF";
    KnownCommand.new GW_GET_GROUP_INFORMATION_REQ "GW_GET_GROUP_INFORMATION_REQ";
    KnownCommand.new GW_GET_GROUP_INFORMATION_CFM "GW_GET_GROUP_INFORMATION_CFM";
    KnownCommand.new GW_SET_GROUP_INFORMATION_REQ "GW_SET_GROUP_INFORMATION_REQ";
    KnownCommand.new GW_SET_GROUP_INFORMATION_CFM "GW_SET_GROUP_INFORMATION_CFM";
    KnownCommand.new GW_GROUP_INFORMATION_CHANGED_NTF "GW_GROUP_INFORMATION_CHANGED_NTF";
    KnownCommand.new GW_DELETE_GROUP_REQ "GW_DELETE_GROUP_REQ";
    KnownCommand.new GW_DELETE_GROUP_CFM "GW_DELETE_GROUP_CFM";
    KnownCommand.new GW_NEW_GROUP_REQ "GW_NEW_GROUP_REQ";
    KnownCommand.new GW_NEW_GROUP_CFM "GW_NEW_GROUP_CFM";
    KnownCommand.new GW_GET_ALL_GROUPS_INFORMATION_REQ "GW_GET_ALL_GROUPS_INFORMATION_REQ";
    KnownCommand.new GW_GET_ALL_GROUPS_INFORMATION_CFM "GW_GET_ALL_GROUPS_INFORMATION_CFM";
    KnownCommand.new GW_GET_ALL_GROUPS_INFORMATION_NTF "GW_GET_ALL_GROUPS_INFORMATION_NTF";
    KnownCommand.new GW_GET_ALL_GROUPS_INFORMATION_FINISHED_NTF "GW_GET_ALL_GROUPS_INFORMATION_FINISHED_NTF";
    KnownCommand.new GW_GROUP_DELETED_NTF "GW_GROUP_DELETED_NTF";
    KnownCommand.new GW_GET_GROUP_INFORMATION_NTF "GW_GET_GROUP_INFORMATION_NTF";
    KnownCommand.new GW_HOUSE_STATUS_MONITOR_ENABLE_REQ "GW_HOUSE_STATUS_MONITOR_ENABLE_REQ";
    KnownCommand.new GW_HOUSE_STATUS_MONITOR_ENABLE_CFM "GW_HOUSE_STATUS_MONITOR_ENABLE_CFM";
    KnownCommand.new GW_HOUSE_STATUS_MONITOR_DISABLE_REQ "GW_HOUSE_STATUS_MONITOR_DISABLE_REQ";
    KnownCommand.new GW_HOUSE_STATUS_MONITOR_DISABLE_CFM "GW_HOUSE_STATUS_MONITOR_DISABLE_CFM";
    KnownCommand.new GW_COMMAND_SEND_REQ "GW_COMMAND_SEND_REQ";
    KnownCommand.new GW_COMMAND_SEND_CFM "GW_COMMAND_SEND_CFM";
    KnownCommand.new GW_COMMAND_RUN_STATUS_NTF "GW_COMMAND_RUN_STATUS_NTF";
    KnownCommand.new GW_COMMAND_REMAINING_TIME_NTF "GW_COMMAND_REMAINING_TIME_NTF";
    KnownCommand.new GW_SESSION_FINISHED_NTF "GW_SESSION_FINISHED_NTF";
    KnownCommand.new GW_STATUS_REQUEST_REQ "GW_STATUS_REQUEST_REQ";
    KnownCommand.new GW_STATUS_REQUEST_CFM "GW_STATUS_REQUEST_CFM";
    KnownCommand.new GW_STATUS_REQUEST_NTF "GW_STATUS_REQUEST_NTF";
    KnownCommand.new GW_WINK_SEND_REQ "GW_WINK_SEND_REQ";
    KnownCommand.new GW_WINK_SEND_CFM "GW_WINK_SEND_CFM";
    KnownCommand.new GW_WINK_SEND_NTF "GW_WINK_SEND_NTF";
    KnownCommand.new GW_SET_LIMITATION_REQ "GW_SET_LIMITATION_REQ";
    KnownCommand.new GW_SET_LIMITATION_CFM "GW_SET_LIMITATION_CFM";
    KnownCommand.new GW_GET_LIMITATION_STATUS_REQ "GW_GET_LIMITATION_STATUS_REQ";
    KnownCommand.new GW_GET_LIMITATION_STATUS_CFM "GW_GET_LIMITATION_STATUS_CFM";
    KnownCommand.new GW_LIMITATION_STATUS_NTF "GW_LIMITATION_STATUS_NTF";
    KnownCommand.new GW_MODE_SEND_REQ "GW_MODE_SEND_REQ";
    KnownCommand.new GW_MODE_SEND_CFM "GW_MODE_SEND_CFM";
    KnownCommand.new GW_MODE_SEND_NTF "GW_MODE_SEND_NTF";
    KnownCommand.new GW_INITIALIZE_SCENE_REQ "GW_INITIALIZE_SCENE_REQ";
    KnownCommand.new GW_INITIALIZE_SCENE_CFM "GW_INITIALIZE_SCENE_CFM";
    KnownCommand.new GW_INITIALIZE_SCENE_NTF "GW_INITIALIZE_SCENE_NTF";
    KnownCommand.new GW_INITIALIZE_SCENE_CANCEL_REQ "GW_INITIALIZE_SCENE_CANCEL_REQ";
    KnownCommand.new GW_INITIALIZE_SCENE_CANCEL_CFM "GW_INITIALIZE_SCENE_CANCEL_CFM";
    KnownCommand.new GW_RECORD_SCENE_REQ "GW_RECORD_SCENE_REQ";
    KnownCommand.new GW_RECORD_SCENE_CFM "GW_RECORD_SCENE_CFM";
    KnownCommand.new GW_RECORD_SCENE_NTF "GW_RECORD_SCENE_NTF";
    KnownCommand.new GW_DELETE_SCENE_REQ "GW_DELETE_SCENE_REQ";
    KnownCommand.new GW_DELETE_SCENE_CFM "GW_DELETE_SCENE_CFM";
    KnownCommand.new GW_RENAME_SCENE_REQ "GW_RENAME_SCENE_REQ";
    KnownCommand.new GW_RENAME_SCENE_CFM "GW_RENAME_SCENE_CFM";
    KnownCommand.new GW_GET_SCENE_LIST_REQ "GW_GET_SCENE_LIST_REQ";
    KnownCommand.new GW_GET_SCENE_LIST_CFM "GW_GET_SCENE_LIST_CFM";
    KnownCommand.new GW_GET_SCENE_LIST_NTF "GW_GET_SCENE_LIST_NTF";
    KnownCommand.new GW_GET_SCENE_INFOAMATION_REQ "GW_GET_SCENE_INFOAMATION_REQ";
    KnownCommand.new GW_GET_SCENE_INFOAMATION_CFM "GW_GET_SCENE_INFOAMATION_CFM";
    KnownCommand.new GW_GET_SCENE_INFOAMATION_NTF "GW_GET_SCENE_INFOAMATION_NTF";
    KnownCommand.new GW_ACTIVATE_SCENE_REQ "GW_ACTIVATE_SCENE_REQ";
    KnownCommand.new GW_ACTIVATE_SCENE_CFM "GW_ACTIVATE_SCENE_CFM";
    KnownCommand.new GW_STOP_SCENE_REQ "GW_STOP_SCENE_REQ";
    KnownCommand.new GW_STOP_SCENE_CFM "GW_STOP_SCENE_CFM";
    KnownCommand.new GW_SCENE_INFORMATION_CHANGED_NTF "GW_SCENE_INFORMATION_CHANGED_NTF";
    KnownCommand.new GW_ACTIVATE_PRODUCTGROUP_REQ "GW_ACTIVATE_PRODUCTGROUP_REQ";
    KnownCommand.new GW_ACTIVATE_PRODUCTGROUP_CFM "GW_ACTIVATE_PRODUCTGROUP_CFM";
    KnownCommand.new GW_ACTIVATE_PRODUCTGROUP_NTF "GW_ACTIVATE_PRODUCTGROUP_NTF";
    KnownCommand.new GW_GET_CONTACT_INPUT_LINK_LIST_REQ "GW_GET_CONTACT_INPUT_LINK_LIST_REQ";
    KnownCommand.new GW_GET_CONTACT_INPUT_LINK_LIST_CFM "GW_GET_CONTACT_INPUT_LINK_LIST_CFM";
    KnownCommand.new GW_SET_CONTACT_INPUT_LINK_REQ "GW_SET_CONTACT_INPUT_LINK_REQ";
    KnownCommand.new GW_SET_CONTACT_INPUT_LINK_CFM "GW_SET_CONTACT_INPUT_LINK_CFM";
    KnownCommand.new GW_REMOVE_CONTACT_INPUT_LINK_REQ "GW_REMOVE_CONTACT_INPUT_LINK_REQ";
    KnownCommand.new GW_REMOVE_CONTACT_INPUT_LINK_CFM "GW_REMOVE_CONTACT_INPUT_LINK_CFM";
    KnownCommand.new GW_GET_ACTIVATION_LOG_HEADER_REQ "GW_GET_ACTIVATION_LOG_HEADER_REQ";
    KnownCommand.new GW_GET_ACTIVATION_LOG_HEADER_CFM "GW_GET_ACTIVATION_LOG_HEADER_CFM";
    KnownCommand.new GW_CLEAR_ACTIVATION_LOG_REQ "GW_CLEAR_ACTIVATION_LOG_REQ";
    KnownCommand.new GW_CLEAR_ACTIVATION_LOG_CFM "GW_CLEAR_ACTIVATION_LOG_CFM";
    KnownCommand.new GW_GET_ACTIVATION_LOG_LINE_REQ "GW_GET_ACTIVATION_LOG_LINE_REQ";
    KnownCommand.new GW_GET_ACTIVATION_LOG_LINE_CFM "GW_GET_ACTIVATION_LOG_LINE_CFM";
    KnownCommand.new GW_ACTIVATION_LOG_UPDATED_NTF "GW_ACTIVATION_LOG_UPDATED_NTF";
    KnownCommand.new GW_GET_MULTIPLE_ACTIVATION_LOG_LINES_REQ "GW_GET_MULTIPLE_ACTIVATION_LOG_LINES_REQ";
    KnownCommand.new GW_GET_MULTIPLE_ACTIVATION_LOG_LINES_NTF "GW_GET_MULTIPLE_ACTIVATION_LOG_LINES_NTF";
    KnownCommand.new GW_GET_MULTIPLE_ACTIVATION_LOG_LINES_CFM "GW_GET_MULTIPLE_ACTIVATION_LOG_LINES_CFM";
    KnownCommand.new GW_SET_UTC_REQ "GW_SET_UTC_REQ";
    KnownCommand.new GW_SET_UTC_CFM "GW_SET_UTC_CFM";
    KnownCommand.new GW_RTC_SET_TIME_ZONE_REQ "GW_RTC_SET_TIME_ZONE_REQ";
    KnownCommand.new GW_RTC_SET_TIME_ZONE_CFM "GW_RTC_SET_TIME_ZONE_CFM";
    KnownCommand.new GW_GET_LOCAL_TIME_REQ "GW_GET_LOCAL_TIME_REQ";
    KnownCommand.new GW_GET_LOCAL_TIME_CFM "GW_GET_LOCAL_TIME_CFM";
    KnownCommand.new GW_PASSWORD_ENTER_REQ "GW_PASSWORD_ENTER_REQ";
    KnownCommand.new GW_PASSWORD_ENTER_CFM "GW_PASSWORD_ENTER_CFM";
    KnownCommand.new GW_PASSWORD_CHANGE_REQ "GW_PASSWORD_CHANGE_REQ";
    KnownCommand.new GW_PASSWORD_CHANGE_CFM "GW_PASSWORD_CHANGE_CFM";
    KnownCommand.new GW_PASSWORD_CHANGE_NTF "GW_PASSWORD_CHANGE_NTF" ].

Global Arguments ALL_KNOWN_COMMANDS : simpl never.

(** ** [impl CommandId] *)
Module CommandId.
Definition known (c : CommandId) : option KnownCommand.t :=
  List.find (λ command, bool_decide (KnownCommand.id command = c)) ALL_KNOWN_COMMANDS.

Definition name (c : CommandId) : option string := KnownCommand.name <$> known c.

Definition kind (c : CommandId) : CommandKind.t :=
  match known c with None => CommandKind.Unknown | Some k => KnownCommand.kind k end.

Definition expected_confirmation (c : CommandId) : option CommandId :=
  nm ← name c;
  request_prefix ← strip_suffix "_REQ" nm;
  KnownCommand.id <$> List.find
    (λ candidate,
      bool_decide (strip_suffix "_CFM" (KnownCommand.name candidate) = Some request_prefix))
    ALL_KNOWN_COMMANDS.

(** [impl Display]: the name, or the raw value in four upper-case hex digits. *)
Definition hex_digit_upper (d : Z) : Ascii.ascii :=
  Ascii.ascii_of_N (Z.to_N (if d <? 10 then 48 + d else 55 + d)).

Definition display (c : CommandId) : string :=
  match name c with
  | Some n => n
  | None =>
      "UNKNOWN_COMMAND_0x" +:+
      String.string_of_list_ascii
        [ hex_digit_upper (raw c / 4096); hex_digit_upper ((raw c / 256) mod 16);
          hex_digit_upper ((raw c / 16) mod 16); hex_digit_upper (raw c mod 16) ]
  end.
End CommandId.

Definition command_eqb (c d : CommandId) : bool := (raw c =? raw d).

(** ** The registry as a finite table *)

Lemma registry_ids_nodup : NoDup (KnownCommand.id <$> ALL_KNOWN_COMMANDS).
Proof. apply (bool_decide_unpack _). vm_compute. exact I. Qed.

Lemma registry_names_nodup : NoDup (KnownCommand.name <$> ALL_KNOWN_COMMANDS).
Proof. apply (bool_decide_unpack _). vm_compute. exact I. Qed.

Lemma command_eqb_iff c d : command_eqb c d = true ↔ c = d.
Proof.
  destruct c as [x], d as [y]. unfold command_eqb. simpl. rewrite Z.eqb_eq. naive_solver.
Qed.

(** The first match of a predicate that at most one entry satisfies. *)
Lemma find_unique {A B} `{EqDecision B} (f : A → B) (l : list A) (x : A) :
  NoDup (f <$> l) → x ∈ l → List.find (λ y, bool_decide (f y = f x)) l = Some x.
Proof.
  intros Hnd Hin. induction l as [|y l IH]; [by apply not_elem_of_nil in Hin|].
  simpl in *. apply NoDup_cons in Hnd as [Hy Hnd]. case_bool_decide as Hf.
  - apply elem_of_cons in Hin as [->|Hin]; [done|].
    destruct Hy. rewrite Hf. by apply list_elem_of_fmap_2.
  - apply elem_of_cons in Hin as [->|Hin]; [done|]. by apply IH.
Qed.

Module CommandIdFacts.
Import CommandId.

Lemma known_registered k : k ∈ ALL_KNOWN_COMMANDS → known (KnownCommand.id k) = Some k.
Proof. apply find_unique, registry_ids_nodup. Qed.

Lemma known_sound c k : known c = Some k → k ∈ ALL_KNOWN_COMMANDS ∧ KnownCommand.id k = c.
Proof.
  intros [Hin Hc]%List.find_some. rewrite bool_decide_eq_true in Hc.
  by rewrite list_elem_of_In.
Qed.

Lemma known_iff c k : known c = Some k ↔ k ∈ ALL_KNOWN_COMMANDS ∧ KnownCommand.id k = c.
Proof.
  split; [apply known_sound|]. intros [Hin <-]. by apply known_registered.
Qed.

Lemma name_inj c d n : name c = Some n → name d = Some n → c = d.
Proof.
  intros (k & [Hk <-]%known_sound & ->)%fmap_Some (k' & [Hk' <-]%known_sound & Hn)%fmap_Some.
  pose proof (find_unique KnownCommand.name _ k registry_names_nodup Hk) as H1.
  pose proof (find_unique KnownCommand.name _ k' registry_names_nodup Hk') as H2.
  rewrite Hn in H1. rewrite H1 in H2. by simplify_eq.
Qed.

Lemma expected_confirmation_stem c d :
  expected_confirmation c = Some d ↔
  ∃ stem, name c = Some (stem +:+ "_REQ") ∧ name d = Some (stem +:+ "_CFM").
Proof.
  unfold expected_confirmation. rewrite bind_Some. split.
  - intros (nm & Hn & (stem & Hs & (k & [Hin Hk]%List.find_some & ->)%fmap_Some)%bind_Some).
    rewrite bool_decide_eq_true in Hk. apply strip_suffix_Some in Hs, Hk. exists stem.
    split; [congruence|]. unfold name.
    rewrite known_registered; [cbn; congruence|by apply list_elem_of_In].
  - intros (stem & Hc & Hd). eexists; split; [exact Hc|].
    rewrite strip_suffix_app. apply bind_Some. eexists; split; [done|].
    unfold name in Hd. apply fmap_Some in Hd as (k & [Hin <-]%known_sound & Hk).
    apply fmap_Some. exists k. split; [|done].
    destruct (List.find _ _) as [k'|] eqn:Hf.
    + apply List.find_some in Hf as [Hin' Hk']. rewrite bool_decide_eq_true in Hk'.
      apply strip_suffix_Some in Hk'. rewrite Hk in Hk'. f_equal.
      apply list_elem_of_In in Hin'.
      pose proof (find_unique KnownCommand.name _ k registry_names_nodup Hin) as H1.
      pose proof (find_unique KnownCommand.name _ k' registry_names_nodup Hin') as H2.
      rewrite Hk' in H2. congruence.
    + apply list_elem_of_In, (List.find_none _ _ Hf) in Hin.
      rewrite <- Hk, strip_suffix_app in Hin. by rewrite bool_decide_eq_false in Hin.
Qed.

(** A boolean check of every entry of the registry, by evaluation. *)
Lemma registry_forall (f : CommandId → bool) :
  forallb (λ k, f (KnownCommand.id k)) ALL_KNOWN_COMMANDS = true →
  ∀ c, is_Some (known c) → f c = true.
Proof.
  intros Hall c [k [Hin <-]%known_sound].
  rewrite List.forallb_forall in Hall. by apply list_elem_of_In, Hall in Hin.
Qed.

Lemma kind_known c : kind c ≠ CommandKind.Unknown → is_Some (known c).
Proof. unfold kind. destruct (known c); naive_solver. Qed.

Lemma request_confirmation c :
  kind c = CommandKind.Request →
  ∃ d, expected_confirmation c = Some d ∧ kind d = CommandKind.Confirmation.
Proof.
  intros Hk.
  set (f := λ c, match kind c, expected_confirmation c with
                 | CommandKind.Request, Some d => bool_decide (kind d = CommandKind.Confirmation)
                 | CommandKind.Request, None => false
                 | _, _ => true
                 end).
  assert (Hf : f c = true) by (apply registry_forall;
    [vm_compute; reflexivity|apply kind_known; by rewrite Hk]).
  unfold f in Hf. rewrite Hk in Hf. destruct (expected_confirmation c) as [d|]; [|done].
  rewrite bool_decide_eq_true in Hf. eauto.
Qed.

Lemma kind_suffix c :
  kind c = CommandKind.Request ↔ ∃ stem, name c = Some (stem +:+ "_REQ").
Proof.
  unfold kind, name. destruct (known c) as [k|]; cbn; [|split; [discriminate|intros [? [=]]]].
  unfold KnownCommand.kind. split.
  - destruct (ends_with "_REQ" _) eqn:He;
      [|destruct (ends_with "_CFM" _); [discriminate|]; destruct (ends_with "_NTF" _); discriminate].
    apply ends_with_iff in He as [r ->]. eauto.
  - intros [stem [= ->]].
    by rewrite (proj2 (ends_with_iff "_REQ" _) (ex_intro _ stem eq_refl)).
Qed.

Lemma confirmation_request d :
  kind d = CommandKind.Confirmation →
  ∃ c, kind c = CommandKind.Request ∧ expected_confirmation c = Some d.
Proof.
  intros Hk.
  set (f := λ d, match kind d, name d ≫= strip_suffix "_CFM" with
                 | CommandKind.Confirmation, Some stem =>
                     existsb (λ k, String.eqb (KnownCommand.name k) (stem +:+ "_REQ"))
                       ALL_KNOWN_COMMANDS
                 | CommandKind.Confirmation, None => false
                 | _, _ => true
                 end).
  assert (Hf : f d = true) by (apply registry_forall;
    [vm_compute; reflexivity|apply kind_known; by rewrite Hk]).
  unfold f in Hf. rewrite Hk in Hf.
  destruct (name d ≫= strip_suffix "_CFM") as [stem|] eqn:Hs; [|done].
  apply bind_Some in Hs as (nm & Hnm & ->%strip_suffix_Some).
  apply List.existsb_exists in Hf as (k & Hin%list_elem_of_In & Heq%String.eqb_eq).
  exists (KnownCommand.id k).
  assert (name (KnownCommand.id k) = Some (stem +:+ "_REQ")) as Hname.
  { unfold name. rewrite known_registered by done. cbn. by rewrite Heq. }
  split; [apply kind_suffix; eauto|]. apply expected_confirmation_stem; eauto.
Qed.

Lemma expected_confirmation_request c d :
  expected_confirmation c = Some d → kind c = CommandKind.Request.
Proof.
  intros (stem & Hc & _)%expected_confirmation_stem. apply kind_suffix; eauto.
Qed.

Lemma expected_confirmation_inj c1 c2 d :
  expected_confirmation c1 = Some d → expected_confirmation c2 = Some d → c1 = c2.
Proof.
  intros (s1 & H1 & Hd1)%expected_confirmation_stem (s2 & H2 & Hd2)%expected_confirmation_stem.
  rewrite Hd1 in Hd2. injection Hd2 as Hd2.
  assert (Some s1 = Some s2) as [= ->].
  { rewrite <- !(strip_suffix_app "_CFM"). by rewrite Hd2. }
  by eapply name_inj.
Qed.
End CommandIdFacts.

(** * Properties *)

(** The registry is a faithful table: looking a command up returns exactly its entry, no
    two entries share an identifier or a name, and every entry is a request, a confirmation
    or a notification. *)
Theorem command_registry_faithful :
  (∀ c k, CommandId.known c = Some k ↔ k ∈ ALL_KNOWN_COMMANDS ∧ KnownCommand.id k = c)
  ∧ NoDup (KnownCommand.id <$> ALL_KNOWN_COMMANDS)
  ∧ NoDup (KnownCommand.name <$> ALL_KNOWN_COMMANDS)
  ∧ (∀ c, is_Some (CommandId.known c) → CommandId.kind c ≠ CommandKind.Unknown).
Proof.
  split_and!; [apply CommandIdFacts.known_iff|apply registry_ids_nodup
              |apply registry_names_nodup|].
  intros c Hc Hk.
  set (f := λ c, negb (bool_decide (CommandId.kind c = CommandKind.Unknown))).
  assert (f c = true) as H.
  { apply CommandIdFacts.registry_forall; [vm_compute; reflexivity|done]. }
  unfold f in H. by rewrite bool_decide_true in H.
Qed.

(** [expected_confirmation] pairs requests and confirmations one to one: it is defined
    exactly on the requests, yields the command of the same stem with suffix [_CFM], and
    every confirmation is the expected one of exactly one request. *)
Theorem expected_confirmation_bijection :
  (∀ c, CommandId.kind c = CommandKind.Request ↔ is_Some (CommandId.expected_confirmation c))
  ∧ (∀ c d, CommandId.expected_confirmation c = Some d ↔
       ∃ stem, CommandId.name c = Some (stem +:+ "_REQ") ∧ CommandId.name d = Some (stem +:+ "_CFM"))
  ∧ (∀ d, CommandId.kind d = CommandKind.Confirmation ↔
       ∃ c, CommandId.expected_confirmation c = Some d
            ∧ ∀ c', CommandId.expected_confirmation c' = Some d → c' = c).
Proof.
  split_and!.
  - intros c. split.
    + intros (d & Hd & _)%CommandIdFacts.request_confirmation. eauto.
    + intros [d Hd]. by eapply CommandIdFacts.expected_confirmation_request.
  - apply CommandIdFacts.expected_confirmation_stem.
  - intros d. split.
    + intros (c & _ & Hc)%CommandIdFacts.confirmation_request. exists c. split; [done|].
      intros c' Hc'. by eapply CommandIdFacts.expected_confirmation_inj.
    + intros (c & Hc & _). pose proof (CommandIdFacts.expected_confirmation_request _ _ Hc) as Hk.
      apply CommandIdFacts.request_confirmation in Hk as (d' & Hd' & Hk'). congruence.
Qed.
