(* ===== verification/Error.v ===== *)
(** * Errors of the KLF client (klf200/error.rs)

    The error enum and its [Display] messages, which reach the subscribers of
    the connection as the text of protocol errors and disconnect reasons. *)

From S2P Require Import Prelude RustStd CommandIds.

Module KlfError.
Inductive t :=
| PayloadTooLarge (length : nat)
| FrameTooShort (actual : nat)
| InvalidProtocolId (actual : Z)
| InvalidFrameLength (declared actual : nat)
| InvalidChecksum (expected actual : Z)
| InvalidSlipEscape (byte : Z)
| IncompleteSlipEscape
| SlipFrameTooLarge (maximum : nat)
| InvalidUtf8
| StringTooLong (actual maximum : nat)
| SessionIdsExhausted
| SessionIdInUse (session_id : Z)
| UnsupportedRequest (command : CommandId)
| MissingConfirmation (command : CommandId)
| RequestTimeout (command : CommandId)
| ConnectTimeout
| ConnectionClosed
| ClientClosed
| AuthenticationRejected
| DiscoveryRejected (status : Z)
| UnexpectedResponse (operation : string) (command : CommandId)
| Io (message : string)
| Tls (message : string)
| Protocol (message : string)
| EmptyCertificateFile
| TruncatedPayload (command : CommandId) (expected actual : nat)
| InvalidPayloadLength (command : CommandId) (expected actual : nat)
| InvalidRequest (message : string).

Global Instance eq_dec : EqDecision t.
Proof. solve_decision. Defined.

(** [{:02x}] *)
Definition hex_digit_lower (d : Z) : Ascii.ascii :=
  Ascii.ascii_of_N (Z.to_N (if d <? 10 then 48 + d else 87 + d)).
Definition hex2 (b : Z) : string :=
  String.string_of_list_ascii [hex_digit_lower (b / 16); hex_digit_lower (b mod 16)].

Local Open Scope string_scope.

(** The [#[error("...")]] messages *)
Definition display (e : t) : string :=
  match e with
  | PayloadTooLarge length =>
      "payload is too large for a KLF frame: " +:+ pretty length +:+ " bytes"
  | FrameTooShort actual =>
      "KLF frame is too short: expected at least 5 bytes, got " +:+ pretty actual
  | InvalidProtocolId actual => "invalid KLF protocol identifier 0x" +:+ hex2 actual
  | InvalidFrameLength declared actual =>
      "invalid KLF frame length: header declares " +:+ pretty declared
      +:+ " bytes, actual length field covers " +:+ pretty actual
  | InvalidChecksum expected actual =>
      "invalid KLF frame checksum: expected 0x" +:+ hex2 expected +:+ ", got 0x" +:+ hex2 actual
  | InvalidSlipEscape byte => "invalid SLIP escape sequence: 0xdb 0x" +:+ hex2 byte
  | IncompleteSlipEscape => "SLIP frame ended with an incomplete escape sequence"
  | SlipFrameTooLarge maximum =>
      "SLIP frame exceeded the configured maximum of " +:+ pretty maximum +:+ " bytes"
  | InvalidUtf8 => "fixed-width string contains invalid UTF-8"
  | StringTooLong actual maximum =>
      "string needs " +:+ pretty actual +:+ " bytes but the field permits at most "
      +:+ pretty maximum
  | SessionIdsExhausted => "session ID space is exhausted"
  | SessionIdInUse session_id => "session ID " +:+ pretty session_id +:+ " is already active"
  | UnsupportedRequest command =>
      "request command " +:+ CommandId.display command
      +:+ " is not supported by the typed encoder"
  | MissingConfirmation command =>
      "request command " +:+ CommandId.display command +:+ " has no known confirmation"
  | RequestTimeout command => "request for " +:+ CommandId.display command +:+ " timed out"
  | ConnectTimeout => "connection attempt timed out"
  | ConnectionClosed => "KLF connection is closed"
  | ClientClosed => "KLF client command channel is closed"
  | AuthenticationRejected => "KLF authentication was rejected"
  | DiscoveryRejected status =>
      "KLF discovery request was rejected with status " +:+ pretty status
  | UnexpectedResponse operation command =>
      "unexpected response to " +:+ operation +:+ ": " +:+ CommandId.display command
  | Io message => "I/O error: " +:+ message
  | Tls message => "TLS error: " +:+ message
  | Protocol message => "protocol error: " +:+ message
  | EmptyCertificateFile => "certificate file did not contain any certificates"
  | TruncatedPayload command expected actual =>
      "command " +:+ CommandId.display command +:+ " payload is too short: expected at least "
      +:+ pretty expected +:+ " bytes, got " +:+ pretty actual
  | InvalidPayloadLength command expected actual =>
      "command " +:+ CommandId.display command
      +:+ " payload has invalid length: expected exactly "
      +:+ pretty expected +:+ " bytes, got " +:+ pretty actual
  | InvalidRequest message => "invalid request: " +:+ message
  end.
End KlfError.

(** [klf200::Result] *)
Abbreviation KlfResult := (outcome KlfError.t).
