(* ===== verification/Types.v ===== *)
(** * Protocol value types (klf200/types.rs)

    Node, group and session identifiers, the session-ID allocator, positions and
    standard parameters, node sets as bit sets, and the fixed-width strings of
    the wire format. *)

From Stdlib Require QArith_base.
From S2P Require Import Prelude RustStd CommandIds Error.

Definition ACTUATOR_COUNT : nat := 200.
Definition ACTUATOR_BYTES : nat := ACTUATOR_COUNT / 8.

(** ** Identifiers: newtypes over machine integers *)
Module NodeId.
Record t := new { get : Z }.
Global Instance eq_dec : EqDecision t.
Proof. solve_decision. Defined.
Global Instance countable : Countable t.
Proof. refine (inj_countable' get new _). by intros []. Defined.
End NodeId.

Module GroupId.
Record t := new { get : Z }.
Global Instance eq_dec : EqDecision t.
Proof. solve_decision. Defined.
Global Instance countable : Countable t.
Proof. refine (inj_countable' get new _). by intros []. Defined.
End GroupId.

Module SessionId.
Record t := mk { get : Z }.
Global Instance eq_dec : EqDecision t.
Proof. solve_decision. Defined.
Global Instance countable : Countable t.
Proof. refine (inj_countable' get mk _). by intros []. Defined.

Definition MIN : t := mk 1.
Definition MAX : t := mk 65535.

Definition new (value : Z) : option t := if value =? 0 then None else Some (mk value).

(** The invariant [new] gives: a non-zero [u16]. *)
Definition display (s : t) : string := pretty (get s).

Definition wf (s : t) : Prop := 1 ≤ get s < 65536.
Global Instance wf_dec s : Decision (wf s).
Proof. unfold wf. apply _. Defined.
End SessionId.

(** ** The session-ID allocator *)
Module SessionIdAllocator.
Record t := mk { next : Z; active : gset Z }.

Definition default : t := mk (SessionId.get SessionId.MIN) ∅.
Definition new : t := default.
Definition starting_at (session_id : SessionId.t) : t := mk (SessionId.get session_id) ∅.

(** [BTreeSet::insert] and [BTreeSet::remove] with their results *)
Definition set_insert (s : gset Z) (x : Z) : gset Z * bool := ({[x]} ∪ s, bool_decide (x ∉ s)).
Definition set_remove (s : gset Z) (x : Z) : gset Z * bool := (s ∖ {[x]}, bool_decide (x ∈ s)).

Definition successor (candidate : Z) : Z := if candidate =? 65535 then 1 else candidate + 1.

(** [for _ in 0..u16::MAX { ... }], the rounds left as fuel *)
Fixpoint allocate_loop (rounds : nat) (a : t) : t * KlfResult SessionId.t :=
  match rounds with
  | O => (a, Err KlfError.SessionIdsExhausted)
  | S rounds =>
      let candidate := next a in
      let (active', inserted) := set_insert (active a) candidate in
      let a' := mk (successor candidate) active' in
      if inserted then (a', Ok (SessionId.mk candidate)) else allocate_loop rounds a'
  end.

Definition allocate (a : t) : t * KlfResult SessionId.t := allocate_loop (Z.to_nat 65535) a.

Definition reserve (a : t) (session_id : SessionId.t) : t * KlfResult unit :=
  let (active', inserted) := set_insert (active a) (SessionId.get session_id) in
  (mk (next a) active',
   if inserted then Ok tt else Err (KlfError.SessionIdInUse (SessionId.get session_id))).

Definition release (a : t) (session_id : SessionId.t) : t * bool :=
  let (active', removed) := set_remove (active a) (SessionId.get session_id) in
  (mk (next a) active', removed).

Definition is_active (a : t) (session_id : SessionId.t) : bool :=
  bool_decide (SessionId.get session_id ∈ active a).
End SessionIdAllocator.

(** ** Positions *)
Module RawPosition.
Record t := new { get : Z }.
Global Instance eq_dec : EqDecision t.
Proof. solve_decision. Defined.
End RawPosition.

Module Percentage.
Record t := from_raw { raw : Z }.
Global Instance eq_dec : EqDecision t.
Proof. solve_decision. Defined.

Definition FULLY_OPEN : t := from_raw 0.
Definition FULLY_CLOSED : t := from_raw 0xC800.

Definition from_percent (percent : Z) : t :=
  let bounded := if percent >? 100 then 100 else percent in
  from_raw (bounded * 512).

(** The quotient of the [f64]s, which represent it exactly *)
Definition percent (p : t) : QArith_base.Q := QArith_base.Qmake (raw p) 512.

Definition rounded_percent (p : t) : Z :=
  let rounded := (raw p + 256) / 512 in
  if rounded <? 256 then Z.min rounded 100 else 100.
End Percentage.

Module StandardParameter.
Inductive t :=
| Relative (p : Percentage.t)
| NoFeedback
| PercentagePoint (tenths : Z)
| Target
| Current
| Default
| Ignore
| Unknown (r : RawPosition.t).
Global Instance eq_dec : EqDecision t.
Proof. solve_decision. Defined.

Definition from_raw (raw : Z) : t :=
  if (0 <=? raw) && (raw <=? 0xC800) then Relative (Percentage.from_raw raw)
  else if (0xC900 <=? raw) && (raw <=? 0xD0D0) then
    (* [i16::try_from(raw - 0xC900)] *)
    if raw - 0xC900 <=? 32767 then PercentagePoint (raw - 0xC900 - 1000)
    else Unknown (RawPosition.new raw)
  else if raw =? 0xD100 then Target
  else if raw =? 0xD200 then Current
  else if raw =? 0xD300 then Default
  else if raw =? 0xD400 then Ignore
  else if raw =? 0xF7FF then NoFeedback
  else Unknown (RawPosition.new raw).

Definition to_raw (p : t) : RawPosition.t :=
  RawPosition.new
    match p with
    | Relative percentage => Percentage.raw percentage
    | NoFeedback => 0xF7FF
    | PercentagePoint tenths =>
        let bounded := Z.max (-1000) (Z.min 1000 tenths) in
        (* [u16::try_from(i32::from(bounded) + 1000)] *)
        if 0 <=? bounded + 1000 then bounded + 1000 + 0xC900 else 0xC900
    | Target => 0xD100
    | Current => 0xD200
    | Default => 0xD300
    | Ignore => 0xD400
    | Unknown raw => RawPosition.get raw
    end.
End StandardParameter.

(** ** Plain records *)
Module ProtocolTimestamp.
Record t := from_unix_seconds { unix_seconds : Z }.
Global Instance eq_dec : EqDecision t.
Proof. solve_decision. Defined.
End ProtocolTimestamp.

Module NetworkSetup.
Record t := mk { ip_address : list Z; subnet_mask : list Z; default_gateway : list Z; dhcp : bool }.
Global Instance eq_dec : EqDecision t.
Proof. solve_decision. Defined.
End NetworkSetup.

Module Alias.
Record t := mk { kind : Z; value : Z }.
Global Instance eq_dec : EqDecision t.
Proof. solve_decision. Defined.
End Alias.

(** ** Bit sets of nodes

    [bytes] is a fixed array: every access below is at [index / 8] with
    [index < ACTUATOR_COUNT], in bounds by [ActuatorSet.wf]
    ([actuator_access_in_bounds]). *)
Module ActuatorSet.
Record t := from_bytes { bytes : list Z }.
Global Instance eq_dec : EqDecision t.
Proof. solve_decision. Defined.

Definition wf (s : t) : Prop := length (bytes s) = ACTUATOR_BYTES ∧ Forall is_u8 (bytes s).
Global Instance wf_dec s : Decision (wf s).
Proof. unfold wf. apply _. Defined.

Definition default : t := from_bytes (replicate ACTUATOR_BYTES 0).
Definition new : t := default.
Definition as_bytes (s : t) : list Z := bytes s.

(** [1 << (index % 8)] and its complement, as [u8] *)
Definition bit (index : nat) : Z := Z.shiftl 1 (Z.of_nat (index mod 8)).
Definition not_bit (index : nat) : Z := 255 - bit index.

Definition contains (s : t) (index : nat) : bool :=
  (index <? ACTUATOR_COUNT)%nat && negb (Z.land (bytes s !!! (index / 8)%nat) (bit index) =? 0).

Definition insert (s : t) (index : nat) : t * bool :=
  if (ACTUATOR_COUNT <=? index)%nat then (s, false)
  else
    let was_present := contains s index in
    (from_bytes (alter (λ b, Z.lor b (bit index)) (index / 8)%nat (bytes s)), negb was_present).

Definition remove (s : t) (index : nat) : t * bool :=
  if (ACTUATOR_COUNT <=? index)%nat then (s, false)
  else
    let was_present := contains s index in
    (from_bytes (alter (λ b, Z.land b (not_bit index)) (index / 8)%nat (bytes s)), was_present).

Definition iter (s : t) : list nat := List.filter (contains s) (seq 0 ACTUATOR_COUNT).
End ActuatorSet.

Module BeaconSet.
Record t := mk { get : Z }.
Global Instance eq_dec : EqDecision t.
Proof. solve_decision. Defined.

Definition MASK : Z := 7.
Definition default : t := mk 0.
Definition from_byte (byte : Z) : t := mk (Z.land byte MASK).
Definition as_byte (s : t) : Z := get s.
Definition wf (s : t) : Prop := 0 ≤ get s < 8.
Global Instance wf_dec s : Decision (wf s).
Proof. unfold wf. apply _. Defined.

Definition contains (s : t) (index : Z) : bool :=
  (index <? 3) && negb (Z.land (get s) (Z.shiftl 1 index) =? 0).

Definition set (s : t) (index : Z) (enabled : bool) : t * bool :=
  if 3 <=? index then (s, false)
  else if enabled then (mk (Z.lor (get s) (Z.shiftl 1 index)), true)
  else (mk (Z.land (get s) (255 - Z.shiftl 1 index)), true).
End BeaconSet.

Module NodeSet.
Record t := new { actuators : ActuatorSet.t; beacons : BeaconSet.t }.
Global Instance eq_dec : EqDecision t.
Proof. solve_decision. Defined.
Definition default : t := new ActuatorSet.default BeaconSet.default.
Definition wf (s : t) : Prop := ActuatorSet.wf (actuators s) ∧ BeaconSet.wf (beacons s).
End NodeSet.

(** ** Groups and contact links *)
Module GroupInformation.
Record t := mk {
  group_id : GroupId.t;
  order : Z;
  placement : Z;
  name : string;
  velocity : Z;
  node_variation : Z;
  group_type : Z;
  object_count : Z;
  actuators : ActuatorSet.t;
  revision : Z
}.
Global Instance eq_dec : EqDecision t.
Proof. solve_decision. Defined.
End GroupInformation.

Module NewGroupInformation.
Record t := mk {
  order : Z;
  placement : Z;
  name : string;
  velocity : Z;
  node_variation : Z;
  group_type : Z;
  object_count : Z;
  actuators : ActuatorSet.t
}.
Global Instance eq_dec : EqDecision t.
Proof. solve_decision. Defined.
End NewGroupInformation.

Module ContactInputLink.
Record t := mk {
  contact_input_id : Z;
  assignment : Z;
  action_id : Z;
  command_originator : Z;
  priority_level : Z;
  parameter_id : Z;
  position : StandardParameter.t;
  velocity : Z;
  lock_priority_level : Z;
  priority_level_settings : list Z;
  success_output_id : Z;
  error_output_id : Z
}.
Global Instance eq_dec : EqDecision t.
Proof. solve_decision. Defined.
End ContactInputLink.

(** ** Fixed-width strings *)
Definition nul_position (field : list Z) : nat :=
  match list_find (λ b, b = 0) field with Some (i, _) => i | None => length field end.

Definition decode_fixed_string (field : list Z) : KlfResult string :=
  ok_or (from_utf8 (take (nul_position field) field)) KlfError.InvalidUtf8.

Definition encode_fixed_string (N : nat) (value : string) : KlfResult (list Z) :=
  let maximum := (N - 1)%nat in
  if bool_decide (0 ∈ bytes_of value) then
    Err (KlfError.InvalidRequest "fixed-width strings cannot contain NUL bytes")
  else if (maximum <? String.length value)%nat then
    Err (KlfError.StringTooLong (String.length value) maximum)
  else (replicate N 0).[0 ..< String.length value <- bytes_of value].

(** * Facts *)

(** ** The allocator walks the identifiers cyclically *)
Module SessionIdAllocatorFacts.
Import SessionIdAllocator.

Definition wf (a : t) : Prop := 1 ≤ next a ≤ 65535 ∧ ∀ id, id ∈ active a → 1 ≤ id ≤ 65535.

(** The [k]-th identifier the allocator considers, from [start]. *)
Definition cyclic (start : Z) (k : nat) : Z := (start - 1 + Z.of_nat k) mod 65535 + 1.

Lemma cyclic_range start k : 1 ≤ cyclic start k ≤ 65535.
Proof. unfold cyclic. pose proof (Z.mod_pos_bound (start - 1 + Z.of_nat k) 65535). lia. Qed.

Lemma cyclic_0 start : 1 ≤ start ≤ 65535 → cyclic start 0 = start.
Proof. intros. unfold cyclic. rewrite Z.mod_small; lia. Qed.

Lemma cyclic_S start k : 1 ≤ start ≤ 65535 → cyclic (successor start) k = cyclic start (S k).
Proof.
  intros. unfold cyclic, successor. case_match.
  - replace start with 65535 by lia. f_equal.
    replace (65535 - 1 + Z.of_nat (S k)) with (1 - 1 + Z.of_nat k + 1 * 65535) by lia.
    by rewrite Z.mod_add.
  - do 2 f_equal. lia.
Qed.

Lemma cyclic_period start : 1 ≤ start ≤ 65535 → cyclic start (Z.to_nat 65535) = start.
Proof.
  intros. unfold cyclic. rewrite Z2Nat.id by lia.
  replace (start - 1 + 65535) with (start - 1 + 1 * 65535) by lia.
  rewrite Z.mod_add, Z.mod_small; lia.
Qed.

(** Every identifier is among the first 65535 candidates. *)
Lemma cyclic_surjective start id :
  1 ≤ start ≤ 65535 → 1 ≤ id ≤ 65535 → ∃ k, (k < Z.to_nat 65535)%nat ∧ cyclic start k = id.
Proof.
  intros Hs Hid. exists (Z.to_nat ((id - start) mod 65535)).
  pose proof (Z.mod_pos_bound (id - start) 65535). split; [lia|].
  unfold cyclic. rewrite Z2Nat.id by lia. rewrite Zplus_mod_idemp_r.
  replace (start - 1 + (id - start)) with (id - 1) by lia. rewrite Z.mod_small; lia.
Qed.

Lemma successor_range x : 1 ≤ x ≤ 65535 → 1 ≤ successor x ≤ 65535.
Proof. unfold successor. case_match; lia. Qed.

Lemma successor_cyclic start k : successor (cyclic start k) = cyclic start (S k).
Proof.
  rewrite <- (cyclic_0 (successor (cyclic start k))) by apply successor_range, cyclic_range.
  rewrite cyclic_S by apply cyclic_range. unfold cyclic.
  rewrite Z.add_simpl_r, Zplus_mod_idemp_l. do 2 f_equal. lia.
Qed.

Definition allocated (n : nat) (a : t) (r : t * KlfResult SessionId.t) : Prop :=
  match r with
  | (a', Ok s) =>
      ∃ k, (k < n)%nat ∧ SessionId.get s = cyclic (next a) k ∧ (SessionId.get s ∉ active a)
           ∧ (∀ j, (j < k)%nat → cyclic (next a) j ∈ active a)
           ∧ a' = mk (cyclic (next a) (S k)) ({[SessionId.get s]} ∪ active a)
  | (a', Err e) =>
      e = KlfError.SessionIdsExhausted ∧ a' = mk (cyclic (next a) n) (active a)
      ∧ ∀ j, (j < n)%nat → cyclic (next a) j ∈ active a
  | (_, Panic) => False
  end.

Lemma allocate_loop_spec n a : 1 ≤ next a ≤ 65535 → allocated n a (allocate_loop n a).
Proof.
  revert a. induction n as [|n IH]; intros [nx act] Hn; simpl in *.
  { split_and!; [done|by rewrite cyclic_0|lia]. }
  destruct (bool_decide_reflect (nx ∉ act)) as [Hfree|Hbusy%dec_stable].
  - exists 0%nat. rewrite cyclic_0 by done. split_and!; [lia|done|done|lia|].
    f_equal. by rewrite <- cyclic_S, cyclic_0 by (try done; by apply successor_range).
  - replace ({[nx]} ∪ act) with act by set_solver.
    specialize (IH (mk (successor nx) act) (successor_range _ Hn)). unfold allocated in *.
    assert (∀ m, (∀ j, (j < m)%nat → cyclic (successor nx) j ∈ act) →
                 ∀ j, (j < S m)%nat → cyclic nx j ∈ act) as Hshift.
    { intros m H [|j] Hj; [by rewrite cyclic_0|]. rewrite <- cyclic_S by done. apply H. lia. }
    destruct (allocate_loop n _) as [a' [s|e|]]; simpl in *; [|rewrite <- cyclic_S by done; naive_solver|done].
    destruct IH as (k & ? & ? & ? & ? & ?). exists (S k).
    rewrite <- !cyclic_S by done. split_and!; [lia|done|done|by apply Hshift|done].
Qed.

Lemma allocate_allocated a : wf a → allocated (Z.to_nat 65535) a (allocate a).
Proof. intros [? _]. by apply allocate_loop_spec. Qed.

(** Every operation preserves the invariant. *)
Lemma allocate_wf a : wf a → wf (fst (allocate a)).
Proof.
  intros Hwf. pose proof (allocate_allocated _ Hwf) as H. unfold allocated in H.
  destruct Hwf as [_ Ha]. destruct (allocate a) as [a' [s|e|]]; [| |done].
  - destruct H as (k & _ & Hs & _ & _ & ->). split; simpl; [apply cyclic_range|].
    intros id [->%elem_of_singleton|?]%elem_of_union; [rewrite Hs; apply cyclic_range|auto].
  - destruct H as (_ & -> & _). split; [apply cyclic_range|done].
Qed.

Lemma release_wf a s : wf a → wf (fst (release a s)).
Proof. intros [? ?]. split; simpl; [done|set_solver]. Qed.

Lemma starting_at_wf s : SessionId.wf s → wf (starting_at s).
Proof. unfold SessionId.wf. intros. split; simpl; [lia|set_solver]. Qed.

(** An identifier is handed out exactly when one is free, and it is the first free one
    in cyclic order; when none is, the allocator is unchanged. *)
Lemma allocate_total a :
  wf a →
  match allocate a with
  | (a', Ok s) => SessionId.wf s ∧ is_active a s = false ∧ is_active a' s = true
  | (a', Err e) => a' = a ∧ e = KlfError.SessionIdsExhausted
                   ∧ ∀ s, SessionId.wf s → is_active a s = true
  | (_, Panic) => False
  end.
Proof.
  intros Hwf. pose proof (allocate_allocated _ Hwf) as H. unfold allocated in H.
  destruct Hwf as [Hn Ha]. destruct (allocate a) as [a' [s|e|]]; [| |done].
  - destruct H as (k & _ & Hs & Hf & _ & ->). unfold SessionId.wf, is_active. rewrite Hs in *.
    pose proof (cyclic_range (next a) k). rewrite bool_decide_eq_false, bool_decide_eq_true.
    simpl. split_and!; [lia|lia|set_solver|set_solver].
  - destruct H as (-> & -> & Hall). rewrite cyclic_period by done.
    split_and!; [by destruct a|done|]. intros s Hs. unfold is_active.
    apply bool_decide_eq_true. destruct (cyclic_surjective (next a) (SessionId.get s)) as (k & ? & <-);
      unfold SessionId.wf in Hs; [lia..|]. auto.
Qed.

(** While only identifiers below the counter are active, the counter is handed out. *)
Definition counted (a : t) : Prop := ∀ id, id ∈ active a → id < next a.

Lemma allocate_counted a :
  counted a → next a < 65535 →
  allocate a = (mk (next a + 1) ({[next a]} ∪ active a), Ok (SessionId.mk (next a))).
Proof.
  intros Hc Hn. unfold allocate. replace (Z.to_nat 65535) with (S (Z.to_nat 65534)) by lia.
  cbn [allocate_loop set_insert]. rewrite bool_decide_true by (intros Hin; specialize (Hc _ Hin); lia).
  unfold successor. by rewrite (proj2 (Z.eqb_neq _ _)) by lia.
Qed.

Lemma allocate_active a a' s :
  wf a → allocate a = (a', Ok s) →
  active a' = {[SessionId.get s]} ∪ active a ∧ (SessionId.get s ∉ active a) ∧ SessionId.wf s.
Proof.
  intros Hwf Ha. pose proof (allocate_allocated _ Hwf) as H. unfold allocated in H.
  rewrite Ha in H. destruct H as (k & _ & Hs & Hf & _ & ->).
  pose proof (cyclic_range (next a) k) as Hr. rewrite <- Hs in Hr.
  split_and!; [done|done|unfold SessionId.wf; lia..].
Qed.

Lemma allocate_free a :
  wf a → Z.of_nat (size (active a)) < 65535 → ∃ a' s, allocate a = (a', Ok s).
Proof.
  intros Hwf Hsize. pose proof (allocate_total a Hwf) as Ht.
  destruct (allocate a) as [a' [s|e|]]; [by eexists _, _| |done].
  destruct Ht as (_&_&Hall). exfalso.
  assert ((list_to_set (seqZ 1 65535) : gset Z) ⊆ active a) as Hsub.
  { intros i Hi%elem_of_list_to_set%elem_of_seqZ. specialize (Hall (SessionId.mk i)).
    unfold SessionId.wf, is_active in Hall. rewrite bool_decide_eq_true in Hall.
    apply Hall. simpl. lia. }
  apply subseteq_size in Hsub. rewrite size_list_to_set, length_seqZ in Hsub by apply NoDup_seqZ. lia.
Qed.

(** A session that is given back leaves the others as they were. *)
Lemma release_allocated a a' s :
  wf a → allocate a = (a', Ok s) → active (fst (release a' s)) = active a.
Proof.
  intros Hwf Ha. destruct (allocate_active a a' s Hwf Ha) as (Hact & Hf & _). simpl.
  rewrite Hact. set_solver.
Qed.
End SessionIdAllocatorFacts.

(** ** Positions and standard parameters *)
Module ParameterFacts.
Import StandardParameter.

(** The values the constructors of the program build. *)
Definition percentage_wf (p : Percentage.t) : Prop := 0 ≤ Percentage.raw p ≤ 0xC800.
Definition wf (p : t) : Prop :=
  match p with
  | Relative p => percentage_wf p
  | PercentagePoint tenths => is_i16 tenths
  | Unknown r => is_u16 (RawPosition.get r)
  | _ => True
  end.

(** What survives the wire: out-of-range deltas are clamped, and an [Unknown] raw
    value with a meaning takes that meaning. *)
Definition normalise (p : t) : t :=
  match p with
  | PercentagePoint tenths => PercentagePoint (Z.max (-1000) (Z.min 1000 tenths))
  | Unknown r => from_raw (RawPosition.get r)
  | p => p
  end.

Lemma from_raw_wf raw : is_u16 raw → wf (from_raw raw).
Proof.
  unfold from_raw, is_u16. intros.
  repeat case_match; simpl; unfold percentage_wf, is_i16, is_u16; simpl; lia.
Qed.

Lemma to_from_raw raw : is_u16 raw → to_raw (from_raw raw) = RawPosition.new raw.
Proof.
  unfold is_u16; intros. unfold from_raw, to_raw.
  repeat case_match; simplify_eq; simpl in *; try (f_equal; lia).
Qed.

Lemma from_to_raw p : wf p → from_raw (RawPosition.get (to_raw p)) = normalise p.
Proof.
  destruct p as [[p]| | | | | | |[r]]; try reflexivity.
  - unfold wf, percentage_wf, from_raw. simpl. intros.
    by replace ((0 <=? p) && (p <=? 51200)) with true by lia.
  - intros _. simpl. unfold from_raw.
    set (b := Z.max (-1000) (Z.min 1000 tenths)). assert (-1000 ≤ b ≤ 1000) by lia.
    replace (0 <=? b + 1000) with true by lia.
    replace ((0 <=? b + 1000 + 51456) && (b + 1000 + 51456 <=? 51200)) with false by lia.
    replace ((51456 <=? b + 1000 + 51456) && (b + 1000 + 51456 <=? 53456)) with true by lia.
    replace (b + 1000 + 51456 - 51456 <=? 32767) with true by lia. f_equal. lia.
Qed.

Lemma to_raw_u16 p : wf p → is_u16 (RawPosition.get (to_raw p)).
Proof.
  destruct p; simpl; unfold percentage_wf, is_u16; repeat case_match; lia.
Qed.

(** [rounded_percent] is the nearest whole percentage. *)
Lemma rounded_percent_nearest p :
  percentage_wf p →
  0 ≤ Percentage.rounded_percent p ≤ 100
  ∧ Z.abs (Percentage.raw p - 512 * Percentage.rounded_percent p) ≤ 256.
Proof.
  unfold percentage_wf, Percentage.rounded_percent. intros.
  case_match; Z.div_mod_to_equations; lia.
Qed.

Lemma rounded_from_percent percent :
  is_u8 percent → Percentage.rounded_percent (Percentage.from_percent percent) = Z.min percent 100.
Proof.
  unfold is_u8, Percentage.rounded_percent, Percentage.from_percent. intros.
  cbn [Percentage.raw]. repeat case_match; Z.div_mod_to_equations; lia.
Qed.

Lemma from_percent_wf percent : is_u8 percent → percentage_wf (Percentage.from_percent percent).
Proof.
  unfold is_u8, percentage_wf, Percentage.from_percent. intros.
  cbn [Percentage.raw]. case_match; lia.
Qed.
End ParameterFacts.

#[export] Hint Resolve ParameterFacts.from_raw_wf ParameterFacts.to_raw_u16 : klf.

(** ** Bit sets *)
Lemma testbit_land_bit b i :
  0 ≤ i → negb (Z.land b (Z.shiftl 1 i) =? 0) = Z.testbit b i.
Proof.
  intros Hi. destruct (Z.testbit b i) eqn:Hb.
  - apply negb_true_iff, Z.eqb_neq. intros H0.
    assert (Z.testbit (Z.land b (Z.shiftl 1 i)) i = false) as H by by rewrite H0, Z.bits_0.
    rewrite Z.land_spec, Hb, Z.shiftl_spec, Z.sub_diag in H by lia. done.
  - apply negb_false_iff, Z.eqb_eq, Z.bits_inj'. intros n Hn.
    rewrite Z.land_spec, Z.shiftl_1_l, Z.pow2_bits_eqb, Z.bits_0 by lia.
    destruct (Z.eqb_spec i n) as [->|]; [by rewrite Hb|by rewrite andb_false_r].
Qed.

Module ActuatorSetFacts.
Import ActuatorSet.

Lemma access_in_bounds s index :
  wf s → (index < ACTUATOR_COUNT)%nat → (index / 8 < length (bytes s))%nat.
Proof.
  intros [-> _] H. unfold ACTUATOR_COUNT in H.
  change ACTUATOR_BYTES with 25%nat. apply Nat.Div0.div_lt_upper_bound. lia.
Qed.

Lemma default_wf : wf default.
Proof. split; [done|apply Forall_u8_zero]. Qed.

Lemma bit_testbit index n :
  0 ≤ n → Z.testbit (bit index) n = bool_decide (n = Z.of_nat (index mod 8)).
Proof.
  intros. unfold bit. rewrite Z.shiftl_1_l, Z.pow2_bits_eqb by lia.
  destruct (Z.eqb_spec (Z.of_nat (index mod 8)) n); [by rewrite bool_decide_true|].
  by rewrite bool_decide_false.
Qed.

Lemma bit_range index : 1 ≤ bit index ≤ 128.
Proof.
  unfold bit. rewrite Z.shiftl_1_l. pose proof (Nat.mod_upper_bound index 8).
  split; [apply (Z.pow_le_mono_r 2 0); lia|]. apply (Z.pow_le_mono_r 2 _ 7); lia.
Qed.

Lemma not_bit_testbit index n :
  0 ≤ n < 8 → Z.testbit (not_bit index) n = negb (bool_decide (n = Z.of_nat (index mod 8))).
Proof.
  intros Hn. unfold not_bit. pose proof (Nat.mod_upper_bound index 8) as Hm.
  assert (255 - bit index = Z.lxor 255 (bit index)) as ->.
  { unfold bit. generalize dependent (index mod 8)%nat. intros m Hm.
    do 8 (destruct m as [|m]; [reflexivity|]). lia. }
  rewrite Z.lxor_spec, bit_testbit by lia.
  replace (Z.testbit 255 n) with true; [by case_bool_decide|].
  change 255 with (Z.ones 8). by rewrite Z.ones_spec_low.
Qed.

(** Membership is the bit at [index mod 8] of byte [index / 8]. *)
Lemma contains_testbit s index :
  contains s index = bool_decide (index < ACTUATOR_COUNT)%nat
                     && Z.testbit (bytes s !!! (index / 8)%nat) (Z.of_nat (index mod 8)).
Proof.
  unfold contains. f_equal.
  - destruct (Nat.ltb_spec index ACTUATOR_COUNT); by case_bool_decide; try lia.
  - unfold bit. rewrite testbit_land_bit by lia. done.
Qed.

Lemma alter_total (f : Z → Z) (l : list Z) (i j : nat) :
  (i < length l)%nat →
  alter f i l !!! j = if decide (i = j) then f (l !!! j) else l !!! j.
Proof.
  intros Hi. destruct (decide (i = j)) as [<-|].
  - by rewrite list_lookup_total_alter_eq.
  - by rewrite list_lookup_total_alter_ne.
Qed.

Lemma div_mod_8_inj i j : (i / 8 = j / 8)%nat → (i mod 8 = j mod 8)%nat → i = j.
Proof.
  intros Hd Hm. rewrite (Nat.div_mod_eq i 8), (Nat.div_mod_eq j 8). by rewrite Hd, Hm.
Qed.

(** Changing one bit changes the membership of exactly that index. *)
Lemma alter_contains f b s index j :
  wf s → (index < ACTUATOR_COUNT)%nat →
  (∀ x n, 0 ≤ n < 8 →
     Z.testbit (f x) n = if decide (n = Z.of_nat (index mod 8)) then b else Z.testbit x n) →
  contains (from_bytes (alter f (index / 8)%nat (bytes s))) j
    = if decide (j = index) then b else contains s j.
Proof.
  intros Hwf Hi Hf. rewrite !contains_testbit. cbn [bytes].
  rewrite alter_total by by apply access_in_bounds.
  pose proof (Nat.mod_upper_bound j 8). pose proof (Nat.mod_upper_bound index 8).
  destruct (decide (j = index)) as [->|Hne].
  - rewrite decide_True, Hf, decide_True by lia. by rewrite bool_decide_true.
  - case_decide as Hd; [|done]. rewrite Hf, decide_False; [done| |lia].
    intros Hm%Nat2Z.inj. by apply Hne, div_mod_8_inj.
Qed.

Lemma insert_contains s index j :
  wf s →
  contains (fst (insert s index)) j
    = bool_decide (j = index ∧ index < ACTUATOR_COUNT)%nat || contains s j.
Proof.
  intros Hwf. unfold insert. destruct (Nat.leb_spec ACTUATOR_COUNT index); cbn [fst].
  - rewrite bool_decide_false; [done|lia].
  - rewrite (alter_contains _ true); [|done..|].
    + repeat case_decide; case_bool_decide; naive_solver.
    + intros x n Hn. rewrite Z.lor_spec, bit_testbit by lia.
      case_decide; case_bool_decide; try done; [apply orb_true_r|apply orb_false_r].
Qed.

Lemma remove_contains s index j :
  wf s →
  contains (fst (remove s index)) j = bool_decide (j ≠ index) && contains s j.
Proof.
  intros Hwf. unfold remove. destruct (Nat.leb_spec ACTUATOR_COUNT index); cbn [fst].
  - rewrite (contains_testbit _ j). repeat case_bool_decide; simpl; try done; lia.
  - rewrite (alter_contains _ false); [|done..|].
    + repeat case_decide; case_bool_decide; naive_solver.
    + intros x n Hn. rewrite Z.land_spec, not_bit_testbit by lia.
      case_decide; case_bool_decide; try done; [apply andb_false_r|apply andb_true_r].
Qed.

Lemma lor_u8 a b : is_u8 a → is_u8 b → is_u8 (Z.lor a b).
Proof.
  unfold is_u8. intros. rewrite <- (Z.mod_small a 256), <- (Z.mod_small b 256) by lia.
  change 256 with (2 ^ 8). rewrite <- !Z.land_ones, <- Z.land_lor_distr_l, Z.land_ones by lia.
  apply Z.mod_pos_bound. lia.
Qed.

Lemma land_u8 a b : is_u8 a → is_u8 (Z.land a b).
Proof.
  unfold is_u8. intros. rewrite <- (Z.mod_small a 256) by lia.
  change 256 with (2 ^ 8). rewrite <- Z.land_ones, <- Z.land_assoc, (Z.land_comm _ b), Z.land_assoc,
    Z.land_ones by lia.
  apply Z.mod_pos_bound. lia.
Qed.

Lemma alter_wf (f : Z → Z) i s :
  wf s → (∀ x, is_u8 x → is_u8 (f x)) → wf (from_bytes (alter f i (bytes s))).
Proof.
  intros [Hl Hb] Hf. split; cbn [bytes]; [by rewrite length_alter|].
  apply Forall_alter; auto.
Qed.

Lemma insert_wf s index : wf s → wf (fst (insert s index)).
Proof.
  intros Hwf. unfold insert. case_match; [done|]. apply alter_wf; [done|].
  intros x Hx. apply lor_u8; [done|]. pose proof (bit_range index). unfold is_u8. lia.
Qed.

Lemma remove_wf s index : wf s → wf (fst (remove s index)).
Proof.
  intros Hwf. unfold remove. case_match; [done|]. apply alter_wf; [done|].
  intros x Hx. by apply land_u8.
Qed.

Lemma iter_elem s index : index ∈ iter s ↔ contains s index = true.
Proof.
  unfold iter. rewrite list_elem_of_In, List.filter_In, in_seq. split; [naive_solver|].
  intros H. split; [|done]. rewrite contains_testbit in H.
  apply andb_true_iff in H as [H%bool_decide_eq_true _]. lia.
Qed.
End ActuatorSetFacts.

Module BeaconSetFacts.
Import BeaconSet.

Lemma from_byte_wf byte : wf (from_byte byte).
Proof.
  unfold wf, from_byte, MASK. cbn [get]. change 7 with (Z.ones 3).
  rewrite Z.land_ones by lia. apply (Z.mod_pos_bound byte 8). lia.
Qed.

Lemma from_as_byte s : wf s → from_byte (as_byte s) = s.
Proof.
  destruct s as [b]. unfold wf, from_byte, as_byte, MASK. cbn [get]. intros.
  change 7 with (Z.ones 3). rewrite Z.land_ones, Z.mod_small by lia. done.
Qed.

Lemma beacon_contains_testbit s index :
  0 ≤ index → contains s index = (index <? 3) && Z.testbit (get s) index.
Proof. intros. unfold contains. by rewrite testbit_land_bit. Qed.
End BeaconSetFacts.

(** ** Fixed-width strings *)
Section fixed_strings.
Implicit Types (field : list Z) (value : string).

Lemma nul_position_app pre rest :
  0 ∉ pre → (rest = [] ∨ ∃ r, rest = 0 :: r) → nul_position (pre ++ rest) = length pre.
Proof.
  intros Hpre Hrest. unfold nul_position.
  rewrite list_find_app_r by (apply list_find_None, Forall_forall; congruence).
  destruct Hrest as [->|[r ->]]; simpl; [by rewrite app_nil_r|lia].
Qed.

Lemma nul_position_le field : (nul_position field ≤ length field)%nat.
Proof.
  unfold nul_position. destruct (list_find _ field) as [[i x]|] eqn:Hf; [|done].
  apply list_find_Some in Hf as (Hi%lookup_lt_Some & _). lia.
Qed.

Lemma nul_position_before field : 0 ∉ take (nul_position field) field.
Proof.
  unfold nul_position. intros Hin. destruct (list_find _ field) as [[i x]|] eqn:Hf.
  - apply list_find_Some in Hf as (_ & _ & Hbefore).
    apply list_elem_of_lookup in Hin as [j Hj].
    apply lookup_take_Some in Hj as [Hj Hlt]. by apply (Hbefore j 0).
  - rewrite take_ge in Hin by done. apply list_find_None in Hf.
    by rewrite Forall_forall in Hf; apply Hf in Hin.
Qed.

Lemma take_prefix n field : take n field `prefix_of` field.
Proof. exists (drop n field). by rewrite take_drop. Qed.

Lemma decode_fixed_string_ok field :
  Forall is_u8 field →
  returns (decode_fixed_string field)
    (λ v, is_str v ∧ (0 ∉ bytes_of v) ∧ (String.length v ≤ length field)%nat
          ∧ bytes_of v `prefix_of` field).
Proof.
  intros Hu. apply returns_ok_or. intros v Hv.
  apply from_utf8_is_str in Hv as [Hs Hb]; [|by apply Forall_take].
  rewrite <- length_bytes_of, Hb. split_and!; [done|apply nul_position_before| |apply take_prefix].
  rewrite length_take. lia.
Qed.

(** A value is encodable exactly when it has no NUL and leaves room for the terminator;
    the field is the value padded with NULs. *)
Lemma encode_fixed_string_spec N value :
  match encode_fixed_string N value with
  | Ok field => (0 ∉ bytes_of value) ∧ (String.length value ≤ N - 1)%nat
                ∧ field = bytes_of value ++ replicate (N - String.length value) 0
  | Err e =>
      (0 ∈ bytes_of value
       ∧ e = KlfError.InvalidRequest "fixed-width strings cannot contain NUL bytes")
      ∨ ((0 ∉ bytes_of value) ∧ (N - 1 < String.length value)%nat
         ∧ e = KlfError.StringTooLong (String.length value) (N - 1))
  | Panic => False
  end.
Proof.
  unfold encode_fixed_string. case_bool_decide as H0; [by left|].
  destruct (Nat.ltb_spec (N - 1) (String.length value)); [by right|].
  unfold copy_from_slice. rewrite length_replicate, decide_True.
  2:{ rewrite length_bytes_of. lia. }
  split_and!; [done|done|]. by rewrite drop_replicate.
Qed.

Lemma encode_fixed_string_no_panic N value : encode_fixed_string N value ≠ Panic.
Proof. pose proof (encode_fixed_string_spec N value). by destruct (encode_fixed_string _ _). Qed.

Lemma encode_fixed_string_ok N value field :
  encode_fixed_string N value = Ok field →
  (0 ∉ bytes_of value) ∧ (String.length value ≤ N - 1)%nat
  ∧ field = bytes_of value ++ replicate (N - String.length value) 0.
Proof.
  intros H. pose proof (encode_fixed_string_spec N value) as Hs. by rewrite H in Hs.
Qed.

Lemma encode_fixed_string_field N value field :
  encode_fixed_string (S N) value = Ok field → length field = S N ∧ Forall is_u8 field.
Proof.
  intros (_ & Hl & ->)%encode_fixed_string_ok. split.
  - rewrite length_app, length_replicate, length_bytes_of. lia.
  - apply Forall_app. split; [apply bytes_of_u8|apply Forall_u8_zero].
Qed.

Lemma decode_encode_fixed_string N value field :
  is_str value → encode_fixed_string N value = Ok field → decode_fixed_string field = Ok value.
Proof.
  intros Hs (H0 & Hl & ->)%encode_fixed_string_ok. unfold decode_fixed_string.
  rewrite nul_position_app, take_app_length, from_utf8_bytes_of; [done..| ].
  destruct (N - String.length value)%nat; [by left|right; eauto].
Qed.

Lemma encode_fixed_string_returns N value :
  returns (encode_fixed_string (S N) value) (λ f, length f = S N ∧ Forall is_u8 f).
Proof.
  destruct (encode_fixed_string (S N) value) as [f|e|] eqn:H; [|done|].
  - by eapply encode_fixed_string_field.
  - by eapply encode_fixed_string_no_panic.
Qed.
End fixed_strings.

(** * Properties *)

(** The allocator hands out the first identifier that is free, in cyclic order from its
    cursor, and never the reserved identifier zero; it fails only when all 65535 are in use,
    and then is unchanged. *)
Theorem session_allocator_first_free (a : SessionIdAllocator.t) :
  SessionIdAllocatorFacts.wf a →
  let (a', result) := SessionIdAllocator.allocate a in
  SessionIdAllocatorFacts.wf a'
  ∧ match result with
    | Ok s =>
        SessionId.wf s ∧ SessionIdAllocator.is_active a s = false
        ∧ SessionIdAllocator.active a' = {[SessionId.get s]} ∪ SessionIdAllocator.active a
        ∧ ∃ k, SessionId.get s = SessionIdAllocatorFacts.cyclic (SessionIdAllocator.next a) k
            ∧ ∀ j, (j < k)%nat →
                SessionIdAllocatorFacts.cyclic (SessionIdAllocator.next a) j
                  ∈ SessionIdAllocator.active a
    | Err e =>
        e = KlfError.SessionIdsExhausted ∧ a' = a
        ∧ ∀ s, SessionId.wf s → SessionIdAllocator.is_active a s = true
    | Panic => False
    end.
Proof.
  intros Hwf. pose proof (SessionIdAllocatorFacts.allocate_wf a Hwf) as Hwf'.
  pose proof (SessionIdAllocatorFacts.allocate_total a Hwf) as Ht.
  pose proof (SessionIdAllocatorFacts.allocate_allocated a Hwf) as Ha.
  unfold SessionIdAllocatorFacts.allocated in Ha.
  destruct (SessionIdAllocator.allocate a) as [a' [s|e|]]; [| |done].
  - destruct Ht as (Hs & Hfree & _), Ha as (k & _ & Hk & _ & Hbusy & ->).
    split; [done|]. split_and!; [done|done|done|]. by exists k.
  - destruct Ht as (-> & -> & Hall). by split.
Qed.

Lemma session_allocator_first_free_witness :
  let (a', result) := SessionIdAllocator.allocate (SessionIdAllocator.mk 65535 {[65535; 1]}) in
  SessionIdAllocatorFacts.wf a' ∧ result = Ok (SessionId.mk 2).
Proof.
  assert (SessionIdAllocatorFacts.wf (SessionIdAllocator.mk 65535 {[65535; 1]})) as Hwf.
  { split; [simpl; lia|]. intros id Hid. simpl in Hid. set_solver by lia. }
  split; [|vm_compute; reflexivity].
  exact (proj1 (session_allocator_first_free _ Hwf)).
Defined.

(** Every raw position decodes to a parameter that encodes to the same raw value, and
    every parameter encodes to a 16-bit value that decodes to its normal form: percentage
    points are clamped to a hundred percent either way. *)
Theorem standard_parameter_roundtrip :
  (∀ raw, is_u16 raw →
     ParameterFacts.wf (StandardParameter.from_raw raw)
     ∧ StandardParameter.to_raw (StandardParameter.from_raw raw) = RawPosition.new raw)
  ∧ (∀ p, ParameterFacts.wf p →
       is_u16 (RawPosition.get (StandardParameter.to_raw p))
       ∧ StandardParameter.from_raw (RawPosition.get (StandardParameter.to_raw p))
         = ParameterFacts.normalise p).
Proof.
  split; intros x Hx.
  - split; [by apply ParameterFacts.from_raw_wf|by apply ParameterFacts.to_from_raw].
  - split; [by apply ParameterFacts.to_raw_u16|by apply ParameterFacts.from_to_raw].
Qed.

(** An actuator set is a set of the indices below 200: inserting and removing change the
    membership of exactly one index, report whether they changed anything, keep the 25-byte
    representation, and ignore indices out of range; iteration lists the members in order. *)
Theorem actuator_set_semantics (s : ActuatorSet.t) (index j : nat) :
  ActuatorSet.wf s →
  let (inserted, added) := ActuatorSet.insert s index in
  let (removed, was_present) := ActuatorSet.remove s index in
  ActuatorSet.wf inserted ∧ ActuatorSet.wf removed
  ∧ ActuatorSet.contains inserted j
    = bool_decide (j = index ∧ index < ACTUATOR_COUNT)%nat || ActuatorSet.contains s j
  ∧ added = bool_decide (index < ACTUATOR_COUNT)%nat && negb (ActuatorSet.contains s index)
  ∧ ActuatorSet.contains removed j = bool_decide (j ≠ index) && ActuatorSet.contains s j
  ∧ was_present = ActuatorSet.contains s index
  ∧ (j ∈ ActuatorSet.iter s ↔ ActuatorSet.contains s j = true).
Proof.
  intros Hwf.
  pose proof (ActuatorSetFacts.insert_wf s index Hwf) as Hi.
  pose proof (ActuatorSetFacts.remove_wf s index Hwf) as Hr.
  pose proof (ActuatorSetFacts.insert_contains s index j Hwf) as Hic.
  pose proof (ActuatorSetFacts.remove_contains s index j Hwf) as Hrc.
  pose proof (ActuatorSetFacts.contains_testbit s index) as Hc.
  assert (snd (ActuatorSet.insert s index)
          = bool_decide (index < ACTUATOR_COUNT)%nat && negb (ActuatorSet.contains s index)) as Ha.
  { unfold ActuatorSet.insert. destruct (Nat.leb_spec ACTUATOR_COUNT index); cbn [snd].
    - by rewrite bool_decide_false by lia.
    - by rewrite bool_decide_true by lia. }
  assert (snd (ActuatorSet.remove s index) = ActuatorSet.contains s index) as Hp.
  { unfold ActuatorSet.remove. destruct (Nat.leb_spec ACTUATOR_COUNT index); cbn [snd]; [|done].
    by rewrite Hc, bool_decide_false by lia. }
  destruct (ActuatorSet.insert s index) as [inserted added].
  destruct (ActuatorSet.remove s index) as [removed was_present]. cbn [fst snd] in *.
  split_and!; try done; apply ActuatorSetFacts.iter_elem.
Qed.

Lemma actuator_set_semantics_witness :
  ActuatorSet.wf (fst (ActuatorSet.insert ActuatorSet.new 9)).
Proof.
  pose proof (actuator_set_semantics ActuatorSet.new 9 9 ActuatorSetFacts.default_wf) as H.
  destruct (ActuatorSet.insert ActuatorSet.new 9) as [inserted added].
  destruct (ActuatorSet.remove ActuatorSet.new 9) as [removed was_present]. exact (proj1 H).
Defined.

(** Fixed-width strings: a value is encodable exactly when it has no NUL and leaves room
    for the terminator, with the corresponding error otherwise; the field has the exact
    width and decodes to the value. *)
Theorem fixed_string_roundtrip (N : nat) (value : string) :
  is_str value →
  match encode_fixed_string (S N) value with
  | Ok field => length field = S N ∧ Forall is_u8 field ∧ decode_fixed_string field = Ok value
  | Err (KlfError.InvalidRequest _) => 0 ∈ bytes_of value
  | Err (KlfError.StringTooLong actual maximum) =>
      (0 ∉ bytes_of value) ∧ actual = String.length value ∧ maximum = N ∧ (maximum < actual)%nat
  | _ => False
  end.
Proof.
  intros Hs. pose proof (encode_fixed_string_spec (S N) value) as H.
  destruct (encode_fixed_string (S N) value) as [field|e|] eqn:He; [| |done].
  - split_and!; [by apply encode_fixed_string_field in He as [? _]
                |by apply encode_fixed_string_field in He as [_ ?]
                |by eapply decode_encode_fixed_string].
  - destruct H as [[H ->]|(H & Hl & ->)]; [done|]. split_and!; [done|done|lia|lia].
Qed.

Lemma fixed_string_roundtrip_witness :
  decode_fixed_string [82; 111; 111; 102; 0; 0; 0; 0] = Ok "Roof".
Proof.
  exact (proj2 (proj2 (fixed_string_roundtrip 7 "Roof"
           ltac:(apply (bool_decide_unpack _); vm_compute; exact I)))).
Defined.
