(* ===== verification/Frame.v ===== *)
(** * The KLF frame envelope (klf200/frame.rs)

    A frame is a protocol byte, a length byte, a two-byte command, the payload and an XOR
    checksum over everything before it. *)

From S2P Require Import Prelude RustStd CommandIds Error.

Definition KLF_PROTOCOL_ID : Z := 0.
Definition FRAME_OVERHEAD : nat := 5.
Definition PAYLOAD_LENGTH_OVERHEAD : nat := 3.
Definition MAX_PAYLOAD_LENGTH : nat := 252.

Module Frame.
Record t := mk { protocol_id : Z; command : CommandId; payload : list Z }.

Global Instance eq_dec : EqDecision t.
Proof. solve_decision. Defined.

(** What [fmt::Debug] shows of the payload: nothing for the password commands. *)
Definition debug_payload (f : t) : option (list Z) :=
  if command_eqb (command f) GW_PASSWORD_ENTER_REQ
     || command_eqb (command f) GW_PASSWORD_CHANGE_REQ
     || command_eqb (command f) GW_PASSWORD_CHANGE_NTF
  then None else Some (payload f).

Definition new (command : CommandId) (payload : list Z) : t := mk KLF_PROTOCOL_ID command payload.

Definition checksum (bytes : list Z) : Z := fold_left Z.lxor bytes 0.

Definition encode (f : t) : KlfResult (list Z) :=
  if negb (protocol_id f =? KLF_PROTOCOL_ID) then Err (KlfError.InvalidProtocolId (protocol_id f))
  else if (MAX_PAYLOAD_LENGTH <? length (payload f))%nat then
    Err (KlfError.PayloadTooLarge (length (payload f)))
  else
    len ← ok_or (u8_try_from (length (payload f) + PAYLOAD_LENGTH_OVERHEAD))
            (KlfError.PayloadTooLarge (length (payload f)));
    let encoded := [protocol_id f; len] ++ u16_to_be_bytes (raw (command f)) ++ payload f in
    Ok (encoded ++ [checksum encoded]).

Definition decode (encoded : list Z) : KlfResult t :=
  if (length encoded <? FRAME_OVERHEAD)%nat then Err (KlfError.FrameTooShort (length encoded))
  else
    protocol ← encoded.[0];
    if negb (protocol =? KLF_PROTOCOL_ID) then Err (KlfError.InvalidProtocolId protocol)
    else
      length_byte ← encoded.[1];
      let declared := Z.to_nat length_byte in
      let actual := (length encoded - 2)%nat in
      if negb (declared =? actual)%nat then Err (KlfError.InvalidFrameLength declared actual)
      else
        let checksum_index := (length encoded - 1)%nat in
        checked ← encoded.[0 ..< checksum_index];
        let expected := checksum checked in
        actual_checksum ← encoded.[checksum_index];
        if negb (expected =? actual_checksum) then
          Err (KlfError.InvalidChecksum expected actual_checksum)
        else
          b2 ← encoded.[2];
          b3 ← encoded.[3];
          payload ← encoded.[4 ..< checksum_index];
          Ok (mk protocol (CommandId_new (u16_from_be_bytes b2 b3)) payload).

(** The frames the program builds and receives: a 16-bit command and a payload of bytes. *)
Definition wf (f : t) : Prop := is_u16 (raw (command f)) ∧ Forall is_u8 (payload f).
Global Instance wf_dec f : Decision (wf f).
Proof. unfold wf. apply _. Defined.
End Frame.

(** * Facts *)
Module FrameFacts.
Import Frame.

(** The envelope of a payload, before the checksum. *)
Definition envelope (command : CommandId) (payload : list Z) : list Z :=
  [KLF_PROTOCOL_ID; Z.of_nat (length payload + 3)] ++ u16_to_be_bytes (raw command) ++ payload.

Definition wire (command : CommandId) (payload : list Z) : list Z :=
  envelope command payload ++ [checksum (envelope command payload)].

Lemma encode_wire f :
  protocol_id f = KLF_PROTOCOL_ID → (length (payload f) ≤ MAX_PAYLOAD_LENGTH)%nat →
  encode f = Ok (wire (command f) (payload f)).
Proof.
  destruct f as [p c pl]. simpl. intros -> Hl. unfold encode; cbn [protocol_id payload command].
  unfold MAX_PAYLOAD_LENGTH in *. rewrite (proj2 (Nat.ltb_ge _ _)) by lia. simpl.
  unfold PAYLOAD_LENGTH_OVERHEAD. rewrite u8_try_from_small by lia. done.
Qed.

Lemma encode_ok_inv f bytes :
  encode f = Ok bytes →
  protocol_id f = KLF_PROTOCOL_ID ∧ (length (payload f) ≤ MAX_PAYLOAD_LENGTH)%nat
  ∧ bytes = wire (command f) (payload f).
Proof.
  intros H. destruct (decide (protocol_id f = KLF_PROTOCOL_ID)) as [Hp|Hp].
  2:{ unfold encode in H. replace (protocol_id f =? KLF_PROTOCOL_ID) with false in H by lia. done. }
  destruct (decide (length (payload f) ≤ MAX_PAYLOAD_LENGTH)%nat) as [Hl|Hl].
  2:{ unfold encode in H. rewrite Hp in H. simpl in H.
      by rewrite (proj2 (Nat.ltb_lt _ _)) in H by lia. }
  rewrite encode_wire in H by done. naive_solver.
Qed.

Lemma checksum_app a b : checksum (a ++ b) = fold_left Z.lxor b (checksum a).
Proof. apply fold_left_app. Qed.

Lemma fold_lxor_acc bs acc : fold_left Z.lxor bs acc = Z.lxor acc (checksum bs).
Proof.
  unfold checksum. revert acc. induction bs as [|b bs IH]; intros acc; simpl.
  - by rewrite Z.lxor_0_r.
  - rewrite IH, (IH (Z.lxor 0 b)). by rewrite Z.lxor_0_l, Z.lxor_assoc.
Qed.

Lemma checksum_u8 bs : Forall is_u8 bs → is_u8 (checksum bs).
Proof.
  unfold checksum. assert (is_u8 0) as H0 by done. revert H0. generalize 0.
  induction bs as [|b bs IH]; intros acc Hacc Hb; simpl; [done|].
  inversion Hb; subst. apply IH; [by apply lxor_u8|done].
Qed.

(** A message followed by its checksum has checksum zero, and conversely. *)
Lemma checksum_zero bs c : checksum (bs ++ [c]) = 0 ↔ c = checksum bs.
Proof. rewrite checksum_app. simpl. rewrite Z.lxor_eq_0_iff. split; congruence. Qed.

(** Replacing one byte changes the checksum. *)
Lemma checksum_insert bs i x y :
  bs !! i = Some x → checksum (<[i := y]> bs) = checksum bs → y = x.
Proof.
  intros Hi. assert (i < length bs)%nat as Hlt by by eapply lookup_lt_Some.
  rewrite insert_take_drop by done. rewrite <- (take_drop_middle bs i x Hi) at 3.
  rewrite !checksum_app. simpl. rewrite !fold_lxor_acc, !(Z.lxor_assoc (checksum (take i bs))).
  intros H. apply (f_equal (Z.lxor (checksum (take i bs)))) in H.
  rewrite <- !Z.lxor_assoc, !Z.lxor_nilpotent, !Z.lxor_0_l in H.
  apply (f_equal (λ z, Z.lxor z (checksum (drop (S i) bs)))) in H.
  by rewrite !Z.lxor_assoc, !Z.lxor_nilpotent, !Z.lxor_0_r in H.
Qed.

(** ** What [decode] accepts

    [accepted bytes f] states the envelope without reference to indices. *)
Definition accepted (bytes : list Z) (f : t) : Prop :=
  ∃ b2 b3 pl,
    bytes = [KLF_PROTOCOL_ID; Z.of_nat (length pl + 3); b2; b3] ++ pl
            ++ [checksum ([KLF_PROTOCOL_ID; Z.of_nat (length pl + 3); b2; b3] ++ pl)]
    ∧ f = mk KLF_PROTOCOL_ID (CommandId_new (u16_from_be_bytes b2 b3)) pl.

Lemma split_frame (bytes : list Z) :
  (FRAME_OVERHEAD ≤ length bytes)%nat →
  ∃ b0 b1 b2 b3 pl c, bytes = [b0; b1; b2; b3] ++ pl ++ [c].
Proof.
  unfold FRAME_OVERHEAD. intros Hl.
  destruct bytes as [|b0 [|b1 [|b2 [|b3 rest]]]]; simpl in Hl; try lia.
  destruct rest as [|c pl _] using rev_ind; [simpl in Hl; lia|]. by exists b0, b1, b2, b3, pl, c.
Qed.

(** [decode] on a split frame, branch by branch. *)
Lemma decode_split b0 b1 b2 b3 pl c :
  let header := [b0; b1; b2; b3] ++ pl in
  decode ([b0; b1; b2; b3] ++ pl ++ [c]) =
    if negb (b0 =? KLF_PROTOCOL_ID) then Err (KlfError.InvalidProtocolId b0)
    else if negb (Z.to_nat b1 =? length pl + 3)%nat then
      Err (KlfError.InvalidFrameLength (Z.to_nat b1) (length pl + 3))
    else if negb (checksum header =? c) then Err (KlfError.InvalidChecksum (checksum header) c)
    else Ok (mk b0 (CommandId_new (u16_from_be_bytes b2 b3)) pl).
Proof.
  intros header. set (bytes := [b0; b1; b2; b3] ++ pl ++ [c]).
  assert (length bytes = length pl + 5)%nat as Hl.
  { unfold bytes. rewrite !length_app. simpl. lia. }
  unfold decode. rewrite Hl. unfold FRAME_OVERHEAD. rewrite (proj2 (Nat.ltb_ge _ _)) by lia.
  replace (length pl + 5 - 2)%nat with (length pl + 3)%nat by lia.
  replace (length pl + 5 - 1)%nat with (length pl + 4)%nat by lia.
  assert (slice (E := KlfError.t) bytes 0 (length pl + 4) = Ok header) as Hchecked.
  { unfold bytes, header. rewrite app_assoc. change (?a ++ ?b) with ([] ++ a ++ b).
    apply slice_app; [done|]. rewrite length_app. simpl. lia. }
  assert (index (E := KlfError.t) bytes (length pl + 4) = Ok c) as Hlast.
  { unfold bytes. rewrite app_assoc. apply index_app. rewrite length_app. simpl. lia. }
  assert (slice (E := KlfError.t) bytes 4 (length pl + 4) = Ok pl) as Hpl.
  { apply slice_app; simpl; lia. }
  rewrite Hchecked, Hlast, Hpl. simpl.
  by repeat case_match.
Qed.

Lemma decode_accepted bytes f : Forall is_u8 bytes → decode bytes = Ok f ↔ accepted bytes f.
Proof.
  intros Hu. split.
  - intros Hd. destruct (decide (FRAME_OVERHEAD ≤ length bytes)%nat) as [Hl|Hl].
    2:{ unfold decode in Hd. by rewrite (proj2 (Nat.ltb_lt _ _)) in Hd by lia. }
    destruct (split_frame bytes Hl) as (b0 & b1 & b2 & b3 & pl & c & ->).
    rewrite decode_split in Hd.
    destruct (Z.eqb_spec b0 KLF_PROTOCOL_ID) as [->|]; [|done].
    destruct (Nat.eqb_spec (Z.to_nat b1) (length pl + 3)) as [H1|]; [|done].
    destruct (Z.eqb_spec (checksum ([KLF_PROTOCOL_ID; b1; b2; b3] ++ pl)) c) as [<-|]; [|done].
    simpl in Hd. injection Hd as <-. exists b2, b3, pl. rewrite <- H1, Z2Nat.id; [done|].
    apply (Forall_lookup_1 _ _ 1%nat b1) in Hu; [|done]. unfold is_u8 in Hu. lia.
  - intros (b2 & b3 & pl & -> & ->). rewrite decode_split, Nat2Z.id.
    by rewrite Nat.eqb_refl, !Z.eqb_refl.
Qed.

Lemma decode_no_panic bytes : decode bytes ≠ Panic.
Proof.
  destruct (decide (FRAME_OVERHEAD ≤ length bytes)%nat) as [Hl|Hl].
  2:{ unfold decode. by rewrite (proj2 (Nat.ltb_lt _ _)) by lia. }
  destruct (split_frame bytes Hl) as (b0 & b1 & b2 & b3 & pl & c & ->).
  rewrite decode_split. by repeat case_match.
Qed.

Lemma decode_wf bytes f :
  Forall is_u8 bytes → decode bytes = Ok f →
  wf f ∧ protocol_id f = KLF_PROTOCOL_ID ∧ (length (payload f) ≤ MAX_PAYLOAD_LENGTH)%nat.
Proof.
  intros Hu Hd. apply decode_accepted in Hd as (b2 & b3 & pl & -> & ->); [|done].
  apply Forall_app in Hu as [Hh Hu]. apply Forall_app in Hu as [Hu _].
  rewrite !Forall_cons in Hh. destruct Hh as (_ & H1 & H2 & H3 & _).
  unfold wf. simpl. split_and!; [auto with klf|done|done|].
  unfold MAX_PAYLOAD_LENGTH. unfold is_u8 in H1. lia.
Qed.

Lemma wire_accepted command payload :
  is_u16 (raw command) →
  accepted (wire command payload) (new command payload).
Proof.
  intros Hc. exists (raw command / 256), (raw command mod 256), payload. split.
  - unfold wire, envelope, u16_to_be_bytes. by rewrite <- !app_assoc.
  - unfold new. by rewrite u16_from_to_be_bytes; destruct command.
Qed.

Lemma accepted_checksum bytes f : accepted bytes f → checksum bytes = 0.
Proof. intros (b2 & b3 & pl & -> & _). rewrite app_assoc. by apply checksum_zero. Qed.

Lemma wire_u8 command payload :
  is_u16 (raw command) → Forall is_u8 payload → (length payload ≤ MAX_PAYLOAD_LENGTH)%nat →
  Forall is_u8 (wire command payload) ∧ length (wire command payload) = (length payload + 5)%nat.
Proof.
  intros Hc Hp Hl. unfold MAX_PAYLOAD_LENGTH in Hl.
  assert (Forall is_u8 (envelope command payload)) as He.
  { apply Forall_app; split; [|apply Forall_app; split; auto with klf].
    repeat constructor; unfold is_u8, KLF_PROTOCOL_ID; lia. }
  split.
  - apply Forall_app; split; [done|]. repeat constructor; apply checksum_u8; done.
  - unfold wire, envelope. rewrite !length_app. simpl. lia.
Qed.
End FrameFacts.

(** * Properties *)
Import FrameFacts.

(** C31: encoding a frame succeeds exactly for the protocol identifier 0 and a payload of at
    most 252 bytes, with the corresponding error otherwise, and decoding the bytes gives the
    frame back. *)
Theorem frame_encode_decode (f : Frame.t) :
  Frame.wf f →
  match Frame.encode f with
  | Ok bytes =>
      Frame.decode bytes = Ok f ∧ Forall is_u8 bytes
      ∧ length bytes = (length (Frame.payload f) + FRAME_OVERHEAD)%nat
  | Err (KlfError.InvalidProtocolId p) =>
      p = Frame.protocol_id f ∧ Frame.protocol_id f ≠ KLF_PROTOCOL_ID
  | Err (KlfError.PayloadTooLarge n) =>
      n = length (Frame.payload f) ∧ (MAX_PAYLOAD_LENGTH < n)%nat
  | _ => False
  end.
Proof.
  intros [Hc Hp]. destruct (decide (Frame.protocol_id f = KLF_PROTOCOL_ID)) as [H0|H0].
  2:{ unfold Frame.encode. by rewrite (proj2 (Z.eqb_neq _ _) H0). }
  destruct (decide (length (Frame.payload f) ≤ MAX_PAYLOAD_LENGTH)%nat) as [Hl|Hl].
  2:{ unfold Frame.encode. rewrite H0, Z.eqb_refl. cbn [negb].
      rewrite (proj2 (Nat.ltb_lt _ _)) by lia. split; [done|lia]. }
  rewrite encode_wire by done. destruct (wire_u8 (Frame.command f) (Frame.payload f)) as [Hu Hlen];
    [done..|]. split_and!; [|done|done].
  apply decode_accepted; [done|]. destruct f as [p c pl]; simpl in *. subst p. by apply wire_accepted.
Qed.

Lemma frame_encode_decode_witness :
  Frame.wf (Frame.new GW_GET_STATE_REQ [192; 219])
  ∧ Frame.decode [0; 5; 0; 12; 192; 219; 18] = Ok (Frame.new GW_GET_STATE_REQ [192; 219]).
Proof.
  assert (Frame.wf (Frame.new GW_GET_STATE_REQ [192; 219])) as Hwf
    by (apply (bool_decide_unpack _); vm_compute; exact I).
  split; [exact Hwf|]. exact (proj1 (frame_encode_decode _ Hwf)).
Defined.

(** Decoding is total on byte strings and accepts exactly the encodings: a decoded frame
    encodes to the same bytes, and bytes that are refused are the encoding of no frame. *)
Theorem frame_decode_canonical (bytes : list Z) :
  Forall is_u8 bytes →
  match Frame.decode bytes with
  | Ok f => Frame.wf f ∧ Frame.encode f = Ok bytes
  | Err _ => ∀ f, Frame.wf f → Frame.encode f ≠ Ok bytes
  | Panic => False
  end.
Proof.
  intros Hu. destruct (Frame.decode bytes) as [f|e|] eqn:Hd.
  - pose proof (decode_wf _ _ Hu Hd) as (Hwf & Hp & Hl). split; [done|].
    rewrite encode_wire by done. f_equal.
    apply decode_accepted in Hd as (b2 & b3 & pl & -> & ->); [|done].
    apply Forall_app in Hu as [Hh _]. rewrite !Forall_cons in Hh.
    unfold wire, envelope. cbn [Frame.command Frame.payload raw].
    rewrite u16_to_from_be_bytes by naive_solver. by rewrite <- !app_assoc.
  - intros f [Hc Hp] (Hp0 & Hl & ->)%encode_ok_inv.
    assert (accepted (wire (Frame.command f) (Frame.payload f))
              (Frame.new (Frame.command f) (Frame.payload f))) as Ha by by apply wire_accepted.
    apply decode_accepted in Ha; [|done]. congruence.
  - by apply decode_no_panic in Hd.
Qed.

Lemma frame_decode_canonical_witness :
  Frame.encode (Frame.new GW_ERROR_NTF [7]) = Ok [0; 4; 0; 0; 7; 3].
Proof.
  refine (proj2 (frame_decode_canonical [0; 4; 0; 0; 7; 3] _)).
  apply (bool_decide_unpack _); vm_compute; exact I.
Defined.

(** The checksum detects every corruption of a single byte of an encoded frame. *)
Theorem frame_single_byte_corruption (f : Frame.t) (bytes : list Z) (i : nat) (y : Z) :
  Frame.wf f → Frame.encode f = Ok bytes →
  (i < length bytes)%nat → is_u8 y → bytes !! i ≠ Some y →
  ∃ e, Frame.decode (<[i := y]> bytes) = Err e.
Proof.
  intros [Hc Hp] (Hp0 & Hl & ->)%encode_ok_inv Hi Hy Hne.
  set (bytes := wire _ _) in *. destruct (Frame.decode (<[i:=y]> bytes)) as [g|e|] eqn:Hd;
    [|by eauto|by apply decode_no_panic in Hd].
  destruct (wire_u8 _ _ Hc Hp Hl) as [Hu _].
  apply decode_accepted, accepted_checksum in Hd; [|by apply Forall_insert].
  assert (Frame.checksum bytes = 0) as H0.
  { by eapply accepted_checksum, wire_accepted. }
  destruct (lookup_lt_is_Some_2 bytes i Hi) as [x Hx].
  rewrite (checksum_insert _ _ _ y Hx) in Hne by congruence. done.
Qed.

Lemma frame_single_byte_corruption_witness :
  ∃ e, Frame.decode [0; 5; 0; 13; 192; 219; 18] = Err e.
Proof.
  refine (frame_single_byte_corruption (Frame.new GW_GET_STATE_REQ [192; 219])
            [0; 5; 0; 12; 192; 219; 18] 3 13 _ _ _ _ _).
  - apply (bool_decide_unpack _); vm_compute; exact I.
  - reflexivity.
  - simpl; lia.
  - unfold is_u8; lia.
  - discriminate.
Defined.
