(* ===== verification/Slip.v ===== *)
(** * SLIP framing of the byte stream (klf200/slip.rs)

    [encode] delimits a frame with END bytes and escapes END and ESC inside it; [Decoder]
    is an incremental decoder with a bounded buffer that resynchronises at the next END
    after an error. *)

From S2P Require Import Prelude Error.

Definition END : Z := 0xC0.
Definition ESC : Z := 0xDB.
Definition ESC_END : Z := 0xDC.
Definition ESC_ESC : Z := 0xDD.
Definition DEFAULT_MAX_FRAME_LENGTH : nat := 1024.

Module Slip.
(** The loop body of [encode] and its concatenation *)
Definition escape_byte (byte : Z) : list Z :=
  if byte =? END then [ESC; ESC_END]
  else if byte =? ESC then [ESC; ESC_ESC]
  else [byte].

Definition escape (frame : list Z) : list Z := concat (escape_byte <$> frame).

Definition encode (frame : list Z) : list Z := [END] ++ escape frame ++ [END].
End Slip.

Module Decoder.
Record t := mk {
  buffer : list Z;
  maximum_length : nat;
  started : bool;
  escaped : bool;
  discarding : bool
}.

Definition new (maximum_length : nat) : t := mk [] maximum_length false false false.
Definition default : t := new DEFAULT_MAX_FRAME_LENGTH.

(** The end of the loop body: the byte joins the buffer unless it is full. *)
Definition push_decoded (d : t) (decoded_byte : Z) : t * list (KlfResult (list Z)) :=
  if (length (buffer d) =? maximum_length d)%nat then
    (mk [] (maximum_length d) (started d) (escaped d) true,
     [Err (KlfError.SlipFrameTooLarge (maximum_length d))])
  else
    (mk (buffer d ++ [decoded_byte]) (maximum_length d) (started d) (escaped d) (discarding d), []).

(** The END branch of the loop body *)
Definition push_end (d : t) : t * list (KlfResult (list Z)) :=
  let decoded :=
    if negb (started d) then []
    else if escaped d && negb (discarding d) then [Err KlfError.IncompleteSlipEscape]
    else if negb (discarding d) && negb (bool_decide (buffer d = [])) then [Ok (buffer d)]
    else [] in
  (mk [] (maximum_length d) true false false, decoded).

(** One round of [for &byte in input]: the new state and what is pushed on [decoded] *)
Definition push_byte (d : t) (byte : Z) : t * list (KlfResult (list Z)) :=
  if byte =? END then push_end d
  else if negb (started d) || discarding d then (d, [])
  else if escaped d then
    let d := mk (buffer d) (maximum_length d) (started d) false (discarding d) in
    if byte =? ESC_END then push_decoded d END
    else if byte =? ESC_ESC then push_decoded d ESC
    else (mk [] (maximum_length d) (started d) (escaped d) true,
          [Err (KlfError.InvalidSlipEscape byte)])
  else if byte =? ESC then
    (mk (buffer d) (maximum_length d) (started d) true (discarding d), [])
  else push_decoded d byte.

Fixpoint push (d : t) (input : list Z) : t * list (KlfResult (list Z)) :=
  match input with
  | [] => (d, [])
  | byte :: input =>
      let (d1, out1) := push_byte d byte in
      let (d2, out2) := push d1 input in
      (d2, out1 ++ out2)
  end.

(** ** The reference decoder

    What one segment between two ENDs yields, by recursion on the segment, without the
    decoder's mode flags; [acc] is the message so far. *)
Fixpoint segment_result (maximum : nat) (acc segment : list Z) : list (KlfResult (list Z)) :=
  match segment with
  | [] => if decide (acc = []) then [] else [Ok acc]
  | byte :: rest =>
      let accept b rest :=
        if decide (length acc = maximum) then [Err (KlfError.SlipFrameTooLarge maximum)]
        else segment_result maximum (acc ++ [b]) rest in
      if decide (byte = ESC) then
        match rest with
        | [] => [Err KlfError.IncompleteSlipEscape]
        | code :: rest =>
            if decide (code = ESC_END) then accept END rest
            else if decide (code = ESC_ESC) then accept ESC rest
            else [Err (KlfError.InvalidSlipEscape code)]
        end
      else accept byte rest
  end.
End Decoder.

(** * Facts *)
Module SlipFacts.
Import Slip Decoder.

Lemma escape_app a b : escape (a ++ b) = escape a ++ escape b.
Proof. unfold escape. by rewrite fmap_app, concat_app. Qed.

Lemma escape_cons x b : escape (x :: b) = escape_byte x ++ escape b.
Proof. done. Qed.

Lemma escape_no_end frame : END ∉ escape frame.
Proof.
  induction frame as [|x frame IH]; [by apply not_elem_of_nil|].
  rewrite escape_cons, elem_of_app. intros [H|H]; [|done].
  unfold escape_byte in H. repeat case_match; set_solver.
Qed.

Lemma escape_u8 frame : Forall is_u8 frame → Forall is_u8 (escape frame).
Proof.
  induction 1 as [|x frame Hx _ IH]; [constructor|]. rewrite escape_cons.
  apply Forall_app; split; [|done]. unfold escape_byte.
  repeat case_match; repeat constructor; unfold is_u8, ESC, ESC_END, ESC_ESC in *; lia.
Qed.

Lemma push_app d a b :
  push d (a ++ b) =
    let (d1, out1) := push d a in let (d2, out2) := push d1 b in (d2, out1 ++ out2).
Proof.
  revert d. induction a as [|x a IH]; intros d; simpl.
  - by destruct (push d b).
  - destruct (push_byte d x) as [d1 o1]. rewrite IH.
    destruct (push d1 a) as [d2 o2]. destruct (push d2 b) as [d3 o3]. by rewrite app_assoc.
Qed.

(** ** The state invariant *)
Definition wf (d : t) : Prop :=
  (length (buffer d) ≤ maximum_length d)%nat
  ∧ (discarding d = true → escaped d = false ∧ buffer d = [])
  ∧ (started d = false → d = new (maximum_length d)).

(** Between frames: everything read so far has been reported. *)
Definition idle (maximum : nat) : t := mk [] maximum true false false.

Lemma new_wf maximum : wf (new maximum).
Proof. split_and!; simpl; [lia|done|done]. Qed.

Lemma idle_wf maximum : wf (idle maximum).
Proof. split_and!; simpl; [lia|done|done]. Qed.

Lemma push_byte_wf d byte :
  wf d → wf (fst (push_byte d byte)) ∧ maximum_length (fst (push_byte d byte)) = maximum_length d.
Proof.
  destruct d as [buf m st es di]. intros (Hl & Hd & Hs). simpl in *.
  unfold push_byte, push_end, push_decoded; simpl.
  repeat case_match; simpl in *; simplify_eq; unfold wf; simpl;
    repeat match goal with
      | H : (_ || _) = false |- _ => apply orb_false_iff in H as [? ?]
      | H : (_ =? _)%nat = false |- _ => apply Nat.eqb_neq in H
      | H : negb _ = false |- _ => apply negb_false_iff in H
      end; subst; rewrite ?length_app; simpl; split_and!; try done; try lia; naive_solver lia.
Qed.

Lemma push_wf d input :
  wf d → wf (fst (push d input)) ∧ maximum_length (fst (push d input)) = maximum_length d.
Proof.
  revert d. induction input as [|x input IH]; intros d Hwf; simpl; [done|].
  pose proof (push_byte_wf d x Hwf) as [H1 H2]. destruct (push_byte d x) as [d1 o1].
  specialize (IH d1 H1). destruct (push d1 input) as [d2 o2]. simpl in *. by rewrite <- H2.
Qed.

(** ** Segments *)
Lemma push_discarding d segment :
  discarding d = true → END ∉ segment → push d segment = (d, []).
Proof.
  intros Hd. induction segment as [|x segment IH]; intros Hs; simpl; [done|].
  apply not_elem_of_cons in Hs as [Hx Hs]. unfold push_byte.
  rewrite (proj2 (Z.eqb_neq x END)) by congruence. rewrite Hd, orb_true_r, IH by done. done.
Qed.

(** A decoder in the middle of a segment, and what the rest of the segment and its END
    yield. *)
Definition reading (maximum : nat) (acc : list Z) : t := mk acc maximum true false false.

Lemma push_end_discarding maximum es segment :
  END ∉ segment → push (mk [] maximum true es true) (segment ++ [END]) = (idle maximum, []).
Proof.
  intros Hs. rewrite push_app, push_discarding by done. simpl.
  unfold push_end; simpl. by rewrite andb_false_r.
Qed.

Lemma push_accept maximum acc b segment :
  (let (d1, out1) := push_decoded (reading maximum acc) b in
   let (d2, out2) := push d1 segment in (d2, out1 ++ out2)) =
  if decide (length acc = maximum)
  then let (d2, out2) := push (mk [] maximum true false true) segment in
       (d2, Err (KlfError.SlipFrameTooLarge maximum) :: out2)
  else push (reading maximum (acc ++ [b])) segment.
Proof.
  unfold push_decoded. simpl. destruct (decide (length acc = maximum)) as [->|Hne].
  - by rewrite Nat.eqb_refl.
  - rewrite (proj2 (Nat.eqb_neq _ _) Hne). simpl. by destruct (push _ segment).
Qed.

Lemma push_segment maximum acc segment :
  END ∉ segment →
  push (reading maximum acc) (segment ++ [END])
  = (idle maximum, segment_result maximum acc segment).
Proof.
  remember (length segment) as n eqn:Hn. revert acc segment Hn.
  induction n as [n IH] using lt_wf_ind; intros acc segment -> Hs.
  destruct segment as [|x segment].
  { simpl. unfold push_end; simpl. by repeat (case_decide || case_bool_decide). }
  apply not_elem_of_cons in Hs as [Hx Hs].
  assert (∀ b rest, (length rest < length (x :: segment))%nat → END ∉ rest →
    (if decide (length acc = maximum)
     then let (d2, out2) := push (mk [] maximum true false true) (rest ++ [END]) in
          (d2, Err (KlfError.SlipFrameTooLarge maximum) :: out2)
     else push (reading maximum (acc ++ [b])) (rest ++ [END])) =
    (idle maximum, if decide (length acc = maximum)
                   then [Err (KlfError.SlipFrameTooLarge maximum)]
                   else segment_result maximum (acc ++ [b]) rest)) as Haccept.
  { intros b rest Hlen Hrest. case_decide; [by rewrite push_end_discarding|].
    by apply (IH (length rest)). }
  cbn [app push segment_result]. unfold push_byte.
  rewrite (proj2 (Z.eqb_neq x END)) by congruence. cbn [started discarding negb orb reading escaped].
  destruct (decide (x = ESC)) as [->|Hesc].
  2:{ rewrite (proj2 (Z.eqb_neq x ESC)) by done. rewrite push_accept.
      apply Haccept; [simpl; lia|done]. }
  rewrite Z.eqb_refl. destruct segment as [|code rest]; [done|].
  apply not_elem_of_cons in Hs as [Hc Hs]. cbn [app push]. unfold push_byte.
  rewrite (proj2 (Z.eqb_neq code END)) by congruence.
  cbn [started discarding negb orb reading escaped buffer maximum_length].
  destruct (decide (code = ESC_END)) as [->|H1].
  { rewrite Z.eqb_refl. fold (reading maximum acc). rewrite push_accept.
    rewrite Haccept; [done|simpl; lia|done]. }
  rewrite (proj2 (Z.eqb_neq code ESC_END)) by done.
  destruct (decide (code = ESC_ESC)) as [->|H2].
  { rewrite Z.eqb_refl. fold (reading maximum acc). rewrite push_accept.
    rewrite Haccept; [done|simpl; lia|done]. }
  rewrite (proj2 (Z.eqb_neq code ESC_ESC)) by done. by rewrite push_end_discarding.
Qed.

(** The escaped form of a frame is decoded when it fits the buffer. *)
Lemma segment_result_escape maximum acc frame :
  (length acc ≤ maximum)%nat →
  segment_result maximum acc (escape frame) =
    if decide (length acc + length frame ≤ maximum)%nat
    then if decide (acc ++ frame = []) then [] else [Ok (acc ++ frame)]
    else [Err (KlfError.SlipFrameTooLarge maximum)].
Proof.
  revert acc. induction frame as [|x frame IH]; intros acc Hacc.
  { simpl. rewrite app_nil_r. by rewrite (decide_True (P := (_ ≤ _)%nat)) by lia. }
  assert (∀ b, (if decide (length acc = maximum) then [Err (KlfError.SlipFrameTooLarge maximum)]
                else segment_result maximum (acc ++ [b]) (escape frame)) =
    if decide (length acc + length (b :: frame) ≤ maximum)%nat
    then if decide (acc ++ b :: frame = []) then [] else [Ok (acc ++ b :: frame)]
    else [Err (KlfError.SlipFrameTooLarge maximum)]) as Haccept.
  { intros b. destruct (decide (length acc = maximum)) as [->|Hne].
    - by rewrite (decide_False (P := (_ ≤ _)%nat)) by (simpl; lia).
    - rewrite IH by (rewrite length_app; simpl; lia). rewrite length_app, <- app_assoc. simpl.
      replace (length acc + 1 + length frame)%nat with (length acc + S (length frame))%nat by lia.
      done. }
  rewrite escape_cons. unfold escape_byte.
  destruct (Z.eqb_spec x END) as [->|Hend]; [exact (Haccept END)|].
  destruct (Z.eqb_spec x ESC) as [->|Hesc]; [exact (Haccept ESC)|].
  simpl. rewrite decide_False by done. exact (Haccept x).
Qed.

(** From any state the first END of an encoded frame returns the decoder to idle. *)
Lemma push_encode d frame :
  push d (encode frame) =
    (idle (maximum_length d),
     snd (push_end d) ++ segment_result (maximum_length d) [] (escape frame)).
Proof.
  unfold encode. rewrite push_app. cbn [push]. unfold push_byte at 1. rewrite Z.eqb_refl.
  assert (fst (push_end d) = reading (maximum_length d) []) as Hf by done.
  destruct (push_end d) as [d1 out1]. simpl in Hf. subst d1.
  rewrite push_segment by apply escape_no_end. by rewrite app_nil_r.
Qed.

Lemma push_encode_ok d frame :
  frame ≠ [] → (length frame ≤ maximum_length d)%nat →
  push d (encode frame) = (idle (maximum_length d), snd (push_end d) ++ [Ok frame]).
Proof.
  intros Hne Hl. rewrite push_encode, segment_result_escape by (simpl; lia).
  rewrite decide_True by (simpl; lia). simpl. by rewrite decide_False.
Qed.

Lemma push_garbage maximum garbage :
  END ∉ garbage → push (new maximum) garbage = (new maximum, []).
Proof.
  induction garbage as [|x garbage IH]; intros Hg; simpl; [done|].
  apply not_elem_of_cons in Hg as [Hx Hg]. unfold push_byte.
  rewrite (proj2 (Z.eqb_neq x END)) by congruence. simpl. by rewrite IH.
Qed.

(** A stream of encoded frames, after noise before the first END. *)
Lemma push_stream maximum garbage frames :
  END ∉ garbage →
  Forall (λ f, f ≠ [] ∧ (length f ≤ maximum)%nat) frames →
  snd (push (new maximum) (garbage ++ concat (encode <$> frames))) = (Ok <$> frames).
Proof.
  intros Hg Hf. rewrite push_app, push_garbage by done.
  assert (∀ d, maximum_length d = maximum → snd (push_end d) = [] →
    snd (push d (concat (encode <$> frames))) = (Ok <$> frames)) as H.
  { clear Hg garbage. induction Hf as [|f frames [Hne Hl] _ IH]; intros d Hm Hend; [done|].
    cbn [fmap list_fmap concat]. rewrite push_app, push_encode_ok by (done || by rewrite Hm).
    rewrite Hend, Hm. specialize (IH (idle maximum) eq_refl eq_refl).
    destruct (push (idle maximum) _) as [d2 o2]. simpl in *. by rewrite IH. }
  specialize (H (new maximum) eq_refl eq_refl). by destruct (push (new maximum) _).
Qed.

Definition push_chunks (d : t) (chunks : list (list Z)) : t * list (KlfResult (list Z)) :=
  fold_left (λ '(d, out) chunk, let (d', out') := push d chunk in (d', out ++ out')) chunks (d, []).

Lemma push_chunks_acc d out chunks :
  fold_left (λ '(d, out) chunk, let (d', out') := push d chunk in (d', out ++ out')) chunks (d, out)
  = let (d', out') := push d (concat chunks) in (d', out ++ out').
Proof.
  revert d out. induction chunks as [|c chunks IH]; intros d out; simpl.
  - by rewrite app_nil_r.
  - rewrite push_app. destruct (push d c) as [d1 o1]. rewrite IH.
    destruct (push d1 (concat chunks)) as [d2 o2]. by rewrite app_assoc.
Qed.

Definition reported (maximum : nat) (r : KlfResult (list Z)) : Prop :=
  match r with
  | Ok frame => frame ≠ [] ∧ (length frame ≤ maximum)%nat ∧ Forall is_u8 frame
  | Err (KlfError.InvalidSlipEscape b) => b ≠ END ∧ b ≠ ESC_END ∧ b ≠ ESC_ESC
  | Err KlfError.IncompleteSlipEscape => True
  | Err (KlfError.SlipFrameTooLarge m) => m = maximum
  | _ => False
  end.

Lemma push_byte_reported maximum d x :
  wf d → maximum_length d = maximum → Forall is_u8 (buffer d) → is_u8 x →
  Forall is_u8 (buffer (fst (push_byte d x))) ∧ Forall (reported maximum) (snd (push_byte d x)).
Proof.
  destruct d as [buf m st es di]. intros (Hl & Hd & Hs) <- Hb Hx. simpl in *.
  unfold push_byte, push_end, push_decoded; simpl.
  repeat case_match; simplify_eq; simpl;
    repeat match goal with
      | H : (_ && _) = true |- _ => apply andb_true_iff in H as [? ?]
      | H : negb _ = true |- _ => apply negb_true_iff in H
      | H : bool_decide _ = false |- _ => apply bool_decide_eq_false in H
      | H : (_ =? _) = false |- _ => apply Z.eqb_neq in H
      end;
    split; repeat first [apply Forall_app; split | apply Forall_nil_2 | apply Forall_cons_2]; try done.
Qed.
End SlipFacts.

(** * Properties *)
Import SlipFacts.

(** Encoded frames survive the byte stream: a fresh decoder skips everything before the
    first END, and then reports exactly the non-empty frames that were encoded, in order, when
    each fits its buffer. *)
Theorem slip_stream_roundtrip (maximum : nat) (garbage : list Z) (frames : list (list Z)) :
  END ∉ garbage →
  Forall (λ f, f ≠ [] ∧ (length f ≤ maximum)%nat) frames →
  snd (Decoder.push (Decoder.new maximum) (garbage ++ concat (Slip.encode <$> frames)))
  = (Ok <$> frames).
Proof. apply push_stream. Qed.

Lemma slip_stream_roundtrip_witness :
  snd (Decoder.push (Decoder.new 3) ([7] ++ concat (Slip.encode <$> [[192; 1; 219]; [5]])))
  = [Ok [192; 1; 219]; Ok [5]].
Proof.
  refine (slip_stream_roundtrip 3 [7] [[192; 1; 219]; [5]] _ _);
    apply (bool_decide_unpack _); vm_compute; exact I.
Defined.

(** However the stream is cut into reads, the decoder ends in the same state and reports
    the same results. *)
Theorem slip_fragmentation (d : Decoder.t) (chunks : list (list Z)) :
  push_chunks d chunks = Decoder.push d (concat chunks).
Proof.
  unfold push_chunks. rewrite push_chunks_acc. by destruct (Decoder.push d (concat chunks)).
Qed.

(** The stateful decoder is equivalent to the reference: END-free segments, each closed
    by an END, are reported as [segment_result] says, each independently of the others. *)
Theorem slip_segments (maximum : nat) (garbage : list Z) (segments : list (list Z)) :
  END ∉ garbage → Forall (λ s, END ∉ s) segments →
  Decoder.push (Decoder.new maximum) (garbage ++ [END] ++ concat ((λ s, s ++ [END]) <$> segments))
  = (idle maximum, concat (Decoder.segment_result maximum [] <$> segments)).
Proof.
  intros Hg Hs. rewrite push_app, push_garbage by done. cbn [app Decoder.push].
  unfold Decoder.push_byte. rewrite Z.eqb_refl. cbn.
  assert (Decoder.push (idle maximum) (concat ((λ s, s ++ [END]) <$> segments))
    = (idle maximum, concat (Decoder.segment_result maximum [] <$> segments))) as H.
  { induction Hs as [|s segments Hs _ IH]; [done|]. cbn [fmap list_fmap concat].
    rewrite push_app. unfold idle at 1. fold (reading maximum []).
    rewrite push_segment by done. by rewrite IH. }
  unfold idle in *. by rewrite H.
Qed.

Lemma slip_segments_witness :
  Decoder.push (Decoder.new 2) [9; 192; 1; 192; 219; 192; 1; 2; 3; 4; 192; 219; 7; 8; 192; 219; 220; 192]
  = (idle 2, [Ok [1]; Err KlfError.IncompleteSlipEscape; Err (KlfError.SlipFrameTooLarge 2);
              Err (KlfError.InvalidSlipEscape 7); Ok [192]]).
Proof.
  refine (slip_segments 2 [9] [[1]; [219]; [1; 2; 3; 4]; [219; 7; 8]; [219; 220]] _ _);
    apply (bool_decide_unpack _); vm_compute; exact I.
Defined.

(** C30: in any state, an encoded frame that fits is reported after at most one result about
    what preceded it, so the decoder resynchronises within one frame. *)
Theorem slip_resynchronises (d : Decoder.t) (frame : list Z) :
  frame ≠ [] → (length frame ≤ Decoder.maximum_length d)%nat →
  ∃ before, Decoder.push d (Slip.encode frame)
            = (idle (Decoder.maximum_length d), before ++ [Ok frame])
            ∧ (length before ≤ 1)%nat.
Proof.
  intros Hne Hl. exists (snd (Decoder.push_end d)). split; [by apply push_encode_ok|].
  unfold Decoder.push_end. simpl. repeat case_match; simpl; lia.
Qed.

Lemma slip_resynchronises_witness :
  ∃ before, Decoder.push (Decoder.mk [1; 2] 4 true true false) (Slip.encode [219])
            = (idle 4, before ++ [Ok [219]]) ∧ (length before ≤ 1)%nat.
Proof.
  refine (slip_resynchronises (Decoder.mk [1; 2] 4 true true false) [219] _ _);
    [discriminate|simpl; lia].
Defined.

(** The buffer never exceeds its maximum, whatever the peer sends, and every report of a
    fresh decoder is a non-empty frame within the bound or one of the three SLIP errors. *)
Theorem slip_buffer_bounded (maximum : nat) (input : list Z) :
  Forall is_u8 input →
  let (d, out) := Decoder.push (Decoder.new maximum) input in
  (length (Decoder.buffer d) ≤ maximum)%nat ∧ Forall (reported maximum) out.
Proof.
  intros Hu.
  assert (∀ d, wf d → Decoder.maximum_length d = maximum → Forall is_u8 (Decoder.buffer d) →
    let (d', out) := Decoder.push d input in
    (length (Decoder.buffer d') ≤ maximum)%nat ∧ Forall (reported maximum) out) as H.
  { induction Hu as [|x input Hx _ IH]; intros d Hwf Hm Hb; simpl.
    { destruct Hwf as [Hl _]. split; [lia|constructor]. }
    pose proof (push_byte_wf d x Hwf) as [H1 H2].
    pose proof (push_byte_reported maximum d x Hwf Hm Hb Hx) as [H3 H4].
    destruct (Decoder.push_byte d x) as [d1 o1]. simpl in *.
    specialize (IH d1 H1 ltac:(congruence) H3). destruct (Decoder.push d1 input) as [d2 o2].
    destruct IH. split; [done|]. by apply Forall_app. }
  apply H; [apply new_wf|done|constructor].
Qed.

Lemma slip_buffer_bounded_witness :
  let (d, out) := Decoder.push (Decoder.new 2) [192; 1; 2; 3] in
  (length (Decoder.buffer d) ≤ 2)%nat ∧ Forall (reported 2) out.
Proof.
  refine (slip_buffer_bounded 2 [192; 1; 2; 3] _). apply (bool_decide_unpack _); vm_compute; exact I.
Defined.
