(* ===== verification/Command.v ===== *)
(** * Requests and their wire encoding (klf200/command.rs)

    The request types and their encoders. An encoder writes the fields of its request into
    a zeroed buffer, at literal offsets, as the code does; [layout] below is the
    declarative specification (the fields in wire order), and [encode] refines it. *)

From S2P Require Import Prelude RustStd CommandIds Error Types Frame.

Definition MAX_TARGETS : nat := 20.

Module CommandTarget.
Record t := mk { nodes : list NodeId.t }.
Global Instance eq_dec : EqDecision t.
Proof. solve_decision. Defined.

Definition new (nodes : list NodeId.t) : KlfResult t :=
  if bool_decide (nodes = []) then
    Err (KlfError.InvalidRequest "at least one target node is required")
  else if (MAX_TARGETS <? length nodes)%nat then
    Err (KlfError.InvalidRequest "a request can target at most 20 nodes")
  else if existsb (λ '(index, node), bool_decide (node ∈ take index nodes)) (imap pair nodes) then
    Err (KlfError.InvalidRequest "target node IDs must be unique")
  else Ok (mk nodes).
End CommandTarget.

Module CommandRequest.
Record t := new { session_id : SessionId.t; main_parameter : StandardParameter.t }.
Global Instance eq_dec : EqDecision t.
Proof. solve_decision. Defined.
End CommandRequest.

Module WinkRequest.
Record t := mk {
  session_id : SessionId.t;
  command_originator : Z;
  priority_level : Z;
  enabled : bool;
  wink_time : Z;
  target : CommandTarget.t
}.
Global Instance eq_dec : EqDecision t.
Proof. solve_decision. Defined.
End WinkRequest.

Module SetLimitationRequest.
Record t := mk {
  session_id : SessionId.t;
  command_originator : Z;
  priority_level : Z;
  target : CommandTarget.t;
  parameter_id : Z;
  minimum : StandardParameter.t;
  maximum : StandardParameter.t;
  limitation_time : Z
}.
Global Instance eq_dec : EqDecision t.
Proof. solve_decision. Defined.
End SetLimitationRequest.

Module GetLimitationStatusRequest.
Record t := mk {
  session_id : SessionId.t;
  target : CommandTarget.t;
  parameter_id : Z;
  limitation_type : Z
}.
Global Instance eq_dec : EqDecision t.
Proof. solve_decision. Defined.
End GetLimitationStatusRequest.

Module ModeRequest.
Record t := mk {
  session_id : SessionId.t;
  command_originator : Z;
  priority_level : Z;
  mode_number : Z;
  mode_parameter : Z;
  target : CommandTarget.t;
  priority_level_lock : bool;
  priority_level_settings : list Z;
  lock_time : Z
}.
Global Instance eq_dec : EqDecision t.
Proof. solve_decision. Defined.
End ModeRequest.

Module SceneActivationRequest.
Record t := mk {
  session_id : SessionId.t;
  command_originator : Z;
  priority_level : Z;
  scene_id : Z;
  velocity : Z
}.
Global Instance eq_dec : EqDecision t.
Proof. solve_decision. Defined.
End SceneActivationRequest.

Module SceneStopRequest.
Record t := mk {
  session_id : SessionId.t;
  command_originator : Z;
  priority_level : Z;
  scene_id : Z
}.
Global Instance eq_dec : EqDecision t.
Proof. solve_decision. Defined.
End SceneStopRequest.

Module ProductGroupActivationRequest.
Record t := mk {
  session_id : SessionId.t;
  command_originator : Z;
  priority_level : Z;
  product_group_id : Z;
  parameter_id : Z;
  position : StandardParameter.t;
  velocity : Z;
  priority_level_lock : bool;
  priority_level_settings : list Z;
  lock_time : Z
}.
Global Instance eq_dec : EqDecision t.
Proof. solve_decision. Defined.
End ProductGroupActivationRequest.

(** ** Encoding helpers *)

(** [for (slot, node_id) in destination.iter_mut().zip(nodes) { *slot = node_id.get() }] *)
Fixpoint assign_nodes (destination : list Z) (nodes : list NodeId.t) : list Z :=
  match destination, nodes with
  | _ :: destination, node_id :: nodes =>
      NodeId.get node_id :: assign_nodes destination nodes
  | destination, _ => destination
  end.

Definition encode_target (destination : list Z) (target : CommandTarget.t) : list Z * Z :=
  (assign_nodes destination (CommandTarget.nodes target),
   default 0 (u8_try_from (length (CommandTarget.nodes target)))).

(** [packed << 2] drops the bits above the eighth. *)
Definition pack_two_bit_settings (settings : list Z) : Z :=
  fold_left (λ packed setting, Z.lor (Z.land (Z.shiftl packed 2) 255) setting) settings 0.

Definition validate_priority_settings (settings : list Z) : KlfResult unit :=
  if existsb (λ setting, setting >? 3) settings then
    Err (KlfError.InvalidRequest "priority-level settings must be in the range 0..=3")
  else Ok tt.

(** ** The encoders *)
Definition encode_network_setup (setup : NetworkSetup.t) : KlfResult (list Z) :=
  let payload := replicate 13 0 in
  payload ← payload.[0 ..< 4 <- NetworkSetup.ip_address setup];
  payload ← payload.[4 ..< 8 <- NetworkSetup.subnet_mask setup];
  payload ← payload.[8 ..< 12 <- NetworkSetup.default_gateway setup];
  payload ← payload.[12 <- u8_from_bool (NetworkSetup.dhcp setup)];
  Ok payload.

Definition encode_node_set (nodes : NodeSet.t) : KlfResult (list Z) :=
  let payload := replicate 26 0 in
  payload ← payload.[0 ..< 25 <- ActuatorSet.as_bytes (NodeSet.actuators nodes)];
  payload ← payload.[25 <- BeaconSet.as_byte (NodeSet.beacons nodes)];
  Ok payload.

Definition encode_group_information (group : GroupInformation.t) : KlfResult (list Z) :=
  let payload := replicate 99 0 in
  payload ← payload.[0 <- GroupId.get (GroupInformation.group_id group)];
  payload ← payload.[1 ..< 3 <- u16_to_be_bytes (GroupInformation.order group)];
  payload ← payload.[3 <- GroupInformation.placement group];
  name ← encode_fixed_string 64 (GroupInformation.name group);
  payload ← payload.[4 ..< 68 <- name];
  payload ← payload.[68 <- GroupInformation.velocity group];
  payload ← payload.[69 <- GroupInformation.node_variation group];
  payload ← payload.[70 <- GroupInformation.group_type group];
  payload ← payload.[71 <- GroupInformation.object_count group];
  payload ← payload.[72 ..< 97 <- ActuatorSet.as_bytes (GroupInformation.actuators group)];
  payload ← payload.[97 ..< 99 <- u16_to_be_bytes (GroupInformation.revision group)];
  Ok payload.

Definition encode_new_group_information (group : NewGroupInformation.t) : KlfResult (list Z) :=
  let payload := replicate 96 0 in
  payload ← payload.[0 ..< 2 <- u16_to_be_bytes (NewGroupInformation.order group)];
  payload ← payload.[2 <- NewGroupInformation.placement group];
  name ← encode_fixed_string 64 (NewGroupInformation.name group);
  payload ← payload.[3 ..< 67 <- name];
  payload ← payload.[67 <- NewGroupInformation.velocity group];
  payload ← payload.[68 <- NewGroupInformation.node_variation group];
  payload ← payload.[69 <- NewGroupInformation.group_type group];
  payload ← payload.[70 <- NewGroupInformation.object_count group];
  payload ← payload.[71 ..< 96 <- ActuatorSet.as_bytes (NewGroupInformation.actuators group)];
  Ok payload.

(** [payload[at] = encode_target(&mut payload[from..from + 20], target)] *)
Definition put_target (payload : list Z) (at_ from : nat) (target : CommandTarget.t)
    : KlfResult (list Z) :=
  destination ← payload.[from ..< from + 20];
  let (destination, count) := encode_target destination target in
  payload ← payload.[from ..< from + 20 <- destination];
  payload.[at_ <- count].

Definition encode_wink (request : WinkRequest.t) : KlfResult (list Z) :=
  let payload := replicate 27 0 in
  payload ← payload.[0 ..< 2 <- u16_to_be_bytes (SessionId.get (WinkRequest.session_id request))];
  payload ← payload.[2 <- WinkRequest.command_originator request];
  payload ← payload.[3 <- WinkRequest.priority_level request];
  payload ← payload.[4 <- u8_from_bool (WinkRequest.enabled request)];
  payload ← payload.[5 <- WinkRequest.wink_time request];
  payload ← put_target payload 6 7 (WinkRequest.target request);
  Ok payload.

Definition encode_set_limitation (request : SetLimitationRequest.t) : KlfResult (list Z) :=
  let payload := replicate 31 0 in
  payload ← payload.[0 ..< 2 <-
    u16_to_be_bytes (SessionId.get (SetLimitationRequest.session_id request))];
  payload ← payload.[2 <- SetLimitationRequest.command_originator request];
  payload ← payload.[3 <- SetLimitationRequest.priority_level request];
  payload ← put_target payload 4 5 (SetLimitationRequest.target request);
  payload ← payload.[25 <- SetLimitationRequest.parameter_id request];
  payload ← payload.[26 ..< 28 <- u16_to_be_bytes
    (RawPosition.get (StandardParameter.to_raw (SetLimitationRequest.minimum request)))];
  payload ← payload.[28 ..< 30 <- u16_to_be_bytes
    (RawPosition.get (StandardParameter.to_raw (SetLimitationRequest.maximum request)))];
  payload ← payload.[30 <- SetLimitationRequest.limitation_time request];
  Ok payload.

Definition encode_get_limitation_status (request : GetLimitationStatusRequest.t)
    : KlfResult (list Z) :=
  let payload := replicate 25 0 in
  payload ← payload.[0 ..< 2 <-
    u16_to_be_bytes (SessionId.get (GetLimitationStatusRequest.session_id request))];
  payload ← put_target payload 2 3 (GetLimitationStatusRequest.target request);
  payload ← payload.[23 <- GetLimitationStatusRequest.parameter_id request];
  payload ← payload.[24 <- GetLimitationStatusRequest.limitation_type request];
  Ok payload.

(** [if lock { payload[at] = pack(&settings[..4]); payload[at + 1] = pack(&settings[4..]) }] *)
Definition put_priority_settings (payload : list Z) (at_ : nat) (lock : bool) (settings : list Z)
    : KlfResult (list Z) :=
  if lock then
    low ← settings.[0 ..< 4];
    payload ← payload.[at_ <- pack_two_bit_settings low];
    high ← settings.[4 ..< length settings];
    payload.[at_ + 1 <- pack_two_bit_settings high]
  else Ok payload.

Definition encode_mode (request : ModeRequest.t) : KlfResult (list Z) :=
  _ ← validate_priority_settings (ModeRequest.priority_level_settings request);
  let payload := replicate 31 0 in
  payload ← payload.[0 ..< 2 <- u16_to_be_bytes (SessionId.get (ModeRequest.session_id request))];
  payload ← payload.[2 <- ModeRequest.command_originator request];
  payload ← payload.[3 <- ModeRequest.priority_level request];
  payload ← payload.[4 <- ModeRequest.mode_number request];
  payload ← payload.[5 <- ModeRequest.mode_parameter request];
  payload ← put_target payload 6 7 (ModeRequest.target request);
  payload ← payload.[27 <- u8_from_bool (ModeRequest.priority_level_lock request)];
  payload ← put_priority_settings payload 28 (ModeRequest.priority_level_lock request)
              (ModeRequest.priority_level_settings request);
  payload ← payload.[30 <- ModeRequest.lock_time request];
  Ok payload.

Definition encode_activate_scene (request : SceneActivationRequest.t) : KlfResult (list Z) :=
  let payload := replicate 6 0 in
  payload ← payload.[0 ..< 2 <-
    u16_to_be_bytes (SessionId.get (SceneActivationRequest.session_id request))];
  payload ← payload.[2 <- SceneActivationRequest.command_originator request];
  payload ← payload.[3 <- SceneActivationRequest.priority_level request];
  payload ← payload.[4 <- SceneActivationRequest.scene_id request];
  payload ← payload.[5 <- SceneActivationRequest.velocity request];
  Ok payload.

Definition encode_stop_scene (request : SceneStopRequest.t) : KlfResult (list Z) :=
  let payload := replicate 5 0 in
  payload ← payload.[0 ..< 2 <-
    u16_to_be_bytes (SessionId.get (SceneStopRequest.session_id request))];
  payload ← payload.[2 <- SceneStopRequest.command_originator request];
  payload ← payload.[3 <- SceneStopRequest.priority_level request];
  payload ← payload.[4 <- SceneStopRequest.scene_id request];
  Ok payload.

Definition encode_activate_product_group (request : ProductGroupActivationRequest.t)
    : KlfResult (list Z) :=
  _ ← validate_priority_settings (ProductGroupActivationRequest.priority_level_settings request);
  let payload := replicate 13 0 in
  payload ← payload.[0 ..< 2 <-
    u16_to_be_bytes (SessionId.get (ProductGroupActivationRequest.session_id request))];
  payload ← payload.[2 <- ProductGroupActivationRequest.command_originator request];
  payload ← payload.[3 <- ProductGroupActivationRequest.priority_level request];
  payload ← payload.[4 <- ProductGroupActivationRequest.product_group_id request];
  payload ← payload.[5 <- ProductGroupActivationRequest.parameter_id request];
  payload ← payload.[6 ..< 8 <- u16_to_be_bytes
    (RawPosition.get (StandardParameter.to_raw (ProductGroupActivationRequest.position request)))];
  payload ← payload.[8 <- ProductGroupActivationRequest.velocity request];
  payload ← payload.[9 <- u8_from_bool (ProductGroupActivationRequest.priority_level_lock request)];
  payload ← put_priority_settings payload 10
              (ProductGroupActivationRequest.priority_level_lock request)
              (ProductGroupActivationRequest.priority_level_settings request);
  payload ← payload.[12 <- ProductGroupActivationRequest.lock_time request];
  Ok payload.

Definition encode_contact_input_link (link : ContactInputLink.t) : KlfResult (list Z) :=
  _ ← validate_priority_settings (ContactInputLink.priority_level_settings link);
  let payload := replicate 17 0 in
  payload ← payload.[0 <- ContactInputLink.contact_input_id link];
  payload ← payload.[1 <- ContactInputLink.assignment link];
  payload ← payload.[2 <- ContactInputLink.action_id link];
  payload ← payload.[3 <- ContactInputLink.command_originator link];
  payload ← payload.[4 <- ContactInputLink.priority_level link];
  payload ← payload.[5 <- ContactInputLink.parameter_id link];
  payload ← payload.[6 ..< 8 <- u16_to_be_bytes
    (RawPosition.get (StandardParameter.to_raw (ContactInputLink.position link)))];
  payload ← payload.[8 <- ContactInputLink.velocity link];
  payload ← payload.[9 <- ContactInputLink.lock_priority_level link];
  payload ← payload.[10 ..< 15 <- ContactInputLink.priority_level_settings link];
  payload ← payload.[15 <- ContactInputLink.success_output_id link];
  payload ← payload.[16 <- ContactInputLink.error_output_id link];
  Ok payload.

Definition encode_command_send (command : CommandRequest.t) (target : CommandTarget.t)
    : KlfResult (list Z) :=
  let payload := replicate 66 0 in
  payload ← payload.[0 ..< 2 <- u16_to_be_bytes (SessionId.get (CommandRequest.session_id command))];
  payload ← payload.[2 <- 1]; (* User command originator. *)
  payload ← payload.[3 <- 3]; (* User priority level 2. *)
  payload ← payload.[4 <- 0]; (* Main parameter active. *)
  payload ← payload.[7 ..< 9 <- u16_to_be_bytes
    (RawPosition.get (StandardParameter.to_raw (CommandRequest.main_parameter command)))];
  match u8_try_from (length (CommandTarget.nodes target)) with
  | None => Ok []
  | Some count =>
      payload ← payload.[41 <- count];
      destination ← payload.[42 ..< 62];
      payload ← payload.[42 ..< 62 <- assign_nodes destination (CommandTarget.nodes target)];
      Ok payload
  end.

Module StatusRequestType.
Inductive t := TargetPosition | CurrentPosition | RemainingTime | MainInformation.
Global Instance eq_dec : EqDecision t.
Proof. solve_decision. Defined.

(** [status_type as u8] *)
Definition as_u8 (status_type : t) : Z :=
  match status_type with
  | TargetPosition => 0
  | CurrentPosition => 1
  | RemainingTime => 2
  | MainInformation => 3
  end.
End StatusRequestType.

Definition encode_status_request (session_id : SessionId.t) (target : CommandTarget.t)
    (status_type : StatusRequestType.t) : KlfResult (list Z) :=
  let payload := replicate 26 0 in
  payload ← payload.[0 ..< 2 <- u16_to_be_bytes (SessionId.get session_id)];
  match u8_try_from (length (CommandTarget.nodes target)) with
  | None => Ok []
  | Some count =>
      payload ← payload.[2 <- count];
      destination ← payload.[3 ..< 23];
      payload ← payload.[3 ..< 23 <- assign_nodes destination (CommandTarget.nodes target)];
      payload ← payload.[23 <- StatusRequestType.as_u8 status_type];
      Ok payload
  end.

(** ** Request families *)
Module CommandExtensionRequest.
Inductive t :=
| Wink (request : WinkRequest.t)
| SetLimitation (request : SetLimitationRequest.t)
| GetLimitationStatus (request : GetLimitationStatusRequest.t)
| Mode (request : ModeRequest.t).
Global Instance eq_dec : EqDecision t.
Proof. solve_decision. Defined.

Definition command_id (r : t) : CommandId :=
  match r with
  | Wink _ => GW_WINK_SEND_REQ
  | SetLimitation _ => GW_SET_LIMITATION_REQ
  | GetLimitationStatus _ => GW_GET_LIMITATION_STATUS_REQ
  | Mode _ => GW_MODE_SEND_REQ
  end.

Definition session_id (r : t) : SessionId.t :=
  match r with
  | Wink request => WinkRequest.session_id request
  | SetLimitation request => SetLimitationRequest.session_id request
  | GetLimitationStatus request => GetLimitationStatusRequest.session_id request
  | Mode request => ModeRequest.session_id request
  end.

Definition encode (r : t) : KlfResult (list Z) :=
  match r with
  | Wink request => encode_wink request
  | SetLimitation request => encode_set_limitation request
  | GetLimitationStatus request => encode_get_limitation_status request
  | Mode request => encode_mode request
  end.
End CommandExtensionRequest.

Module ActivationLogRequest.
Inductive t :=
| GetHeader
| Clear
| GetLine (line : Z)
| GetLinesSince (timestamp : ProtocolTimestamp.t).
Global Instance eq_dec : EqDecision t.
Proof. solve_decision. Defined.

Definition command_id (r : t) : CommandId :=
  match r with
  | GetHeader => GW_GET_ACTIVATION_LOG_HEADER_REQ
  | Clear => GW_CLEAR_ACTIVATION_LOG_REQ
  | GetLine _ => GW_GET_ACTIVATION_LOG_LINE_REQ
  | GetLinesSince _ => GW_GET_MULTIPLE_ACTIVATION_LOG_LINES_REQ
  end.

Definition encode (r : t) : list Z :=
  match r with
  | GetHeader | Clear => []
  | GetLine line => u16_to_be_bytes line
  | GetLinesSince timestamp => u32_to_be_bytes (ProtocolTimestamp.unix_seconds timestamp)
  end.
End ActivationLogRequest.

(** [payload[0] = id; payload[1..].copy_from_slice(&encode_fixed_string::<64>(&name)?)] *)
Definition encode_id_and_name (id : Z) (name : string) : KlfResult (list Z) :=
  let payload := replicate 65 0 in
  payload ← payload.[0 <- id];
  field ← encode_fixed_string 64 name;
  payload.[1 ..< 65 <- field].

Module SceneContactRequest.
Inductive t :=
| InitializeScene
| CancelSceneInitialization
| RecordScene (name : string)
| DeleteScene (scene_id : Z)
| RenameScene (scene_id : Z) (name : string)
| GetSceneList
| GetSceneInformation (scene_id : Z)
| ActivateScene (request : SceneActivationRequest.t)
| StopScene (request : SceneStopRequest.t)
| ActivateProductGroup (request : ProductGroupActivationRequest.t)
| GetContactInputLinks
| SetContactInputLink (link : ContactInputLink.t)
| RemoveContactInputLink (contact_input_id : Z).
Global Instance eq_dec : EqDecision t.
Proof. solve_decision. Defined.

Definition command_id (r : t) : CommandId :=
  match r with
  | InitializeScene => GW_INITIALIZE_SCENE_REQ
  | CancelSceneInitialization => GW_INITIALIZE_SCENE_CANCEL_REQ
  | RecordScene _ => GW_RECORD_SCENE_REQ
  | DeleteScene _ => GW_DELETE_SCENE_REQ
  | RenameScene _ _ => GW_RENAME_SCENE_REQ
  | GetSceneList => GW_GET_SCENE_LIST_REQ
  | GetSceneInformation _ => GW_GET_SCENE_INFOAMATION_REQ
  | ActivateScene _ => GW_ACTIVATE_SCENE_REQ
  | StopScene _ => GW_STOP_SCENE_REQ
  | ActivateProductGroup _ => GW_ACTIVATE_PRODUCTGROUP_REQ
  | GetContactInputLinks => GW_GET_CONTACT_INPUT_LINK_LIST_REQ
  | SetContactInputLink _ => GW_SET_CONTACT_INPUT_LINK_REQ
  | RemoveContactInputLink _ => GW_REMOVE_CONTACT_INPUT_LINK_REQ
  end.

Definition session_id (r : t) : option SessionId.t :=
  match r with
  | ActivateScene request => Some (SceneActivationRequest.session_id request)
  | StopScene request => Some (SceneStopRequest.session_id request)
  | ActivateProductGroup request => Some (ProductGroupActivationRequest.session_id request)
  | _ => None
  end.

Definition encode (r : t) : KlfResult (list Z) :=
  match r with
  | InitializeScene | CancelSceneInitialization | GetSceneList | GetContactInputLinks => Ok []
  | RecordScene name => encode_fixed_string 64 name
  | DeleteScene scene_id | GetSceneInformation scene_id | RemoveContactInputLink scene_id =>
      Ok [scene_id]
  | RenameScene scene_id name => encode_id_and_name scene_id name
  | ActivateScene request => encode_activate_scene request
  | StopScene request => encode_stop_scene request
  | ActivateProductGroup request => encode_activate_product_group request
  | SetContactInputLink link => encode_contact_input_link link
  end.
End SceneContactRequest.

Module ConfigurationRequest.
Inductive t :=
| GetSystemTableData
| DiscoverNodes (node_type : Z)
| RemoveNodes (nodes : NodeSet.t)
| VirginState
| ControllerCopy (mode : Z)
| ReceiveKey
| GenerateNewKey
| RepairKey
| ActivateConfiguration (nodes : NodeSet.t).
Global Instance eq_dec : EqDecision t.
Proof. solve_decision. Defined.

Definition command_id (r : t) : CommandId :=
  match r with
  | GetSystemTableData => GW_CS_GET_SYSTEMTABLE_DATA_REQ
  | DiscoverNodes _ => GW_CS_DISCOVER_NODES_REQ
  | RemoveNodes _ => GW_CS_REMOVE_NODES_REQ
  | VirginState => GW_CS_VIRGIN_STATE_REQ
  | ControllerCopy _ => GW_CS_CONTROLLER_COPY_REQ
  | ReceiveKey => GW_CS_RECEIVE_KEY_REQ
  | GenerateNewKey => GW_CS_GENERATE_NEW_KEY_REQ
  | RepairKey => GW_CS_REPAIR_KEY_REQ
  | ActivateConfiguration _ => GW_CS_ACTIVATE_CONFIGURATION_MODE_REQ
  end.

Definition encode (r : t) : KlfResult (list Z) :=
  match r with
  | GetSystemTableData | VirginState | ReceiveKey | GenerateNewKey | RepairKey => Ok []
  | DiscoverNodes node_type => Ok [node_type]
  | ControllerCopy mode => Ok [mode]
  | RemoveNodes nodes | ActivateConfiguration nodes => encode_node_set nodes
  end.
End ConfigurationRequest.

Module NodeGroupRequest.
Inductive t :=
| SetNodeVariation (node_id : NodeId.t) (variation : Z)
| SetNodeName (node_id : NodeId.t) (name : string)
| SetNodeOrderAndPlacement (node_id : NodeId.t) (order placement : Z)
| GetGroup (group_id : GroupId.t)
| SetGroup (group : GroupInformation.t)
| DeleteGroup (group_id : GroupId.t)
| NewGroup (group : NewGroupInformation.t)
| GetAllGroups (use_filter : bool) (group_type : Z).
Global Instance eq_dec : EqDecision t.
Proof. solve_decision. Defined.

Definition command_id (r : t) : CommandId :=
  match r with
  | SetNodeVariation _ _ => GW_SET_NODE_VARIATION_REQ
  | SetNodeName _ _ => GW_SET_NODE_NAME_REQ
  | SetNodeOrderAndPlacement _ _ _ => GW_SET_NODE_ORDER_AND_PLACEMENT_REQ
  | GetGroup _ => GW_GET_GROUP_INFORMATION_REQ
  | SetGroup _ => GW_SET_GROUP_INFORMATION_REQ
  | DeleteGroup _ => GW_DELETE_GROUP_REQ
  | NewGroup _ => GW_NEW_GROUP_REQ
  | GetAllGroups _ _ => GW_GET_ALL_GROUPS_INFORMATION_REQ
  end.

Definition encode (r : t) : KlfResult (list Z) :=
  match r with
  | SetNodeVariation node_id variation => Ok [NodeId.get node_id; variation]
  | SetNodeName node_id name => encode_id_and_name (NodeId.get node_id) name
  | SetNodeOrderAndPlacement node_id order placement =>
      let payload := replicate 4 0 in
      payload ← payload.[0 <- NodeId.get node_id];
      payload ← payload.[1 ..< 3 <- u16_to_be_bytes order];
      payload ← payload.[3 <- placement];
      Ok payload
  | GetGroup group_id | DeleteGroup group_id => Ok [GroupId.get group_id]
  | SetGroup group => encode_group_information group
  | NewGroup group => encode_new_group_information group
  | GetAllGroups use_filter group_type => Ok [u8_from_bool use_filter; group_type]
  end.
End NodeGroupRequest.

(** ** Requests *)
Module Request.
Inductive t :=
| Reboot
| SetFactoryDefault
| GetVersion
| GetProtocolVersion
| GetState
| LeaveLearnState
| GetNetworkSetup
| SetNetworkSetup (setup : NetworkSetup.t)
| SetUtc (timestamp : ProtocolTimestamp.t)
| SetTimeZone (time_zone : string)
| GetLocalTime
| Configuration (request : ConfigurationRequest.t)
| NodeGroup (request : NodeGroupRequest.t)
| CommandExtension (request : CommandExtensionRequest.t)
| SceneContact (request : SceneContactRequest.t)
| ActivationLog (request : ActivationLogRequest.t)
| GetAllNodesInformation
| HouseStatusMonitorEnable
| HouseStatusMonitorDisable
| GetNodeInformation (node_id : NodeId.t)
| PasswordEnter (password : string)
| PasswordChange (current_password new_password : string)
| CommandSend (command : CommandRequest.t) (target : CommandTarget.t)
| StatusRequest (session_id : SessionId.t) (target : CommandTarget.t)
    (status_type : StatusRequestType.t)
| Raw (command : CommandId) (payload : list Z).
Global Instance eq_dec : EqDecision t.
Proof. solve_decision. Defined.

Definition password_enter (password : string) : KlfResult t :=
  _ ← encode_fixed_string 32 password;
  Ok (PasswordEnter password).

Definition password_change (current_password new_password : string) : KlfResult t :=
  _ ← encode_fixed_string 32 current_password;
  _ ← encode_fixed_string 32 new_password;
  Ok (PasswordChange current_password new_password).

Definition command_id (r : t) : CommandId :=
  match r with
  | Reboot => GW_REBOOT_REQ
  | SetFactoryDefault => GW_SET_FACTORY_DEFAULT_REQ
  | GetVersion => GW_GET_VERSION_REQ
  | GetProtocolVersion => GW_GET_PROTOCOL_VERSION_REQ
  | GetState => GW_GET_STATE_REQ
  | LeaveLearnState => GW_LEAVE_LEARN_STATE_REQ
  | GetNetworkSetup => GW_GET_NETWORK_SETUP_REQ
  | SetNetworkSetup _ => GW_SET_NETWORK_SETUP_REQ
  | SetUtc _ => GW_SET_UTC_REQ
  | SetTimeZone _ => GW_RTC_SET_TIME_ZONE_REQ
  | GetLocalTime => GW_GET_LOCAL_TIME_REQ
  | Configuration request => ConfigurationRequest.command_id request
  | NodeGroup request => NodeGroupRequest.command_id request
  | CommandExtension request => CommandExtensionRequest.command_id request
  | SceneContact request => SceneContactRequest.command_id request
  | ActivationLog request => ActivationLogRequest.command_id request
  | GetAllNodesInformation => GW_GET_ALL_NODES_INFORMATION_REQ
  | HouseStatusMonitorEnable => GW_HOUSE_STATUS_MONITOR_ENABLE_REQ
  | HouseStatusMonitorDisable => GW_HOUSE_STATUS_MONITOR_DISABLE_REQ
  | GetNodeInformation _ => GW_GET_NODE_INFORMATION_REQ
  | PasswordEnter _ => GW_PASSWORD_ENTER_REQ
  | PasswordChange _ _ => GW_PASSWORD_CHANGE_REQ
  | CommandSend _ _ => GW_COMMAND_SEND_REQ
  | StatusRequest _ _ _ => GW_STATUS_REQUEST_REQ
  | Raw command _ => command
  end.

Definition session_id (r : t) : option SessionId.t :=
  match r with
  | CommandSend command _ => Some (CommandRequest.session_id command)
  | StatusRequest session_id _ _ => Some session_id
  | CommandExtension request => Some (CommandExtensionRequest.session_id request)
  | SceneContact request => SceneContactRequest.session_id request
  | _ => None
  end.

(** The payload of [encode] *)
Definition encode_payload (r : t) : KlfResult (list Z) :=
  match r with
  | Reboot | SetFactoryDefault | GetVersion | GetProtocolVersion | GetState | LeaveLearnState
  | GetNetworkSetup | GetLocalTime | GetAllNodesInformation | HouseStatusMonitorEnable
  | HouseStatusMonitorDisable => Ok []
  | SetNetworkSetup setup => encode_network_setup setup
  | SetUtc timestamp => Ok (u32_to_be_bytes (ProtocolTimestamp.unix_seconds timestamp))
  | SetTimeZone time_zone => encode_fixed_string 64 time_zone
  | Configuration request => ConfigurationRequest.encode request
  | NodeGroup request => NodeGroupRequest.encode request
  | CommandExtension request => CommandExtensionRequest.encode request
  | SceneContact request => SceneContactRequest.encode request
  | ActivationLog request => Ok (ActivationLogRequest.encode request)
  | GetNodeInformation node_id => Ok [NodeId.get node_id]
  | PasswordEnter password => encode_fixed_string 32 password
  | PasswordChange current_password new_password =>
      let payload := replicate 64 0 in
      current ← encode_fixed_string 32 current_password;
      payload ← payload.[0 ..< 32 <- current];
      new ← encode_fixed_string 32 new_password;
      payload ← payload.[32 ..< 64 <- new];
      Ok payload
  | CommandSend command target => encode_command_send command target
  | StatusRequest session_id target status_type =>
      encode_status_request session_id target status_type
  | Raw command payload =>
      if bool_decide (is_Some (CommandId.known command))
         && negb (bool_decide (CommandId.kind command = CommandKind.Request))
      then Err (KlfError.UnsupportedRequest command)
      else Ok payload
  end.

Definition encode (r : t) : KlfResult Frame.t :=
  payload ← encode_payload r;
  Ok (Frame.new (command_id r) payload).
End Request.
