(* ===== verification/CommandLayout.v ===== *)
(** * The wire layout of requests: specification and refinement

    [layout] lists the fields of every request in wire order and [invalid] says which
    requests are refused, and with which error. [encode_layout] shows that the
    buffer-writing encoders of [Command] compute exactly that, without a panic. *)

From S2P Require Import Prelude RustStd CommandIds Error Types Frame Command.

(** ** Type invariants of the request structures *)
Definition session_wf := SessionId.wf.
Definition node_wf (n : NodeId.t) : Prop := is_u8 (NodeId.get n).
Definition target_wf (t : CommandTarget.t) : Prop :=
  let nodes := CommandTarget.nodes t in
  nodes ≠ [] ∧ (length nodes ≤ MAX_TARGETS)%nat ∧ NoDup nodes ∧ Forall node_wf nodes.
Definition parameter_wf := ParameterFacts.wf.

Definition network_setup_wf (s : NetworkSetup.t) : Prop :=
  byte_array 4 (NetworkSetup.ip_address s) ∧ byte_array 4 (NetworkSetup.subnet_mask s)
  ∧ byte_array 4 (NetworkSetup.default_gateway s).

Definition group_wf (g : GroupInformation.t) : Prop :=
  let '(GroupInformation.mk group_id order placement name velocity node_variation group_type
          object_count actuators revision) := g in
  is_u8 (GroupId.get group_id) ∧ is_u16 order ∧ is_u8 placement ∧ is_u8 velocity
  ∧ is_u8 node_variation ∧ is_u8 group_type ∧ is_u8 object_count ∧ ActuatorSet.wf actuators
  ∧ is_u16 revision.

Definition new_group_wf (g : NewGroupInformation.t) : Prop :=
  let '(NewGroupInformation.mk order placement name velocity node_variation group_type
          object_count actuators) := g in
  is_u16 order ∧ is_u8 placement ∧ is_u8 velocity ∧ is_u8 node_variation ∧ is_u8 group_type
  ∧ is_u8 object_count ∧ ActuatorSet.wf actuators.

Definition link_wf (l : ContactInputLink.t) : Prop :=
  let '(ContactInputLink.mk contact_input_id assignment action_id command_originator
          priority_level parameter_id position velocity lock_priority_level settings
          success_output_id error_output_id) := l in
  is_u8 contact_input_id ∧ is_u8 assignment ∧ is_u8 action_id ∧ is_u8 command_originator
  ∧ is_u8 priority_level ∧ is_u8 parameter_id ∧ parameter_wf position ∧ is_u8 velocity
  ∧ is_u8 lock_priority_level ∧ byte_array 5 settings ∧ is_u8 success_output_id
  ∧ is_u8 error_output_id.

Definition wink_wf (r : WinkRequest.t) : Prop :=
  let '(WinkRequest.mk session_id command_originator priority_level enabled wink_time target) := r in
  session_wf session_id ∧ is_u8 command_originator ∧ is_u8 priority_level ∧ is_u8 wink_time
  ∧ target_wf target.

Definition set_limitation_wf (r : SetLimitationRequest.t) : Prop :=
  let '(SetLimitationRequest.mk session_id command_originator priority_level target parameter_id
          minimum maximum limitation_time) := r in
  session_wf session_id ∧ is_u8 command_originator ∧ is_u8 priority_level ∧ target_wf target
  ∧ is_u8 parameter_id ∧ parameter_wf minimum ∧ parameter_wf maximum ∧ is_u8 limitation_time.

Definition get_limitation_status_wf (r : GetLimitationStatusRequest.t) : Prop :=
  let '(GetLimitationStatusRequest.mk session_id target parameter_id limitation_type) := r in
  session_wf session_id ∧ target_wf target ∧ is_u8 parameter_id ∧ is_u8 limitation_type.

Definition mode_wf (r : ModeRequest.t) : Prop :=
  let '(ModeRequest.mk session_id command_originator priority_level mode_number mode_parameter
          target lock settings lock_time) := r in
  session_wf session_id ∧ is_u8 command_originator ∧ is_u8 priority_level ∧ is_u8 mode_number
  ∧ is_u8 mode_parameter ∧ target_wf target ∧ byte_array 8 settings ∧ is_u8 lock_time.

Definition scene_activation_wf (r : SceneActivationRequest.t) : Prop :=
  let '(SceneActivationRequest.mk session_id command_originator priority_level scene_id velocity)
    := r in
  session_wf session_id ∧ is_u8 command_originator ∧ is_u8 priority_level ∧ is_u8 scene_id
  ∧ is_u8 velocity.

Definition scene_stop_wf (r : SceneStopRequest.t) : Prop :=
  let '(SceneStopRequest.mk session_id command_originator priority_level scene_id) := r in
  session_wf session_id ∧ is_u8 command_originator ∧ is_u8 priority_level ∧ is_u8 scene_id.

Definition product_group_wf (r : ProductGroupActivationRequest.t) : Prop :=
  let '(ProductGroupActivationRequest.mk session_id command_originator priority_level
          product_group_id parameter_id position velocity lock settings lock_time) := r in
  session_wf session_id ∧ is_u8 command_originator ∧ is_u8 priority_level
  ∧ is_u8 product_group_id ∧ is_u8 parameter_id ∧ parameter_wf position ∧ is_u8 velocity
  ∧ byte_array 8 settings ∧ is_u8 lock_time.

Definition request_wf (r : Request.t) : Prop :=
  match r with
  | Request.SetNetworkSetup setup => network_setup_wf setup
  | Request.SetUtc timestamp => is_u32 (ProtocolTimestamp.unix_seconds timestamp)
  | Request.Configuration (ConfigurationRequest.DiscoverNodes x)
  | Request.Configuration (ConfigurationRequest.ControllerCopy x) => is_u8 x
  | Request.Configuration (ConfigurationRequest.RemoveNodes nodes)
  | Request.Configuration (ConfigurationRequest.ActivateConfiguration nodes) => NodeSet.wf nodes
  | Request.NodeGroup (NodeGroupRequest.SetNodeVariation n x) => node_wf n ∧ is_u8 x
  | Request.NodeGroup (NodeGroupRequest.SetNodeName n _) => node_wf n
  | Request.NodeGroup (NodeGroupRequest.SetNodeOrderAndPlacement n order placement) =>
      node_wf n ∧ is_u16 order ∧ is_u8 placement
  | Request.NodeGroup (NodeGroupRequest.GetGroup g)
  | Request.NodeGroup (NodeGroupRequest.DeleteGroup g) => is_u8 (GroupId.get g)
  | Request.NodeGroup (NodeGroupRequest.SetGroup g) => group_wf g
  | Request.NodeGroup (NodeGroupRequest.NewGroup g) => new_group_wf g
  | Request.NodeGroup (NodeGroupRequest.GetAllGroups _ x) => is_u8 x
  | Request.CommandExtension (CommandExtensionRequest.Wink r) => wink_wf r
  | Request.CommandExtension (CommandExtensionRequest.SetLimitation r) => set_limitation_wf r
  | Request.CommandExtension (CommandExtensionRequest.GetLimitationStatus r) =>
      get_limitation_status_wf r
  | Request.CommandExtension (CommandExtensionRequest.Mode r) => mode_wf r
  | Request.SceneContact (SceneContactRequest.DeleteScene x)
  | Request.SceneContact (SceneContactRequest.GetSceneInformation x)
  | Request.SceneContact (SceneContactRequest.RemoveContactInputLink x)
  | Request.SceneContact (SceneContactRequest.RenameScene x _) => is_u8 x
  | Request.SceneContact (SceneContactRequest.ActivateScene r) => scene_activation_wf r
  | Request.SceneContact (SceneContactRequest.StopScene r) => scene_stop_wf r
  | Request.SceneContact (SceneContactRequest.ActivateProductGroup r) => product_group_wf r
  | Request.SceneContact (SceneContactRequest.SetContactInputLink l) => link_wf l
  | Request.ActivationLog (ActivationLogRequest.GetLine line) => is_u16 line
  | Request.ActivationLog (ActivationLogRequest.GetLinesSince t) =>
      is_u32 (ProtocolTimestamp.unix_seconds t)
  | Request.GetNodeInformation n => node_wf n
  | Request.CommandSend command target =>
      session_wf (CommandRequest.session_id command)
      ∧ parameter_wf (CommandRequest.main_parameter command) ∧ target_wf target
  | Request.StatusRequest session_id target _ => session_wf session_id ∧ target_wf target
  | Request.Raw command payload => is_u16 (raw command) ∧ Forall is_u8 payload
  | _ => True
  end.

(** ** The fields of the wire format *)
Definition session_field (s : SessionId.t) : list Z := u16_to_be_bytes (SessionId.get s).
Definition position_field (p : StandardParameter.t) : list Z :=
  u16_to_be_bytes (RawPosition.get (StandardParameter.to_raw p)).
Definition name_field (N : nat) (s : string) : list Z :=
  bytes_of s ++ replicate (N - String.length s) 0.
Definition nodes_field (t : CommandTarget.t) : list Z :=
  (NodeId.get <$> CommandTarget.nodes t)
  ++ replicate (MAX_TARGETS - length (CommandTarget.nodes t)) 0.
Definition target_field (t : CommandTarget.t) : list Z :=
  Z.of_nat (length (CommandTarget.nodes t)) :: nodes_field t.

(** Four two-bit settings to a byte, the first in the highest bits. *)
Definition packed (settings : list Z) : Z := fold_left (λ p s, p * 4 + s) settings 0.
Definition priority_field (lock : bool) (settings : list Z) : list Z :=
  if lock then [packed (take 4 settings); packed (drop 4 settings)] else [0; 0].

Definition group_layout (g : GroupInformation.t) : list Z :=
  let '(GroupInformation.mk group_id order placement name velocity node_variation group_type
          object_count actuators revision) := g in
  [GroupId.get group_id] ++ u16_to_be_bytes order ++ [placement] ++ name_field 64 name
  ++ [velocity; node_variation; group_type; object_count] ++ ActuatorSet.bytes actuators
  ++ u16_to_be_bytes revision.

Definition new_group_layout (g : NewGroupInformation.t) : list Z :=
  let '(NewGroupInformation.mk order placement name velocity node_variation group_type
          object_count actuators) := g in
  u16_to_be_bytes order ++ [placement] ++ name_field 64 name
  ++ [velocity; node_variation; group_type; object_count] ++ ActuatorSet.bytes actuators.

Definition link_layout (l : ContactInputLink.t) : list Z :=
  let '(ContactInputLink.mk contact_input_id assignment action_id command_originator
          priority_level parameter_id position velocity lock_priority_level settings
          success_output_id error_output_id) := l in
  [contact_input_id; assignment; action_id; command_originator; priority_level; parameter_id]
  ++ position_field position ++ [velocity; lock_priority_level] ++ settings
  ++ [success_output_id; error_output_id].

Definition wink_layout (r : WinkRequest.t) : list Z :=
  let '(WinkRequest.mk session_id command_originator priority_level enabled wink_time target) := r in
  session_field session_id ++ [command_originator; priority_level; u8_from_bool enabled; wink_time]
  ++ target_field target.

Definition set_limitation_layout (r : SetLimitationRequest.t) : list Z :=
  let '(SetLimitationRequest.mk session_id command_originator priority_level target parameter_id
          minimum maximum limitation_time) := r in
  session_field session_id ++ [command_originator; priority_level] ++ target_field target
  ++ [parameter_id] ++ position_field minimum ++ position_field maximum ++ [limitation_time].

Definition get_limitation_status_layout (r : GetLimitationStatusRequest.t) : list Z :=
  let '(GetLimitationStatusRequest.mk session_id target parameter_id limitation_type) := r in
  session_field session_id ++ target_field target ++ [parameter_id; limitation_type].

Definition mode_layout (r : ModeRequest.t) : list Z :=
  let '(ModeRequest.mk session_id command_originator priority_level mode_number mode_parameter
          target lock settings lock_time) := r in
  session_field session_id ++ [command_originator; priority_level; mode_number; mode_parameter]
  ++ target_field target ++ [u8_from_bool lock] ++ priority_field lock settings ++ [lock_time].

Definition scene_activation_layout (r : SceneActivationRequest.t) : list Z :=
  let '(SceneActivationRequest.mk session_id command_originator priority_level scene_id velocity)
    := r in
  session_field session_id ++ [command_originator; priority_level; scene_id; velocity].

Definition scene_stop_layout (r : SceneStopRequest.t) : list Z :=
  let '(SceneStopRequest.mk session_id command_originator priority_level scene_id) := r in
  session_field session_id ++ [command_originator; priority_level; scene_id].

Definition product_group_layout (r : ProductGroupActivationRequest.t) : list Z :=
  let '(ProductGroupActivationRequest.mk session_id command_originator priority_level
          product_group_id parameter_id position velocity lock settings lock_time) := r in
  session_field session_id ++ [command_originator; priority_level; product_group_id; parameter_id]
  ++ position_field position ++ [velocity; u8_from_bool lock] ++ priority_field lock settings
  ++ [lock_time].

Definition node_set_layout (s : NodeSet.t) : list Z :=
  ActuatorSet.bytes (NodeSet.actuators s) ++ [BeaconSet.get (NodeSet.beacons s)].

Definition network_setup_layout (s : NetworkSetup.t) : list Z :=
  NetworkSetup.ip_address s ++ NetworkSetup.subnet_mask s ++ NetworkSetup.default_gateway s
  ++ [u8_from_bool (NetworkSetup.dhcp s)].

Definition layout (r : Request.t) : list Z :=
  match r with
  | Request.SetNetworkSetup setup => network_setup_layout setup
  | Request.SetUtc timestamp => u32_to_be_bytes (ProtocolTimestamp.unix_seconds timestamp)
  | Request.SetTimeZone time_zone => name_field 64 time_zone
  | Request.Configuration (ConfigurationRequest.DiscoverNodes x)
  | Request.Configuration (ConfigurationRequest.ControllerCopy x) => [x]
  | Request.Configuration (ConfigurationRequest.RemoveNodes nodes)
  | Request.Configuration (ConfigurationRequest.ActivateConfiguration nodes) =>
      node_set_layout nodes
  | Request.NodeGroup (NodeGroupRequest.SetNodeVariation n x) => [NodeId.get n; x]
  | Request.NodeGroup (NodeGroupRequest.SetNodeName n name) => NodeId.get n :: name_field 64 name
  | Request.NodeGroup (NodeGroupRequest.SetNodeOrderAndPlacement n order placement) =>
      [NodeId.get n] ++ u16_to_be_bytes order ++ [placement]
  | Request.NodeGroup (NodeGroupRequest.GetGroup g)
  | Request.NodeGroup (NodeGroupRequest.DeleteGroup g) => [GroupId.get g]
  | Request.NodeGroup (NodeGroupRequest.SetGroup g) => group_layout g
  | Request.NodeGroup (NodeGroupRequest.NewGroup g) => new_group_layout g
  | Request.NodeGroup (NodeGroupRequest.GetAllGroups use_filter x) => [u8_from_bool use_filter; x]
  | Request.CommandExtension (CommandExtensionRequest.Wink r) => wink_layout r
  | Request.CommandExtension (CommandExtensionRequest.SetLimitation r) => set_limitation_layout r
  | Request.CommandExtension (CommandExtensionRequest.GetLimitationStatus r) =>
      get_limitation_status_layout r
  | Request.CommandExtension (CommandExtensionRequest.Mode r) => mode_layout r
  | Request.SceneContact (SceneContactRequest.RecordScene name) => name_field 64 name
  | Request.SceneContact (SceneContactRequest.DeleteScene x)
  | Request.SceneContact (SceneContactRequest.GetSceneInformation x)
  | Request.SceneContact (SceneContactRequest.RemoveContactInputLink x) => [x]
  | Request.SceneContact (SceneContactRequest.RenameScene x name) => x :: name_field 64 name
  | Request.SceneContact (SceneContactRequest.ActivateScene r) => scene_activation_layout r
  | Request.SceneContact (SceneContactRequest.StopScene r) => scene_stop_layout r
  | Request.SceneContact (SceneContactRequest.ActivateProductGroup r) => product_group_layout r
  | Request.SceneContact (SceneContactRequest.SetContactInputLink l) => link_layout l
  | Request.ActivationLog (ActivationLogRequest.GetLine line) => u16_to_be_bytes line
  | Request.ActivationLog (ActivationLogRequest.GetLinesSince t) =>
      u32_to_be_bytes (ProtocolTimestamp.unix_seconds t)
  | Request.GetNodeInformation n => [NodeId.get n]
  | Request.PasswordEnter password => name_field 32 password
  | Request.PasswordChange current_password new_password =>
      name_field 32 current_password ++ name_field 32 new_password
  | Request.CommandSend command target =>
      session_field (CommandRequest.session_id command) ++ [1; 3; 0; 0; 0]
      ++ position_field (CommandRequest.main_parameter command) ++ replicate 32 0
      ++ target_field target ++ replicate 4 0
  | Request.StatusRequest session_id target status_type =>
      session_field session_id ++ target_field target
      ++ [StatusRequestType.as_u8 status_type; 0; 0]
  | Request.Raw _ payload => payload
  | _ => []
  end.

(** ** The refused requests *)
Definition name_error (N : nat) (name : string) : option KlfError.t :=
  if decide (0 ∈ bytes_of name)
  then Some (KlfError.InvalidRequest "fixed-width strings cannot contain NUL bytes")
  else if decide (N - 1 < String.length name)%nat
  then Some (KlfError.StringTooLong (String.length name) (N - 1))
  else None.

Definition settings_error (settings : list Z) : option KlfError.t :=
  if decide (Forall (λ s, s ≤ 3) settings) then None
  else Some (KlfError.InvalidRequest "priority-level settings must be in the range 0..=3").

Definition invalid (r : Request.t) : option KlfError.t :=
  match r with
  | Request.SetTimeZone name
  | Request.SceneContact (SceneContactRequest.RecordScene name)
  | Request.SceneContact (SceneContactRequest.RenameScene _ name)
  | Request.NodeGroup (NodeGroupRequest.SetNodeName _ name) => name_error 64 name
  | Request.NodeGroup (NodeGroupRequest.SetGroup g) => name_error 64 (GroupInformation.name g)
  | Request.NodeGroup (NodeGroupRequest.NewGroup g) => name_error 64 (NewGroupInformation.name g)
  | Request.PasswordEnter password => name_error 32 password
  | Request.PasswordChange current_password new_password =>
      match name_error 32 current_password with
      | Some e => Some e
      | None => name_error 32 new_password
      end
  | Request.CommandExtension (CommandExtensionRequest.Mode r) =>
      settings_error (ModeRequest.priority_level_settings r)
  | Request.SceneContact (SceneContactRequest.ActivateProductGroup r) =>
      settings_error (ProductGroupActivationRequest.priority_level_settings r)
  | Request.SceneContact (SceneContactRequest.SetContactInputLink l) =>
      settings_error (ContactInputLink.priority_level_settings l)
  | Request.Raw command _ =>
      match CommandId.kind command with
      | CommandKind.Confirmation | CommandKind.Notification => Some (KlfError.UnsupportedRequest command)
      | CommandKind.Request => None
      | CommandKind.Unknown =>
          (* a registered command with none of the three suffixes is refused as well *)
          if decide (is_Some (CommandId.known command))
          then Some (KlfError.UnsupportedRequest command) else None
      end
  | _ => None
  end.

(** The outcome the specification prescribes. *)
Definition prescribed (r : Request.t) : KlfResult (list Z) :=
  match invalid r with Some e => Err e | None => Ok (layout r) end.

(** * Facts *)

(** ** Writing a zeroed buffer front to back

    [buf n written k] is a buffer whose first [n] bytes are written and whose last [k]
    bytes are still zero. *)
Definition buf (n : nat) (written : list Z) (k : nat) : list Z := written ++ replicate k 0.
Arguments buf : simpl never.

Section buf.
Context {E : Type}.
Implicit Types (written src : list Z) (n k i a b : nat).

Lemma buf_start k : replicate k 0 = buf 0 [] k.
Proof. done. Qed.

Lemma buf_gap n written k i :
  length written = n → (n ≤ i ≤ n + k)%nat →
  buf n written k = buf i (written ++ replicate (i - n) 0) (n + k - i).
Proof.
  intros Hn Hi. unfold buf. rewrite <- app_assoc, <- replicate_add. do 2 f_equal. lia.
Qed.

Lemma store_buf n written k i x :
  length written = n → (n ≤ i < n + k)%nat →
  store (E := E) (buf n written k) i x
  = Ok (buf (S i) (written ++ replicate (i - n) 0 ++ [x]) (n + k - S i)).
Proof.
  intros Hn Hi. rewrite (buf_gap n written k i) by lia. unfold buf.
  replace (n + k - i)%nat with (S (n + k - S i)) by lia.
  cbn [replicate]. rewrite store_next.
  - by rewrite <- !app_assoc.
  - rewrite length_app, length_replicate. lia.
Qed.

Lemma copy_buf n written k a b src :
  length written = n → length src = (b - a)%nat → (n ≤ a ≤ b)%nat → (b ≤ n + k)%nat →
  copy_from_slice (E := E) (buf n written k) a b src
  = Ok (buf b (written ++ replicate (a - n) 0 ++ src) (n + k - b)).
Proof.
  intros Hn Hs Ha Hb. rewrite (buf_gap n written k a) by lia. unfold buf.
  replace (n + k - a)%nat with ((b - a) + (n + k - b))%nat by lia.
  rewrite replicate_add, copy_next.
  - by rewrite <- !app_assoc.
  - rewrite length_app, length_replicate. lia.
  - done.
  - by rewrite length_replicate.
  - lia.
Qed.

Lemma slice_buf n written k a b :
  length written = n → (n ≤ a ≤ b)%nat → (b ≤ n + k)%nat →
  slice (E := E) (buf n written k) a b = Ok (replicate (b - a) 0).
Proof.
  intros Hn Ha Hb. rewrite (buf_gap n written k a) by lia. unfold buf.
  replace (n + k - a)%nat with ((b - a) + (n + k - b))%nat by lia.
  rewrite replicate_add. apply slice_app.
  - rewrite length_app, length_replicate. lia.
  - rewrite length_replicate. lia.
Qed.
End buf.

Lemma assign_nodes_zero n nodes :
  (length nodes ≤ n)%nat →
  assign_nodes (replicate n 0) nodes = (NodeId.get <$> nodes) ++ replicate (n - length nodes) 0.
Proof.
  revert n. induction nodes as [|x nodes IH]; intros n Hn; simpl.
  - rewrite Nat.sub_0_r. by destruct n.
  - destruct n as [|n]; simpl in *; [lia|]. rewrite IH by lia. done.
Qed.

Lemma length_nodes_field t :
  (length (CommandTarget.nodes t) ≤ MAX_TARGETS)%nat → length (nodes_field t) = MAX_TARGETS.
Proof.
  intros H. unfold nodes_field. rewrite length_app, length_fmap, length_replicate. lia.
Qed.

Lemma length_target_field t :
  (length (CommandTarget.nodes t) ≤ MAX_TARGETS)%nat → length (target_field t) = 21%nat.
Proof. intros H. unfold target_field. cbn [length]. by rewrite length_nodes_field. Qed.

Lemma length_priority_field lock settings : length (priority_field lock settings) = 2%nat.
Proof. by destruct lock. Qed.

Lemma target_count t :
  (length (CommandTarget.nodes t) ≤ MAX_TARGETS)%nat →
  u8_try_from (length (CommandTarget.nodes t)) = Some (Z.of_nat (length (CommandTarget.nodes t))).
Proof. unfold MAX_TARGETS. intros. apply u8_try_from_small. lia. Qed.

Lemma put_target_buf n written k t :
  length written = n → (21 ≤ k)%nat → (length (CommandTarget.nodes t) ≤ MAX_TARGETS)%nat →
  put_target (buf n written k) n (S n) t
  = Ok (buf (n + 21) (written ++ target_field t) (k - 21)).
Proof.
  intros Hn Hk Ht. unfold put_target. rewrite slice_buf by lia. cbn [mbind outcome_bind].
  unfold encode_target. replace (S n + 20 - S n)%nat with MAX_TARGETS by (unfold MAX_TARGETS; lia).
  rewrite assign_nodes_zero, target_count by done. fold (nodes_field t). cbn [default].
  rewrite copy_buf by (rewrite ?length_nodes_field by done; unfold MAX_TARGETS; lia).
  cbn [mbind outcome_bind]. replace (S n - n)%nat with 1%nat by lia. cbn [replicate].
  unfold buf. rewrite <- !app_assoc. cbn [app]. rewrite store_next by done.
  unfold target_field. cbn [app]. do 5 f_equal. lia.
Qed.

Lemma two_bit_cases (P : Z → Prop) :
  P 0 → P 1 → P 2 → P 3 → ∀ x, is_u8 x → x ≤ 3 → P x.
Proof.
  unfold is_u8. intros. assert (x = 0 ∨ x = 1 ∨ x = 2 ∨ x = 3) as H' by lia.
  destruct H' as [->|[->|[->| ->]]]; done.
Qed.

(** Shifting and or-ing two-bit settings is positional notation in base 4. *)
Lemma pack_two_bit_settings_packed a b c d :
  Forall is_u8 [a; b; c; d] → Forall (λ s, s ≤ 3) [a; b; c; d] →
  pack_two_bit_settings [a; b; c; d] = packed [a; b; c; d].
Proof.
  rewrite !Forall_cons. intros (Ha & Hb & Hc & Hd & _) (Ha' & Hb' & Hc' & Hd' & _).
  revert a Ha Ha'. apply two_bit_cases; revert b Hb Hb'; apply two_bit_cases;
    revert c Hc Hc'; apply two_bit_cases; revert d Hd Hd'; apply two_bit_cases; reflexivity.
Qed.

Lemma packed_u8 a b c d :
  Forall is_u8 [a; b; c; d] → Forall (λ s, s ≤ 3) [a; b; c; d] → is_u8 (packed [a; b; c; d]).
Proof. rewrite !Forall_cons. unfold packed, is_u8. simpl. lia. Qed.

Lemma eight_settings (l : list Z) :
  byte_array 8 l → ∃ a b c d e f g h, l = [a; b; c; d; e; f; g; h].
Proof.
  intros [Hl _]. do 9 (destruct l as [|? l]; try discriminate Hl). by repeat eexists.
Qed.

Lemma put_priority_settings_buf n written k lock settings :
  length written = n → (2 ≤ k)%nat → byte_array 8 settings → Forall (λ s, s ≤ 3) settings →
  put_priority_settings (buf n written k) n lock settings
  = Ok (buf (n + 2) (written ++ priority_field lock settings) (k - 2)).
Proof.
  intros Hn Hk Hs H3. pose proof Hs as [_ Hu].
  apply eight_settings in Hs as (a & b & c & d & e & f & g & h & ->).
  unfold put_priority_settings, priority_field. destruct lock.
  - unfold slice. simpl.
    apply (Forall_app _ [a; b; c; d] [e; f; g; h]) in Hu as [Hu1 Hu2].
    apply (Forall_app _ [a; b; c; d] [e; f; g; h]) in H3 as [H31 H32].
    rewrite (pack_two_bit_settings_packed a b c d), (pack_two_bit_settings_packed e f g h) by done.
    rewrite store_buf by lia. simpl. rewrite store_buf.
    + rewrite Nat.sub_diag. simpl. replace (n + 1 - S n)%nat with 0%nat by lia. simpl.
      rewrite <- app_assoc. simpl. do 2 f_equal; lia.
    + rewrite !length_app, Nat.sub_diag. simpl. lia.
    + lia.
  - f_equal. rewrite (buf_gap n written k (n + 2)) by lia.
    replace (n + 2 - n)%nat with 2%nat by lia. f_equal. lia.
Qed.

(** [encode_fixed_string] against its specification *)
Lemma encode_fixed_string_layout N s :
  encode_fixed_string N s = match name_error N s with Some e => Err e | None => Ok (name_field N s) end.
Proof.
  pose proof (encode_fixed_string_spec N s) as H. unfold name_error.
  destruct (encode_fixed_string N s) as [f|e|]; [| |done].
  - destruct H as (H1 & H2 & ->). rewrite decide_False by done. rewrite decide_False by lia. done.
  - destruct H as [[H ->]|(H & H2 & ->)]; [by rewrite decide_True|].
    rewrite decide_False by done. by rewrite decide_True by lia.
Qed.

Lemma name_error_None N s :
  name_error N s = None → (0 ∉ bytes_of s) ∧ (String.length s ≤ N - 1)%nat.
Proof. unfold name_error. repeat case_decide; intros; try done. split; [done|lia]. Qed.

Lemma length_name_field N s :
  name_error (S N) s = None → length (name_field (S N) s) = S N.
Proof.
  intros [_ H]%name_error_None. unfold name_field.
  rewrite length_app, length_bytes_of, length_replicate. lia.
Qed.

Lemma name_field_u8 N s : Forall is_u8 (name_field N s).
Proof. apply Forall_app; split; [apply bytes_of_u8|apply Forall_u8_zero]. Qed.

Lemma validate_priority_settings_layout settings :
  validate_priority_settings settings
  = match settings_error settings with Some e => Err e | None => Ok tt end.
Proof.
  unfold validate_priority_settings, settings_error.
  destruct (existsb _ settings) eqn:He.
  - apply List.existsb_exists in He as (x & Hin%list_elem_of_In & Hx).
    rewrite decide_False; [done|]. rewrite Forall_forall. intros H. apply H in Hin. lia.
  - rewrite decide_True; [done|]. apply Forall_forall. intros x Hin%list_elem_of_In.
    destruct (decide (x ≤ 3)) as [|Hx]; [done|]. exfalso.
    rewrite <- not_true_iff_false, List.existsb_exists in He. apply He. exists x. split; [done|lia].
Qed.

(** ** The encoders against their layouts *)

(** The written length of a buffer, and the next field *)
Ltac field_length :=
  cbn [length u16_to_be_bytes]; repeat (rewrite length_app; cbn [length u16_to_be_bytes]); 
  rewrite ?length_replicate, ?length_priority_field, ?length_target_field by done; lia.
Ltac write_field :=
  first
    [ rewrite store_buf by field_length
    | rewrite copy_buf by field_length
    | rewrite put_target_buf by field_length
    | rewrite put_priority_settings_buf by first [field_length | done] ];
  cbn [mbind outcome_bind Nat.add Nat.sub replicate app].
Ltac written :=
  unfold buf; cbn [replicate]; rewrite ?app_nil_r, <- ?app_assoc; reflexivity.
(** Every encoder: start from the zeroed buffer, write the fields in turn, compare. *)
Ltac encodes :=
  rewrite buf_start;
  cbn -[buf copy_from_slice store slice mbind put_target put_priority_settings name_field
        target_field priority_field u16_to_be_bytes u8_from_bool StandardParameter.to_raw];
  repeat write_field; written.

Section encoders.
Lemma encode_network_setup_layout s :
  network_setup_wf s → encode_network_setup s = Ok (network_setup_layout s).
Proof.
  destruct s as [ip mask gateway dhcp]. intros ([? _] & [? _] & [? _]). simpl in *.
  unfold encode_network_setup. encodes.
Qed.

Lemma encode_node_set_layout s : NodeSet.wf s → encode_node_set s = Ok (node_set_layout s).
Proof.
  destruct s as [[actuators] [beacons]]. intros [[? _] _]. simpl in *.
  change ACTUATOR_BYTES with 25%nat in *. unfold encode_node_set. encodes.
Qed.

Lemma encode_group_layout g :
  group_wf g → name_error 64 (GroupInformation.name g) = None →
  encode_group_information g = Ok (group_layout g).
Proof.
  destruct g as [id order placement name velocity variation type count [actuators] revision].
  intros (_ & _ & _ & _ & _ & _ & _ & [Hlen _] & _) Hname. simpl in Hlen, Hname.
  change ACTUATOR_BYTES with 25%nat in Hlen. pose proof (length_name_field 63 _ Hname).
  unfold encode_group_information. cbn [GroupInformation.name]. rewrite encode_fixed_string_layout, Hname. encodes.
Qed.

Lemma encode_new_group_layout g :
  new_group_wf g → name_error 64 (NewGroupInformation.name g) = None →
  encode_new_group_information g = Ok (new_group_layout g).
Proof.
  destruct g as [order placement name velocity variation type count [actuators]].
  intros (_ & _ & _ & _ & _ & _ & [Hlen _]) Hname. simpl in Hlen, Hname.
  change ACTUATOR_BYTES with 25%nat in Hlen. pose proof (length_name_field 63 _ Hname).
  unfold encode_new_group_information. cbn [NewGroupInformation.name]. rewrite encode_fixed_string_layout, Hname. encodes.
Qed.

Lemma encode_wink_layout r : wink_wf r → encode_wink r = Ok (wink_layout r).
Proof.
  destruct r as [session originator level enabled time target].
  intros (_ & _ & _ & _ & _ & Ht & _). unfold encode_wink. encodes.
Qed.

Lemma encode_set_limitation_layout r :
  set_limitation_wf r → encode_set_limitation r = Ok (set_limitation_layout r).
Proof.
  destruct r as [session originator level target parameter minimum maximum time].
  intros (_ & _ & _ & (_ & Ht & _) & _). unfold encode_set_limitation. encodes.
Qed.

Lemma encode_get_limitation_status_layout r :
  get_limitation_status_wf r →
  encode_get_limitation_status r = Ok (get_limitation_status_layout r).
Proof.
  destruct r as [session target parameter type].
  intros (_ & (_ & Ht & _) & _). unfold encode_get_limitation_status. encodes.
Qed.

Lemma settings_error_None settings :
  settings_error settings = None → Forall (λ s, s ≤ 3) settings.
Proof. unfold settings_error. by case_decide. Qed.

Lemma encode_mode_layout r :
  mode_wf r → settings_error (ModeRequest.priority_level_settings r) = None →
  encode_mode r = Ok (mode_layout r).
Proof.
  destruct r as [session originator level number parameter target lock settings time].
  intros (_ & _ & _ & _ & _ & (_ & Ht & _) & Hs & _) He. cbn in He.
  pose proof (settings_error_None _ He). unfold encode_mode.
  cbn [ModeRequest.priority_level_settings].
  rewrite validate_priority_settings_layout, He. encodes.
Qed.

Lemma encode_activate_scene_layout r :
  encode_activate_scene r = Ok (scene_activation_layout r).
Proof. destruct r. unfold encode_activate_scene. encodes. Qed.

Lemma encode_stop_scene_layout r : encode_stop_scene r = Ok (scene_stop_layout r).
Proof. destruct r. unfold encode_stop_scene. encodes. Qed.

Lemma encode_activate_product_group_layout r :
  product_group_wf r →
  settings_error (ProductGroupActivationRequest.priority_level_settings r) = None →
  encode_activate_product_group r = Ok (product_group_layout r).
Proof.
  destruct r as [session originator level group parameter position velocity lock settings time].
  intros (_ & _ & _ & _ & _ & _ & _ & Hs & _) He. cbn in He.
  pose proof (settings_error_None _ He). unfold encode_activate_product_group.
  cbn [ProductGroupActivationRequest.priority_level_settings].
  rewrite validate_priority_settings_layout, He. encodes.
Qed.

Lemma encode_contact_input_link_layout l :
  link_wf l → settings_error (ContactInputLink.priority_level_settings l) = None →
  encode_contact_input_link l = Ok (link_layout l).
Proof.
  destruct l as [id assignment action originator level parameter position velocity lock settings
                   success error].
  intros (_ & _ & _ & _ & _ & _ & _ & _ & _ & [Hs _] & _) He. cbn in He.
  unfold encode_contact_input_link. cbn [ContactInputLink.priority_level_settings].
  rewrite validate_priority_settings_layout, He. encodes.
Qed.

Lemma encode_id_and_name_layout id name :
  encode_id_and_name id name =
    match name_error 64 name with Some e => Err e | None => Ok (id :: name_field 64 name) end.
Proof.
  unfold encode_id_and_name. rewrite encode_fixed_string_layout.
  destruct (name_error 64 name) eqn:Hname; [done|].
  pose proof (length_name_field 63 _ Hname). encodes.
Qed.

Lemma encode_command_send_layout command target :
  target_wf target →
  encode_command_send command target
  = Ok (layout (Request.CommandSend command target)).
Proof.
  intros (_ & Ht & _). pose proof (length_nodes_field _ Ht) as Hn.
  unfold encode_command_send. rewrite target_count by done. rewrite buf_start. cbn zeta.
  repeat write_field. rewrite slice_buf by field_length. cbn [mbind outcome_bind].
  change (62 - 42)%nat with MAX_TARGETS. rewrite assign_nodes_zero by done.
  fold (nodes_field target). unfold MAX_TARGETS in Hn. repeat write_field. written.
Qed.

Lemma encode_status_request_layout session target type :
  target_wf target →
  encode_status_request session target type
  = Ok (layout (Request.StatusRequest session target type)).
Proof.
  intros (_ & Ht & _). pose proof (length_nodes_field _ Ht) as Hn.
  unfold encode_status_request. rewrite target_count by done. rewrite buf_start. cbn zeta.
  repeat write_field. rewrite slice_buf by field_length. cbn [mbind outcome_bind].
  change (23 - 3)%nat with MAX_TARGETS. rewrite assign_nodes_zero by done.
  fold (nodes_field target). unfold MAX_TARGETS in Hn. repeat write_field. written.
Qed.
End encoders.

(** ** Requests *)
Lemma configuration_encode_layout r :
  request_wf (Request.Configuration r) →
  ConfigurationRequest.encode r = Ok (layout (Request.Configuration r)).
Proof. destruct r; simpl; intros; try done; by apply encode_node_set_layout. Qed.

Lemma node_group_encode_layout r :
  request_wf (Request.NodeGroup r) →
  NodeGroupRequest.encode r = prescribed (Request.NodeGroup r).
Proof.
  unfold prescribed. destruct r; intros Hwf; cbn [NodeGroupRequest.encode invalid layout]; try done.
  - apply encode_id_and_name_layout.
  - destruct (name_error 64 (GroupInformation.name group)) eqn:Hn;
      [|by apply encode_group_layout].
    unfold encode_group_information. by rewrite encode_fixed_string_layout, Hn.
  - destruct (name_error 64 (NewGroupInformation.name group)) eqn:Hn;
      [|by apply encode_new_group_layout].
    unfold encode_new_group_information. by rewrite encode_fixed_string_layout, Hn.
Qed.

Lemma command_extension_encode_layout r :
  request_wf (Request.CommandExtension r) →
  CommandExtensionRequest.encode r = prescribed (Request.CommandExtension r).
Proof.
  unfold prescribed. destruct r; intros Hwf; cbn [CommandExtensionRequest.encode invalid layout].
  - by apply encode_wink_layout.
  - by apply encode_set_limitation_layout.
  - by apply encode_get_limitation_status_layout.
  - destruct (settings_error _) eqn:He; [|by apply encode_mode_layout].
    unfold encode_mode. by rewrite validate_priority_settings_layout, He.
Qed.

Lemma scene_contact_encode_layout r :
  request_wf (Request.SceneContact r) →
  SceneContactRequest.encode r = prescribed (Request.SceneContact r).
Proof.
  unfold prescribed. destruct r; intros Hwf; cbn [SceneContactRequest.encode invalid layout]; try done.
  - apply encode_fixed_string_layout.
  - apply encode_id_and_name_layout.
  - apply encode_activate_scene_layout.
  - apply encode_stop_scene_layout.
  - destruct (settings_error _) eqn:He; [|by apply encode_activate_product_group_layout].
    unfold encode_activate_product_group. by rewrite validate_priority_settings_layout, He.
  - destruct (settings_error _) eqn:He; [|by apply encode_contact_input_link_layout].
    unfold encode_contact_input_link. by rewrite validate_priority_settings_layout, He.
Qed.

Lemma kind_unknown_or_known c :
  bool_decide (is_Some (CommandId.known c)) &&
  negb (bool_decide (CommandId.kind c = CommandKind.Request))
  = if invalid (Request.Raw c []) is Some _ then true else false.
Proof.
  cbn [invalid]. unfold CommandId.kind. destruct (CommandId.known c) as [k|] eqn:Hk.
  - rewrite (bool_decide_true (is_Some _)) by eauto. cbn.
    by destruct (KnownCommand.kind k).
  - rewrite bool_decide_false by (intros [? ?]; discriminate).
    by rewrite decide_False by (intros [? ?]; discriminate).
Qed.

Lemma password_change_layout current new :
  Request.encode_payload (Request.PasswordChange current new)
  = prescribed (Request.PasswordChange current new).
Proof.
  unfold prescribed. cbn [Request.encode_payload invalid layout].
  rewrite !encode_fixed_string_layout.
  destruct (name_error 32 current) eqn:H1; [done|]. pose proof (length_name_field 31 _ H1).
  rewrite buf_start. cbn [mbind outcome_bind]. write_field.
  destruct (name_error 32 new) eqn:H2; [done|]. pose proof (length_name_field 31 _ H2).
  cbn [mbind outcome_bind]. repeat write_field. written.
Qed.

Lemma encode_payload_layout r : request_wf r → Request.encode_payload r = prescribed r.
Proof.
  intros Hwf. destruct r; cbn [Request.encode_payload]; try done.
  - by apply encode_network_setup_layout.
  - apply encode_fixed_string_layout.
  - by apply configuration_encode_layout.
  - by apply node_group_encode_layout.
  - by apply command_extension_encode_layout.
  - by apply scene_contact_encode_layout.
  - apply encode_fixed_string_layout.
  - apply password_change_layout.
  - destruct Hwf as (_ & _ & Ht). by apply encode_command_send_layout.
  - destruct Hwf as (_ & Ht). by apply encode_status_request_layout.
  - rewrite kind_unknown_or_known. unfold prescribed. cbn [invalid layout].
    repeat case_match; simplify_eq; done.
Qed.

(** ** Every layout is a payload: bytes, and few enough of them *)
Lemma position_field_u8 p : parameter_wf p → Forall is_u8 (position_field p).
Proof. intros. apply u16_to_be_bytes_u8, ParameterFacts.to_raw_u16. done. Qed.

Lemma session_field_u8 s : session_wf s → Forall is_u8 (session_field s).
Proof. unfold session_wf, SessionId.wf. intros. apply u16_to_be_bytes_u8. unfold is_u16. lia. Qed.

Lemma target_field_u8 t : target_wf t → Forall is_u8 (target_field t).
Proof.
  intros (_ & Hl & _ & Hn). unfold target_field, nodes_field. apply Forall_cons. split.
  - unfold MAX_TARGETS, is_u8 in *. lia.
  - apply Forall_app; split; [by apply Forall_fmap|apply Forall_u8_zero].
Qed.

Lemma priority_field_u8 lock settings :
  byte_array 8 settings → settings_error settings = None → Forall is_u8 (priority_field lock settings).
Proof.
  intros Hs He%settings_error_None. pose proof Hs as [_ Hu].
  apply eight_settings in Hs as (a & b & c & d & e & f & g & h & ->).
  apply (Forall_app _ [a; b; c; d] [e; f; g; h]) in Hu as [? ?].
  apply (Forall_app _ [a; b; c; d] [e; f; g; h]) in He as [? ?].
  destruct lock; cbn [priority_field take drop]; [|apply (Forall_u8_zero 2)].
  apply Forall_cons; split; [by apply packed_u8|].
  apply Forall_cons; split; [by apply packed_u8|apply Forall_nil_2].
Qed.

Lemma status_type_u8 t : is_u8 (StatusRequestType.as_u8 t).
Proof. destruct t; unfold is_u8; simpl; lia. Qed.

Lemma beacons_u8 b : BeaconSet.wf b → is_u8 (BeaconSet.get b).
Proof. unfold BeaconSet.wf, is_u8. lia. Qed.

#[export] Hint Resolve position_field_u8 session_field_u8 target_field_u8 priority_field_u8
  name_field_u8 status_type_u8 beacons_u8 : klf.
#[export] Hint Unfold node_wf byte_array ActuatorSet.wf : klf.

Ltac bytes :=
  repeat first
    [ assumption
    | solve [eauto with klf]
    | apply Forall_app; split
    | apply Forall_cons; split
    | apply Forall_nil_2 ].

Ltac destruct_wf :=
  repeat match goal with
    | H : _ ∧ _ |- _ => destruct H
    | H : ActuatorSet.wf _ |- _ => destruct H
    | H : NodeSet.wf _ |- _ => destruct H
    | H : network_setup_wf _ |- _ => destruct H
    | H : byte_array 4 _ |- _ => destruct H
    | H : byte_array 5 _ |- _ => destruct H
    end.

Lemma layout_u8 r : request_wf r → invalid r = None → Forall is_u8 (layout r).
Proof.
  intros Hwf Hv. destruct r as [| | | | | | | | | | | [] | [ | | | |[]| |[]| ] | [[]|[]|[]|[]]
      | [| | | | | | | []|[]|[]| |[]|] | [] | | | | | | | | |];
    cbn [layout request_wf group_layout group_wf new_group_layout new_group_wf link_layout link_wf
         wink_layout wink_wf set_limitation_layout set_limitation_wf get_limitation_status_layout
         get_limitation_status_wf mode_layout mode_wf scene_activation_layout scene_activation_wf
         scene_stop_layout scene_stop_wf product_group_layout product_group_wf] in *;
    try apply Forall_nil_2;
    unfold network_setup_layout, node_set_layout, network_setup_wf, NodeSet.wf in *;
    destruct_wf; bytes.
Qed.

Definition is_raw (r : Request.t) : bool := if r is Request.Raw _ _ then true else false.

Ltac layout_length :=
  repeat match goal with
    | H : name_error 64 ?s = None |- _ => apply (length_name_field 63) in H
    | H : name_error 32 ?s = None |- _ => apply (length_name_field 31) in H
    | H : target_wf ?t |- _ => destruct H as (_ & H & _); apply length_target_field in H
    end;
  unfold session_field, position_field;
  cbn [length u16_to_be_bytes u32_to_be_bytes];
  repeat (rewrite length_app; cbn [length u16_to_be_bytes]);
  rewrite ?length_priority_field, ?length_replicate; unfold ACTUATOR_BYTES, ACTUATOR_COUNT in *;
  repeat match goal with H : length _ = _ |- _ => rewrite H; clear H end; cbn; lia.

Lemma layout_length r :
  request_wf r → invalid r = None → is_raw r = false → (length (layout r) ≤ 99)%nat.
Proof.
  intros Hwf Hv Hraw. destruct r as [| | | | | | | | | | | [] | [ | | | |[]| |[]| ] | [[]|[]|[]|[]]
      | [| | | | | | | []|[]|[]| |[]|] | [] | | | | | | | | |]; try done;
    cbn [layout request_wf group_layout group_wf new_group_layout new_group_wf link_layout link_wf
         wink_layout wink_wf set_limitation_layout set_limitation_wf get_limitation_status_layout
         get_limitation_status_wf mode_layout mode_wf scene_activation_layout scene_activation_wf
         scene_stop_layout scene_stop_wf product_group_layout product_group_wf invalid
         GroupInformation.name NewGroupInformation.name] in *;
    try (cbn [length]; lia);
    unfold network_setup_layout, node_set_layout, network_setup_wf, NodeSet.wf in *;
    destruct_wf; try layout_length.
  - destruct (name_error 32 current_password) eqn:?; [done|]. layout_length.
Qed.

(** * Properties *)

Lemma encode_layout r :
  request_wf r →
  Request.encode r =
    match invalid r with
    | Some e => Err e
    | None => Ok (Frame.new (Request.command_id r) (layout r))
    end.
Proof.
  intros Hwf. unfold Request.encode. rewrite encode_payload_layout by done. unfold prescribed.
  by destruct (invalid r).
Qed.

(** C28: the encoders refine the layout specification: a request that satisfies its type
    invariant is refused with exactly the prescribed error, or encoded as the frame of its
    command identifier whose payload is the fields in wire order; no encoder panics. *)
Theorem request_encode_refines_layout (r : Request.t) :
  request_wf r →
  Request.encode r =
    match invalid r with
    | Some e => Err e
    | None => Ok (Frame.new (Request.command_id r) (layout r))
    end.
Proof. apply encode_layout. Qed.

Definition sample_target : CommandTarget.t := CommandTarget.mk [NodeId.new 3; NodeId.new 7].

Lemma sample_target_wf : target_wf sample_target.
Proof. unfold target_wf, node_wf. split_and!; by apply (bool_decide_unpack _); vm_compute. Defined.

Lemma request_encode_refines_layout_witness :
  Request.encode (Request.StatusRequest (SessionId.mk 258) sample_target
                    StatusRequestType.MainInformation)
  = Ok (Frame.new GW_STATUS_REQUEST_REQ
          ([1; 2; 2; 3; 7] ++ replicate 18 0 ++ [3; 0; 0])).
Proof.
  refine (request_encode_refines_layout (Request.StatusRequest (SessionId.mk 258) sample_target
                    StatusRequestType.MainInformation) _).
  split; [apply (bool_decide_unpack _); vm_compute; exact I|exact sample_target_wf].
Defined.

(** The frame of an accepted typed request is within the envelope. *)
Lemma layout_fits_frame r :
  request_wf r → is_raw r = false → invalid r = None →
  let f := Frame.new (Request.command_id r) (layout r) in
  Frame.wf f ∧ (length (Frame.payload f) ≤ 99)%nat
  ∧ ∃ bytes, Frame.encode f = Ok bytes ∧ Frame.decode bytes = Ok f.
Proof.
  intros Hwf Hraw Hv f.
  pose proof (layout_length r Hwf Hv Hraw) as Hl. pose proof (layout_u8 r Hwf Hv) as Hu.
  assert (is_u16 (raw (Request.command_id r))) as Hc.
  { destruct r as [| | | | | | | | | | |[]|[]|[]|[]|[]| | | | | | | | |]; try done;
      apply (bool_decide_unpack _); vm_compute; exact I. }
  split_and!; [by split|done|].
  assert (length (layout r) ≤ MAX_PAYLOAD_LENGTH)%nat as Hm by (unfold MAX_PAYLOAD_LENGTH; lia).
  exists (FrameFacts.wire (Request.command_id r) (layout r)). split.
  - unfold f. by rewrite FrameFacts.encode_wire.
  - destruct (FrameFacts.wire_u8 _ _ Hc Hu Hm).
    apply FrameFacts.decode_accepted; [done|]. by apply FrameFacts.wire_accepted.
Qed.

(** Every typed request that is accepted fits the frame envelope: its payload is at most
    99 bytes, its frame encodes, and the receiver's decoder gives the frame back. *)
Theorem typed_request_fits_frame (r : Request.t) (f : Frame.t) :
  request_wf r → is_raw r = false → Request.encode r = Ok f →
  Frame.wf f ∧ (length (Frame.payload f) ≤ 99)%nat
  ∧ ∃ bytes, Frame.encode f = Ok bytes ∧ Frame.decode bytes = Ok f.
Proof.
  intros Hwf Hraw He. rewrite encode_layout in He by done.
  destruct (invalid r) eqn:Hv; [done|]. injection He as <-. by apply layout_fits_frame.
Qed.

Lemma typed_request_fits_frame_witness :
  Frame.wf (Frame.new GW_GET_NODE_INFORMATION_REQ [5]).
Proof.
  exact (proj1 (typed_request_fits_frame (Request.GetNodeInformation (NodeId.new 5)) _
    ltac:(apply (bool_decide_unpack _); vm_compute; exact I) eq_refl eq_refl)).
Defined.

(** Every typed request carries a registered request command whose confirmation is known,
    so the actor never refuses it as [MissingConfirmation]. *)
Theorem typed_request_has_confirmation (r : Request.t) :
  is_raw r = false →
  CommandId.kind (Request.command_id r) = CommandKind.Request
  ∧ ∃ d, CommandId.expected_confirmation (Request.command_id r) = Some d
         ∧ CommandId.kind d = CommandKind.Confirmation.
Proof.
  intros Hraw.
  assert (CommandId.kind (Request.command_id r) = CommandKind.Request) as Hk.
  { destruct r as [| | | | | | | | | | |[]|[]|[]|[]|[]| | | | | | | | |]; try done;
      vm_compute; reflexivity. }
  split; [done|]. by apply CommandIdFacts.request_confirmation.
Qed.

Lemma typed_request_has_confirmation_witness :
  CommandId.kind (Request.command_id Request.GetVersion) = CommandKind.Request.
Proof. exact (proj1 (typed_request_has_confirmation Request.GetVersion eq_refl)). Defined.

(** A target list is accepted exactly when it has between one and twenty nodes, all
    distinct, and is kept in order. *)
Theorem command_target_new_spec (nodes : list NodeId.t) :
  match CommandTarget.new nodes with
  | Ok t => CommandTarget.nodes t = nodes ∧ nodes ≠ [] ∧ (length nodes ≤ MAX_TARGETS)%nat
            ∧ NoDup nodes
  | Err _ => nodes = [] ∨ (MAX_TARGETS < length nodes)%nat ∨ ¬ NoDup nodes
  | Panic => False
  end.
Proof.
  unfold CommandTarget.new. case_bool_decide as H0; [by left|].
  destruct (Nat.ltb_spec MAX_TARGETS (length nodes)); [by right; left|].
  destruct (existsb _ _) eqn:He.
  - right; right. apply List.existsb_exists in He as ([i x] & Hin%list_elem_of_In & Hx).
    apply elem_of_lookup_imap in Hin as (j & y & [= -> ->] & Hj).
    apply bool_decide_eq_true in Hx. intros Hnd.
    apply list_elem_of_lookup in Hx as [k Hk]. apply lookup_take_Some in Hk as [Hk Hlt].
    pose proof (NoDup_lookup _ _ _ _ Hnd Hj Hk). lia.
  - split_and!; [done|done|done|]. apply NoDup_alt. intros i j x Hi Hj.
    assert (∀ i j, nodes !! i = Some x → nodes !! j = Some x → (i < j)%nat → False) as Hlt.
    { clear i j Hi Hj. intros i j Hi Hj Hij. rewrite <- not_true_iff_false in He. apply He.
      apply List.existsb_exists. exists (j, x). split.
      - apply list_elem_of_In, elem_of_lookup_imap. eauto.
      - apply bool_decide_eq_true, list_elem_of_lookup. exists i. by apply lookup_take_Some. }
    destruct (Nat.lt_total i j) as [?|[?|?]]; [|done|]; exfalso; eauto.
Qed.
