(* ===== verification/ResponseTypes.v ===== *)
(** * Response types (klf200/response.rs, the data)

    The structures and enums that decoding yields, with the source's field and variant
    names. Fixed arrays are lists; their lengths are part of [response_wf] in [ResponseFacts]. *)

From S2P Require Import Prelude RustStd CommandIds Error Types.

Module OperatingState.
Inductive t :=
| NonExecuting
| ExecutionError
| NotUsed
| WaitingForPower
| Executing
| Done
| Unknown (value : Z).
Global Instance eq_dec : EqDecision t.
Proof. solve_decision. Defined.

Definition from_u8 (value : Z) : t :=
  if value =? 0 then NonExecuting
  else if value =? 1 then ExecutionError
  else if value =? 2 then NotUsed
  else if value =? 3 then WaitingForPower
  else if value =? 4 then Executing
  else if value =? 5 then Done
  else Unknown value.
End OperatingState.

Module RunStatus.
Inductive t :=
| Completed
| Failed
| Active
| Unknown (value : Z).
Global Instance eq_dec : EqDecision t.
Proof. solve_decision. Defined.

Definition from_u8 (value : Z) : t :=
  if value =? 0 then Completed
  else if value =? 1 then Failed
  else if value =? 2 then Active
  else Unknown value.
End RunStatus.

Module Version.
Record t := mk { software : list Z; hardware : Z; product_group : Z; product_type : Z }.
Global Instance eq_dec : EqDecision t.
Proof. solve_decision. Defined.
End Version.

Module ProtocolVersion.
Record t := mk { major : Z; minor : Z }.
Global Instance eq_dec : EqDecision t.
Proof. solve_decision. Defined.
End ProtocolVersion.

Module GatewayState.
Record t := mk { state : Z; sub_state : Z; data : list Z }.
Global Instance eq_dec : EqDecision t.
Proof. solve_decision. Defined.
End GatewayState.

Module LocalTime.
Record t := mk {
  utc_time : ProtocolTimestamp.t;
  second : Z;
  minute : Z;
  hour : Z;
  day_of_month : Z;
  month_since_january : Z;
  years_since_1900 : Z;
  week_day : Z;
  day_of_year : Z;
  daylight_saving_flag : Z
}.
Global Instance eq_dec : EqDecision t.
Proof. solve_decision. Defined.
End LocalTime.

Module PasswordChangedNotification.
Record t := mk { new_password : string }.
Global Instance eq_dec : EqDecision t.
Proof. solve_decision. Defined.
End PasswordChangedNotification.

Module SystemTableObject.
Record t := mk {
  index : Z;
  actuator_address : list Z;
  actuator_type_sub_type : Z;
  power_mode_and_flags : Z;
  manufacturer_id : Z;
  backbone_reference : list Z
}.
Global Instance eq_dec : EqDecision t.
Proof. solve_decision. Defined.
End SystemTableObject.

Module SystemTableData.
Record t := mk { entries : list SystemTableObject.t; remaining_entries : Z }.
Global Instance eq_dec : EqDecision t.
Proof. solve_decision. Defined.
End SystemTableData.

Module NodeDiscoveryResult.
Record t := mk {
  added : NodeSet.t;
  rf_connection_error : NodeSet.t;
  key_error_existing_node : NodeSet.t;
  removed : NodeSet.t;
  open : NodeSet.t;
  status : Z
}.
Global Instance eq_dec : EqDecision t.
Proof. solve_decision. Defined.
End NodeDiscoveryResult.

Module ControllerCopyResult.
Record t := mk { mode : Z; status : Z }.
Global Instance eq_dec : EqDecision t.
Proof. solve_decision. Defined.
End ControllerCopyResult.

Module KeyChangeResult.
Record t := mk { command : CommandId; status : Z; changed : NodeSet.t; unchanged : NodeSet.t }.
Global Instance eq_dec : EqDecision t.
Proof. solve_decision. Defined.
End KeyChangeResult.

Module PgcJob.
Record t := mk { state : Z; status : Z; job_type : Z }.
Global Instance eq_dec : EqDecision t.
Proof. solve_decision. Defined.
End PgcJob.

Module SystemTableUpdate.
Record t := mk { added : NodeSet.t; removed : NodeSet.t }.
Global Instance eq_dec : EqDecision t.
Proof. solve_decision. Defined.
End SystemTableUpdate.

Module ConfigurationActivationResult.
Record t := mk {
  activated : NodeSet.t;
  no_contact : NodeSet.t;
  other_error : NodeSet.t;
  status : Z
}.
Global Instance eq_dec : EqDecision t.
Proof. solve_decision. Defined.
End ConfigurationActivationResult.

Module NodeMutationResult.
Record t := mk { command : CommandId; status : Z; node_id : NodeId.t }.
Global Instance eq_dec : EqDecision t.
Proof. solve_decision. Defined.
End NodeMutationResult.

Module GroupOperationResult.
Record t := mk { command : CommandId; status : Z; group_id : GroupId.t }.
Global Instance eq_dec : EqDecision t.
Proof. solve_decision. Defined.
End GroupOperationResult.

Module GroupInformationNotification.
Record t := mk { command : CommandId; information : GroupInformation.t }.
Global Instance eq_dec : EqDecision t.
Proof. solve_decision. Defined.
End GroupInformationNotification.

Module GroupChange.
Record t := mk { change_type : Z; group_id : GroupId.t; information : option GroupInformation.t }.
Global Instance eq_dec : EqDecision t.
Proof. solve_decision. Defined.
End GroupChange.

Module AllGroupsAccepted.
Record t := mk { status : Z; total_groups : Z }.
Global Instance eq_dec : EqDecision t.
Proof. solve_decision. Defined.
End AllGroupsAccepted.

Module SessionCommandResult.
Record t := mk { command : CommandId; session_id : SessionId.t; status : Z }.
Global Instance eq_dec : EqDecision t.
Proof. solve_decision. Defined.
End SessionCommandResult.

Module LimitationStatus.
Record t := mk {
  session_id : SessionId.t;
  node_id : NodeId.t;
  parameter_id : Z;
  minimum : StandardParameter.t;
  maximum : StandardParameter.t;
  originator : Z;
  limitation_time : Z
}.
Global Instance eq_dec : EqDecision t.
Proof. solve_decision. Defined.
End LimitationStatus.

Module SceneStatusResult.
Record t := mk { command : CommandId; status : Z }.
Global Instance eq_dec : EqDecision t.
Proof. solve_decision. Defined.
End SceneStatusResult.

Module SceneInitializationResult.
Record t := mk { status : Z; node_states : list bool }.
Global Instance eq_dec : EqDecision t.
Proof. solve_decision. Defined.
End SceneInitializationResult.

Module SceneObjectResult.
Record t := mk { command : CommandId; status : Z; scene_id : Z }.
Global Instance eq_dec : EqDecision t.
Proof. solve_decision. Defined.
End SceneObjectResult.

Module SceneSummary.
Record t := mk { scene_id : Z; name : string }.
Global Instance eq_dec : EqDecision t.
Proof. solve_decision. Defined.
End SceneSummary.

Module SceneList.
Record t := mk { scenes : list SceneSummary.t; remaining_scenes : Z }.
Global Instance eq_dec : EqDecision t.
Proof. solve_decision. Defined.
End SceneList.

Module SceneNode.
Record t := mk { node_id : NodeId.t; parameter_id : Z; parameter : StandardParameter.t }.
Global Instance eq_dec : EqDecision t.
Proof. solve_decision. Defined.
End SceneNode.

Module SceneInformation.
Record t := mk { scene_id : Z; name : string; nodes : list SceneNode.t; remaining_nodes : Z }.
Global Instance eq_dec : EqDecision t.
Proof. solve_decision. Defined.
End SceneInformation.

Module SceneSessionResult.
Record t := mk { command : CommandId; status : Z; session_id : SessionId.t }.
Global Instance eq_dec : EqDecision t.
Proof. solve_decision. Defined.
End SceneSessionResult.

Module SceneChange.
Record t := mk { change_type : Z; scene_id : Z }.
Global Instance eq_dec : EqDecision t.
Proof. solve_decision. Defined.
End SceneChange.

Module ProductGroupResult.
Record t := mk { session_id : SessionId.t; status : Z }.
Global Instance eq_dec : EqDecision t.
Proof. solve_decision. Defined.
End ProductGroupResult.

Module ContactInputOperationResult.
Record t := mk { command : CommandId; contact_input_id : Z; status : Z }.
Global Instance eq_dec : EqDecision t.
Proof. solve_decision. Defined.
End ContactInputOperationResult.

Module ActivationLogHeader.
Record t := mk { maximum_lines : Z; line_count : Z }.
Global Instance eq_dec : EqDecision t.
Proof. solve_decision. Defined.
End ActivationLogHeader.

Module ActivationLogEntry.
Record t := mk {
  command : CommandId;
  timestamp : ProtocolTimestamp.t;
  session_id : SessionId.t;
  status_id : Z;
  node_id : NodeId.t;
  node_parameter : Z;
  parameter_value : StandardParameter.t;
  run_status : RunStatus.t;
  status_reply : Z;
  information_code : Z
}.
Global Instance eq_dec : EqDecision t.
Proof. solve_decision. Defined.
End ActivationLogEntry.

Module MultipleActivationLogResult.
Record t := mk { line_count : Z; status : Z }.
Global Instance eq_dec : EqDecision t.
Proof. solve_decision. Defined.
End MultipleActivationLogResult.

Module NodeInformation.
Record t := mk {
  node_id : NodeId.t;
  order : Z;
  placement : Z;
  name : string;
  velocity : Z;
  node_type_sub_type : Z;
  product_group : Z;
  product_type : Z;
  variation : Z;
  power_mode : Z;
  build_number : Z;
  serial_number : list Z;
  operating_state : OperatingState.t;
  current_position : StandardParameter.t;
  target_position : StandardParameter.t;
  functional_positions : list StandardParameter.t;
  remaining_time : Z;
  timestamp : ProtocolTimestamp.t;
  aliases : list Alias.t
}.
Global Instance eq_dec : EqDecision t.
Proof. solve_decision. Defined.
End NodeInformation.

Module NodeStatePosition.
Record t := mk {
  node_id : NodeId.t;
  operating_state : OperatingState.t;
  current_position : StandardParameter.t;
  target_position : StandardParameter.t;
  functional_positions : list StandardParameter.t;
  remaining_time : Z;
  timestamp : ProtocolTimestamp.t
}.
Global Instance eq_dec : EqDecision t.
Proof. solve_decision. Defined.
End NodeStatePosition.

Module NodeInformationChanged.
Record t := mk { node_id : NodeId.t; name : string; order : Z; placement : Z; variation : Z }.
Global Instance eq_dec : EqDecision t.
Proof. solve_decision. Defined.
End NodeInformationChanged.

Module CommandRunStatus.
Record t := mk {
  session_id : SessionId.t;
  status_id : Z;
  node_id : NodeId.t;
  node_parameter : Z;
  parameter_value : StandardParameter.t;
  run_status : RunStatus.t;
  status_reply : Z;
  information_code : Z
}.
Global Instance eq_dec : EqDecision t.
Proof. solve_decision. Defined.
End CommandRunStatus.

Module ParameterStatus.
Record t := mk { node_parameter : Z; value : Z }.
Global Instance eq_dec : EqDecision t.
Proof. solve_decision. Defined.
End ParameterStatus.


Module StatusNotificationDetail.
Inductive t :=
| Parameters (values : list ParameterStatus.t)
| Main (target_position current_position : StandardParameter.t) (remaining_time : Z)
    (last_master_execution_address last_command_originator : Z)
| Unknown (status_type : Z) (payload : list Z).
Global Instance eq_dec : EqDecision t.
Proof. solve_decision. Defined.
End StatusNotificationDetail.

Module StatusNotification.
Record t := mk {
  session_id : SessionId.t;
  status_id : Z;
  node_id : NodeId.t;
  run_status : RunStatus.t;
  status_reply : Z;
  detail : StatusNotificationDetail.t
}.
Global Instance eq_dec : EqDecision t.
Proof. solve_decision. Defined.
End StatusNotification.

Module Response.
Inductive t :=
| ErrorNotification (error_number : Z)
| Acknowledgement (command : CommandId)
| PasswordEntered (accepted : bool)
| PasswordChanged (accepted : bool)
| PasswordChangedNotification (n : PasswordChangedNotification.t)
| OperationStatus (command : CommandId) (status : Z)
| Version (v : Version.t)
| ProtocolVersion (v : ProtocolVersion.t)
| GatewayState (s : GatewayState.t)
| NetworkSetup (s : NetworkSetup.t)
| LocalTime (l : LocalTime.t)
| SystemTableData (d : SystemTableData.t)
| NodeDiscoveryResult (r : NodeDiscoveryResult.t)
| NodesRemoved (scene_deleted : bool)
| ControllerCopyResult (r : ControllerCopyResult.t)
| KeyChangeResult (r : KeyChangeResult.t)
| PgcJob (j : PgcJob.t)
| SystemTableUpdate (u : SystemTableUpdate.t)
| ConfigurationActivationResult (r : ConfigurationActivationResult.t)
| NodeMutationResult (r : NodeMutationResult.t)
| GroupOperationResult (r : GroupOperationResult.t)
| GroupInformation (n : GroupInformationNotification.t)
| GroupChange (c : GroupChange.t)
| AllGroupsAccepted (a : AllGroupsAccepted.t)
| GroupDeleted (g : GroupId.t)
| SessionCommandResult (r : SessionCommandResult.t)
| WinkFinished (session_id : SessionId.t)
| LimitationStatus (s : LimitationStatus.t)
| ModeNotification (payload : list Z)
| SceneStatusResult (r : SceneStatusResult.t)
| SceneInitializationResult (r : SceneInitializationResult.t)
| SceneObjectResult (r : SceneObjectResult.t)
| SceneListAccepted (total_scenes : Z)
| SceneList (l : SceneList.t)
| SceneInformation (i : SceneInformation.t)
| SceneSessionResult (r : SceneSessionResult.t)
| SceneChange (c : SceneChange.t)
| ProductGroupResult (r : ProductGroupResult.t)
| ProductGroupNotification (payload : list Z)
| ContactInputLinks (links : list ContactInputLink.t)
| ContactInputOperationResult (r : ContactInputOperationResult.t)
| ActivationLogHeader (h : ActivationLogHeader.t)
| ActivationLogEntry (e : ActivationLogEntry.t)
| MultipleActivationLogResult (r : MultipleActivationLogResult.t)
| NodeInformationAccepted (status : Z) (node_id : NodeId.t)
| AllNodesInformationAccepted (status total_nodes : Z)
| NodeInformation (i : NodeInformation.t)
| NodeInformationChanged (c : NodeInformationChanged.t)
| NodeStatePosition (p : NodeStatePosition.t)
| CommandAccepted (session_id : SessionId.t) (status : Z)
| CommandRunStatus (s : CommandRunStatus.t)
| CommandRemainingTime (session_id : SessionId.t) (node_id : NodeId.t) (node_parameter seconds : Z)
| SessionFinished (session_id : SessionId.t)
| StatusAccepted (session_id : SessionId.t) (status : Z)
| StatusNotification (n : StatusNotification.t)
| Unknown (command : CommandId) (payload : list Z).
Global Instance eq_dec : EqDecision t.
Proof. solve_decision. Defined.
End Response.
