(* ===== verification/Response.v ===== *)
(** * Decoding responses (klf200/response.rs, the decoders)

    Every decoder checks the payload length and then reads fields at literal offsets; a read
    past the end panics in the code and is [Panic] here. [decode_returns] shows that no
    payload reaches one. *)

From S2P Require Import Prelude RustStd CommandIds Error Types Frame ResponseTypes.

(** ** Reads and length checks *)
Definition read_u16 (payload : list Z) (offset : nat) : KlfResult Z :=
  a ← payload.[offset]; b ← payload.[offset + 1];
  Ok (u16_from_be_bytes a b).

Definition read_u32 (payload : list Z) (offset : nat) : KlfResult Z :=
  a ← payload.[offset]; b ← payload.[offset + 1];
  c ← payload.[offset + 2]; d ← payload.[offset + 3];
  Ok (u32_from_be_bytes a b c d).

(** [StandardParameter::from_raw(read_u16(payload, offset))] *)
Definition read_parameter (payload : list Z) (offset : nat) : KlfResult StandardParameter.t :=
  raw ← read_u16 payload offset;
  Ok (StandardParameter.from_raw raw).

Definition require (payload : list Z) (expected : nat) (command : CommandId) : KlfResult unit :=
  if (length payload <? expected)%nat
  then Err (KlfError.TruncatedPayload command expected (length payload))
  else Ok tt.

Definition require_exact (payload : list Z) (expected : nat) (command : CommandId) : KlfResult unit :=
  match (length payload ?= expected)%nat with
  | Lt => Err (KlfError.TruncatedPayload command expected (length payload))
  | Eq => Ok tt
  | Gt => Err (KlfError.InvalidPayloadLength command expected (length payload))
  end.

Definition session_id_at (payload : list Z) (offset : nat) (command : CommandId)
    : KlfResult SessionId.t :=
  _ ← require payload (offset + 2) command;
  raw ← read_u16 payload offset;
  ok_or (SessionId.new raw) (KlfError.InvalidRequest "session ID zero is reserved").

Definition session_id (payload : list Z) (command : CommandId) : KlfResult SessionId.t :=
  _ ← require payload 2 command;
  session_id_at payload 0 command.

(** A pattern [A | B | C] over command constants *)
Definition one_of (command : CommandId) (patterns : list CommandId) : bool :=
  existsb (command_eqb command) patterns.

(** ** Gateway commands *)
Definition decode_version (payload : list Z) (command : CommandId) : KlfResult Version.t :=
  _ ← require_exact payload 9 command;
  software ← payload.[0 ..< 6];
  hardware ← payload.[6];
  product_group ← payload.[7];
  product_type ← payload.[8];
  Ok (Version.mk software hardware product_group product_type).

Definition decode_gateway (command : CommandId) (payload : list Z) : KlfResult Response.t :=
  if one_of command [GW_ERROR_NTF] then
    _ ← require_exact payload 1 command;
    error_number ← payload.[0];
    Ok (Response.ErrorNotification error_number)
  else if one_of command [GW_SET_NETWORK_SETUP_CFM; GW_SET_UTC_CFM] then
    _ ← require_exact payload 0 command;
    Ok (Response.Acknowledgement command)
  else if one_of command [GW_PASSWORD_ENTER_CFM] then
    _ ← require_exact payload 1 command;
    b ← payload.[0];
    Ok (Response.PasswordEntered (b =? 0))
  else if one_of command [GW_PASSWORD_CHANGE_CFM] then
    _ ← require_exact payload 1 command;
    b ← payload.[0];
    Ok (Response.PasswordChanged (b =? 0))
  else if one_of command [GW_PASSWORD_CHANGE_NTF] then
    _ ← require_exact payload 32 command;
    new_password ← decode_fixed_string payload;
    Ok (Response.PasswordChangedNotification (PasswordChangedNotification.mk new_password))
  else if one_of command [GW_GET_VERSION_CFM] then
    Response.Version <$> decode_version payload command
  else if one_of command [GW_GET_PROTOCOL_VERSION_CFM] then
    _ ← require_exact payload 4 command;
    major ← read_u16 payload 0;
    minor ← read_u16 payload 2;
    Ok (Response.ProtocolVersion (ProtocolVersion.mk major minor))
  else if one_of command [GW_GET_STATE_CFM] then
    _ ← require_exact payload 6 command;
    state ← payload.[0];
    sub_state ← payload.[1];
    d0 ← payload.[2]; d1 ← payload.[3]; d2 ← payload.[4]; d3 ← payload.[5];
    Ok (Response.GatewayState (GatewayState.mk state sub_state [d0; d1; d2; d3]))
  else if one_of command [GW_LEAVE_LEARN_STATE_CFM; GW_RTC_SET_TIME_ZONE_CFM] then
    _ ← require_exact payload 1 command;
    status ← payload.[0];
    Ok (Response.OperationStatus command status)
  else if one_of command [GW_GET_NETWORK_SETUP_CFM] then
    _ ← require_exact payload 13 command;
    i0 ← payload.[0]; i1 ← payload.[1]; i2 ← payload.[2]; i3 ← payload.[3];
    m0 ← payload.[4]; m1 ← payload.[5]; m2 ← payload.[6]; m3 ← payload.[7];
    g0 ← payload.[8]; g1 ← payload.[9]; g2 ← payload.[10]; g3 ← payload.[11];
    dhcp ← payload.[12];
    Ok (Response.NetworkSetup
          (NetworkSetup.mk [i0; i1; i2; i3] [m0; m1; m2; m3] [g0; g1; g2; g3] (dhcp =? 1)))
  else if one_of command [GW_GET_LOCAL_TIME_CFM] then
    _ ← require_exact payload 15 command;
    utc ← read_u32 payload 0;
    second ← payload.[4];
    minute ← payload.[5];
    hour ← payload.[6];
    day_of_month ← payload.[7];
    month_since_january ← payload.[8];
    y0 ← payload.[9]; y1 ← payload.[10];
    week_day ← payload.[11];
    day_of_year ← read_u16 payload 12;
    daylight ← payload.[14];
    Ok (Response.LocalTime
          (LocalTime.mk (ProtocolTimestamp.from_unix_seconds utc) second minute hour day_of_month
             month_since_january (i16_from_be_bytes y0 y1) week_day day_of_year
             (i8_from_be_bytes daylight)))
  else Ok (Response.Unknown command payload).

(** ** Configuration commands *)
Definition decode_node_set (payload : list Z) (offset : nat) : KlfResult NodeSet.t :=
  actuators ← payload.[offset ..< offset + 25];
  beacons ← payload.[offset + 25];
  Ok (NodeSet.new (ActuatorSet.from_bytes actuators) (BeaconSet.from_byte beacons)).

Definition decode_system_table_object (payload : list Z) (offset : nat)
    : KlfResult SystemTableObject.t :=
  index ← payload.[offset];
  a0 ← payload.[offset + 1]; a1 ← payload.[offset + 2]; a2 ← payload.[offset + 3];
  actuator_type_sub_type ← read_u16 payload (offset + 4);
  power_mode_and_flags ← payload.[offset + 6];
  manufacturer_id ← payload.[offset + 7];
  b0 ← payload.[offset + 8]; b1 ← payload.[offset + 9]; b2 ← payload.[offset + 10];
  Ok (SystemTableObject.mk index [a0; a1; a2] actuator_type_sub_type power_mode_and_flags
        manufacturer_id [b0; b1; b2]).

Definition decode_system_table_data (payload : list Z) (command : CommandId) : KlfResult Response.t :=
  _ ← require payload 2 command;
  count_byte ← payload.[0];
  let count := Z.to_nat count_byte in
  let expected := (2 + count * 11)%nat in
  _ ← require_exact payload expected command;
  entries ← mapM (λ index, decode_system_table_object payload (1 + index * 11)) (seq 0 count);
  remaining_entries ← payload.[expected - 1];
  Ok (Response.SystemTableData (SystemTableData.mk entries remaining_entries)).

Definition decode_configuration (command : CommandId) (payload : list Z) : KlfResult Response.t :=
  if one_of command [GW_CS_GET_SYSTEMTABLE_DATA_CFM; GW_CS_DISCOVER_NODES_CFM;
       GW_CS_VIRGIN_STATE_CFM; GW_CS_CONTROLLER_COPY_CFM; GW_CS_CONTROLLER_COPY_CANCEL_NTF;
       GW_CS_RECEIVE_KEY_CFM; GW_CS_GENERATE_NEW_KEY_CFM; GW_CS_REPAIR_KEY_CFM] then
    _ ← require_exact payload 0 command;
    Ok (Response.Acknowledgement command)
  else if one_of command [GW_CS_GET_SYSTEMTABLE_DATA_NTF] then
    decode_system_table_data payload command
  else if one_of command [GW_CS_DISCOVER_NODES_NTF] then
    _ ← require_exact payload 131 command;
    added ← decode_node_set payload 0;
    rf_connection_error ← decode_node_set payload 26;
    key_error_existing_node ← decode_node_set payload 52;
    removed ← decode_node_set payload 78;
    open ← decode_node_set payload 104;
    status ← payload.[130];
    Ok (Response.NodeDiscoveryResult
          (NodeDiscoveryResult.mk added rf_connection_error key_error_existing_node removed open
             status))
  else if one_of command [GW_CS_REMOVE_NODES_CFM] then
    _ ← require_exact payload 1 command;
    b ← payload.[0];
    Ok (Response.NodesRemoved (negb (b =? 0)))
  else if one_of command [GW_CS_CONTROLLER_COPY_NTF] then
    _ ← require_exact payload 2 command;
    mode ← payload.[0];
    status ← payload.[1];
    Ok (Response.ControllerCopyResult (ControllerCopyResult.mk mode status))
  else if one_of command [GW_CS_RECEIVE_KEY_NTF; GW_CS_GENERATE_NEW_KEY_NTF;
       GW_CS_REPAIR_KEY_NTF] then
    _ ← require_exact payload 53 command;
    status ← payload.[0];
    changed ← decode_node_set payload 1;
    unchanged ← decode_node_set payload 27;
    Ok (Response.KeyChangeResult
          (KeyChangeResult.mk command (i8_from_be_bytes status) changed unchanged))
  else if one_of command [GW_CS_PGC_JOB_NTF] then
    _ ← require_exact payload 3 command;
    state ← payload.[0];
    status ← payload.[1];
    job_type ← payload.[2];
    Ok (Response.PgcJob
          (PgcJob.mk (i8_from_be_bytes state) (i8_from_be_bytes status) (i8_from_be_bytes job_type)))
  else if one_of command [GW_CS_SYSTEM_TABLE_UPDATE_NTF] then
    _ ← require_exact payload 52 command;
    added ← decode_node_set payload 0;
    removed ← decode_node_set payload 26;
    Ok (Response.SystemTableUpdate (SystemTableUpdate.mk added removed))
  else if one_of command [GW_CS_ACTIVATE_CONFIGURATION_MODE_CFM] then
    _ ← require_exact payload 79 command;
    activated ← decode_node_set payload 0;
    no_contact ← decode_node_set payload 26;
    other_error ← decode_node_set payload 52;
    status ← payload.[78];
    Ok (Response.ConfigurationActivationResult
          (ConfigurationActivationResult.mk activated no_contact other_error
             (i8_from_be_bytes status)))
  else Ok (Response.Unknown command payload).

(** ** Node and group commands *)
Definition decode_group_information (payload : list Z) (command : CommandId)
    : KlfResult GroupInformation.t :=
  _ ← require_exact payload 99 command;
  actuator_bytes ← payload.[72 ..< 97];
  group_id ← payload.[0];
  order ← read_u16 payload 1;
  placement ← payload.[3];
  name_field ← payload.[4 ..< 68];
  name ← decode_fixed_string name_field;
  velocity ← payload.[68];
  node_variation ← payload.[69];
  group_type ← payload.[70];
  object_count ← payload.[71];
  revision ← read_u16 payload 97;
  Ok (GroupInformation.mk (GroupId.new group_id) order placement name velocity node_variation
        group_type object_count (ActuatorSet.from_bytes actuator_bytes) revision).

Definition decode_node_group (command : CommandId) (payload : list Z) : KlfResult Response.t :=
  if one_of command [GW_SET_NODE_VARIATION_CFM; GW_SET_NODE_NAME_CFM;
       GW_SET_NODE_ORDER_AND_PLACEMENT_CFM] then
    _ ← require_exact payload 2 command;
    status ← payload.[0];
    node_id ← payload.[1];
    Ok (Response.NodeMutationResult (NodeMutationResult.mk command status (NodeId.new node_id)))
  else if one_of command [GW_GET_GROUP_INFORMATION_CFM; GW_SET_GROUP_INFORMATION_CFM;
       GW_NEW_GROUP_CFM] then
    _ ← require_exact payload 2 command;
    status ← payload.[0];
    group_id ← payload.[1];
    Ok (Response.GroupOperationResult
          (GroupOperationResult.mk command status (GroupId.new group_id)))
  else if one_of command [GW_DELETE_GROUP_CFM] then
    _ ← require_exact payload 2 command;
    status ← payload.[1];
    group_id ← payload.[0];
    Ok (Response.GroupOperationResult
          (GroupOperationResult.mk command status (GroupId.new group_id)))
  else if one_of command [GW_GET_GROUP_INFORMATION_NTF; GW_GET_ALL_GROUPS_INFORMATION_NTF] then
    information ← decode_group_information payload command;
    Ok (Response.GroupInformation (GroupInformationNotification.mk command information))
  else if one_of command [GW_GROUP_INFORMATION_CHANGED_NTF] then
    _ ← require payload 2 command;
    change_type ← payload.[0];
    group_id ← payload.[1];
    information ←
      (if change_type =? 1 then
         _ ← require_exact payload 100 command;
         rest ← payload.[1 ..< length payload];
         Some <$> decode_group_information rest command
       else
         _ ← require_exact payload 2 command;
         Ok None);
    Ok (Response.GroupChange (GroupChange.mk change_type (GroupId.new group_id) information))
  else if one_of command [GW_GET_ALL_GROUPS_INFORMATION_CFM] then
    _ ← require_exact payload 2 command;
    status ← payload.[0];
    total_groups ← payload.[1];
    Ok (Response.AllGroupsAccepted (AllGroupsAccepted.mk (i8_from_be_bytes status) total_groups))
  else if one_of command [GW_GET_ALL_GROUPS_INFORMATION_FINISHED_NTF] then
    _ ← require_exact payload 0 command;
    Ok (Response.Acknowledgement command)
  else if one_of command [GW_GROUP_DELETED_NTF] then
    _ ← require_exact payload 1 command;
    group_id ← payload.[0];
    Ok (Response.GroupDeleted (GroupId.new group_id))
  else Ok (Response.Unknown command payload).

(** ** Command extensions *)
Definition decode_command_extension (command : CommandId) (payload : list Z)
    : KlfResult Response.t :=
  if one_of command [GW_WINK_SEND_CFM; GW_SET_LIMITATION_CFM; GW_GET_LIMITATION_STATUS_CFM;
       GW_MODE_SEND_CFM] then
    _ ← require_exact payload 3 command;
    session ← session_id payload command;
    status ← payload.[2];
    Ok (Response.SessionCommandResult (SessionCommandResult.mk command session status))
  else if one_of command [GW_WINK_SEND_NTF] then
    _ ← require_exact payload 2 command;
    session ← session_id payload command;
    Ok (Response.WinkFinished session)
  else if one_of command [GW_LIMITATION_STATUS_NTF] then
    _ ← require_exact payload 10 command;
    session ← session_id payload command;
    node_id ← payload.[2];
    parameter_id ← payload.[3];
    minimum ← read_parameter payload 4;
    maximum ← read_parameter payload 6;
    originator ← payload.[8];
    limitation_time ← payload.[9];
    Ok (Response.LimitationStatus
          (LimitationStatus.mk session (NodeId.new node_id) parameter_id minimum maximum originator
             limitation_time))
  else if one_of command [GW_MODE_SEND_NTF] then Ok (Response.ModeNotification payload)
  else Ok (Response.Unknown command payload).

(** ** Scenes and contact inputs *)
Definition decode_scene_summary (payload : list Z) (offset : nat) : KlfResult SceneSummary.t :=
  scene_id ← payload.[offset];
  field ← payload.[offset + 1 ..< offset + 65];
  name ← decode_fixed_string field;
  Ok (SceneSummary.mk scene_id name).

Definition decode_scene_list (payload : list Z) (command : CommandId) : KlfResult Response.t :=
  _ ← require payload 2 command;
  count_byte ← payload.[0];
  let count := Z.to_nat count_byte in
  if (3 <? count)%nat then
    Err (KlfError.InvalidRequest "scene-list notification contains more than three scenes")
  else
    let expected := (2 + count * 65)%nat in
    _ ← require_exact payload expected command;
    scenes ← mapM (λ index, decode_scene_summary payload (1 + index * 65)) (seq 0 count);
    remaining_scenes ← payload.[expected - 1];
    Ok (Response.SceneList (SceneList.mk scenes remaining_scenes)).

Definition decode_scene_node (payload : list Z) (offset : nat) : KlfResult SceneNode.t :=
  node_id ← payload.[offset];
  parameter_id ← payload.[offset + 1];
  parameter ← read_parameter payload (offset + 2);
  Ok (SceneNode.mk (NodeId.new node_id) parameter_id parameter).

Definition decode_scene_information (payload : list Z) (command : CommandId)
    : KlfResult Response.t :=
  _ ← require payload 67 command;
  count_byte ← payload.[65];
  let count := Z.to_nat count_byte in
  if (45 <? count)%nat then
    Err (KlfError.InvalidRequest "scene-information notification contains more than 45 nodes")
  else
    let expected := (67 + count * 4)%nat in
    _ ← require_exact payload expected command;
    nodes ← mapM (λ index, decode_scene_node payload (66 + index * 4)) (seq 0 count);
    scene_id ← payload.[0];
    field ← payload.[1 ..< 65];
    name ← decode_fixed_string field;
    remaining_nodes ← payload.[expected - 1];
    Ok (Response.SceneInformation (SceneInformation.mk scene_id name nodes remaining_nodes)).

Definition decode_contact_input_link (payload : list Z) (offset : nat)
    : KlfResult ContactInputLink.t :=
  contact_input_id ← payload.[offset];
  assignment ← payload.[offset + 1];
  action_id ← payload.[offset + 2];
  command_originator ← payload.[offset + 3];
  priority_level ← payload.[offset + 4];
  parameter_id ← payload.[offset + 5];
  position ← read_parameter payload (offset + 6);
  velocity ← payload.[offset + 8];
  lock_priority_level ← payload.[offset + 9];
  s0 ← payload.[offset + 10];
  s1 ← payload.[offset + 11];
  s2 ← payload.[offset + 12];
  s3 ← payload.[offset + 13];
  s4 ← payload.[offset + 14];
  success_output_id ← payload.[offset + 15];
  error_output_id ← payload.[offset + 16];
  Ok (ContactInputLink.mk contact_input_id assignment action_id command_originator priority_level
        parameter_id position velocity lock_priority_level [s0; s1; s2; s3; s4] success_output_id
        error_output_id).

Definition decode_contact_input_links (payload : list Z) (command : CommandId)
    : KlfResult Response.t :=
  _ ← require payload 1 command;
  count_byte ← payload.[0];
  let count := Z.to_nat count_byte in
  if (10 <? count)%nat then
    Err (KlfError.InvalidRequest "contact-input list contains more than ten links")
  else
    let expected := (1 + count * 17)%nat in
    _ ← require_exact payload expected command;
    links ← mapM (λ index, decode_contact_input_link payload (1 + index * 17)) (seq 0 count);
    Ok (Response.ContactInputLinks links).

(** [for (state, value) in node_states.iter_mut().zip(values) { *state = *value == 0 }] *)
Fixpoint assign_node_states (node_states : list bool) (values : list Z) : list bool :=
  match node_states, values with
  | _ :: node_states, value :: values => (value =? 0) :: assign_node_states node_states values
  | node_states, _ => node_states
  end.

Definition decode_scene_contact (command : CommandId) (payload : list Z) : KlfResult Response.t :=
  if one_of command [GW_INITIALIZE_SCENE_CFM; GW_INITIALIZE_SCENE_CANCEL_CFM;
       GW_RECORD_SCENE_CFM] then
    _ ← require_exact payload 1 command;
    status ← payload.[0];
    Ok (Response.SceneStatusResult (SceneStatusResult.mk command status))
  else if one_of command [GW_INITIALIZE_SCENE_NTF] then
    _ ← require_exact payload 26 command;
    values ← payload.[1 ..< length payload];
    let node_states := assign_node_states (replicate 25 false) values in
    status ← payload.[0];
    Ok (Response.SceneInitializationResult (SceneInitializationResult.mk status node_states))
  else if one_of command [GW_RECORD_SCENE_NTF; GW_DELETE_SCENE_CFM; GW_RENAME_SCENE_CFM;
       GW_GET_SCENE_INFOAMATION_CFM] then
    _ ← require_exact payload 2 command;
    status ← payload.[0];
    scene_id ← payload.[1];
    Ok (Response.SceneObjectResult (SceneObjectResult.mk command status scene_id))
  else if one_of command [GW_GET_SCENE_LIST_CFM] then
    _ ← require_exact payload 1 command;
    total_scenes ← payload.[0];
    Ok (Response.SceneListAccepted total_scenes)
  else if one_of command [GW_GET_SCENE_LIST_NTF] then decode_scene_list payload command
  else if one_of command [GW_GET_SCENE_INFOAMATION_NTF] then
    decode_scene_information payload command
  else if one_of command [GW_ACTIVATE_SCENE_CFM; GW_STOP_SCENE_CFM] then
    _ ← require_exact payload 3 command;
    status ← payload.[0];
    session ← session_id_at payload 1 command;
    Ok (Response.SceneSessionResult (SceneSessionResult.mk command status session))
  else if one_of command [GW_SCENE_INFORMATION_CHANGED_NTF] then
    _ ← require_exact payload 2 command;
    change_type ← payload.[0];
    scene_id ← payload.[1];
    Ok (Response.SceneChange (SceneChange.mk change_type scene_id))
  else if one_of command [GW_ACTIVATE_PRODUCTGROUP_CFM] then
    _ ← require_exact payload 3 command;
    session ← session_id payload command;
    status ← payload.[2];
    Ok (Response.ProductGroupResult (ProductGroupResult.mk session status))
  else if one_of command [GW_ACTIVATE_PRODUCTGROUP_NTF] then
    Ok (Response.ProductGroupNotification payload)
  else if one_of command [GW_GET_CONTACT_INPUT_LINK_LIST_CFM] then
    decode_contact_input_links payload command
  else if one_of command [GW_SET_CONTACT_INPUT_LINK_CFM; GW_REMOVE_CONTACT_INPUT_LINK_CFM] then
    _ ← require_exact payload 2 command;
    contact_input_id ← payload.[0];
    status ← payload.[1];
    Ok (Response.ContactInputOperationResult
          (ContactInputOperationResult.mk command contact_input_id status))
  else Ok (Response.Unknown command payload).

(** ** The activation log *)
Definition decode_activation_log (command : CommandId) (payload : list Z) : KlfResult Response.t :=
  if one_of command [GW_GET_ACTIVATION_LOG_HEADER_CFM] then
    _ ← require_exact payload 4 command;
    maximum_lines ← read_u16 payload 0;
    line_count ← read_u16 payload 2;
    Ok (Response.ActivationLogHeader (ActivationLogHeader.mk maximum_lines line_count))
  else if one_of command [GW_CLEAR_ACTIVATION_LOG_CFM; GW_ACTIVATION_LOG_UPDATED_NTF] then
    _ ← require_exact payload 0 command;
    Ok (Response.Acknowledgement command)
  else if one_of command [GW_GET_ACTIVATION_LOG_LINE_CFM;
       GW_GET_MULTIPLE_ACTIVATION_LOG_LINES_NTF] then
    _ ← require_exact payload 17 command;
    timestamp ← read_u32 payload 0;
    session ← session_id_at payload 4 command;
    status_id ← payload.[6];
    node_id ← payload.[7];
    node_parameter ← payload.[8];
    parameter_value ← read_parameter payload 9;
    run_status ← payload.[11];
    status_reply ← payload.[12];
    information_code ← read_u32 payload 13;
    Ok (Response.ActivationLogEntry
          (ActivationLogEntry.mk command (ProtocolTimestamp.from_unix_seconds timestamp) session
             status_id (NodeId.new node_id) node_parameter parameter_value
             (RunStatus.from_u8 run_status) status_reply information_code))
  else if one_of command [GW_GET_MULTIPLE_ACTIVATION_LOG_LINES_CFM] then
    _ ← require_exact payload 3 command;
    line_count ← read_u16 payload 0;
    status ← payload.[2];
    Ok (Response.MultipleActivationLogResult (MultipleActivationLogResult.mk line_count status))
  else Ok (Response.Unknown command payload).

(** ** Nodes, commands and status *)
Definition decode_session_status (payload : list Z) (command : CommandId) (is_command : bool)
    : KlfResult Response.t :=
  _ ← require_exact payload 3 command;
  session ← session_id payload command;
  status ← payload.[2];
  if is_command then Ok (Response.CommandAccepted session status)
  else Ok (Response.StatusAccepted session status).

Definition decode_alias (payload : list Z) (offset : nat) : KlfResult Alias.t :=
  kind ← read_u16 payload offset;
  value ← read_u16 payload (offset + 2);
  Ok (Alias.mk kind value).

Definition decode_node_information (payload : list Z) (command : CommandId)
    : KlfResult NodeInformation.t :=
  _ ← require_exact payload 124 command;
  alias_byte ← payload.[103];
  let alias_count := Z.to_nat alias_byte in
  if (5 <? alias_count)%nat then
    Err (KlfError.InvalidRequest "node information contains more than five aliases")
  else
    serial_number ← payload.[76 ..< 84];
    aliases ← mapM (λ index, decode_alias payload (104 + index * 4)) (seq 0 alias_count);
    node_id ← payload.[0];
    order ← read_u16 payload 1;
    placement ← payload.[3];
    name_field ← payload.[4 ..< 68];
    name ← decode_fixed_string name_field;
    velocity ← payload.[68];
    node_type_sub_type ← read_u16 payload 69;
    product_group ← payload.[71];
    product_type ← payload.[72];
    variation ← payload.[73];
    power_mode ← payload.[74];
    build_number ← payload.[75];
    operating_state ← payload.[84];
    current_position ← read_parameter payload 85;
    target_position ← read_parameter payload 87;
    f0 ← read_parameter payload 89;
    f1 ← read_parameter payload 91;
    f2 ← read_parameter payload 93;
    f3 ← read_parameter payload 95;
    remaining_time ← read_u16 payload 97;
    timestamp ← read_u32 payload 99;
    Ok (NodeInformation.mk (NodeId.new node_id) order placement name velocity node_type_sub_type
          (i8_from_be_bytes product_group) (i8_from_be_bytes product_type) variation power_mode
          build_number serial_number (OperatingState.from_u8 operating_state) current_position
          target_position [f0; f1; f2; f3] remaining_time
          (ProtocolTimestamp.from_unix_seconds timestamp) aliases).

Definition decode_node_state (payload : list Z) (command : CommandId)
    : KlfResult NodeStatePosition.t :=
  _ ← require_exact payload 20 command;
  node_id ← payload.[0];
  operating_state ← payload.[1];
  current_position ← read_parameter payload 2;
  target_position ← read_parameter payload 4;
  f0 ← read_parameter payload 6;
  f1 ← read_parameter payload 8;
  f2 ← read_parameter payload 10;
  f3 ← read_parameter payload 12;
  remaining_time ← read_u16 payload 14;
  timestamp ← read_u32 payload 16;
  Ok (NodeStatePosition.mk (NodeId.new node_id) (OperatingState.from_u8 operating_state)
        current_position target_position [f0; f1; f2; f3] remaining_time
        (ProtocolTimestamp.from_unix_seconds timestamp)).

Definition decode_command_run_status (payload : list Z) (command : CommandId)
    : KlfResult CommandRunStatus.t :=
  _ ← require_exact payload 13 command;
  session ← session_id payload command;
  status_id ← payload.[2];
  node_id ← payload.[3];
  node_parameter ← payload.[4];
  parameter_value ← read_parameter payload 5;
  run_status ← payload.[7];
  status_reply ← payload.[8];
  information_code ← read_u32 payload 9;
  Ok (CommandRunStatus.mk session status_id (NodeId.new node_id) node_parameter parameter_value
        (RunStatus.from_u8 run_status) status_reply information_code).

Definition decode_parameter_status (payload : list Z) (offset : nat) : KlfResult ParameterStatus.t :=
  node_parameter ← payload.[offset];
  value ← read_u16 payload (offset + 1);
  Ok (ParameterStatus.mk node_parameter value).

Definition decode_status_detail (payload : list Z) (command : CommandId) (status_type : Z)
    : KlfResult StatusNotificationDetail.t :=
  if (0 <=? status_type) && (status_type <=? 2) then
    _ ← require payload 8 command;
    count_byte ← payload.[7];
    let count := Z.to_nat count_byte in
    _ ← require_exact payload (8 + count * 3) command;
    values ← mapM (λ index, decode_parameter_status payload (8 + index * 3)) (seq 0 count);
    Ok (StatusNotificationDetail.Parameters values)
  else if status_type =? 3 then
    _ ← require_exact payload 18 command;
    target_position ← read_parameter payload 7;
    current_position ← read_parameter payload 9;
    remaining_time ← read_u16 payload 11;
    address ← read_u32 payload 13;
    originator ← payload.[17];
    Ok (StatusNotificationDetail.Main target_position current_position remaining_time address
          originator)
  else
    rest ← payload.[7 ..< length payload];
    Ok (StatusNotificationDetail.Unknown status_type rest).

Definition decode_status_notification (payload : list Z) (command : CommandId)
    : KlfResult StatusNotification.t :=
  _ ← require payload 7 command;
  status_type ← payload.[6];
  detail ← decode_status_detail payload command status_type;
  session ← session_id payload command;
  status_id ← payload.[2];
  node_id ← payload.[3];
  run_status ← payload.[4];
  status_reply ← payload.[5];
  Ok (StatusNotification.mk session status_id (NodeId.new node_id) (RunStatus.from_u8 run_status)
        status_reply detail).

Definition decode_core (command : CommandId) (payload : list Z) : KlfResult Response.t :=
  if one_of command [GW_REBOOT_CFM; GW_SET_FACTORY_DEFAULT_CFM; GW_HOUSE_STATUS_MONITOR_ENABLE_CFM;
       GW_HOUSE_STATUS_MONITOR_DISABLE_CFM; GW_GET_ALL_NODES_INFORMATION_FINISHED_NTF] then
    _ ← require_exact payload 0 command;
    Ok (Response.Acknowledgement command)
  else if one_of command [GW_ERROR_NTF; GW_SET_NETWORK_SETUP_CFM; GW_SET_UTC_CFM;
       GW_PASSWORD_ENTER_CFM; GW_PASSWORD_CHANGE_CFM; GW_PASSWORD_CHANGE_NTF; GW_GET_VERSION_CFM;
       GW_GET_PROTOCOL_VERSION_CFM; GW_GET_STATE_CFM; GW_LEAVE_LEARN_STATE_CFM;
       GW_RTC_SET_TIME_ZONE_CFM; GW_GET_NETWORK_SETUP_CFM; GW_GET_LOCAL_TIME_CFM] then
    decode_gateway command payload
  else if one_of command [GW_GET_NODE_INFORMATION_CFM] then
    _ ← require_exact payload 2 command;
    status ← payload.[0];
    node_id ← payload.[1];
    Ok (Response.NodeInformationAccepted status (NodeId.new node_id))
  else if one_of command [GW_GET_ALL_NODES_INFORMATION_CFM] then
    _ ← require_exact payload 2 command;
    status ← payload.[0];
    total_nodes ← payload.[1];
    Ok (Response.AllNodesInformationAccepted status total_nodes)
  else if one_of command [GW_GET_NODE_INFORMATION_NTF; GW_GET_ALL_NODES_INFORMATION_NTF] then
    Response.NodeInformation <$> decode_node_information payload command
  else if one_of command [GW_NODE_INFORMATION_CHANGED_NTF] then
    _ ← require_exact payload 69 command;
    node_id ← payload.[0];
    field ← payload.[1 ..< 65];
    name ← decode_fixed_string field;
    order ← read_u16 payload 65;
    placement ← payload.[67];
    variation ← payload.[68];
    Ok (Response.NodeInformationChanged
          (NodeInformationChanged.mk (NodeId.new node_id) name order placement variation))
  else if one_of command [GW_NODE_STATE_POSITION_CHANGED_NTF] then
    Response.NodeStatePosition <$> decode_node_state payload command
  else if one_of command [GW_COMMAND_SEND_CFM] then decode_session_status payload command true
  else if one_of command [GW_COMMAND_RUN_STATUS_NTF] then
    Response.CommandRunStatus <$> decode_command_run_status payload command
  else if one_of command [GW_COMMAND_REMAINING_TIME_NTF] then
    _ ← require_exact payload 6 command;
    session ← session_id payload command;
    node_id ← payload.[2];
    node_parameter ← payload.[3];
    seconds ← read_u16 payload 4;
    Ok (Response.CommandRemainingTime session (NodeId.new node_id) node_parameter seconds)
  else if one_of command [GW_SESSION_FINISHED_NTF] then
    _ ← require_exact payload 2 command;
    session ← session_id payload command;
    Ok (Response.SessionFinished session)
  else if one_of command [GW_STATUS_REQUEST_CFM] then decode_session_status payload command false
  else if one_of command [GW_STATUS_REQUEST_NTF] then
    Response.StatusNotification <$> decode_status_notification payload command
  else Ok (Response.Unknown command payload).

(** [Response::decode]: the dispatch on command ranges *)
Definition decode (frame : Frame.t) : KlfResult Response.t :=
  let command := Frame.command frame in
  let payload := Frame.payload frame in
  let between lo hi := (lo <=? raw command) && (raw command <=? hi) in
  if between 0x0100 0x011A then decode_configuration command payload
  else if between 0x0206 0x0209 || between 0x020D 0x020E || between 0x0220 0x0230 then
    decode_node_group command payload
  else if between 0x0308 0x0322 then decode_command_extension command payload
  else if between 0x0400 0x0465 then decode_scene_contact command payload
  else if between 0x0500 0x0509 then decode_activation_log command payload
  else decode_core command payload.
