(* ===== verification/ResponseFacts.v ===== *)
(** * What decoding returns

    [response_wf] is the type invariant of responses: machine widths, array lengths,
    non-zero session identifiers, valid strings. [decode_returns] shows that decoding any
    frame of bytes yields a response with that invariant or an error, and never panics; the
    rest are the error behaviour and the round trips with the request encoders. *)

From S2P Require Import Prelude RustStd CommandIds Error Types Frame Command CommandLayout.
From S2P Require Import ResponseTypes Response.

(** ** The type invariant *)
Definition operating_state_wf (s : OperatingState.t) : Prop :=
  if s is OperatingState.Unknown value then 6 ≤ value < 256 else True.

Definition run_status_wf (s : RunStatus.t) : Prop :=
  if s is RunStatus.Unknown value then 3 ≤ value < 256 else True.

Definition alias_wf (a : Alias.t) : Prop := is_u16 (Alias.kind a) ∧ is_u16 (Alias.value a).

Definition version_wf (r : Version.t) : Prop :=
  let '(Version.mk software hardware product_group product_type) := r in
  byte_array 6 software ∧ is_u8 hardware ∧ is_u8 product_group ∧ is_u8 product_type.

Definition protocol_version_wf (r : ProtocolVersion.t) : Prop :=
  let '(ProtocolVersion.mk major minor) := r in
  is_u16 major ∧ is_u16 minor.

Definition gateway_state_wf (r : GatewayState.t) : Prop :=
  let '(GatewayState.mk state sub_state data) := r in
  is_u8 state ∧ is_u8 sub_state ∧ byte_array 4 data.

Definition local_time_wf (r : LocalTime.t) : Prop :=
  let '(LocalTime.mk utc_time second minute hour day_of_month month_since_january
    years_since_1900 week_day day_of_year daylight_saving_flag) := r in
  is_u32 (ProtocolTimestamp.unix_seconds utc_time) ∧ is_u8 second ∧ is_u8 minute ∧ is_u8 hour
  ∧ is_u8 day_of_month ∧ is_u8 month_since_january ∧ is_i16 years_since_1900 ∧ is_u8 week_day
  ∧ is_u16 day_of_year ∧ is_i8 daylight_saving_flag.

Definition password_changed_notification_wf (r : PasswordChangedNotification.t) : Prop :=
  let '(PasswordChangedNotification.mk new_password) := r in
  is_str new_password.

Definition system_table_object_wf (r : SystemTableObject.t) : Prop :=
  let '(SystemTableObject.mk index actuator_address actuator_type_sub_type power_mode_and_flags
    manufacturer_id backbone_reference) := r in
  is_u8 index ∧ byte_array 3 actuator_address ∧ is_u16 actuator_type_sub_type
  ∧ is_u8 power_mode_and_flags ∧ is_u8 manufacturer_id ∧ byte_array 3 backbone_reference.

Definition system_table_data_wf (r : SystemTableData.t) : Prop :=
  let '(SystemTableData.mk entries remaining_entries) := r in
  Forall system_table_object_wf entries ∧ is_u8 remaining_entries.

Definition node_discovery_result_wf (r : NodeDiscoveryResult.t) : Prop :=
  let '(NodeDiscoveryResult.mk added rf_connection_error key_error_existing_node removed open
    status) := r in
  NodeSet.wf added ∧ NodeSet.wf rf_connection_error ∧ NodeSet.wf key_error_existing_node
  ∧ NodeSet.wf removed ∧ NodeSet.wf open ∧ is_u8 status.

Definition controller_copy_result_wf (r : ControllerCopyResult.t) : Prop :=
  let '(ControllerCopyResult.mk mode status) := r in
  is_u8 mode ∧ is_u8 status.

Definition key_change_result_wf (r : KeyChangeResult.t) : Prop :=
  let '(KeyChangeResult.mk command status changed unchanged) := r in
  is_u16 (raw command) ∧ is_i8 status ∧ NodeSet.wf changed ∧ NodeSet.wf unchanged.

Definition pgc_job_wf (r : PgcJob.t) : Prop :=
  let '(PgcJob.mk state status job_type) := r in
  is_i8 state ∧ is_i8 status ∧ is_i8 job_type.

Definition system_table_update_wf (r : SystemTableUpdate.t) : Prop :=
  let '(SystemTableUpdate.mk added removed) := r in
  NodeSet.wf added ∧ NodeSet.wf removed.

Definition configuration_activation_result_wf (r : ConfigurationActivationResult.t) : Prop :=
  let '(ConfigurationActivationResult.mk activated no_contact other_error status) := r in
  NodeSet.wf activated ∧ NodeSet.wf no_contact ∧ NodeSet.wf other_error ∧ is_i8 status.

Definition node_mutation_result_wf (r : NodeMutationResult.t) : Prop :=
  let '(NodeMutationResult.mk command status node_id) := r in
  is_u16 (raw command) ∧ is_u8 status ∧ node_wf node_id.

Definition group_operation_result_wf (r : GroupOperationResult.t) : Prop :=
  let '(GroupOperationResult.mk command status group_id) := r in
  is_u16 (raw command) ∧ is_u8 status ∧ is_u8 (GroupId.get group_id).

Definition group_information_notification_wf (r : GroupInformationNotification.t) : Prop :=
  let '(GroupInformationNotification.mk command information) := r in
  is_u16 (raw command) ∧ group_wf information.

Definition group_change_wf (r : GroupChange.t) : Prop :=
  let '(GroupChange.mk change_type group_id information) := r in
  is_u8 change_type ∧ is_u8 (GroupId.get group_id)
  ∧ (if information is Some g then group_wf g else True).

Definition all_groups_accepted_wf (r : AllGroupsAccepted.t) : Prop :=
  let '(AllGroupsAccepted.mk status total_groups) := r in
  is_i8 status ∧ is_u8 total_groups.

Definition session_command_result_wf (r : SessionCommandResult.t) : Prop :=
  let '(SessionCommandResult.mk command session_id status) := r in
  is_u16 (raw command) ∧ SessionId.wf session_id ∧ is_u8 status.

Definition limitation_status_wf (r : LimitationStatus.t) : Prop :=
  let '(LimitationStatus.mk session_id node_id parameter_id minimum maximum originator
    limitation_time) := r in
  SessionId.wf session_id ∧ node_wf node_id ∧ is_u8 parameter_id ∧ parameter_wf minimum
  ∧ parameter_wf maximum ∧ is_u8 originator ∧ is_u8 limitation_time.

Definition scene_status_result_wf (r : SceneStatusResult.t) : Prop :=
  let '(SceneStatusResult.mk command status) := r in
  is_u16 (raw command) ∧ is_u8 status.

Definition scene_initialization_result_wf (r : SceneInitializationResult.t) : Prop :=
  let '(SceneInitializationResult.mk status node_states) := r in
  is_u8 status ∧ length node_states = 25%nat.

Definition scene_object_result_wf (r : SceneObjectResult.t) : Prop :=
  let '(SceneObjectResult.mk command status scene_id) := r in
  is_u16 (raw command) ∧ is_u8 status ∧ is_u8 scene_id.

Definition scene_summary_wf (r : SceneSummary.t) : Prop :=
  let '(SceneSummary.mk scene_id name) := r in
  is_u8 scene_id ∧ is_str name.

Definition scene_list_wf (r : SceneList.t) : Prop :=
  let '(SceneList.mk scenes remaining_scenes) := r in
  Forall scene_summary_wf scenes ∧ is_u8 remaining_scenes.

Definition scene_node_wf (r : SceneNode.t) : Prop :=
  let '(SceneNode.mk node_id parameter_id parameter) := r in
  node_wf node_id ∧ is_u8 parameter_id ∧ parameter_wf parameter.

Definition scene_information_wf (r : SceneInformation.t) : Prop :=
  let '(SceneInformation.mk scene_id name nodes remaining_nodes) := r in
  is_u8 scene_id ∧ is_str name ∧ Forall scene_node_wf nodes ∧ is_u8 remaining_nodes.

Definition scene_session_result_wf (r : SceneSessionResult.t) : Prop :=
  let '(SceneSessionResult.mk command status session_id) := r in
  is_u16 (raw command) ∧ is_u8 status ∧ SessionId.wf session_id.

Definition scene_change_wf (r : SceneChange.t) : Prop :=
  let '(SceneChange.mk change_type scene_id) := r in
  is_u8 change_type ∧ is_u8 scene_id.

Definition product_group_result_wf (r : ProductGroupResult.t) : Prop :=
  let '(ProductGroupResult.mk session_id status) := r in
  SessionId.wf session_id ∧ is_u8 status.

Definition contact_input_operation_result_wf (r : ContactInputOperationResult.t) : Prop :=
  let '(ContactInputOperationResult.mk command contact_input_id status) := r in
  is_u16 (raw command) ∧ is_u8 contact_input_id ∧ is_u8 status.

Definition activation_log_header_wf (r : ActivationLogHeader.t) : Prop :=
  let '(ActivationLogHeader.mk maximum_lines line_count) := r in
  is_u16 maximum_lines ∧ is_u16 line_count.

Definition activation_log_entry_wf (r : ActivationLogEntry.t) : Prop :=
  let '(ActivationLogEntry.mk command timestamp session_id status_id node_id node_parameter
    parameter_value run_status status_reply information_code) := r in
  is_u16 (raw command) ∧ is_u32 (ProtocolTimestamp.unix_seconds timestamp)
  ∧ SessionId.wf session_id ∧ is_u8 status_id ∧ node_wf node_id ∧ is_u8 node_parameter
  ∧ parameter_wf parameter_value ∧ run_status_wf run_status ∧ is_u8 status_reply
  ∧ is_u32 information_code.

Definition multiple_activation_log_result_wf (r : MultipleActivationLogResult.t) : Prop :=
  let '(MultipleActivationLogResult.mk line_count status) := r in
  is_u16 line_count ∧ is_u8 status.

Definition node_information_wf (r : NodeInformation.t) : Prop :=
  let '(NodeInformation.mk node_id order placement name velocity node_type_sub_type product_group
    product_type variation power_mode build_number serial_number operating_state current_position
    target_position functional_positions remaining_time timestamp aliases) := r in
  node_wf node_id ∧ is_u16 order ∧ is_u8 placement ∧ is_str name ∧ is_u8 velocity
  ∧ is_u16 node_type_sub_type ∧ is_i8 product_group ∧ is_i8 product_type ∧ is_u8 variation
  ∧ is_u8 power_mode ∧ is_u8 build_number ∧ byte_array 8 serial_number
  ∧ operating_state_wf operating_state ∧ parameter_wf current_position
  ∧ parameter_wf target_position ∧ length functional_positions = 4%nat
  ∧ Forall parameter_wf functional_positions ∧ is_u16 remaining_time
  ∧ is_u32 (ProtocolTimestamp.unix_seconds timestamp) ∧ Forall alias_wf aliases.

Definition node_state_position_wf (r : NodeStatePosition.t) : Prop :=
  let '(NodeStatePosition.mk node_id operating_state current_position target_position
    functional_positions remaining_time timestamp) := r in
  node_wf node_id ∧ operating_state_wf operating_state ∧ parameter_wf current_position
  ∧ parameter_wf target_position ∧ length functional_positions = 4%nat
  ∧ Forall parameter_wf functional_positions ∧ is_u16 remaining_time
  ∧ is_u32 (ProtocolTimestamp.unix_seconds timestamp).

Definition node_information_changed_wf (r : NodeInformationChanged.t) : Prop :=
  let '(NodeInformationChanged.mk node_id name order placement variation) := r in
  node_wf node_id ∧ is_str name ∧ is_u16 order ∧ is_u8 placement ∧ is_u8 variation.

Definition command_run_status_wf (r : CommandRunStatus.t) : Prop :=
  let '(CommandRunStatus.mk session_id status_id node_id node_parameter parameter_value
    run_status status_reply information_code) := r in
  SessionId.wf session_id ∧ is_u8 status_id ∧ node_wf node_id ∧ is_u8 node_parameter
  ∧ parameter_wf parameter_value ∧ run_status_wf run_status ∧ is_u8 status_reply
  ∧ is_u32 information_code.

Definition parameter_status_wf (r : ParameterStatus.t) : Prop :=
  let '(ParameterStatus.mk node_parameter value) := r in
  is_u8 node_parameter ∧ is_u16 value.

Definition detail_wf (d : StatusNotificationDetail.t) : Prop :=
  match d with
  | StatusNotificationDetail.Parameters values => Forall parameter_status_wf values
  | StatusNotificationDetail.Main target_position current_position remaining_time address originator =>
      parameter_wf target_position ∧ parameter_wf current_position ∧ is_u16 remaining_time
      ∧ is_u32 address ∧ is_u8 originator
  | StatusNotificationDetail.Unknown status_type payload =>
      4 ≤ status_type < 256 ∧ Forall is_u8 payload
  end.

Definition status_notification_wf (r : StatusNotification.t) : Prop :=
  let '(StatusNotification.mk session_id status_id node_id run_status status_reply detail) := r
    in
  SessionId.wf session_id ∧ is_u8 status_id ∧ node_wf node_id ∧ run_status_wf run_status
  ∧ is_u8 status_reply ∧ detail_wf detail.

Definition response_wf (r : Response.t) : Prop :=
  match r with
  | Response.ErrorNotification error_number => is_u8 error_number
  | Response.Acknowledgement command => is_u16 (raw command)
  | Response.PasswordEntered accepted => True
  | Response.PasswordChanged accepted => True
  | Response.PasswordChangedNotification x => password_changed_notification_wf x
  | Response.OperationStatus command status => is_u16 (raw command) ∧ is_u8 status
  | Response.Version x => version_wf x
  | Response.ProtocolVersion x => protocol_version_wf x
  | Response.GatewayState x => gateway_state_wf x
  | Response.NetworkSetup x => network_setup_wf x
  | Response.LocalTime x => local_time_wf x
  | Response.SystemTableData x => system_table_data_wf x
  | Response.NodeDiscoveryResult x => node_discovery_result_wf x
  | Response.NodesRemoved scene_deleted => True
  | Response.ControllerCopyResult x => controller_copy_result_wf x
  | Response.KeyChangeResult x => key_change_result_wf x
  | Response.PgcJob x => pgc_job_wf x
  | Response.SystemTableUpdate x => system_table_update_wf x
  | Response.ConfigurationActivationResult x => configuration_activation_result_wf x
  | Response.NodeMutationResult x => node_mutation_result_wf x
  | Response.GroupOperationResult x => group_operation_result_wf x
  | Response.GroupInformation x => group_information_notification_wf x
  | Response.GroupChange x => group_change_wf x
  | Response.AllGroupsAccepted x => all_groups_accepted_wf x
  | Response.GroupDeleted x => is_u8 (GroupId.get x)
  | Response.SessionCommandResult x => session_command_result_wf x
  | Response.WinkFinished session_id => SessionId.wf session_id
  | Response.LimitationStatus x => limitation_status_wf x
  | Response.ModeNotification x => Forall is_u8 x
  | Response.SceneStatusResult x => scene_status_result_wf x
  | Response.SceneInitializationResult x => scene_initialization_result_wf x
  | Response.SceneObjectResult x => scene_object_result_wf x
  | Response.SceneListAccepted total_scenes => is_u8 total_scenes
  | Response.SceneList x => scene_list_wf x
  | Response.SceneInformation x => scene_information_wf x
  | Response.SceneSessionResult x => scene_session_result_wf x
  | Response.SceneChange x => scene_change_wf x
  | Response.ProductGroupResult x => product_group_result_wf x
  | Response.ProductGroupNotification x => Forall is_u8 x
  | Response.ContactInputLinks x => Forall link_wf x
  | Response.ContactInputOperationResult x => contact_input_operation_result_wf x
  | Response.ActivationLogHeader x => activation_log_header_wf x
  | Response.ActivationLogEntry x => activation_log_entry_wf x
  | Response.MultipleActivationLogResult x => multiple_activation_log_result_wf x
  | Response.NodeInformationAccepted status node_id => is_u8 status ∧ node_wf node_id
  | Response.AllNodesInformationAccepted status total_nodes => is_u8 status ∧ is_u8 total_nodes
  | Response.NodeInformation x => node_information_wf x
  | Response.NodeInformationChanged x => node_information_changed_wf x
  | Response.NodeStatePosition x => node_state_position_wf x
  | Response.CommandAccepted session_id status => SessionId.wf session_id ∧ is_u8 status
  | Response.CommandRunStatus x => command_run_status_wf x
  | Response.CommandRemainingTime session_id node_id node_parameter seconds =>
      SessionId.wf session_id ∧ node_wf node_id ∧ is_u8 node_parameter ∧ is_u16 seconds
  | Response.SessionFinished session_id => SessionId.wf session_id
  | Response.StatusAccepted session_id status => SessionId.wf session_id ∧ is_u8 status
  | Response.StatusNotification x => status_notification_wf x
  | Response.Unknown command payload => is_u16 (raw command) ∧ Forall is_u8 payload
  end.


(** ** Rules for the reads *)
Section reads.
Implicit Types (payload : list Z) (offset expected : nat) (command : CommandId).

Lemma returns_require payload expected command (Q : unit → Prop) :
  ((expected ≤ length payload)%nat → Q tt) → returns (require payload expected command) Q.
Proof. unfold require. intros. destruct (Nat.ltb_spec (length payload) expected); simpl; auto. Qed.

Lemma returns_require_exact payload expected command :
  returns (require_exact payload expected command) (λ _, length payload = expected).
Proof.
  unfold require_exact. destruct (Nat.compare_spec (length payload) expected); simpl; auto.
Qed.

Lemma returns_require' payload expected command :
  returns (require payload expected command) (λ _, (expected ≤ length payload)%nat).
Proof. by apply returns_require. Qed.

Lemma returns_read_u16 payload offset :
  (offset + 2 ≤ length payload)%nat → Forall is_u8 payload →
  returns (read_u16 payload offset) is_u16.
Proof.
  intros. eapply returns_bind; [apply (returns_index is_u8); [lia|done]|]. intros a ?.
  eapply returns_bind; [apply (returns_index is_u8); [lia|done]|]. intros b ?.
  apply returns_ok. auto with klf.
Qed.

Lemma returns_read_u32 payload offset :
  (offset + 4 ≤ length payload)%nat → Forall is_u8 payload →
  returns (read_u32 payload offset) is_u32.
Proof.
  intros. do 4 (eapply returns_bind; [apply (returns_index is_u8); [lia|done]|]; intros ? ?).
  apply returns_ok. auto with klf.
Qed.

Lemma returns_read_parameter payload offset :
  (offset + 2 ≤ length payload)%nat → Forall is_u8 payload →
  returns (read_parameter payload offset) parameter_wf.
Proof.
  intros. eapply returns_bind; [by apply returns_read_u16|]. intros raw ?.
  apply returns_ok. by apply ParameterFacts.from_raw_wf.
Qed.

Lemma returns_session_id_at payload offset command :
  Forall is_u8 payload → returns (session_id_at payload offset command) SessionId.wf.
Proof.
  intros. eapply returns_bind; [apply returns_require'|]. intros [] ?.
  eapply returns_bind; [by apply returns_read_u16|]. intros raw Hr.
  apply returns_ok_or. intros s. unfold SessionId.new, SessionId.wf.
  case_match; [done|]. intros [= <-]. unfold is_u16 in Hr. simpl. lia.
Qed.

Lemma returns_session_id payload command :
  Forall is_u8 payload → returns (session_id payload command) SessionId.wf.
Proof.
  intros. eapply returns_bind; [apply returns_require'|]. intros [] ?.
  by apply returns_session_id_at.
Qed.

Lemma returns_byte payload offset :
  (offset < length payload)%nat → Forall is_u8 payload →
  returns (index (E := KlfError.t) payload offset) is_u8.
Proof. by apply returns_index. Qed.

Lemma returns_field payload a b :
  (a ≤ b ≤ length payload)%nat → Forall is_u8 payload →
  returns (slice (E := KlfError.t) payload a b) (byte_array (b - a)).
Proof.
  intros. eapply returns_mono; [by apply (returns_slice is_u8)|]. intros s [? ?]. by split.
Qed.

Lemma returns_name field :
  Forall is_u8 field → returns (decode_fixed_string field) is_str.
Proof. intros. eapply returns_mono; [by apply decode_fixed_string_ok|]. by intros v [? _]. Qed.

Lemma returns_entries {A} (f : nat → KlfResult A) (count : nat) (Q : A → Prop) :
  (∀ i, (i < count)%nat → returns (f i) Q) →
  returns (mapM f (seq 0 count)) (Forall Q).
Proof.
  intros Hf. eapply returns_mono; [apply (returns_mapM f)|by intros ? [? _]].
  intros i Hi%elem_of_seq. apply Hf. lia.
Qed.

Lemma returns_node_set payload offset :
  (offset + 26 ≤ length payload)%nat → Forall is_u8 payload →
  returns (decode_node_set payload offset) NodeSet.wf.
Proof.
  intros. eapply returns_bind; [apply returns_field; [lia|done]|]. intros actuators Ha.
  eapply returns_bind; [apply returns_byte; [lia|done]|]. intros b Hb.
  apply returns_ok. split; [|apply BeaconSetFacts.from_byte_wf].
  by replace (offset + 25 - offset)%nat with ACTUATOR_BYTES in Ha by (cbn; lia).
Qed.
End reads.

Lemma operating_state_from_u8_wf b : is_u8 b → operating_state_wf (OperatingState.from_u8 b).
Proof.
  unfold is_u8, OperatingState.from_u8. intros. repeat case_match; simplify_eq; simpl; lia.
Qed.

Lemma run_status_from_u8_wf b : is_u8 b → run_status_wf (RunStatus.from_u8 b).
Proof. unfold is_u8, RunStatus.from_u8. intros. repeat case_match; simplify_eq; simpl; lia. Qed.

#[export] Hint Resolve operating_state_from_u8_wf run_status_from_u8_wf : klf.

(** One read of a decoder: the rule of the access, its bounds by [lia]. *)
Ltac decode_read :=
  lazymatch goal with
  | |- returns (_ ≫= _) _ =>
      eapply returns_bind;
      [ first
          [ apply returns_require_exact
          | apply returns_require'
          | apply returns_byte; [lia|done]
          | apply returns_field; [lia|done]
          | apply returns_read_u16; [lia|done]
          | apply returns_read_u32; [lia|done]
          | apply returns_read_parameter; [lia|done]
          | apply returns_session_id; done
          | apply returns_session_id_at; done
          | apply returns_node_set; [lia|done]
          | eapply returns_name; match goal with H : byte_array _ _ |- _ => apply H end
          | apply returns_name; done ]
      | cbv beta; intros ? ? ]
  end.

(** The value of a decoder: its invariant, field by field. *)
Ltac decoded :=
  apply returns_ok; first [assumption|hnf; cbn [ProtocolTimestamp.unix_seconds NetworkSetup.ip_address
    NetworkSetup.subnet_mask NetworkSetup.default_gateway Alias.kind Alias.value]];
  repeat match goal with |- _ ∧ _ => split end;
  repeat first
    [ assumption
    | solve [auto with klf]
    | match goal with |- byte_array _ (_ :: _) => split; [reflexivity|] end
    | reflexivity
    | apply Forall_cons; split
    | apply Forall_nil_2 ].

(** ** Each decoder returns its invariant or an error *)
Section decoders.
Context (payload : list Z) (command : CommandId).
Hypothesis Hpayload : Forall is_u8 payload.
Hypothesis Hcommand : is_u16 (raw command).

Lemma decode_version_returns : returns (decode_version payload command) version_wf.
Proof. unfold decode_version. repeat decode_read. decoded. Qed.

Lemma unknown_returns : returns (Ok (Response.Unknown command payload) : KlfResult _) response_wf.
Proof. apply returns_ok. by split. Qed.

Lemma acknowledgement_returns :
  returns (Ok (Response.Acknowledgement command) : KlfResult _) response_wf.
Proof. by apply returns_ok. Qed.

Lemma decode_gateway_returns : returns (decode_gateway command payload) response_wf.
Proof.
  unfold decode_gateway.
  repeat (case_match; [repeat decode_read; try decoded|]); [|apply unknown_returns].
  by eapply returns_fmap; [apply decode_version_returns|].
Qed.

Lemma decode_system_table_object_returns offset :
  (offset + 11 ≤ length payload)%nat →
  returns (decode_system_table_object payload offset) system_table_object_wf.
Proof. intros. unfold decode_system_table_object. repeat decode_read. decoded. Qed.

Lemma decode_system_table_data_returns :
  returns (decode_system_table_data payload command) response_wf.
Proof.
  unfold decode_system_table_data. repeat decode_read.
  eapply returns_bind; [apply returns_entries; intros; apply decode_system_table_object_returns; lia|].
  intros entries ?. repeat decode_read. decoded.
Qed.

Lemma decode_configuration_returns : returns (decode_configuration command payload) response_wf.
Proof.
  unfold decode_configuration.
  repeat (case_match; [repeat decode_read; try decoded|]); [|apply unknown_returns].
  apply decode_system_table_data_returns.
Qed.

Lemma decode_group_information_returns :
  returns (decode_group_information payload command) group_wf.
Proof. unfold decode_group_information. repeat decode_read. decoded. Qed.

Lemma decode_command_extension_returns :
  returns (decode_command_extension command payload) response_wf.
Proof.
  unfold decode_command_extension.
  repeat (case_match; [repeat decode_read; try decoded|]). apply unknown_returns.
Qed.

Lemma decode_scene_summary_returns offset :
  (offset + 65 ≤ length payload)%nat →
  returns (decode_scene_summary payload offset) scene_summary_wf.
Proof. intros. unfold decode_scene_summary. repeat decode_read. decoded. Qed.

Lemma decode_scene_list_returns : returns (decode_scene_list payload command) response_wf.
Proof.
  unfold decode_scene_list. repeat decode_read. case_match; [apply returns_err|].
  repeat decode_read.
  eapply returns_bind; [apply returns_entries; intros; apply decode_scene_summary_returns; lia|].
  intros scenes ?. repeat decode_read. decoded.
Qed.

Lemma decode_scene_node_returns offset :
  (offset + 4 ≤ length payload)%nat →
  returns (decode_scene_node payload offset) scene_node_wf.
Proof. intros. unfold decode_scene_node. repeat decode_read. decoded. Qed.

Lemma decode_scene_information_returns :
  returns (decode_scene_information payload command) response_wf.
Proof.
  unfold decode_scene_information. repeat decode_read. case_match; [apply returns_err|].
  repeat decode_read.
  eapply returns_bind; [apply returns_entries; intros; apply decode_scene_node_returns; lia|].
  intros nodes ?. repeat decode_read. decoded.
Qed.

Lemma decode_contact_input_link_returns offset :
  (offset + 17 ≤ length payload)%nat →
  returns (decode_contact_input_link payload offset) link_wf.
Proof. intros. unfold decode_contact_input_link. repeat decode_read. decoded. Qed.

Lemma decode_contact_input_links_returns :
  returns (decode_contact_input_links payload command) response_wf.
Proof.
  unfold decode_contact_input_links. repeat decode_read. case_match; [apply returns_err|].
  repeat decode_read.
  eapply returns_bind;
    [apply returns_entries; intros; apply decode_contact_input_link_returns; lia|].
  intros links ?. decoded.
Qed.

Lemma length_assign_node_states node_states values :
  length (assign_node_states node_states values) = length node_states.
Proof.
  revert values. induction node_states as [|s node_states IH]; intros [|v values]; simpl; auto.
Qed.

Lemma decode_scene_contact_returns : returns (decode_scene_contact command payload) response_wf.
Proof.
  unfold decode_scene_contact.
  repeat (case_match; [repeat decode_read; try decoded|]); [..|apply unknown_returns].
  - apply length_assign_node_states.
  - apply decode_scene_list_returns.
  - apply decode_scene_information_returns.
  - apply decode_contact_input_links_returns.
Qed.

Lemma decode_activation_log_returns : returns (decode_activation_log command payload) response_wf.
Proof.
  unfold decode_activation_log.
  repeat (case_match; [repeat decode_read; try decoded|]). apply unknown_returns.
Qed.

Lemma decode_session_status_returns is_command :
  returns (decode_session_status payload command is_command) response_wf.
Proof. unfold decode_session_status. repeat decode_read. case_match; decoded. Qed.

Lemma decode_alias_returns offset :
  (offset + 4 ≤ length payload)%nat → returns (decode_alias payload offset) alias_wf.
Proof. intros. unfold decode_alias. repeat decode_read. decoded. Qed.

Lemma decode_node_information_returns :
  returns (decode_node_information payload command) node_information_wf.
Proof.
  unfold decode_node_information. repeat decode_read.
  case_match eqn:Hcount; [apply returns_err|apply Nat.ltb_ge in Hcount].
  repeat decode_read.
  eapply returns_bind; [apply returns_entries; intros; apply decode_alias_returns; lia|].
  intros aliases ?. repeat decode_read. decoded.
Qed.

Lemma decode_node_state_returns :
  returns (decode_node_state payload command) node_state_position_wf.
Proof. unfold decode_node_state. repeat decode_read. decoded. Qed.

Lemma decode_command_run_status_returns :
  returns (decode_command_run_status payload command) command_run_status_wf.
Proof. unfold decode_command_run_status. repeat decode_read. decoded. Qed.

Lemma decode_parameter_status_returns offset :
  (offset + 3 ≤ length payload)%nat →
  returns (decode_parameter_status payload offset) parameter_status_wf.
Proof. intros. unfold decode_parameter_status. repeat decode_read. decoded. Qed.

Lemma decode_status_detail_returns status_type :
  is_u8 status_type → (7 ≤ length payload)%nat →
  returns (decode_status_detail payload command status_type) detail_wf.
Proof.
  intros Ht Hl. unfold decode_status_detail. case_match eqn:H02; [|case_match eqn:H3].
  - repeat decode_read.
    eapply returns_bind;
      [apply returns_entries; intros; apply decode_parameter_status_returns; lia|].
    intros values ?. decoded.
  - repeat decode_read. decoded.
  - eapply returns_bind; [by apply (returns_slice is_u8)|]. intros rest [? _].
    apply returns_ok. split; [unfold is_u8 in Ht; lia|done].
Qed.

Lemma decode_status_notification_returns :
  returns (decode_status_notification payload command) status_notification_wf.
Proof.
  unfold decode_status_notification. repeat decode_read.
  eapply returns_bind; [by apply decode_status_detail_returns|]. intros detail ?.
  repeat decode_read. decoded.
Qed.

Lemma decode_core_returns : returns (decode_core command payload) response_wf.
Proof.
  unfold decode_core.
  repeat (case_match; [repeat decode_read; try decoded|]); [..|apply unknown_returns].
  - apply decode_gateway_returns.
  - by eapply returns_fmap; [apply decode_node_information_returns|].
  - by eapply returns_fmap; [apply decode_node_state_returns|].
  - apply decode_session_status_returns.
  - by eapply returns_fmap; [apply decode_command_run_status_returns|].
  - apply decode_session_status_returns.
  - by eapply returns_fmap; [apply decode_status_notification_returns|].
Qed.
End decoders.

Lemma decode_node_group_returns payload command :
  Forall is_u8 payload → is_u16 (raw command) →
  returns (decode_node_group command payload) response_wf.
Proof.
  intros Hpayload Hcommand. unfold decode_node_group.
  repeat (case_match; [repeat decode_read; try decoded|]); [..|by apply unknown_returns].
  - eapply returns_bind; [by apply decode_group_information_returns|]. intros i ?. decoded.
  - eapply (returns_bind _ _ (λ o, if o is Some g then group_wf g else True)).
    + repeat decode_read. match goal with H : byte_array _ _ |- _ => destruct H end.
      eapply returns_fmap; [by apply decode_group_information_returns|]. done.
    + intros o ?. decoded.
  - eapply (returns_bind _ _ (λ o, o = None)); [repeat decode_read; by apply returns_ok|].
    intros o ->. decoded.
Qed.

(** Decoding any frame of bytes: an error or a response with its invariant, no panic. *)
Lemma decode_returns f : Frame.wf f → returns (decode f) response_wf.
Proof.
  intros [Hc Hp]. unfold decode. cbv zeta.
  repeat case_match;
    auto using decode_configuration_returns, decode_node_group_returns,
      decode_command_extension_returns, decode_scene_contact_returns,
      decode_activation_log_returns, decode_core_returns.
Qed.

(** ** Which commands are decoded *)
Definition is_reply (c : CommandId) : bool :=
  match CommandId.kind c with
  | CommandKind.Confirmation | CommandKind.Notification => true
  | _ => false
  end.

Lemma one_of_not_reply c patterns :
  is_reply c = false → forallb is_reply patterns = true → one_of c patterns = false.
Proof.
  intros Hc Hall. apply not_true_iff_false. intros H.
  apply List.existsb_exists in H as (p & Hin & ->%command_eqb_iff).
  rewrite List.forallb_forall in Hall. apply Hall in Hin. congruence.
Qed.

(** A confirmation or notification with an empty payload is decoded or refused. *)
Definition decodes_empty (c : CommandId) : bool :=
  implb (is_reply c)
    match decode (Frame.new c []) with Ok (Response.Unknown _ _) => false | _ => true end.

(** ** Length errors *)
Definition length_error (command : CommandId) (expected actual : nat) : KlfError.t :=
  if decide (actual < expected)%nat then KlfError.TruncatedPayload command expected actual
  else KlfError.InvalidPayloadLength command expected actual.

Lemma require_exact_err payload expected command {A} (k : unit → KlfResult A) :
  length payload ≠ expected →
  (require_exact payload expected command ≫= k)
  = Err (length_error command expected (length payload)).
Proof.
  intros Hne. unfold require_exact, length_error.
  destruct (Nat.compare_spec (length payload) expected); [done|..].
  - by rewrite decide_True.
  - by rewrite decide_False by lia.
Qed.

(** The commands whose payload has a fixed length. *)
Definition fixed_length : list (CommandId * nat) :=
  [ (GW_REBOOT_CFM, 0); (GW_SET_FACTORY_DEFAULT_CFM, 0); (GW_HOUSE_STATUS_MONITOR_ENABLE_CFM, 0);
    (GW_HOUSE_STATUS_MONITOR_DISABLE_CFM, 0); (GW_GET_ALL_NODES_INFORMATION_FINISHED_NTF, 0);
    (GW_SET_NETWORK_SETUP_CFM, 0); (GW_SET_UTC_CFM, 0); (GW_CS_GET_SYSTEMTABLE_DATA_CFM, 0);
    (GW_CS_DISCOVER_NODES_CFM, 0); (GW_CS_VIRGIN_STATE_CFM, 0); (GW_CS_CONTROLLER_COPY_CFM, 0);
    (GW_CS_CONTROLLER_COPY_CANCEL_NTF, 0); (GW_CS_RECEIVE_KEY_CFM, 0);
    (GW_CS_GENERATE_NEW_KEY_CFM, 0); (GW_CS_REPAIR_KEY_CFM, 0);
    (GW_GET_ALL_GROUPS_INFORMATION_FINISHED_NTF, 0); (GW_CLEAR_ACTIVATION_LOG_CFM, 0);
    (GW_ACTIVATION_LOG_UPDATED_NTF, 0); (GW_ERROR_NTF, 1); (GW_PASSWORD_ENTER_CFM, 1);
    (GW_PASSWORD_CHANGE_CFM, 1); (GW_LEAVE_LEARN_STATE_CFM, 1); (GW_RTC_SET_TIME_ZONE_CFM, 1);
    (GW_CS_REMOVE_NODES_CFM, 1); (GW_GROUP_DELETED_NTF, 1); (GW_INITIALIZE_SCENE_CFM, 1);
    (GW_INITIALIZE_SCENE_CANCEL_CFM, 1); (GW_RECORD_SCENE_CFM, 1); (GW_GET_SCENE_LIST_CFM, 1);
    (GW_GET_NODE_INFORMATION_CFM, 2); (GW_GET_ALL_NODES_INFORMATION_CFM, 2);
    (GW_SESSION_FINISHED_NTF, 2); (GW_CS_CONTROLLER_COPY_NTF, 2); (GW_SET_NODE_VARIATION_CFM, 2);
    (GW_SET_NODE_NAME_CFM, 2); (GW_SET_NODE_ORDER_AND_PLACEMENT_CFM, 2);
    (GW_GET_GROUP_INFORMATION_CFM, 2); (GW_SET_GROUP_INFORMATION_CFM, 2); (GW_NEW_GROUP_CFM, 2);
    (GW_DELETE_GROUP_CFM, 2); (GW_GET_ALL_GROUPS_INFORMATION_CFM, 2); (GW_WINK_SEND_NTF, 2);
    (GW_RECORD_SCENE_NTF, 2); (GW_DELETE_SCENE_CFM, 2); (GW_RENAME_SCENE_CFM, 2);
    (GW_GET_SCENE_INFOAMATION_CFM, 2); (GW_SCENE_INFORMATION_CHANGED_NTF, 2);
    (GW_SET_CONTACT_INPUT_LINK_CFM, 2); (GW_REMOVE_CONTACT_INPUT_LINK_CFM, 2);
    (GW_COMMAND_SEND_CFM, 3); (GW_STATUS_REQUEST_CFM, 3); (GW_CS_PGC_JOB_NTF, 3);
    (GW_WINK_SEND_CFM, 3); (GW_SET_LIMITATION_CFM, 3); (GW_GET_LIMITATION_STATUS_CFM, 3);
    (GW_MODE_SEND_CFM, 3); (GW_ACTIVATE_SCENE_CFM, 3); (GW_STOP_SCENE_CFM, 3);
    (GW_ACTIVATE_PRODUCTGROUP_CFM, 3); (GW_GET_MULTIPLE_ACTIVATION_LOG_LINES_CFM, 3);
    (GW_GET_PROTOCOL_VERSION_CFM, 4); (GW_GET_ACTIVATION_LOG_HEADER_CFM, 4);
    (GW_GET_STATE_CFM, 6); (GW_COMMAND_REMAINING_TIME_NTF, 6); (GW_GET_VERSION_CFM, 9);
    (GW_LIMITATION_STATUS_NTF, 10); (GW_GET_NETWORK_SETUP_CFM, 13);
    (GW_COMMAND_RUN_STATUS_NTF, 13); (GW_GET_LOCAL_TIME_CFM, 15);
    (GW_GET_ACTIVATION_LOG_LINE_CFM, 17); (GW_GET_MULTIPLE_ACTIVATION_LOG_LINES_NTF, 17);
    (GW_NODE_STATE_POSITION_CHANGED_NTF, 20); (GW_INITIALIZE_SCENE_NTF, 26);
    (GW_PASSWORD_CHANGE_NTF, 32); (GW_CS_SYSTEM_TABLE_UPDATE_NTF, 52);
    (GW_CS_RECEIVE_KEY_NTF, 53); (GW_CS_GENERATE_NEW_KEY_NTF, 53); (GW_CS_REPAIR_KEY_NTF, 53);
    (GW_NODE_INFORMATION_CHANGED_NTF, 69); (GW_CS_ACTIVATE_CONFIGURATION_MODE_CFM, 79);
    (GW_GET_GROUP_INFORMATION_NTF, 99); (GW_GET_ALL_GROUPS_INFORMATION_NTF, 99);
    (GW_GET_NODE_INFORMATION_NTF, 124); (GW_GET_ALL_NODES_INFORMATION_NTF, 124);
    (GW_CS_DISCOVER_NODES_NTF, 131) ]%nat.

Lemma fixed_length_error c n payload :
  (c, n) ∈ fixed_length → length payload ≠ n →
  decode (Frame.new c payload) = Err (length_error c n (length payload)).
Proof.
  intros Hin Hne. unfold fixed_length in Hin.
  repeat (apply elem_of_cons in Hin as [[= -> ->]|Hin];
    [cbn -[require_exact mbind outcome_bind fmap outcome_fmap];
     unfold decode_session_status, decode_command_run_status, decode_version,
       decode_group_information, decode_node_information, decode_node_state;
     rewrite require_exact_err by done; reflexivity|]).
  by apply elem_of_nil in Hin.
Qed.

(** ** Reading back what the encoders write *)
Lemma index_cons x l i : index (E := KlfError.t) (x :: l) (S i) = index l i.
Proof. done. Qed.
Lemma index_head x l : index (E := KlfError.t) (x :: l) 0 = Ok x.
Proof. done. Qed.

(** One access of a list of segments whose lengths are hypotheses. *)
Ltac read_segment :=
  first
    [ rewrite index_head
    | rewrite index_cons
    | rewrite slice_cons
    | match goal with
      | H : length ?seg = ?n |- context [slice (?seg ++ ?l) 0 ?n] =>
          rewrite (slice_segment seg l n H)
      | H : length ?seg = ?n |- context [slice ?seg 0 ?n] => rewrite (slice_whole seg n H)
      | H : length ?seg = ?n |- context [index (?seg ++ ?l) ?i] =>
          rewrite (index_skip seg l n i H) by lia
      | H : length ?seg = ?n |- context [slice (?seg ++ ?l) ?a ?b] =>
          rewrite (slice_skip seg l n a b H) by lia
      end ];
  cbn [Nat.sub mbind outcome_bind].
Ltac read_segments :=
  unfold read_parameter, read_u16; cbn [Nat.add app]; repeat read_segment.

Lemma require_exact_ok payload n c : length payload = n → require_exact payload n c = Ok tt.
Proof. intros <-. unfold require_exact. by rewrite Nat.compare_refl. Qed.

Lemma decode_encode_name N name :
  is_str name → name_error N name = None → decode_fixed_string (name_field N name) = Ok name.
Proof.
  intros Hs He. apply decode_encode_fixed_string with N; [done|].
  by rewrite encode_fixed_string_layout, He.
Qed.

Lemma decode_group_layout g c :
  group_wf g → is_str (GroupInformation.name g) → name_error 64 (GroupInformation.name g) = None →
  decode_group_information (group_layout g) c = Ok g.
Proof.
  destruct g as [[id] order placement name velocity variation type count [actuators] revision].
  intros (_ & Ho & _ & _ & _ & _ & _ & [Hlen _] & Hr) Hs Hname. cbn in Hlen, Hs, Hname.
  pose proof (length_name_field 63 _ Hname) as Hn.
  unfold decode_group_information, group_layout, u16_to_be_bytes.
  cbn [GroupId.get ActuatorSet.bytes app].
  pose proof (decode_encode_name 64 name Hs Hname) as Hd.
  generalize dependent (name_field 64 name). intros field Hn Hd.
  rewrite require_exact_ok.
  2:{ repeat (cbn [length]; rewrite length_app). cbn [length]. lia. }
  cbn [mbind outcome_bind]. read_segments. rewrite Hd. cbn [mbind outcome_bind]. read_segments.
  by rewrite !u16_from_to_be_bytes.
Qed.

Lemma five_settings (l : list Z) : length l = 5%nat → ∃ a b c d e, l = [a; b; c; d; e].
Proof. intros Hl. do 6 (destruct l as [|? l]; try discriminate Hl). by repeat eexists. Qed.

Definition normalise_link (l : ContactInputLink.t) : ContactInputLink.t :=
  let '(ContactInputLink.mk contact_input_id assignment action_id command_originator
          priority_level parameter_id position velocity lock_priority_level settings
          success_output_id error_output_id) := l in
  ContactInputLink.mk contact_input_id assignment action_id command_originator
    priority_level parameter_id (ParameterFacts.normalise position) velocity lock_priority_level
    settings success_output_id error_output_id.

(** A link is read back at any offset where its layout stands. *)
Lemma decode_link_layout l before after offset :
  link_wf l → length before = offset →
  decode_contact_input_link (before ++ link_layout l ++ after) offset = Ok (normalise_link l).
Proof.
  destruct l as [id assignment action originator level parameter position velocity lock settings
                   success error].
  intros (_ & _ & _ & _ & _ & _ & Hp & _ & _ & [Hs _] & _) Hb.
  apply five_settings in Hs as (a & b & c & d & e & ->).
  unfold decode_contact_input_link, link_layout, position_field, u16_to_be_bytes.
  unfold read_parameter, read_u16. cbn [app].
  rewrite !(index_skip before _ offset) by (done || lia).
  replace (offset - offset)%nat with 0%nat by lia.
  repeat match goal with
    | |- context [(offset + ?k - offset)%nat] =>
        replace (offset + k - offset)%nat with k by lia
    | |- context [(offset + ?k + 1 - offset)%nat] =>
        replace (offset + k + 1 - offset)%nat with (S k) by lia
    end.
  repeat read_segment. cbn [mbind outcome_bind].
  by rewrite u16_from_to_be_bytes, ParameterFacts.from_to_raw.
Qed.

Lemma length_link_layout l : link_wf l → length (link_layout l) = 17%nat.
Proof.
  destruct l. intros (_ & _ & _ & _ & _ & _ & _ & _ & _ & [Hs _] & _).
  unfold link_layout. rewrite !length_app, Hs. done.
Qed.

Lemma decode_links_layout links before i :
  Forall link_wf links → length before = (1 + i * 17)%nat →
  mapM (λ index, decode_contact_input_link (before ++ concat (link_layout <$> links)) (1 + index * 17))
    (seq i (length links))
  = Ok (normalise_link <$> links).
Proof.
  intros Hl. revert before i. induction Hl as [|l links Hl _ IH]; intros before i Hb; [done|].
  cbn [length seq mapM fmap list_fmap concat].
  rewrite (decode_link_layout l) by done. cbn [mbind outcome_bind].
  rewrite app_assoc. rewrite IH; [done|]. rewrite length_app, length_link_layout by done. lia.
Qed.

(** * Properties *)

(** C29: decoding any frame received from the gateway never panics, and a response it returns
    satisfies the type invariant: widths, array lengths, non-zero session identifiers, valid
    strings. *)
Theorem response_decode_safe (f : Frame.t) :
  Frame.wf f →
  match decode f with Ok r => response_wf r | Err _ => True | Panic => False end.
Proof. exact (decode_returns f). Qed.

Lemma response_decode_safe_witness :
  SessionId.wf (SessionId.mk 258).
Proof.
  exact (response_decode_safe (Frame.new GW_SESSION_FINISHED_NTF [1; 2])
           ltac:(apply (bool_decide_unpack _); vm_compute; exact I)).
Defined.

(** The decoder covers the registry: a command is left undecoded, whatever its payload,
    exactly when the registry does not list it as a confirmation or a notification. *)
Theorem response_decode_covers_registry (c : CommandId) :
  (∀ payload, decode (Frame.new c payload) = Ok (Response.Unknown c payload))
  ↔ is_reply c = false.
Proof.
  split.
  - intros H. destruct (is_reply c) eqn:Hr; [|done].
    assert (decodes_empty c = true) as Hall.
    { apply CommandIdFacts.registry_forall; [vm_compute; reflexivity|].
      apply CommandIdFacts.kind_known. intros Hk. unfold is_reply in Hr. by rewrite Hk in Hr. }
    unfold decodes_empty in Hall. by rewrite Hr, H in Hall.
  - intros Hr payload. unfold decode. cbn [Frame.command Frame.payload Frame.new]. cbv zeta.
    unfold decode_configuration, decode_node_group, decode_command_extension,
      decode_scene_contact, decode_activation_log, decode_core.
    rewrite !(one_of_not_reply c) by (first [exact Hr|vm_compute; reflexivity]).
    by repeat case_match.
Qed.

(** For the fixed-length commands a payload of any other length is refused, with the
    command, the expected and the actual length in the error. *)
Theorem response_decode_length_error (c : CommandId) (n : nat) (payload : list Z) :
  (c, n) ∈ fixed_length → length payload ≠ n →
  decode (Frame.new c payload) = Err (length_error c n (length payload)).
Proof. apply fixed_length_error. Qed.

Lemma response_decode_length_error_witness :
  decode (Frame.new GW_GET_VERSION_CFM [1; 2])
  = Err (KlfError.TruncatedPayload GW_GET_VERSION_CFM 9 2).
Proof.
  refine (response_decode_length_error GW_GET_VERSION_CFM 9 [1; 2] _ _);
    [apply (bool_decide_unpack _); vm_compute; exact I|discriminate].
Defined.

(** Group information round trip: what [SetGroup] sends decodes, as the notification of
    a group, to the same group. *)
Theorem group_information_roundtrip (g : GroupInformation.t) (f : Frame.t) (c : CommandId) :
  group_wf g → is_str (GroupInformation.name g) →
  c ∈ [GW_GET_GROUP_INFORMATION_NTF; GW_GET_ALL_GROUPS_INFORMATION_NTF] →
  Request.encode (Request.NodeGroup (NodeGroupRequest.SetGroup g)) = Ok f →
  decode (Frame.new c (Frame.payload f))
  = Ok (Response.GroupInformation (GroupInformationNotification.mk c g)).
Proof.
  intros Hwf Hs Hc He. unfold Request.encode in He.
  rewrite encode_payload_layout in He by done. unfold prescribed in He. cbn [invalid] in He.
  destruct (name_error 64 (GroupInformation.name g)) eqn:Hn; [done|].
  cbn in He. injection He as <-. cbn [Frame.payload Frame.new].
  rewrite !elem_of_cons, elem_of_nil in Hc.
  destruct Hc as [->|[->|[]]];
    cbn -[decode_group_information group_layout mbind outcome_bind];
    by rewrite decode_group_layout.
Qed.

Definition sample_group : GroupInformation.t :=
  GroupInformation.mk (GroupId.new 4) 258 2 "Patio" 1 0 3 2
    (fst (ActuatorSet.insert ActuatorSet.new 9)) 7.

Lemma group_information_roundtrip_witness :
  decode (Frame.new GW_GET_GROUP_INFORMATION_NTF (group_layout sample_group))
  = Ok (Response.GroupInformation
          (GroupInformationNotification.mk GW_GET_GROUP_INFORMATION_NTF sample_group)).
Proof.
  refine (group_information_roundtrip sample_group
            (Frame.new GW_SET_GROUP_INFORMATION_REQ (group_layout sample_group))
            GW_GET_GROUP_INFORMATION_NTF _ _ _ _);
    [unfold group_wf, sample_group; split_and!|..];
    first [by apply (bool_decide_unpack _); vm_compute | vm_compute; reflexivity].
Defined.

(** Network setup round trip. *)
Theorem network_setup_roundtrip (s : NetworkSetup.t) (f : Frame.t) :
  network_setup_wf s →
  Request.encode (Request.SetNetworkSetup s) = Ok f →
  decode (Frame.new GW_GET_NETWORK_SETUP_CFM (Frame.payload f)) = Ok (Response.NetworkSetup s).
Proof.
  intros Hwf He. unfold Request.encode in He. rewrite encode_payload_layout in He by done.
  cbn in He. injection He as <-. destruct s as [ip mask gateway dhcp].
  destruct Hwf as ([Hi _] & [Hm _] & [Hg _]). cbn in Hi, Hm, Hg.
  do 5 (destruct ip as [|? ip]; try discriminate Hi).
  do 5 (destruct mask as [|? mask]; try discriminate Hm).
  do 5 (destruct gateway as [|? gateway]; try discriminate Hg).
  by destruct dhcp.
Qed.

Lemma network_setup_roundtrip_witness :
  decode (Frame.new GW_GET_NETWORK_SETUP_CFM [10; 0; 0; 5; 255; 255; 255; 0; 10; 0; 0; 1; 1])
  = Ok (Response.NetworkSetup (NetworkSetup.mk [10; 0; 0; 5] [255; 255; 255; 0] [10; 0; 0; 1] true)).
Proof.
  refine (network_setup_roundtrip
            (NetworkSetup.mk [10; 0; 0; 5] [255; 255; 255; 0] [10; 0; 0; 1] true)
            (Frame.new GW_SET_NETWORK_SETUP_REQ
               [10; 0; 0; 5; 255; 255; 255; 0; 10; 0; 0; 1; 1]) _ _);
    [unfold network_setup_wf; split_and!; by apply (bool_decide_unpack _); vm_compute
    |vm_compute; reflexivity].
Defined.

(** Contact links round trip: the links an actor can set, listed after their count, are
    read back in order, with each position normalised as the wire stores it. *)
Theorem contact_links_roundtrip (links : list ContactInputLink.t) (payloads : list (list Z)) :
  Forall link_wf links → (length links ≤ 10)%nat →
  mapM encode_contact_input_link links = Ok payloads →
  decode (Frame.new GW_GET_CONTACT_INPUT_LINK_LIST_CFM
            (Z.of_nat (length links) :: concat payloads))
  = Ok (Response.ContactInputLinks (normalise_link <$> links)).
Proof.
  intros Hwf Hl He.
  assert (payloads = (link_layout <$> links)) as ->.
  { revert payloads He. clear Hl. induction Hwf as [|l links Hwf _ IH]; intros payloads He.
    { by injection He as <-. }
    cbn [mapM] in He. pose proof (scene_contact_encode_layout (SceneContactRequest.SetContactInputLink l) Hwf) as Hle.
    cbn [SceneContactRequest.encode] in Hle. rewrite Hle in He. unfold prescribed in He.
    destruct (invalid _); [done|]. cbn [mbind outcome_bind] in He.
    destruct (mapM _ links) as [ps|e|]; [|done|done]. injection He as <-. cbn. f_equal. by apply IH. }
  cbn -[decode_contact_input_links]. unfold decode_contact_input_links.
  assert (length (concat (link_layout <$> links)) = (length links * 17)%nat) as Hlen.
  { clear Hl He. induction Hwf as [|l links Hl _ IH]; [done|]. cbn [fmap list_fmap concat].
    rewrite length_app, length_link_layout, IH by done. cbn [length]. lia. }
  unfold require. cbn [length]. rewrite (proj2 (Nat.ltb_ge _ 1)) by lia.
  cbn [mbind outcome_bind]. rewrite index_head. cbn [mbind outcome_bind].
  rewrite Nat2Z.id, (proj2 (Nat.ltb_ge _ _)) by lia.
  rewrite require_exact_ok by (cbn [length]; lia). cbn [mbind outcome_bind].
  pose proof (decode_links_layout links [Z.of_nat (length links)] 0 Hwf eq_refl) as Hd.
  cbn [app] in Hd. by rewrite Hd.
Qed.

Definition sample_link : ContactInputLink.t :=
  ContactInputLink.mk 1 2 0 1 3 0 (StandardParameter.PercentagePoint 2000) 0 2 [0; 1; 2; 3; 3] 5 6.

Lemma contact_links_roundtrip_witness :
  decode (Frame.new GW_GET_CONTACT_INPUT_LINK_LIST_CFM
            [1; 1; 2; 0; 1; 3; 0; 208; 208; 0; 2; 0; 1; 2; 3; 3; 5; 6])
  = Ok (Response.ContactInputLinks
          [ContactInputLink.mk 1 2 0 1 3 0 (StandardParameter.PercentagePoint 1000) 0 2
             [0; 1; 2; 3; 3] 5 6]).
Proof.
  refine (contact_links_roundtrip [sample_link]
            [[1; 2; 0; 1; 3; 0; 208; 208; 0; 2; 0; 1; 2; 3; 3; 5; 6]] _ _ _).
  - apply Forall_singleton. unfold link_wf, sample_link. split_and!;
      by apply (bool_decide_unpack _); vm_compute.
  - simpl; lia.
  - vm_compute; reflexivity.
Defined.
