(* ===== verification/Connection.v ===== *)
(** * The connection actor (klf200/connection.rs)

    The actor owns the stream and serves one request at a time. Its loop is a function of
    the [Turn]s it goes through: what [tokio::select!] delivered, what writing returned and
    what the clock said are inputs; what it writes, replies and broadcasts are [Effect]s in
    order. A reply channel is a number, so "answered exactly once" is a statement about the
    effects. *)

From S2P Require Import Prelude RustStd CommandIds Error Types Frame Slip Command.
From S2P Require Import ResponseTypes Response.

(** An [Instant] and a [Duration], in milliseconds. The standard library counts the seconds of an
    [Instant] of a 64-bit Unix in an [i64]; adding a [Duration] beyond the last one panics. *)
Abbreviation Instant := Z (only parsing).
Definition INSTANT_MAX : Instant := 9223372036854775807 * 1000 + 999.

(** [instant + duration]; [None] is the panic. *)
Definition instant_add (instant : Instant) (duration : Z) : option Instant :=
  if instant + duration <=? INSTANT_MAX then Some (instant + duration) else None.

Module ConnectionSettings.
Record t := mk {
  request_timeout : Z;
  session_timeout : Z;
  command_buffer : nat;
  event_buffer : nat;
  incoming_buffer : nat;
  read_buffer_size : nat;
  maximum_slip_frame_length : nat;
  timeout_check_interval : Z
}.

Definition default : t := mk 5000 120000 16 64 32 4096 1024 50.
End ConnectionSettings.

Module ConnectionEvent.
Inductive t :=
| Notification (r : Response.t)
| UnexpectedResponse (r : Response.t)
| SessionTimedOut (session_id : SessionId.t)
| ProtocolError (message : string)
| Disconnected (reason : string).
Global Instance eq_dec : EqDecision t.
Proof. solve_decision. Defined.
End ConnectionEvent.

(** A [oneshot::Sender] *)
Abbreviation ReplyChannel := nat (only parsing).

Module ActorCommand.
Inductive t :=
| Send (request : Request.t) (reply : ReplyChannel)
| Shutdown (reply : ReplyChannel).
End ActorCommand.

Module QueuedRequest.
Record t := mk { request : Request.t; reply : ReplyChannel }.
End QueuedRequest.

Module PendingRequest.
Record t := mk {
  command : CommandId;
  expected_confirmation : CommandId;
  session_id : option SessionId.t;
  deadline : Instant;
  reply : ReplyChannel
}.
End PendingRequest.

Module Incoming.
Inductive t :=
| IncomingFrame (frame : Frame.t)
| ProtocolError (error : KlfError.t)
| Closed (error : KlfError.t).
End Incoming.

(** What the actor does to the outside: a frame written for the request of a channel, a
    reply, a broadcast event, the reply to a shutdown. *)
Module Effect.
Inductive t :=
| Written (reply : ReplyChannel) (bytes : list Z)
| Replied (reply : ReplyChannel) (result : KlfResult Response.t)
| Emitted (event : ConnectionEvent.t)
| ShutdownReplied (reply : ReplyChannel) (result : KlfResult unit).
End Effect.
Import Effect.

(** ** The command a response belongs to *)
Definition response_command (response : Response.t) : CommandId :=
  match response with
  | Response.ErrorNotification _ => GW_ERROR_NTF
  | Response.Acknowledgement command
  | Response.Unknown command _
  | Response.OperationStatus command _ => command
  | Response.PasswordEntered _ => GW_PASSWORD_ENTER_CFM
  | Response.PasswordChanged _ => GW_PASSWORD_CHANGE_CFM
  | Response.PasswordChangedNotification _ => GW_PASSWORD_CHANGE_NTF
  | Response.Version _ => GW_GET_VERSION_CFM
  | Response.ProtocolVersion _ => GW_GET_PROTOCOL_VERSION_CFM
  | Response.GatewayState _ => GW_GET_STATE_CFM
  | Response.NetworkSetup _ => GW_GET_NETWORK_SETUP_CFM
  | Response.LocalTime _ => GW_GET_LOCAL_TIME_CFM
  | Response.SystemTableData _ => GW_CS_GET_SYSTEMTABLE_DATA_NTF
  | Response.NodeDiscoveryResult _ => GW_CS_DISCOVER_NODES_NTF
  | Response.NodesRemoved _ => GW_CS_REMOVE_NODES_CFM
  | Response.ControllerCopyResult _ => GW_CS_CONTROLLER_COPY_NTF
  | Response.KeyChangeResult result => KeyChangeResult.command result
  | Response.PgcJob _ => GW_CS_PGC_JOB_NTF
  | Response.SystemTableUpdate _ => GW_CS_SYSTEM_TABLE_UPDATE_NTF
  | Response.ConfigurationActivationResult _ => GW_CS_ACTIVATE_CONFIGURATION_MODE_CFM
  | Response.NodeMutationResult result => NodeMutationResult.command result
  | Response.GroupOperationResult result => GroupOperationResult.command result
  | Response.GroupInformation notification => GroupInformationNotification.command notification
  | Response.GroupChange _ => GW_GROUP_INFORMATION_CHANGED_NTF
  | Response.AllGroupsAccepted _ => GW_GET_ALL_GROUPS_INFORMATION_CFM
  | Response.GroupDeleted _ => GW_GROUP_DELETED_NTF
  | Response.SessionCommandResult result => SessionCommandResult.command result
  | Response.WinkFinished _ => GW_WINK_SEND_NTF
  | Response.LimitationStatus _ => GW_LIMITATION_STATUS_NTF
  | Response.ModeNotification _ => GW_MODE_SEND_NTF
  | Response.SceneStatusResult result => SceneStatusResult.command result
  | Response.SceneInitializationResult _ => GW_INITIALIZE_SCENE_NTF
  | Response.SceneObjectResult result => SceneObjectResult.command result
  | Response.SceneListAccepted _ => GW_GET_SCENE_LIST_CFM
  | Response.SceneList _ => GW_GET_SCENE_LIST_NTF
  | Response.SceneInformation _ => GW_GET_SCENE_INFOAMATION_NTF
  | Response.SceneSessionResult result => SceneSessionResult.command result
  | Response.SceneChange _ => GW_SCENE_INFORMATION_CHANGED_NTF
  | Response.ProductGroupResult _ => GW_ACTIVATE_PRODUCTGROUP_CFM
  | Response.ProductGroupNotification _ => GW_ACTIVATE_PRODUCTGROUP_NTF
  | Response.ContactInputLinks _ => GW_GET_CONTACT_INPUT_LINK_LIST_CFM
  | Response.ContactInputOperationResult result => ContactInputOperationResult.command result
  | Response.ActivationLogHeader _ => GW_GET_ACTIVATION_LOG_HEADER_CFM
  | Response.ActivationLogEntry entry => ActivationLogEntry.command entry
  | Response.MultipleActivationLogResult _ => GW_GET_MULTIPLE_ACTIVATION_LOG_LINES_CFM
  | Response.NodeInformationAccepted _ _ => GW_GET_NODE_INFORMATION_CFM
  | Response.AllNodesInformationAccepted _ _ => GW_GET_ALL_NODES_INFORMATION_CFM
  | Response.NodeInformation _ => GW_GET_ALL_NODES_INFORMATION_NTF
  | Response.NodeInformationChanged _ => GW_NODE_INFORMATION_CHANGED_NTF
  | Response.NodeStatePosition _ => GW_NODE_STATE_POSITION_CHANGED_NTF
  | Response.CommandAccepted _ _ => GW_COMMAND_SEND_CFM
  | Response.CommandRunStatus _ => GW_COMMAND_RUN_STATUS_NTF
  | Response.CommandRemainingTime _ _ _ _ => GW_COMMAND_REMAINING_TIME_NTF
  | Response.SessionFinished _ => GW_SESSION_FINISHED_NTF
  | Response.StatusAccepted _ _ => GW_STATUS_REQUEST_CFM
  | Response.StatusNotification _ => GW_STATUS_REQUEST_NTF
  end.

Definition unexpected_response (operation : string) (response : Response.t) : KlfError.t :=
  KlfError.UnexpectedResponse operation (response_command response).

(** ** Sessions in responses *)
Definition response_session_id (response : Response.t) : option SessionId.t :=
  match response with
  | Response.CommandAccepted session_id _ | Response.StatusAccepted session_id _ => Some session_id
  | Response.SessionCommandResult result => Some (SessionCommandResult.session_id result)
  | Response.SceneSessionResult result => Some (SceneSessionResult.session_id result)
  | Response.ProductGroupResult result => Some (ProductGroupResult.session_id result)
  | _ => None
  end.

(** [Option::is_none_or] *)
Definition confirmation_session_matches (expected : option SessionId.t) (response : Response.t) : bool :=
  match expected with
  | None => true
  | Some expected => bool_decide (response_session_id response = Some expected)
  end.

Definition session_was_accepted (response : Response.t) : bool :=
  match response with
  | Response.CommandAccepted _ status | Response.StatusAccepted _ status => status =? 1
  | Response.SessionCommandResult result =>
      let command := SessionCommandResult.command result in
      if one_of command [GW_WINK_SEND_CFM; GW_SET_LIMITATION_CFM; GW_GET_LIMITATION_STATUS_CFM]
      then SessionCommandResult.status result =? 1
      else if one_of command [GW_MODE_SEND_CFM] then SessionCommandResult.status result =? 0
      else false
  | Response.SceneSessionResult result => SceneSessionResult.status result =? 0
  | Response.ProductGroupResult result => ProductGroupResult.status result =? 0
  | _ => false
  end.

Definition terminal_session_id (response : Response.t) : option SessionId.t :=
  match response with
  | Response.SessionFinished session_id | Response.WinkFinished session_id => Some session_id
  | _ => None
  end.

(** ** The actor's state *)
Module Actor.
Record t := mk {
  requests : list QueuedRequest.t;
  pending : option PendingRequest.t;
  sessions : gmap SessionId.t Instant
}.

Definition init : t := mk [] None ∅.
End Actor.
Import Actor.

(** [queued.request.encode().and_then(|frame| frame.encode())] *)
Definition encode_request (request : Request.t) : KlfResult (list Z) :=
  Request.encode request ≫= Frame.encode.

(** [dispatch_next], which writes at most once: [write_error] is the error of that write.
    The result is the queue left, the new pending request, the effects and the error. *)
Fixpoint dispatch_next (requests : list QueuedRequest.t) (sessions : gmap SessionId.t Instant)
    (write_error : option KlfError.t) (now : Instant) (request_timeout : Z)
    : list QueuedRequest.t * option PendingRequest.t * list Effect.t * KlfResult unit :=
  match requests with
  | [] => ([], None, [], Ok tt)
  | queued :: requests =>
      let request := QueuedRequest.request queued in
      let reply := QueuedRequest.reply queued in
      let continue result :=
        let '(rest, pending, effects, outcome) :=
          dispatch_next requests sessions write_error now request_timeout in
        (rest, pending, Replied reply result :: effects, outcome) in
      let command := Request.command_id request in
      match CommandId.expected_confirmation command with
      | None => continue (Err (KlfError.MissingConfirmation command))
      | Some expected_confirmation =>
          let session_id := Request.session_id request in
          let in_use := match session_id with
                        | Some session_id => if sessions !! session_id is Some _ then Some session_id else None
                        | None => None
                        end in
          match in_use with
          | Some session_id => continue (Err (KlfError.SessionIdInUse (SessionId.get session_id)))
          | None =>
              match encode_request request with
              | Err error => continue (Err error)
              | Panic => (requests, None, [], Panic)
              | Ok frame =>
                  match write_error with
                  | Some error =>
                      (requests, None, [Replied reply (Err KlfError.ConnectionClosed)], Err error)
                  | None =>
                      let written := [Written reply (Slip.encode frame)] in
                      match instant_add now request_timeout with
                      | Some deadline =>
                          (requests,
                           Some (PendingRequest.mk command expected_confirmation session_id
                                   deadline reply), written, Ok tt)
                      | None => (requests, None, written, Panic)
                      end
                  end
              end
          end
      end
  end.

(** What a confirmation does to the session of its request *)
Definition settle_session (request : PendingRequest.t) (response : Response.t)
    (sessions : gmap SessionId.t Instant) (now : Instant) (session_timeout : Z)
    : option (gmap SessionId.t Instant) :=
  match PendingRequest.session_id request with
  | Some session_id =>
      if session_was_accepted response then
        match instant_add now session_timeout with
        | Some deadline => Some (<[session_id := deadline]> sessions)
        | None => None
        end
      else Some (delete session_id sessions)
  | None => Some sessions
  end.

(** [handle_frame]; [None] is a panic, of the decoder or of the addition to an [Instant]. *)
Definition handle_frame (frame : Frame.t) (pending : option PendingRequest.t)
    (sessions : gmap SessionId.t Instant) (now : Instant) (session_timeout : Z)
    : option (option PendingRequest.t * gmap SessionId.t Instant * list Effect.t) :=
  let command := Frame.command frame in
  let decoded := decode frame in
  let other :=
    match decoded with
    | Ok response =>
        if bool_decide (CommandId.kind command = CommandKind.Notification) then
          let sessions := match terminal_session_id response with
                          | Some session_id => delete session_id sessions
                          | None => sessions
                          end in
          Some (pending, sessions, [Emitted (ConnectionEvent.Notification response)])
        else Some (pending, sessions, [Emitted (ConnectionEvent.UnexpectedResponse response)])
    | Err error =>
        Some (pending, sessions, [Emitted (ConnectionEvent.ProtocolError (KlfError.display error))])
    | Panic => None
    end in
  match pending with
  | None => other
  | Some request =>
      if negb (command_eqb (PendingRequest.expected_confirmation request) command) then other
      else
        match decoded with
        | Panic => None
        | Ok response =>
            if negb (confirmation_session_matches (PendingRequest.session_id request) response) then
              Some (pending, sessions, [Emitted (ConnectionEvent.UnexpectedResponse response)])
            else
              match settle_session request response sessions now session_timeout with
              | Some sessions =>
                  Some (None, sessions, [Replied (PendingRequest.reply request) (Ok response)])
              | None => None
              end
        | Err error =>
            let sessions := match PendingRequest.session_id request with
                            | Some session_id => delete session_id sessions
                            | None => sessions
                            end in
            Some (None, sessions, [Replied (PendingRequest.reply request) (Err error)])
        end
  end.

Definition expire_request (pending : option PendingRequest.t) (sessions : gmap SessionId.t Instant)
    (now : Instant) : option PendingRequest.t * gmap SessionId.t Instant * list Effect.t :=
  match pending with
  | Some request =>
      if PendingRequest.deadline request <=? now then
        (None,
         match PendingRequest.session_id request with
         | Some session_id => delete session_id sessions
         | None => sessions
         end,
         [Replied (PendingRequest.reply request)
            (Err (KlfError.RequestTimeout (PendingRequest.command request)))])
      else (pending, sessions, [])
  | None => (pending, sessions, [])
  end.

(** The events follow the iteration order of the map, which the code leaves unspecified. *)
Definition expire_sessions (sessions : gmap SessionId.t Instant) (now : Instant)
    : gmap SessionId.t Instant * list Effect.t :=
  let expired := omap (λ '(session_id, deadline), then_some (deadline <=? now) session_id)
                   (map_to_list sessions) in
  (foldr delete sessions expired,
   (λ session_id, Emitted (ConnectionEvent.SessionTimedOut session_id)) <$> expired).

Definition fail_outstanding (pending : option PendingRequest.t) (requests : list QueuedRequest.t)
    : list Effect.t :=
  match pending with
  | Some request => [Replied (PendingRequest.reply request) (Err KlfError.ConnectionClosed)]
  | None => []
  end ++ ((λ request, Replied (QueuedRequest.reply request) (Err KlfError.ConnectionClosed)) <$> requests).

(** ** The loop *)

(** What the three branches of [tokio::select!] deliver: [None] for a closed channel. *)
Module Input.
Inductive t :=
| Command (command : option ActorCommand.t)
| Received (incoming : option Incoming.t)
| TimeoutTick.
End Input.

Module Turn.
Record t := mk {
  write_error : option KlfError.t;
  dispatched_at : Instant;
  input : Input.t;
  received_at : Instant
}.
End Turn.

(** Why the loop ended: the reply of a shutdown request, the disconnect reason. *)
Module Exit.
Record t := mk { shutdown_reply : option ReplyChannel; disconnect_reason : option string }.
End Exit.

(** The [select!] of one turn *)
Definition select (settings : ConnectionSettings.t) (s : Actor.t) (input : Input.t) (now : Instant)
    : option (Actor.t * list Effect.t * option Exit.t) :=
  match input with
  | Input.Command (Some (ActorCommand.Send request reply)) =>
      Some (mk (requests s ++ [QueuedRequest.mk request reply]) (pending s) (sessions s), [], None)
  | Input.Command (Some (ActorCommand.Shutdown reply)) =>
      Some (s, [], Some (Exit.mk (Some reply) None))
  | Input.Command None => Some (s, [], Some (Exit.mk None None))
  | Input.Received (Some (Incoming.IncomingFrame frame)) =>
      '(pending, sessions, effects) ←
        handle_frame frame (pending s) (sessions s) now (ConnectionSettings.session_timeout settings);
      Some (mk (requests s) pending sessions, effects, None)
  | Input.Received (Some (Incoming.ProtocolError error)) =>
      Some (s, [Emitted (ConnectionEvent.ProtocolError (KlfError.display error))], None)
  | Input.Received (Some (Incoming.Closed error)) =>
      Some (s, [], Some (Exit.mk None (Some (KlfError.display error))))
  | Input.Received None =>
      Some (s, [], Some (Exit.mk None (Some (KlfError.display KlfError.ConnectionClosed))))
  | Input.TimeoutTick =>
      let '(pending, sessions, effects) := expire_request (pending s) (sessions s) now in
      let (sessions, expired) := expire_sessions sessions now in
      Some (mk (requests s) pending sessions, effects ++ expired, None)
  end.

(** The [if pending.is_none()] at the head of the loop *)
Definition dispatch (settings : ConnectionSettings.t) (s : Actor.t) (write_error : option KlfError.t)
    (now : Instant) : Actor.t * list Effect.t * KlfResult unit :=
  match pending s with
  | Some _ => (s, [], Ok tt)
  | None =>
      let '(requests, pending, effects, outcome) :=
        dispatch_next (requests s) (sessions s) write_error now
          (ConnectionSettings.request_timeout settings) in
      (mk requests pending (sessions s), effects, outcome)
  end.

(** One turn; [None] is a panic. *)
Definition turn (settings : ConnectionSettings.t) (s : Actor.t) (t : Turn.t)
    : option (Actor.t * list Effect.t * option Exit.t) :=
  let '(s, effects, outcome) := dispatch settings s (Turn.write_error t) (Turn.dispatched_at t) in
  match outcome with
  | Panic => None
  | Err error => Some (s, effects, Some (Exit.mk None (Some (KlfError.display error))))
  | Ok _ =>
      '(s, effects', exit) ← select settings s (Turn.input t) (Turn.received_at t);
      Some (s, effects ++ effects', exit)
  end.

Fixpoint run (settings : ConnectionSettings.t) (s : Actor.t) (turns : list Turn.t)
    : option (Actor.t * list Effect.t * option Exit.t) :=
  match turns with
  | [] => Some (s, [], None)
  | t :: turns =>
      '(s, effects, exit) ← turn settings s t;
      match exit with
      | Some exit => Some (s, effects, Some exit)
      | None =>
          '(s, effects', exit) ← run settings s turns;
          Some (s, effects ++ effects', exit)
      end
  end.

(** What follows the loop: [waiting] are the commands still in the channel and
    [shutdown_result] the outcome of closing the stream. *)
Definition finish (s : Actor.t) (exit : Exit.t) (waiting : list ActorCommand.t)
    (shutdown_result : KlfResult unit) : list Effect.t :=
  fail_outstanding (pending s) (requests s)
  ++ omap (λ command, match command with
                      | ActorCommand.Send _ reply => Some (Replied reply (Err KlfError.ConnectionClosed))
                      | ActorCommand.Shutdown _ => None
                      end) waiting
  ++ match Exit.disconnect_reason exit with
     | Some reason => [Emitted (ConnectionEvent.Disconnected reason)]
     | None => []
     end
  ++ match Exit.shutdown_reply exit with
     | Some reply => [ShutdownReplied reply shutdown_result]
     | None => []
     end.

Definition run_actor (settings : ConnectionSettings.t) (turns : list Turn.t)
    (waiting : list ActorCommand.t) (shutdown_result : KlfResult unit) : option (list Effect.t) :=
  '(s, effects, exit) ← run settings init turns;
  match exit with
  | None => Some effects
  | Some exit => Some (effects ++ finish s exit waiting shutdown_result)
  end.

(** ** The reader task

    [reads] is what the successive [reader.read] calls return; the result is what the task
    sends to the actor. *)
Definition incoming_of (decoded : KlfResult (list Z)) : option Incoming.t :=
  match decoded ≫= Frame.decode with
  | Ok frame => Some (Incoming.IncomingFrame frame)
  | Err error => Some (Incoming.ProtocolError error)
  | Panic => None
  end.

Fixpoint read_frames (decoder : Decoder.t) (reads : list (KlfResult (list Z)))
    : option (list Incoming.t) :=
  match reads with
  | [] => Some []
  | Ok [] :: _ => Some [Incoming.Closed KlfError.ConnectionClosed]
  | Err error :: _ => Some [Incoming.Closed error]
  | Panic :: _ => None
  | Ok bytes :: reads =>
      let (decoder, decoded) := Decoder.push decoder bytes in
      incoming ← mapM incoming_of decoded;
      rest ← read_frames decoder reads;
      Some (incoming ++ rest)
  end.
