(* ===== verification/ConnectionFacts.v ===== *)
(** * What the connection actor guarantees

    Conservation of requests (every request taken from the channel is answered exactly
    once), one request in flight, correlation of confirmations, first-in first-out writing,
    the session table, timeouts, and absence of panics, as invariants of [Connection.run]. *)

From S2P Require Import Prelude RustStd CommandIds Error Types Frame Slip Command CommandLayout.
From S2P Require Import ResponseTypes Response ResponseFacts Connection.
Import Effect Actor.

(** ** The reader task *)
Section reader.
Lemma mapM_option_app {A B} (f : A → option B) l k :
  mapM f (l ++ k) = (a ← mapM f l; b ← mapM f k; Some (a ++ b)).
Proof.
  induction l as [|x l IH]; cbn; [by destruct (mapM f k)|].
  destruct (f x); cbn; [|done]. rewrite IH. destruct (mapM f l); cbn; [|done].
  by destruct (mapM f k).
Qed.

Lemma read_frames_chunks decoder chunks :
  Forall (λ c, c ≠ []) chunks →
  read_frames decoder (Ok <$> chunks)
  = mapM incoming_of (snd (Decoder.push decoder (concat chunks))).
Proof.
  intros Hc. revert decoder. induction Hc as [|c chunks Hne _ IH]; intros decoder; [done|].
  cbn [fmap list_fmap concat]. rewrite SlipFacts.push_app. cbn [read_frames].
  destruct c as [|x c]; [done|].
  destruct (Decoder.push decoder (x :: c)) as [d1 out1]. rewrite IH.
  destruct (Decoder.push d1 (concat chunks)) as [d2 out2]. cbn [snd].
  by rewrite mapM_option_app.
Qed.
End reader.

(** ** The command of a decoded response *)
Definition answers (command : CommandId) (r : Response.t) : Prop :=
  response_command r = command
  ∨ (command = GW_GET_NODE_INFORMATION_NTF
     ∧ response_command r = GW_GET_ALL_NODES_INFORMATION_NTF).

Lemma one_of_elem c patterns : one_of c patterns = true → c ∈ patterns.
Proof.
  intros (p & Hin%list_elem_of_In & ->%command_eqb_iff)%List.existsb_exists. done.
Qed.

(** The decoded value answers the command the branch matched. *)
Ltac answer_value :=
  repeat match goal with
    | H : one_of _ _ = false |- _ => clear H
    | H : one_of _ _ = true |- _ => apply one_of_elem in H
    end;
  unfold answers; cbn;
  first
    [ by left
    | repeat match goal with
        | H : _ ∈ _ :: _ |- _ => apply elem_of_cons in H as [->|H]
        | H : _ ∈ [] |- _ => by apply elem_of_nil in H
        end; first [by left|by right] ].
Ltac answer := apply returns_ok; answer_value.

Section answers.
Context (payload : list Z) (command : CommandId).
Hypothesis Hpayload : Forall is_u8 payload.
Hypothesis Hcommand : is_u16 (raw command).

Lemma unknown_answers :
  returns (Ok (Response.Unknown command payload) : KlfResult _) (answers command).
Proof. apply returns_ok. by left. Qed.

Lemma decode_gateway_answers : returns (decode_gateway command payload) (answers command).
Proof.
  unfold decode_gateway.
  repeat (case_match; [repeat decode_read; try answer|]); [|apply unknown_answers].
  eapply returns_fmap; [by apply decode_version_returns|]. intros v _.
  answer_value.
Qed.

Lemma system_table_data_answers :
  returns (decode_system_table_data payload command)
    (λ r, response_command r = GW_CS_GET_SYSTEMTABLE_DATA_NTF).
Proof.
  unfold decode_system_table_data. repeat decode_read.
  eapply returns_bind;
    [apply returns_entries; intros; apply decode_system_table_object_returns; [done|lia]|].
  intros entries _. repeat decode_read. by apply returns_ok.
Qed.

Lemma decode_configuration_answers :
  returns (decode_configuration command payload) (answers command).
Proof.
  unfold decode_configuration.
  repeat (case_match; [repeat decode_read; try answer|]); [|apply unknown_answers].
  eapply returns_mono; [apply system_table_data_answers|]. intros r Hr. cbv beta in Hr.
  unfold answers. rewrite Hr. answer_value.
Qed.

Lemma decode_node_group_answers : returns (decode_node_group command payload) (answers command).
Proof.
  unfold decode_node_group.
  repeat (case_match; [repeat decode_read; try answer|]); [..|apply unknown_answers].
  - eapply returns_bind; [by apply decode_group_information_returns|]. intros i _. answer.
  - eapply (returns_bind _ _ (λ _, True)); [|intros i _; answer].
    repeat decode_read. match goal with H : byte_array _ _ |- _ => destruct H end.
    by eapply returns_fmap; [apply decode_group_information_returns|].
  - eapply (returns_bind _ _ (λ _, True)); [|intros i _; answer].
    repeat decode_read. by apply returns_ok.
Qed.

Lemma decode_command_extension_answers :
  returns (decode_command_extension command payload) (answers command).
Proof.
  unfold decode_command_extension.
  repeat (case_match; [repeat decode_read; try answer|]). apply unknown_answers.
Qed.

Lemma scene_list_answers :
  returns (decode_scene_list payload command) (λ r, response_command r = GW_GET_SCENE_LIST_NTF).
Proof.
  unfold decode_scene_list. repeat decode_read. case_match; [apply returns_err|].
  repeat decode_read.
  eapply returns_bind;
    [apply returns_entries; intros; apply decode_scene_summary_returns; [done|lia]|].
  intros entries _. repeat decode_read. by apply returns_ok.
Qed.

Lemma scene_information_answers :
  returns (decode_scene_information payload command)
    (λ r, response_command r = GW_GET_SCENE_INFOAMATION_NTF).
Proof.
  unfold decode_scene_information. repeat decode_read. case_match; [apply returns_err|].
  repeat decode_read.
  eapply returns_bind;
    [apply returns_entries; intros; apply decode_scene_node_returns; [done|lia]|].
  intros entries _. repeat decode_read. by apply returns_ok.
Qed.

Lemma contact_input_links_answers :
  returns (decode_contact_input_links payload command)
    (λ r, response_command r = GW_GET_CONTACT_INPUT_LINK_LIST_CFM).
Proof.
  unfold decode_contact_input_links. repeat decode_read. case_match; [apply returns_err|].
  repeat decode_read.
  eapply returns_bind;
    [apply returns_entries; intros; apply decode_contact_input_link_returns; [done|lia]|].
  intros entries _. by apply returns_ok.
Qed.

Lemma decode_scene_contact_answers :
  returns (decode_scene_contact command payload) (answers command).
Proof.
  unfold decode_scene_contact.
  repeat (case_match; [repeat decode_read; try answer|]); [..|apply unknown_answers].
  - eapply returns_mono; [apply scene_list_answers|].
    intros r Hr. cbv beta in Hr. unfold answers. rewrite Hr. answer_value.
  - eapply returns_mono; [apply scene_information_answers|].
    intros r Hr. cbv beta in Hr. unfold answers. rewrite Hr. answer_value.
  - eapply returns_mono; [apply contact_input_links_answers|].
    intros r Hr. cbv beta in Hr. unfold answers. rewrite Hr. answer_value.
Qed.

Lemma decode_activation_log_answers :
  returns (decode_activation_log command payload) (answers command).
Proof.
  unfold decode_activation_log.
  repeat (case_match; [repeat decode_read; try answer|]). apply unknown_answers.
Qed.

Lemma session_status_answers is_command :
  returns (decode_session_status payload command is_command)
    (λ r, response_command r = if is_command then GW_COMMAND_SEND_CFM else GW_STATUS_REQUEST_CFM).
Proof. unfold decode_session_status. repeat decode_read. by case_match; apply returns_ok. Qed.

Lemma decode_core_answers : returns (decode_core command payload) (answers command).
Proof.
  unfold decode_core.
  repeat (case_match; [repeat decode_read; try answer|]); [..|apply unknown_answers].
  - apply decode_gateway_answers.
  - eapply returns_fmap; [by apply decode_node_information_returns|]. intros i _. answer_value.
  - eapply returns_fmap; [by apply decode_node_state_returns|]. intros i _. answer_value.
  - eapply returns_mono; [apply session_status_answers|].
    intros r Hr. cbv beta in Hr. unfold answers. rewrite Hr. answer_value.
  - eapply returns_fmap; [by apply decode_command_run_status_returns|]. intros i _. answer_value.
  - eapply returns_mono; [apply session_status_answers|].
    intros r Hr. cbv beta in Hr. unfold answers. rewrite Hr. answer_value.
  - eapply returns_fmap; [by apply decode_status_notification_returns|]. intros i _. answer_value.
Qed.
End answers.

Lemma decode_answers f : Frame.wf f → returns (decode f) (answers (Frame.command f)).
Proof.
  intros [Hc Hp]. unfold decode. cbv zeta.
  repeat case_match;
    auto using decode_configuration_answers, decode_node_group_answers,
      decode_command_extension_answers, decode_scene_contact_answers,
      decode_activation_log_answers, decode_core_answers.
Qed.

(** ** No panic *)
Definition queued_wf (q : QueuedRequest.t) : Prop := request_wf (QueuedRequest.request q).

Definition command_wf (c : ActorCommand.t) : Prop :=
  match c with ActorCommand.Send request _ => request_wf request | ActorCommand.Shutdown _ => True end.

Definition input_wf (i : Input.t) : Prop :=
  match i with
  | Input.Command (Some c) => command_wf c
  | Input.Received (Some (Incoming.IncomingFrame f)) => Frame.wf f
  | _ => True
  end.

Definition turn_wf (t : Turn.t) : Prop := input_wf (Turn.input t).

(** The deadlines computed at these moments are instants. *)
Definition turn_fits (settings : ConnectionSettings.t) (t : Turn.t) : Prop :=
  Turn.dispatched_at t + ConnectionSettings.request_timeout settings ≤ INSTANT_MAX
  ∧ Turn.received_at t + ConnectionSettings.session_timeout settings ≤ INSTANT_MAX.
Global Instance turn_fits_dec settings t : Decision (turn_fits settings t) :=
  ltac:(unfold turn_fits; apply _).

Lemma instant_add_fits now duration :
  now + duration ≤ INSTANT_MAX → instant_add now duration = Some (now + duration).
Proof. intros Hd. unfold instant_add. by rewrite (proj2 (Z.leb_le _ _) Hd). Qed.

Lemma instant_add_Some now duration deadline :
  instant_add now duration = Some deadline → deadline = now + duration.
Proof. unfold instant_add. by case_match; intros [= <-]. Qed.

Lemma frame_encode_no_panic f : Frame.encode f ≠ Panic.
Proof.
  unfold Frame.encode. repeat case_match; try done.
  unfold ok_or. by destruct (u8_try_from _).
Qed.

Lemma encode_request_no_panic r : request_wf r → encode_request r ≠ Panic.
Proof.
  intros Hwf. unfold encode_request, Request.encode. rewrite encode_payload_layout by done.
  unfold prescribed. destruct (invalid r); [done|]. apply frame_encode_no_panic.
Qed.

Lemma dispatch_next_no_panic requests sessions w now timeout :
  now + timeout ≤ INSTANT_MAX → Forall queued_wf requests →
  let '(_, _, _, outcome) := dispatch_next requests sessions w now timeout in outcome ≠ Panic.
Proof.
  intros Hfit%instant_add_fits.
  induction 1 as [|q requests Hq _ IH]; cbn [dispatch_next]; [done|].
  rewrite Hfit. pose proof (encode_request_no_panic _ Hq) as He.
  destruct (dispatch_next requests sessions w now timeout) as [[[? ?] ?] ?].
  repeat case_match; simplify_eq; done.
Qed.

Lemma handle_frame_no_panic f pending sessions now timeout :
  now + timeout ≤ INSTANT_MAX → Frame.wf f → is_Some (handle_frame f pending sessions now timeout).
Proof.
  intros Hfit%instant_add_fits Hf. pose proof (returns_no_panic _ _ (decode_returns f Hf)) as Hd.
  unfold handle_frame, settle_session. rewrite Hfit. repeat case_match; simplify_eq; eauto; done.
Qed.

(** ** Accounting: replies, writes, requests taken from the channel *)
Definition replied (effects : list Effect.t) : list ReplyChannel :=
  omap (λ e, match e with Replied reply _ => Some reply | _ => None end) effects.
Definition written (effects : list Effect.t) : list ReplyChannel :=
  omap (λ e, match e with Written reply _ => Some reply | _ => None end) effects.

Definition queued (requests : list QueuedRequest.t) : list ReplyChannel :=
  QueuedRequest.reply <$> requests.
Definition in_flight (pending : option PendingRequest.t) : list ReplyChannel :=
  match pending with Some p => [PendingRequest.reply p] | None => [] end.

(** The channels of the requests the actor still owes an answer. *)
Definition outstanding (s : Actor.t) : list ReplyChannel :=
  in_flight (pending s) ++ queued (requests s).

Definition taken (i : Input.t) : list (Request.t * ReplyChannel) :=
  match i with
  | Input.Command (Some (ActorCommand.Send request reply)) => [(request, reply)]
  | _ => []
  end.

(** The inputs a run consumes: those of the turns it reaches, unless writing failed first. *)
Fixpoint consumed (settings : ConnectionSettings.t) (s : Actor.t) (turns : list Turn.t)
    : list Input.t :=
  match turns with
  | [] => []
  | t :: turns =>
      let '(s, _, outcome) := dispatch settings s (Turn.write_error t) (Turn.dispatched_at t) in
      match outcome with
      | Ok _ =>
          Turn.input t ::
          match select settings s (Turn.input t) (Turn.received_at t) with
          | Some (s, _, None) => consumed settings s turns
          | _ => []
          end
      | _ => []
      end
  end.

(** The requests taken from the command channel, in order. *)
Definition accepted (inputs : list Input.t) : list (Request.t * ReplyChannel) :=
  concat (taken <$> inputs).

Lemma accepted_app a b : accepted (a ++ b) = accepted a ++ accepted b.
Proof. unfold accepted. by rewrite fmap_app, concat_app. Qed.

(** ** Reasoning about runs

    A relation between a state, the inputs consumed, the effects and the state reached holds
    of every run when it is reflexive and transitive and holds of dispatching and of
    [select!]. *)
Section runs.
Context (settings : ConnectionSettings.t) (good : Input.t → Prop).
Context (R : Actor.t → list Input.t → list Effect.t → Actor.t → Prop).
Hypothesis R_refl : ∀ s, R s [] [] s.
Hypothesis R_trans : ∀ s1 i1 e1 s2 i2 e2 s3,
  R s1 i1 e1 s2 → R s2 i2 e2 s3 → R s1 (i1 ++ i2) (e1 ++ e2) s3.
Hypothesis R_dispatch : ∀ s w now s' effects outcome,
  dispatch settings s w now = (s', effects, outcome) → outcome ≠ Panic → R s [] effects s'.
Hypothesis R_select : ∀ s i now s' effects exit,
  good i → select settings s i now = Some (s', effects, exit) → R s [i] effects s'.

Lemma run_relation turns s s' effects exit :
  Forall (λ t, good (Turn.input t)) turns →
  run settings s turns = Some (s', effects, exit) →
  R s (consumed settings s turns) effects s'.
Proof using All.
  intros Hg. revert s s' effects exit.
  induction Hg as [|t turns Ht _ IH]; intros s s' effects exit; cbn [run consumed].
  { by intros [= <- <- <-]. }
  intros H. apply bind_Some in H as ([[s1 e1] x1] & Hturn & H). unfold turn in Hturn.
  pose proof (R_dispatch s (Turn.write_error t) (Turn.dispatched_at t)) as Hd.
  destruct (dispatch settings s _ _) as [[s0 e0] out]. destruct out as [[]|e|]; [| |done].
  - apply bind_Some in Hturn as ([[s2 e2] x2] & Hs & [= <- <- <-]). rewrite Hs.
    specialize (Hd _ _ _ eq_refl ltac:(done)). apply R_select in Hs; [|done].
    pose proof (R_trans _ _ _ _ _ _ _ Hd Hs) as Hde. destruct x2 as [x|].
    + by injection H as <- <- <-.
    + apply bind_Some in H as ([[s3 e3] x3] & Hr & [= <- <- <-]). apply IH in Hr.
      exact (R_trans _ _ _ _ _ _ _ Hde Hr).
  - injection Hturn as <- <- <-. injection H as <- <- <-. by eapply Hd.
Qed.
End runs.

Lemma replied_app a b : replied (a ++ b) = replied a ++ replied b.
Proof. apply omap_app. Qed.
Lemma written_app a b : written (a ++ b) = written a ++ written b.
Proof. apply omap_app. Qed.

Lemma replied_emitted events : replied (Emitted <$> events) = [].
Proof. by induction events. Qed.

Lemma expired_effects {A} (f : A → ConnectionEvent.t) l :
  replied ((λ x, Emitted (f x)) <$> l) = [] ∧ written ((λ x, Emitted (f x)) <$> l) = [].
Proof. by induction l. Qed.

(** Dispatching neither loses nor duplicates a request, and keeps the order. *)
Lemma dispatch_next_conserves requests sessions w now timeout :
  let '(rest, pending, effects, outcome) := dispatch_next requests sessions w now timeout in
  outcome ≠ Panic →
  replied effects ++ in_flight pending ++ queued rest = queued requests.
Proof.
  induction requests as [|q requests IH]; cbn [dispatch_next]; [done|].
  destruct (dispatch_next requests sessions w now timeout) as [[[rest p] effs] out].
  repeat case_match; simplify_eq; cbn; try done; intros; f_equal; auto.
Qed.

Lemma dispatch_conserves settings s w now :
  let '(s', effects, outcome) := dispatch settings s w now in
  outcome ≠ Panic → replied effects ++ outstanding s' = outstanding s.
Proof.
  unfold dispatch. destruct s as [reqs p sess]. cbn. destruct p as [p|]; [done|].
  pose proof (dispatch_next_conserves reqs sess w now (ConnectionSettings.request_timeout settings)) as H.
  destruct (dispatch_next _ _ _ _ _) as [[[rest p'] effs] out]. exact H.
Qed.

Lemma handle_frame_conserves f pending sessions now timeout pending' sessions' effects :
  handle_frame f pending sessions now timeout = Some (pending', sessions', effects) →
  replied effects ++ in_flight pending' = in_flight pending.
Proof.
  unfold handle_frame. intros H. repeat case_match; simplify_eq; done.
Qed.

Lemma select_conserves settings s i now s' effects exit :
  select settings s i now = Some (s', effects, exit) →
  replied effects ++ outstanding s' = outstanding s ++ (taken i).*2.
Proof.
  unfold select, outstanding. intros H. destruct i as [[[request reply|reply]|]|[[f|e|e]|]|];
    simplify_eq; cbn; rewrite ?app_nil_r; try done.
  - unfold queued. by rewrite fmap_app, app_assoc.
  - apply bind_Some in H as ([[p' sess'] effs] & Hh & [= <- <- <-]).
    apply handle_frame_conserves in Hh. cbn. by rewrite app_assoc, Hh.
  - destruct (expire_request _ _ _) as [[p' sess'] effs] eqn:He.
    destruct (expire_sessions sess' now) as [sess'' effs'] eqn:Hs. injection H as <- <- <-. cbn.
    assert (replied effs' = []) as Hr.
    { unfold expire_sessions in Hs. injection Hs as _ <-. apply expired_effects. }
    rewrite replied_app, Hr, app_nil_r.
    unfold expire_request in He. repeat case_match; simplify_eq; done.
Qed.

Lemma run_conserves settings turns s s' effects exit :
  run settings s turns = Some (s', effects, exit) →
  replied effects ++ outstanding s' ≡ₚ outstanding s ++ (accepted (consumed settings s turns)).*2.
Proof.
  apply (run_relation settings (λ _, True)
    (λ s i e s', replied e ++ outstanding s' ≡ₚ outstanding s ++ (accepted i).*2)).
  - intros. by rewrite app_nil_r.
  - intros s1 i1 e1 s2 i2 e2 s3 H1 H2.
    rewrite replied_app, <- app_assoc, H2, accepted_app, fmap_app, !app_assoc. by f_equiv.
  - intros s0 w now s1 e1 out Hd Hp. pose proof (dispatch_conserves settings s0 w now) as Hc.
    rewrite Hd in Hc. by rewrite Hc, app_nil_r.
  - intros s0 i now s1 e1 x _ Hs. apply select_conserves in Hs. rewrite Hs.
    unfold accepted. cbn. by rewrite app_nil_r.
  - by apply Forall_true.
Qed.

Lemma finish_replies s exit waiting result :
  replied (finish s exit waiting result)
  = outstanding s ++ omap (λ c, match c with ActorCommand.Send _ r => Some r | _ => None end) waiting.
Proof.
  unfold finish, outstanding. rewrite !replied_app.
  assert (replied (fail_outstanding (pending s) (requests s))
          = in_flight (pending s) ++ queued (requests s)) as ->.
  { unfold fail_outstanding. rewrite replied_app. f_equal; [by destruct (pending s)|].
    unfold queued. induction (requests s); [done|]. cbn. by f_equal. }
  f_equal.
  assert (∀ l, replied (omap (λ c, match c with
      | ActorCommand.Send _ r => Some (Replied r (Err KlfError.ConnectionClosed))
      | ActorCommand.Shutdown _ => None end) l)
      = omap (λ c, match c with ActorCommand.Send _ r => Some r | _ => None end) l) as Hw.
  { induction l as [|[] l IHl]; cbn; [done|by f_equal|done]. }
  rewrite Hw. rewrite <- (app_nil_r (omap _ waiting)) at 2. f_equal.
  by destruct (Exit.disconnect_reason exit), (Exit.shutdown_reply exit).
Qed.

(** ** Order of writing *)
Lemma dispatch_next_order requests sessions w now timeout :
  let '(rest, pending, effects, outcome) := dispatch_next requests sessions w now timeout in
  written effects ++ queued rest `sublist_of` queued requests.
Proof.
  induction requests as [|q requests IH]; cbn [dispatch_next]; [constructor|].
  destruct (dispatch_next requests sessions w now timeout) as [[[rest p] effs] out].
  repeat case_match; simplify_eq; cbn; try (by apply sublist_cons); by apply sublist_skip.
Qed.

Lemma select_order settings s i now s' effects exit :
  select settings s i now = Some (s', effects, exit) →
  written effects = [] ∧ queued (requests s') = queued (requests s) ++ (taken i).*2.
Proof.
  unfold select. intros H. destruct i as [[[request reply|reply]|]|[[f|e|e]|]|];
    simplify_eq; cbn; rewrite ?app_nil_r; try done.
  - split; [done|]. unfold queued. by rewrite fmap_app.
  - apply bind_Some in H as ([[p' sess'] effs] & Hh & [= <- <- <-]). split; [|done].
    unfold handle_frame in Hh. repeat case_match; simplify_eq; done.
  - destruct (expire_request _ _ _) as [[p' sess'] effs] eqn:He.
    destruct (expire_sessions sess' now) as [sess'' effs'] eqn:Hs. injection H as <- <- <-.
    split; [|done]. rewrite written_app.
    unfold expire_sessions in Hs. injection Hs as _ <-.
    rewrite (proj2 (expired_effects _ _)), app_nil_r.
    unfold expire_request in He. repeat case_match; simplify_eq; done.
Qed.

Lemma dispatch_order settings s w now :
  let '(s', effects, outcome) := dispatch settings s w now in
  written effects ++ queued (requests s') `sublist_of` queued (requests s).
Proof.
  unfold dispatch. destruct s as [reqs p sess]. cbn. destruct p as [p|]; [done|].
  pose proof (dispatch_next_order reqs sess w now (ConnectionSettings.request_timeout settings)) as H.
  destruct (dispatch_next _ _ _ _ _) as [[[rest p'] effs] out]. exact H.
Qed.

Lemma run_order settings turns s s' effects exit :
  run settings s turns = Some (s', effects, exit) →
  written effects ++ queued (requests s')
    `sublist_of` queued (requests s) ++ (accepted (consumed settings s turns)).*2.
Proof.
  apply (run_relation settings (λ _, True) (λ s i e s',
    written e ++ queued (requests s') `sublist_of` queued (requests s) ++ (accepted i).*2)).
  - intros. by rewrite app_nil_r.
  - intros s1 i1 e1 s2 i2 e2 s3 H1 H2.
    rewrite written_app, <- app_assoc. etrans; [apply sublist_app; [done|exact H2]|].
    rewrite accepted_app, fmap_app, !app_assoc. by apply sublist_app.
  - intros s0 w now s1 e1 out Hd _. pose proof (dispatch_order settings s0 w now) as Ho.
    rewrite Hd in Ho. by rewrite app_nil_r.
  - intros s0 i now s1 e1 x _ Hs. apply select_order in Hs as [-> ->].
    unfold accepted. cbn. by rewrite app_nil_r.
  - by apply Forall_true.
Qed.

(** ** One request in flight

    [flight p effects] follows the effects from the in-flight channel [p]: a write needs
    that nothing is in flight, and while something is, only it can be answered. [None] is a
    violation. *)
Fixpoint flight (p : option ReplyChannel) (effects : list Effect.t) : option (option ReplyChannel) :=
  match effects with
  | [] => Some p
  | Written reply _ :: effects =>
      match p with None => flight (Some reply) effects | Some _ => None end
  | Replied reply _ :: effects =>
      match p with
      | None => flight None effects
      | Some reply' => if decide (reply = reply') then flight None effects else None
      end
  | _ :: effects => flight p effects
  end.

Definition flying (s : Actor.t) : option ReplyChannel := PendingRequest.reply <$> pending s.

Lemma flight_app p a b : flight p (a ++ b) = q ← flight p a; flight q b.
Proof.
  revert p. induction a as [|e a IH]; intros p; cbn [app flight]; [done|].
  repeat case_match; done || apply IH.
Qed.

Lemma flight_emitted {A} (f : A → ConnectionEvent.t) p l :
  flight p ((λ x, Emitted (f x)) <$> l) = Some p.
Proof. by induction l. Qed.

Lemma dispatch_next_flight requests sessions w now timeout :
  let '(rest, pending, effects, outcome) := dispatch_next requests sessions w now timeout in
  outcome ≠ Panic → flight None effects = Some (PendingRequest.reply <$> pending).
Proof.
  induction requests as [|q requests IH]; cbn [dispatch_next]; [done|].
  destruct (dispatch_next requests sessions w now timeout) as [[[rest p] effs] out].
  repeat case_match; simplify_eq; done.
Qed.

Lemma dispatch_flight settings s w now :
  let '(s', effects, outcome) := dispatch settings s w now in
  outcome ≠ Panic → flight (flying s) effects = Some (flying s').
Proof.
  unfold dispatch, flying. destruct s as [reqs p sess]. cbn. destruct p as [p|]; [done|].
  pose proof (dispatch_next_flight reqs sess w now (ConnectionSettings.request_timeout settings)) as H.
  destruct (dispatch_next _ _ _ _ _) as [[[rest p'] effs] out]. exact H.
Qed.

Lemma handle_frame_flight f pending sessions now timeout pending' sessions' effects :
  handle_frame f pending sessions now timeout = Some (pending', sessions', effects) →
  flight (PendingRequest.reply <$> pending) effects = Some (PendingRequest.reply <$> pending').
Proof.
  unfold handle_frame. intros H. repeat case_match; simplify_eq; cbn; try done;
    by rewrite decide_True.
Qed.

Lemma select_flight settings s i now s' effects exit :
  select settings s i now = Some (s', effects, exit) →
  flight (flying s) effects = Some (flying s').
Proof.
  unfold select, flying. intros H. destruct i as [[[request reply|reply]|]|[[f|e|e]|]|];
    simplify_eq; cbn; try done.
  - apply bind_Some in H as ([[p' sess'] effs] & Hh & [= <- <- <-]).
    by apply handle_frame_flight in Hh.
  - destruct (expire_request _ _ _) as [[p' sess'] effs] eqn:He.
    destruct (expire_sessions sess' now) as [sess'' effs'] eqn:Hs. injection H as <- <- <-.
    rewrite flight_app. unfold expire_sessions in Hs. injection Hs as _ <-.
    unfold expire_request in He. repeat case_match; simplify_eq; cbn;
      rewrite ?decide_True by done; cbn; by rewrite flight_emitted.
Qed.

Lemma run_flight settings turns s s' effects exit :
  run settings s turns = Some (s', effects, exit) →
  flight (flying s) effects = Some (flying s').
Proof.
  apply (run_relation settings (λ _, True) (λ s _ e s', flight (flying s) e = Some (flying s'))).
  - done.
  - intros s1 i1 e1 s2 i2 e2 s3 H1 H2. by rewrite flight_app, H1.
  - intros s0 w now s1 e1 out Hd Hp. pose proof (dispatch_flight settings s0 w now) as Hf.
    rewrite Hd in Hf. by apply Hf.
  - intros s0 i now s1 e1 x _ Hs. by eapply select_flight.
  - by apply Forall_true.
Qed.

(** ** Correlation: where an answer comes from *)

(** What the pending request and the queue remember of the requests taken so far. *)
Definition remembers (known : list (Request.t * ReplyChannel)) (p : PendingRequest.t) : Prop :=
  ∃ request, (request, PendingRequest.reply p) ∈ known
    ∧ PendingRequest.command p = Request.command_id request
    ∧ CommandId.expected_confirmation (Request.command_id request)
      = Some (PendingRequest.expected_confirmation p)
    ∧ PendingRequest.session_id p = Request.session_id request.

Definition origin (known : list (Request.t * ReplyChannel)) (s : Actor.t) : Prop :=
  Forall (λ q, (QueuedRequest.request q, QueuedRequest.reply q) ∈ known) (requests s)
  ∧ (if pending s is Some p then remembers known p else True).

Lemma remembers_mono known known' p : known ⊆ known' → remembers known p → remembers known' p.
Proof. intros Hk (r & Hr & ?). exists r. split; [by apply Hk|done]. Qed.

Lemma origin_mono known known' s : known ⊆ known' → origin known s → origin known' s.
Proof.
  intros Hk [Hq Hp]. split.
  - eapply Forall_impl; [exact Hq|]. intros q Hin. by apply Hk.
  - destruct (pending s) as [p|]; [|done]. by eapply remembers_mono.
Qed.

(** A reply [Ok response] is justified by a request taken before and a frame received. *)
Definition justified (known : list (Request.t * ReplyChannel)) (inputs : list Input.t)
    (e : Effect.t) : Prop :=
  match e with
  | Replied reply (Ok response) =>
      ∃ request frame,
        (request, reply) ∈ known
        ∧ Input.Received (Some (Incoming.IncomingFrame frame)) ∈ inputs
        ∧ decode frame = Ok response
        ∧ CommandId.expected_confirmation (Request.command_id request) = Some (Frame.command frame)
        ∧ (∀ session, Request.session_id request = Some session →
             response_session_id response = Some session)
  | _ => True
  end.

Lemma justified_mono known known' inputs inputs' e :
  known ⊆ known' → inputs ⊆ inputs' → justified known inputs e → justified known' inputs' e.
Proof.
  intros Hk Hi. destruct e as [| reply [response| |] | |]; cbn; try done.
  intros (r & f & H1 & H2 & H3). exists r, f. split_and!; [by apply Hk|by apply Hi|apply H3..].
Qed.

Definition correlates (s : Actor.t) (inputs : list Input.t) (effects : list Effect.t)
    (s' : Actor.t) : Prop :=
  ∀ known, origin known s →
    origin (known ++ accepted inputs) s'
    ∧ Forall (justified (known ++ accepted inputs) inputs) effects.

Lemma dispatch_next_origin known reqs sessions w now timeout :
  Forall (λ q, (QueuedRequest.request q, QueuedRequest.reply q) ∈ known) reqs →
  let '(rest, p, effects, outcome) := dispatch_next reqs sessions w now timeout in
  origin known (mk rest p sessions) ∧ Forall (justified known []) effects.
Proof.
  induction 1 as [|q reqs Hq Hreqs IH]; cbn [dispatch_next]; [by split|].
  destruct (dispatch_next reqs sessions w now timeout) as [[[rest p] effs] out].
  destruct IH as [Ho Hj].
  assert (∀ e, Forall (justified known []) (Replied (QueuedRequest.reply q) (Err e) :: effs)) as Hrej.
  { intros e. by apply Forall_cons. }
  assert (∀ e, e = Err KlfError.ConnectionClosed →
    Forall (justified known []) [Replied (QueuedRequest.reply q) e]) as Hfail.
  { intros e ->. by apply Forall_singleton. }
  repeat case_match; simplify_eq; (split; [|eauto]); try done; try (by split);
    try (by apply Forall_singleton).
  all: split; [done|]; cbn; eexists; eauto.
Qed.

Lemma dispatch_correlates settings s w now s' effects outcome :
  dispatch settings s w now = (s', effects, outcome) → correlates s [] effects s'.
Proof.
  unfold dispatch. intros H known Ho. cbn. rewrite app_nil_r. destruct s as [reqs p sess]. cbn in H.
  destruct p as [p|].
  { injection H as <- <- <-. split; [done|constructor]. }
  destruct Ho as [Hq _].
  pose proof (dispatch_next_origin known reqs sess w now
    (ConnectionSettings.request_timeout settings) Hq) as Hd.
  destruct (dispatch_next _ _ _ _ _) as [[[rest p'] effs] out]. by injection H as <- <- <-.
Qed.

Lemma emitted_justified {A} known inputs (f : A → ConnectionEvent.t) l :
  Forall (justified known inputs) ((λ x, Emitted (f x)) <$> l).
Proof. apply Forall_fmap, Forall_true. done. Qed.

Lemma command_eqb_true a b : command_eqb a b = true → a = b.
Proof. apply command_eqb_iff. Qed.

Lemma handle_frame_justified known f p sessions now timeout p' sessions' effects :
  (if p is Some p then remembers known p else True) →
  handle_frame f p sessions now timeout = Some (p', sessions', effects) →
  (if p' is Some p then remembers known p else True)
  ∧ Forall (justified known [Input.Received (Some (Incoming.IncomingFrame f))]) effects.
Proof.
  intros Hp H. unfold handle_frame in H.
  destruct p as [p|]; [destruct (command_eqb _ _) eqn:Hc; cbn in H|].
  2,3: repeat case_match; simplify_eq; (split; [done|by apply Forall_singleton]).
  destruct Hp as (request & Hin & Hcmd & Hexp & Hses).
  destruct (decode f) as [response|e|] eqn:Hd; [|injection H as <- <- <-|done].
  - destruct (confirmation_session_matches _ _) eqn:Hm; cbn in H;
      [destruct (settle_session _ _ _ _ _); [|done]|]; injection H as <- <- <-.
    + split; [done|]. apply Forall_singleton. cbn. exists request, f.
      split_and!; [done|set_solver|done|by rewrite <- (command_eqb_true _ _ Hc)|].
      intros session Hrs. rewrite Hses, Hrs in Hm. by apply bool_decide_eq_true in Hm.
    + split; [by exists request|by apply Forall_singleton].
  - split; [done|]. by apply Forall_singleton.
Qed.

Lemma select_correlates settings s i now s' effects exit :
  select settings s i now = Some (s', effects, exit) → correlates s [i] effects s'.
Proof.
  intros H known Ho. apply (origin_mono _ (known ++ accepted [i])) in Ho as [Hq Hp];
    [|set_solver]. unfold select in H.
  destruct i as [[[request reply|reply]|]|[[f|e|e]|]|]; simplify_eq; cbn [Actor.requests Actor.pending];
    try (by split; [split|repeat constructor]).
  - split; [split; [|done]|constructor]. apply Forall_app. split; [done|].
    apply Forall_singleton. cbn. set_solver.
  - apply bind_Some in H as ([[p' sess'] effs] & Hh & [= <- <- <-]).
    eapply handle_frame_justified in Hh as [Hp' Hj]; [|exact Hp]. by split; [split|].
  - destruct (expire_request _ _ _) as [[p' sess'] effs] eqn:He.
    destruct (expire_sessions sess' now) as [sess'' effs'] eqn:Hs. injection H as <- <- <-.
    unfold expire_sessions in Hs. injection Hs as _ <-.
    unfold expire_request in He. repeat case_match; simplify_eq; cbn;
      (split; [by split|]); try apply Forall_cons; try split; try done; apply emitted_justified.
Qed.

(** ** Well-formed inputs never panic the actor *)
Lemma dispatch_next_wf reqs sessions w now timeout :
  now + timeout ≤ INSTANT_MAX → Forall queued_wf reqs →
  let '(rest, _, _, outcome) := dispatch_next reqs sessions w now timeout in
  outcome ≠ Panic ∧ Forall queued_wf rest.
Proof.
  intros Hfit%instant_add_fits.
  induction 1 as [|q reqs Hq Hreqs IH]; cbn [dispatch_next]; [done|].
  rewrite Hfit. pose proof (encode_request_no_panic _ Hq) as He.
  destruct (dispatch_next reqs sessions w now timeout) as [[[rest p] effs] out].
  repeat case_match; simplify_eq; try tauto; by split.
Qed.

Lemma select_wf settings s i now :
  now + ConnectionSettings.session_timeout settings ≤ INSTANT_MAX →
  input_wf i → Forall queued_wf (requests s) →
  ∃ s' effects exit, select settings s i now = Some (s', effects, exit)
    ∧ Forall queued_wf (requests s').
Proof.
  intros Hfit Hi Hs. unfold select. destruct i as [[[request reply|reply]|]|[[f|e|e]|]|]; eauto.
  - do 3 eexists. split; [done|]. cbn. apply Forall_app. split; [done|]. by apply Forall_singleton.
  - destruct (handle_frame_no_panic f (pending s) (sessions s) now
      (ConnectionSettings.session_timeout settings) Hfit Hi) as [[[p' sess'] effs] ->]. cbn. eauto.
  - destruct (expire_request _ _ _) as [[p' sess'] effs].
    destruct (expire_sessions sess' now) as [sess'' effs']. eauto.
Qed.

Lemma run_wf settings turns s :
  Forall turn_wf turns → Forall (turn_fits settings) turns → Forall queued_wf (requests s) →
  is_Some (run settings s turns).
Proof.
  intros Ht. revert s. induction Ht as [|t turns Ht _ IH]; intros s Hfit Hs; cbn [run]; [eauto|].
  apply Forall_cons in Hfit as [[Hreq Hses] Hfit].
  unfold turn. assert (let '(s', _, outcome) :=
    dispatch settings s (Turn.write_error t) (Turn.dispatched_at t) in
    outcome ≠ Panic ∧ Forall queued_wf (requests s')) as Hd.
  { unfold dispatch. destruct s as [reqs p sess]. cbn in *. destruct p; [done|].
    pose proof (dispatch_next_wf reqs sess (Turn.write_error t) (Turn.dispatched_at t)
      (ConnectionSettings.request_timeout settings) Hreq Hs) as Hn.
    by destruct (dispatch_next _ _ _ _ _) as [[[rest p'] effs] out]. }
  destruct (dispatch settings s _ _) as [[s0 e0] out]. destruct Hd as [Hp Hs0].
  destruct out as [[]|e|]; [|by eauto|done].
  destruct (select_wf settings s0 (Turn.input t) (Turn.received_at t) Hses Ht Hs0)
    as (s1 & e1 & x & -> & Hs1). cbn. destruct x as [x|]; [by eauto|].
  destruct (IH s1 Hfit Hs1) as [[[s2 e2] x2] ->]. by eauto.
Qed.

(** ** The session table *)

(** The session of the request in flight is not active: [dispatch_next] refuses it. *)
Definition exclusive (s : Actor.t) : Prop :=
  ∀ p session, pending s = Some p → PendingRequest.session_id p = Some session →
    sessions s !! session = None.

(** Every active session comes from a request and from its confirmation, under that session, that
    accepted it. *)
Definition table (known : list (Request.t * ReplyChannel)) (inputs : list Input.t)
    (sessions : gmap SessionId.t Instant) : Prop :=
  ∀ session deadline, sessions !! session = Some deadline →
    ∃ request reply frame response,
      (request, reply) ∈ known ∧ Request.session_id request = Some session
      ∧ Input.Received (Some (Incoming.IncomingFrame frame)) ∈ inputs
      ∧ decode frame = Ok response
      ∧ CommandId.expected_confirmation (Request.command_id request) = Some (Frame.command frame)
      ∧ response_session_id response = Some session ∧ session_was_accepted response = true.

Lemma table_mono known known' inputs inputs' m :
  known ⊆ known' → inputs ⊆ inputs' → table known inputs m → table known' inputs' m.
Proof.
  intros Hk Hi Ht session d Hd. destruct (Ht session d Hd) as (r & c & f & x & H1 & H2 & H3 & H4).
  exists r, c, f, x. split_and!; [by apply Hk|done|by apply Hi|apply H4..].
Qed.

Lemma table_sub known inputs m m' : m' ⊆ m → table known inputs m → table known inputs m'.
Proof. intros Hm Ht session d Hd. eapply Ht. by eapply lookup_weaken. Qed.

Lemma dispatch_next_exclusive reqs sessions w now timeout rest p effs out session :
  dispatch_next reqs sessions w now timeout = (rest, Some p, effs, out) →
  PendingRequest.session_id p = Some session → sessions !! session = None.
Proof.
  revert rest effs out. induction reqs as [|q reqs IH]; intros rest effs out; cbn [dispatch_next]; [done|].
  destruct (dispatch_next reqs sessions w now timeout) as [[[rest' p'] effs'] out'].
  intros H Hp. repeat case_match; simplify_eq; cbn in *; try (by eapply IH); congruence.
Qed.

Lemma expired_sub now (m : gmap SessionId.t Instant) :
  fst (expire_sessions m now) ⊆ m.
Proof.
  unfold expire_sessions. cbn. induction (omap _ _) as [|x l IH]; [done|].
  cbn. etrans; [apply delete_subseteq|done].
Qed.

Lemma expire_request_sub p m now p' m' effs :
  expire_request p m now = (p', m', effs) → m' ⊆ m ∧ (p' = p ∨ p' = None).
Proof.
  unfold expire_request. intros. repeat case_match; simplify_eq;
    (split; [done || apply delete_subseteq|auto]).
Qed.

(** The table after a frame: what [handle_frame] inserts was accepted, the rest was there. *)
Lemma handle_frame_table f p m now timeout p' m' effs session (deadline : Instant) :
  handle_frame f p m now timeout = Some (p', m', effs) →
  m' !! session = Some deadline →
  m !! session = Some deadline
  ∨ (∃ q response, p = Some q ∧ p' = None ∧ PendingRequest.session_id q = Some session
       ∧ PendingRequest.expected_confirmation q = Frame.command f
       ∧ decode f = Ok response ∧ response_session_id response = Some session
       ∧ session_was_accepted response = true ∧ deadline = now + timeout).
Proof.
  unfold handle_frame. intros H Hm.
  destruct p as [q|]; [|left; repeat case_match; simplify_eq; try done;
    rewrite lookup_delete_Some in Hm; tauto].
  destruct (command_eqb _ _) eqn:Hc; cbn [negb] in H;
    [|left; repeat case_match; simplify_eq; try done; rewrite lookup_delete_Some in Hm; tauto].
  apply command_eqb_true in Hc.
  destruct (decode f) as [response|e|] eqn:Hd; [| |done].
  2: { left. repeat case_match; simplify_eq; try done; rewrite lookup_delete_Some in Hm; tauto. }
  destruct (confirmation_session_matches _ _) eqn:Hmatch; cbn [negb] in H; [|simplify_eq; by left].
  unfold settle_session in H. unfold confirmation_session_matches in Hmatch.
  destruct (PendingRequest.session_id q) as [id|] eqn:Hid; [|simplify_eq; by left].
  apply bool_decide_eq_true in Hmatch. destruct (session_was_accepted response) eqn:Hacc.
  - destruct (instant_add now timeout) as [d|] eqn:Hadd; [|done]. simplify_eq.
    apply instant_add_Some in Hadd as ->.
    rewrite lookup_insert_Some in Hm. destruct Hm as [[<- <-]|[_ Hm]]; [|by left].
    right. by exists q, response.
  - simplify_eq. rewrite lookup_delete_Some in Hm. left. tauto.
Qed.

Lemma handle_frame_pending f p m now timeout p' m' effs :
  handle_frame f p m now timeout = Some (p', m', effs) → p' = p ∨ p' = None.
Proof. unfold handle_frame. intros H. repeat case_match; simplify_eq; auto. Qed.

Lemma select_exclusive settings s i now s' effects exit :
  exclusive s → select settings s i now = Some (s', effects, exit) → exclusive s'.
Proof.
  unfold select, exclusive. intros He H p session Hp Hs.
  destruct i as [[[request reply|reply]|]|[[f|e|e]|]|]; simplify_eq; cbn in *; eauto.
  - apply bind_Some in H as ([[p' sess'] effs] & Hh & [= <- <- <-]). cbn in *. subst p'.
    destruct (handle_frame_pending _ _ _ _ _ _ _ _ Hh) as [Hp|]; [|done].
    destruct (sess' !! session) as [d|] eqn:Hd; [|done].
    destruct (handle_frame_table _ _ _ _ _ _ _ _ _ _ Hh Hd) as [Hold|(q & r & _ & ? & _)]; [|done].
    rewrite (He p session) in Hold; [done|by symmetry|done].
  - destruct (expire_request _ _ _) as [[p' sess'] effs] eqn:Her.
    destruct (expire_sessions sess' now) as [sess'' effs'] eqn:Hes. injection H as <- <- <-.
    cbn in *. subst p'. apply expire_request_sub in Her as [Hsub [Hp|]]; [|done].
    eapply lookup_weaken_None; [|etrans; [apply (expired_sub now sess')|exact Hsub]].
    by apply (He p).
Qed.

Lemma dispatch_exclusive settings s w now s' effects outcome :
  exclusive s → dispatch settings s w now = (s', effects, outcome) → exclusive s'.
Proof.
  intros He H. unfold dispatch in H. destruct (pending s) as [p|] eqn:Hp; [by simplify_eq|].
  destruct (dispatch_next _ _ _ _ _) as [[[rest p'] effs] out] eqn:Hd. injection H as <- <- <-.
  intros p session Hp' Hs. cbn in *. subst p'. by eapply dispatch_next_exclusive.
Qed.

Lemma run_exclusive settings turns s s' effects exit :
  run settings s turns = Some (s', effects, exit) → exclusive s → exclusive s'.
Proof.
  apply (run_relation settings (λ _, True) (λ s _ _ s', exclusive s → exclusive s')); auto.
  - intros. by eapply dispatch_exclusive.
  - intros. by eapply select_exclusive.
  - by apply Forall_true.
Qed.

(** Sessions are opened by accepted confirmations only. *)
Definition tracks (s : Actor.t) (inputs : list Input.t) (s' : Actor.t) : Prop :=
  ∀ known before, origin known s → table known before (sessions s) →
    table (known ++ accepted inputs) (before ++ inputs) (sessions s').

Lemma select_tracks settings s i now s' effects exit :
  select settings s i now = Some (s', effects, exit) → tracks s [i] s'.
Proof.
  intros H known before [_ Ho] Ht.
  apply (table_mono _ (known ++ accepted [i]) _ (before ++ [i])) in Ht; [|set_solver..].
  unfold select in H. destruct i as [[[request reply|reply]|]|[[f|e|e]|]|]; simplify_eq; try done.
  - apply bind_Some in H as ([[p' sess'] effs] & Hh & [= <- <- <-]). intros session d Hd.
    destruct (handle_frame_table _ _ _ _ _ _ _ _ _ _ Hh Hd)
      as [Hold|(q & response & Hq & _ & Hs & Hc & Hdec & Hid & Hacc & _)]; [by eapply Ht|].
    rewrite Hq in Ho. destruct Ho as (request & Hin & _ & Hexp & Hses).
    exists request, (PendingRequest.reply q), f, response.
    split_and!; [set_solver|by rewrite <- Hses|set_solver|done|by rewrite <- Hc|done|done].
  - destruct (expire_request _ _ _) as [[p' sess'] effs] eqn:Her.
    apply expire_request_sub in Her as [Hsub _]. injection H as <- _ _. cbn.
    eapply table_sub; [|exact Ht]. etrans; [apply (expired_sub now sess')|exact Hsub].
Qed.

Lemma correlates_trans s1 i1 e1 s2 i2 e2 s3 :
  correlates s1 i1 e1 s2 → correlates s2 i2 e2 s3 → correlates s1 (i1 ++ i2) (e1 ++ e2) s3.
Proof.
  intros H1 H2 known Ho. apply H1 in Ho as [Ho1 Hj1].
  apply H2 in Ho1 as [Ho2 Hj2]. rewrite accepted_app, app_assoc. split; [done|].
  apply Forall_app. split.
  - eapply Forall_impl; [exact Hj1|]. intros e. apply justified_mono; set_solver.
  - eapply Forall_impl; [exact Hj2|]. intros e. apply justified_mono; set_solver.
Qed.

Lemma run_tracks settings turns s s' effects exit :
  run settings s turns = Some (s', effects, exit) →
  correlates s (consumed settings s turns) effects s' ∧ tracks s (consumed settings s turns) s'.
Proof.
  apply (run_relation settings (λ _, True) (λ s i e s', correlates s i e s' ∧ tracks s i s')).
  - intros s0. split.
    + intros known Ho. cbn. rewrite app_nil_r. by split; [|constructor].
    + intros known before _ Ht. cbn. by rewrite !app_nil_r.
  - intros s1 i1 e1 s2 i2 e2 s3 [Hc1 Ht1] [Hc2 Ht2]. split; [by eapply correlates_trans|].
    intros known before Ho Ht. rewrite accepted_app, !app_assoc.
    apply Ht2; [by apply Hc1|by apply Ht1].
  - intros s0 w now s1 e1 out Hd _. split; [by eapply dispatch_correlates|].
    intros known before _ Ht. cbn. rewrite !app_nil_r. unfold dispatch in Hd.
    destruct (pending s0); [by simplify_eq|].
    destruct (dispatch_next _ _ _ _ _) as [[[? ?] ?] ?]. by injection Hd as <- _ _.
  - intros s0 i now s1 e1 x _ Hs. split; [by eapply select_correlates|by eapply select_tracks].
  - by apply Forall_true.
Qed.

(** ** The timeout tick *)
Lemma foldr_delete_lookup (l : list SessionId.t) (m : gmap SessionId.t Instant) k :
  foldr delete m l !! k = if decide (k ∈ l) then None else m !! k.
Proof.
  induction l as [|x l IH]; cbn; [by rewrite decide_False by apply not_elem_of_nil|].
  destruct (decide (k = x)) as [->|Hne].
  - rewrite lookup_delete_eq, decide_True; [done|by left].
  - rewrite lookup_delete_ne, IH by done.
    destruct (decide (k ∈ l)); [rewrite decide_True by (by right)|rewrite decide_False by set_solver]; done.
Qed.

Definition expired_sessions (m : gmap SessionId.t Instant) (now : Instant) : list SessionId.t :=
  omap (λ '(session_id, deadline), then_some (deadline <=? now) session_id) (map_to_list m).

Lemma elem_of_expired m now session :
  session ∈ expired_sessions m now ↔ ∃ deadline, m !! session = Some deadline ∧ deadline ≤ now.
Proof.
  unfold expired_sessions. rewrite list_elem_of_omap. split.
  - intros ([s d] & Hin%elem_of_map_to_list & Hd). unfold then_some in Hd.
    case_match; simplify_eq. exists d. split; [done|lia].
  - intros (d & Hm & Hd). exists (session, d). split; [by apply elem_of_map_to_list|].
    unfold then_some. by replace (d <=? now) with true by lia.
Qed.

Lemma expired_nodup m now : NoDup (expired_sessions m now).
Proof.
  unfold expired_sessions. pose proof (NoDup_fst_map_to_list m) as Hnd.
  induction (map_to_list m) as [|[s d] l IH]; cbn in *; [constructor|].
  apply NoDup_cons in Hnd as [Hs Hl]. unfold then_some at 1. case_match; [|auto].
  apply NoDup_cons. split; [|auto]. intros ([s' d'] & Hin & Hs')%list_elem_of_omap.
  unfold then_some in Hs'. apply Hs, list_elem_of_fmap. exists (s', d'). split; [|done].
  cbn. repeat case_match; congruence.
Qed.

Lemma expire_sessions_filter m now :
  fst (expire_sessions m now) = filter (λ kv, now < snd kv) m.
Proof.
  apply map_eq. intros k. unfold expire_sessions. cbn [fst].
  fold (expired_sessions m now). rewrite foldr_delete_lookup.
  destruct (m !! k) as [d|] eqn:Hk.
  - case_decide as Hin.
    + symmetry. apply map_lookup_filter_None. right. intros d' Hd' Hlt.
      apply elem_of_expired in Hin as (d'' & Hd'' & Hle). simplify_eq. cbn in Hlt. lia.
    + symmetry. apply map_lookup_filter_Some. split; [done|]. cbn.
      destruct (decide (now < d)); [done|]. exfalso. apply Hin, elem_of_expired. exists d. split; [done|lia].
  - symmetry. rewrite (proj2 (map_lookup_filter_None _ _ _)) by (by left). by case_decide.
Qed.

Lemma tick_session_unused s p :
  exclusive s → pending s = Some p →
  match PendingRequest.session_id p with
  | Some session => delete session (sessions s)
  | None => sessions s
  end = sessions s.
Proof.
  intros He Hp. destruct (PendingRequest.session_id p) as [session|] eqn:Hs; [|done].
  apply delete_id. by eapply He.
Qed.

(** * Properties *)

(** A response decoded from a frame reports the command of that frame, with one
    exception: node information requested for one node is reported as the notification of
    the full listing. *)
Theorem response_command_of_frame (f : Frame.t) (r : Response.t) :
  Frame.wf f → decode f = Ok r →
  response_command r = Frame.command f
  ∨ (Frame.command f = GW_GET_NODE_INFORMATION_NTF
     ∧ response_command r = GW_GET_ALL_NODES_INFORMATION_NTF).
Proof. intros Hf Hd. exact (returns_ok_inv _ _ _ (decode_answers f Hf) Hd). Qed.

Lemma response_command_of_frame_witness :
  response_command (Response.SessionFinished (SessionId.mk 258)) = GW_SESSION_FINISHED_NTF
  ∨ (GW_SESSION_FINISHED_NTF = GW_GET_NODE_INFORMATION_NTF
     ∧ response_command (Response.SessionFinished (SessionId.mk 258))
       = GW_GET_ALL_NODES_INFORMATION_NTF).
Proof.
  refine (response_command_of_frame (Frame.new GW_SESSION_FINISHED_NTF [1; 2]) _ _ _);
    [apply (bool_decide_unpack _); vm_compute; exact I|vm_compute; reflexivity].
Defined.

(** The actor never panics: for well-typed requests and well-formed received frames every
    run has a result, as long as the deadlines it computes are instants. *)
Theorem actor_never_panics (settings : ConnectionSettings.t) (turns : list Turn.t) :
  Forall turn_wf turns → Forall (turn_fits settings) turns → is_Some (run settings init turns).
Proof. intros Ht Hfit. apply run_wf; [done|done|constructor]. Qed.

(** A run that serves a request with a session, then rejects a second use of the session and
    times the session out. *)
Definition sample_send : Request.t :=
  Request.CommandSend (CommandRequest.new (SessionId.mk 7) StandardParameter.Current) sample_target.
Definition sample_turns : list Turn.t :=
  [ Turn.mk None 0 (Input.Command (Some (ActorCommand.Send sample_send 1%nat))) 0;
    Turn.mk None 10
      (Input.Received (Some (Incoming.IncomingFrame (Frame.new GW_COMMAND_SEND_CFM [0; 7; 1])))) 20;
    Turn.mk None 30 (Input.Command (Some (ActorCommand.Send sample_send 2%nat))) 40;
    Turn.mk None 50 (Input.Command (Some (ActorCommand.Send Request.GetState 3%nat))) 60;
    Turn.mk None 70 Input.TimeoutTick 130000;
    Turn.mk None 130010 (Input.Command None) 130020 ].

Lemma sample_turns_wf : Forall turn_wf sample_turns.
Proof.
  repeat apply Forall_cons_2; [..|apply Forall_nil_2]; unfold turn_wf; cbn; try done.
  - split_and!; [by apply (bool_decide_unpack _); vm_compute|done|exact sample_target_wf].
  - by apply (bool_decide_unpack _); vm_compute.
  - split_and!; [by apply (bool_decide_unpack _); vm_compute|done|exact sample_target_wf].
Defined.

Lemma actor_never_panics_witness : is_Some (run ConnectionSettings.default init sample_turns).
Proof.
  apply (actor_never_panics ConnectionSettings.default sample_turns sample_turns_wf).
  apply (bool_decide_unpack _). vm_compute. exact I.
Defined.

(** C1: when the actor has stopped, every request it took from its channel and every request
    still waiting in the channel has been answered exactly once. *)
Theorem actor_answers_exactly_once (settings : ConnectionSettings.t) (turns : list Turn.t)
    (s : Actor.t) (effects : list Effect.t) (exit : Exit.t)
    (waiting : list ActorCommand.t) (shutdown_result : KlfResult unit) :
  run settings init turns = Some (s, effects, Some exit) →
  ∃ all, run_actor settings turns waiting shutdown_result = Some all
    ∧ replied all ≡ₚ (accepted (consumed settings init turns)).*2
        ++ omap (λ c, match c with ActorCommand.Send _ reply => Some reply | _ => None end) waiting.
Proof.
  intros Hr. exists (effects ++ finish s exit waiting shutdown_result). split.
  - unfold run_actor. by rewrite Hr.
  - apply run_conserves in Hr. cbn in Hr.
    by rewrite replied_app, finish_replies, app_assoc, Hr.
Qed.

Lemma actor_answers_exactly_once_witness :
  ∃ all, run_actor ConnectionSettings.default sample_turns
           [ActorCommand.Send Request.GetVersion 4%nat] (Ok tt) = Some all
    ∧ replied all ≡ₚ [1; 2; 3; 4]%nat.
Proof.
  refine (actor_answers_exactly_once ConnectionSettings.default sample_turns _ _ _
            [ActorCommand.Send Request.GetVersion 4%nat] (Ok tt) _). vm_compute. reflexivity.
Defined.

(** While it runs, the actor neither loses nor duplicates an answer: the replies sent and
    the requests outstanding are together the requests taken. *)
Theorem actor_conserves_requests (settings : ConnectionSettings.t) (turns : list Turn.t)
    (s : Actor.t) (effects : list Effect.t) (exit : option Exit.t) :
  run settings init turns = Some (s, effects, exit) →
  replied effects ++ outstanding s ≡ₚ (accepted (consumed settings init turns)).*2.
Proof. intros Hr. by apply run_conserves in Hr. Qed.

Lemma actor_conserves_requests_witness :
  ∃ s effects exit, run ConnectionSettings.default init (take 4 sample_turns) = Some (s, effects, exit)
    ∧ replied effects ++ outstanding s ≡ₚ [1; 2; 3]%nat.
Proof.
  do 3 eexists. split; [vm_compute; reflexivity|].
  refine (actor_conserves_requests ConnectionSettings.default (take 4 sample_turns) _ _ _ _).
  vm_compute. reflexivity.
Defined.

(** C15: at most one request is in flight: in every run, a frame is written only when no
    request awaits its confirmation, and while one does, only it is answered. *)
Theorem actor_single_flight (settings : ConnectionSettings.t) (turns : list Turn.t)
    (s : Actor.t) (effects : list Effect.t) (exit : option Exit.t) :
  run settings init turns = Some (s, effects, exit) →
  flight None effects = Some (PendingRequest.reply <$> pending s).
Proof. intros Hr. by apply run_flight in Hr. Qed.

Lemma actor_single_flight_witness :
  ∃ s effects exit, run ConnectionSettings.default init sample_turns = Some (s, effects, exit)
    ∧ pending s = None ∧ flight None effects = Some (PendingRequest.reply <$> pending s).
Proof.
  do 3 eexists. split_and!; [vm_compute; reflexivity|reflexivity|].
  refine (actor_single_flight ConnectionSettings.default sample_turns _ _ _ _).
  vm_compute. reflexivity.
Defined.

(** Frames are written in the order in which their requests were submitted. *)
Theorem actor_writes_in_order (settings : ConnectionSettings.t) (turns : list Turn.t)
    (s : Actor.t) (effects : list Effect.t) (exit : option Exit.t) :
  run settings init turns = Some (s, effects, exit) →
  written effects `sublist_of` (accepted (consumed settings init turns)).*2.
Proof.
  intros Hr. apply run_order in Hr. cbn in Hr. etrans; [|exact Hr]. by apply sublist_inserts_r.
Qed.

Lemma actor_writes_in_order_witness :
  ∃ s effects exit, run ConnectionSettings.default init sample_turns = Some (s, effects, exit)
    ∧ written effects `sublist_of` [1; 2; 3]%nat.
Proof.
  do 3 eexists. split; [vm_compute; reflexivity|].
  refine (actor_writes_in_order ConnectionSettings.default sample_turns _ _ _ _).
  vm_compute. reflexivity.
Defined.

(** C5: a request is only ever answered with a response that was decoded from a received
    frame carrying the confirmation command of that very request and, when the request has a
    session, the same session. *)
Theorem actor_correlates_confirmations (settings : ConnectionSettings.t) (turns : list Turn.t)
    (s : Actor.t) (effects : list Effect.t) (exit : option Exit.t)
    (reply : nat) (response : Response.t) :
  run settings init turns = Some (s, effects, exit) →
  Replied reply (Ok response) ∈ effects →
  ∃ request frame,
    (request, reply) ∈ accepted (consumed settings init turns)
    ∧ Input.Received (Some (Incoming.IncomingFrame frame)) ∈ consumed settings init turns
    ∧ decode frame = Ok response
    ∧ CommandId.expected_confirmation (Request.command_id request) = Some (Frame.command frame)
    ∧ (∀ session, Request.session_id request = Some session →
         response_session_id response = Some session).
Proof.
  intros Hr Hin. apply run_tracks in Hr as [Hc _].
  destruct (Hc []) as [_ Hj]; [by split; [constructor|]|].
  rewrite Forall_forall in Hj. exact (Hj _ Hin).
Qed.

Lemma actor_correlates_confirmations_witness :
  ∃ request frame,
    (request, 1%nat) ∈ accepted (consumed ConnectionSettings.default init sample_turns)
    ∧ Input.Received (Some (Incoming.IncomingFrame frame))
        ∈ consumed ConnectionSettings.default init sample_turns
    ∧ decode frame = Ok (Response.CommandAccepted (SessionId.mk 7) 1)
    ∧ CommandId.expected_confirmation (Request.command_id request) = Some (Frame.command frame)
    ∧ (∀ session, Request.session_id request = Some session →
         response_session_id (Response.CommandAccepted (SessionId.mk 7) 1) = Some session).
Proof.
  refine (actor_correlates_confirmations ConnectionSettings.default sample_turns _ _ _ 1%nat
            (Response.CommandAccepted (SessionId.mk 7) 1) _ _).
  - vm_compute. reflexivity.
  - right. left.
Defined.

(** C14: a session is active only after a request for it was accepted: by a response that was decoded
    from a received frame, is the confirmation of that very request, names the same session and
    says that it was accepted. And a request in flight never shares its session with an active
    one. *)
Theorem actor_session_table (settings : ConnectionSettings.t) (turns : list Turn.t)
    (s : Actor.t) (effects : list Effect.t) (exit : option Exit.t) :
  run settings init turns = Some (s, effects, exit) →
  table (accepted (consumed settings init turns)) (consumed settings init turns) (sessions s)
  ∧ exclusive s.
Proof.
  intros Hr. pose proof (run_tracks _ _ _ _ _ _ Hr) as [_ Ht]. split.
  - apply (Ht [] []); [by split; [constructor|]|]. intros session d Hd. cbn in Hd. by apply lookup_empty_Some in Hd.
  - apply (run_exclusive _ _ _ _ _ _ Hr). by intros p session Hp.
Qed.

Lemma actor_session_table_witness :
  ∃ s effects exit, run ConnectionSettings.default init (take 2 sample_turns) = Some (s, effects, exit)
    ∧ exclusive s.
Proof.
  do 3 eexists. split; [vm_compute; reflexivity|].
  refine (proj2 (actor_session_table ConnectionSettings.default (take 2 sample_turns) _ _ _ _)).
  vm_compute. reflexivity.
Defined.

(** A timeout tick answers an overdue request with [RequestTimeout] and ends it, keeps
    exactly the sessions whose deadline lies ahead, and announces each session it drops once;
    so nothing outlives its deadline past the next tick. *)
Theorem actor_tick_expires (settings : ConnectionSettings.t) (s : Actor.t) (now : Z) :
  exclusive s →
  let overdue := match pending s with
                 | Some p => PendingRequest.deadline p <=? now
                 | None => false
                 end in
  ∃ announced,
    select settings s Input.TimeoutTick now
    = Some (mk (requests s) (if overdue then None else pending s)
              (filter (λ kv, now < snd kv) (sessions s)),
            match pending s with
            | Some p => if overdue
                        then [Replied (PendingRequest.reply p)
                                (Err (KlfError.RequestTimeout (PendingRequest.command p)))]
                        else []
            | None => []
            end ++ ((λ session, Emitted (ConnectionEvent.SessionTimedOut session)) <$> announced),
            None)
    ∧ NoDup announced
    ∧ ∀ session, session ∈ announced ↔
        ∃ deadline, sessions s !! session = Some deadline ∧ deadline ≤ now.
Proof.
  intros He overdue. exists (expired_sessions (sessions s) now).
  split_and!; [|apply expired_nodup|apply elem_of_expired].
  unfold select, expire_request, overdue. rewrite <- expire_sessions_filter.
  destruct (pending s) as [p|] eqn:Hp; [|done].
  destruct (PendingRequest.deadline p <=? now); [|done].
  by rewrite (tick_session_unused s p He Hp).
Qed.

Lemma actor_tick_expires_witness :
  ∃ announced : list SessionId.t, NoDup announced
    ∧ ∀ session, session ∈ announced ↔
        ∃ deadline, ({[SessionId.mk 7 := 100]} : gmap SessionId.t Z) !! session = Some deadline
                    ∧ deadline ≤ 150.
Proof.
  destruct (actor_tick_expires ConnectionSettings.default
    (mk [] None {[SessionId.mk 7 := 100]}) 150) as (announced & _ & H).
  - intros p session Hp. discriminate Hp.
  - exists announced. exact H.
Defined.

Lemma read_encoded_frames (maximum : nat) (garbage : list Z) (frames : list Frame.t)
    (encoded chunks : list (list Z)) :
  Forall Frame.wf frames → mapM Frame.encode frames = Ok encoded →
  END ∉ garbage → (257 ≤ maximum)%nat → Forall (λ c, c ≠ []) chunks →
  concat chunks = garbage ++ concat (Slip.encode <$> encoded) →
  read_frames (Decoder.new maximum) (Ok <$> chunks) = Some (Incoming.IncomingFrame <$> frames).
Proof.
  intros Hwf Henc Hg Hmax Hne Hcat.
  rewrite read_frames_chunks, Hcat by done.
  assert (Forall (λ f, f ≠ [] ∧ (length f ≤ maximum)%nat) encoded
          ∧ mapM incoming_of (Ok <$> encoded) = Some (Incoming.IncomingFrame <$> frames)) as [Hf Hm].
  { clear Hcat Hg. revert encoded Henc. induction Hwf as [|f frames [Hc Hp] _ IH]; intros encoded Henc.
    { injection Henc as <-. by split. }
    cbn [mapM] in Henc. destruct (Frame.encode f) as [b|e|] eqn:Hb; cbn in Henc; [|done..].
    destruct (mapM Frame.encode frames) as [bs|e|]; cbn in Henc; [|done..].
    injection Henc as <-. destruct (IH bs eq_refl) as [Hf Hm].
    apply FrameFacts.encode_ok_inv in Hb as (Hp0 & Hl & ->).
    destruct (FrameFacts.wire_u8 _ _ Hc Hp Hl) as [Hu Hlen].
    assert (Frame.decode (FrameFacts.wire (Frame.command f) (Frame.payload f)) = Ok f) as Hd.
    { apply FrameFacts.decode_accepted; [done|]. destruct f as [p c pl]; cbn in *. subst p.
      by apply FrameFacts.wire_accepted. }
    split.
    - apply Forall_cons. split; [|done]. unfold MAX_PAYLOAD_LENGTH in Hl. split; [|lia].
      intros H0. by rewrite H0 in Hlen.
    - assert (incoming_of (Ok (FrameFacts.wire (Frame.command f) (Frame.payload f)))
              = Some (Incoming.IncomingFrame f)) as Hi.
      { unfold incoming_of. cbn [mbind outcome_bind]. by rewrite Hd. }
      rewrite !fmap_cons. cbn [mapM]. by rewrite Hi, Hm. }
  by rewrite SlipFacts.push_stream.
Qed.

(** The byte stream between encoder and actor is faithful: frames that are encoded and
    SLIP-framed arrive as the same frames in the same order, however the transport cuts the
    stream into reads and whatever noise without END precedes them. *)
Theorem link_delivers_frames (maximum : nat) (garbage : list Z) (frames : list Frame.t)
    (encoded chunks : list (list Z)) :
  Forall Frame.wf frames → mapM Frame.encode frames = Ok encoded →
  END ∉ garbage → (257 ≤ maximum)%nat → Forall (λ c, c ≠ []) chunks →
  concat chunks = garbage ++ concat (Slip.encode <$> encoded) →
  read_frames (Decoder.new maximum) (Ok <$> chunks) = Some (Incoming.IncomingFrame <$> frames).
Proof. apply read_encoded_frames. Qed.

Lemma link_delivers_frames_witness :
  read_frames (Decoder.new 257) [Ok [9; 192; 0]; Ok [3; 0; 12; 15; 192]]
  = Some [Incoming.IncomingFrame (Frame.new GW_GET_STATE_REQ [])].
Proof.
  refine (link_delivers_frames 257 [9] [Frame.new GW_GET_STATE_REQ []] [[0; 3; 0; 12; 15]]
            [[9; 192; 0]; [3; 0; 12; 15; 192]] _ _ _ _ _ _);
    first [apply (bool_decide_unpack _); vm_compute; exact I | vm_compute; reflexivity | lia].
Defined.
