(* ===== verification/Client.v ===== *)
(** * Client operations (klf200/connection.rs, impl Klf200Client)

    The operations a client runs against the actor. [send] is the reply the actor gives to a
    request; the broadcast subscription is the list of what the receiver yields, which the
    code consumes until a decisive item or until its timeout, where the list ends. *)

From S2P Require Import Prelude RustStd CommandIds Error Types Frame Command.
From S2P Require Import ResponseTypes Response Connection.


(** What [events.recv().await] yields *)
Module Recv.
Inductive t :=
| Event (event : ConnectionEvent.t)
| Closed
| Lagged (skipped : nat).
End Recv.

Section client.
Context (send : Request.t → KlfResult Response.t).

Definition login (password : string) : KlfResult unit :=
  request ← Request.password_enter password;
  response ← send request;
  match response with
  | Response.PasswordEntered true => Ok tt
  | Response.PasswordEntered false => Err KlfError.AuthenticationRejected
  | response => Err (unexpected_response "password login" response)
  end.

Definition version : KlfResult Version.t :=
  response ← send Request.GetVersion;
  match response with
  | Response.Version version => Ok version
  | response => Err (unexpected_response "version request" response)
  end.

Definition protocol_version : KlfResult ProtocolVersion.t :=
  response ← send Request.GetProtocolVersion;
  match response with
  | Response.ProtocolVersion version => Ok version
  | response => Err (unexpected_response "protocol version request" response)
  end.

Definition gateway_state : KlfResult GatewayState.t :=
  response ← send Request.GetState;
  match response with
  | Response.GatewayState state => Ok state
  | response => Err (unexpected_response "gateway state request" response)
  end.

(** The receive loops: [collected] is the vector built so far. *)
Fixpoint collect_nodes (events : list Recv.t) (nodes : list NodeInformation.t)
    : KlfResult (list NodeInformation.t) :=
  match events with
  | [] => Err (KlfError.RequestTimeout GW_GET_ALL_NODES_INFORMATION_REQ)
  | Recv.Event (ConnectionEvent.Notification (Response.NodeInformation node)) :: events =>
      collect_nodes events (nodes ++ [node])
  | Recv.Event (ConnectionEvent.Notification (Response.Acknowledgement command)) :: events =>
      if command_eqb command GW_GET_ALL_NODES_INFORMATION_FINISHED_NTF then Ok nodes
      else collect_nodes events nodes
  | Recv.Event (ConnectionEvent.Disconnected _) :: _ | Recv.Closed :: _ =>
      Err KlfError.ConnectionClosed
  | Recv.Event (ConnectionEvent.ProtocolError message) :: _ => Err (KlfError.Protocol message)
  | Recv.Event _ :: events => collect_nodes events nodes
  | Recv.Lagged _ :: _ =>
      Err (KlfError.InvalidRequest "node discovery event receiver lagged")
  end.

Definition discover_nodes (events : list Recv.t) : KlfResult (list NodeInformation.t) :=
  response ← send Request.GetAllNodesInformation;
  match response with
  | Response.AllNodesInformationAccepted status _ =>
      if status =? 0 then collect_nodes events []
      else Err (KlfError.DiscoveryRejected status)
  | response => Err (unexpected_response "node discovery" response)
  end.

Fixpoint await_node (events : list Recv.t) (node_id : NodeId.t) : KlfResult NodeInformation.t :=
  match events with
  | [] => Err (KlfError.RequestTimeout GW_GET_NODE_INFORMATION_REQ)
  | Recv.Event (ConnectionEvent.Notification (Response.NodeInformation information)) :: events =>
      if decide (NodeInformation.node_id information = node_id) then Ok information
      else await_node events node_id
  | Recv.Event (ConnectionEvent.Disconnected _) :: _ | Recv.Closed :: _ =>
      Err KlfError.ConnectionClosed
  | Recv.Event (ConnectionEvent.ProtocolError message) :: _ => Err (KlfError.Protocol message)
  | Recv.Event _ :: events => await_node events node_id
  | Recv.Lagged _ :: _ =>
      Err (KlfError.InvalidRequest "node information event receiver lagged")
  end.

Definition node_information (node_id : NodeId.t) (events : list Recv.t)
    : KlfResult NodeInformation.t :=
  response ← send (Request.GetNodeInformation node_id);
  match response with
  | Response.NodeInformationAccepted status confirmed =>
      if status =? 0 then
        if decide (confirmed = node_id) then await_node events node_id
        else Err (KlfError.InvalidRequest
                    "node information confirmation referenced another node")
      else Err (KlfError.DiscoveryRejected status)
  | response => Err (unexpected_response "node information request" response)
  end.

Fixpoint collect_groups (events : list Recv.t) (groups : list GroupInformation.t)
    : KlfResult (list GroupInformation.t) :=
  match events with
  | [] => Err (KlfError.RequestTimeout GW_GET_ALL_GROUPS_INFORMATION_REQ)
  | Recv.Event (ConnectionEvent.Notification (Response.GroupInformation notification)) :: events =>
      if command_eqb (GroupInformationNotification.command notification)
           GW_GET_ALL_GROUPS_INFORMATION_NTF
      then collect_groups events (groups ++ [GroupInformationNotification.information notification])
      else collect_groups events groups
  | Recv.Event (ConnectionEvent.Notification (Response.Acknowledgement command)) :: events =>
      if command_eqb command GW_GET_ALL_GROUPS_INFORMATION_FINISHED_NTF then Ok groups
      else collect_groups events groups
  | Recv.Event (ConnectionEvent.Disconnected _) :: _ | Recv.Closed :: _ =>
      Err KlfError.ConnectionClosed
  | Recv.Event (ConnectionEvent.ProtocolError message) :: _ => Err (KlfError.Protocol message)
  | Recv.Event _ :: events => collect_groups events groups
  | Recv.Lagged _ :: _ =>
      Err (KlfError.InvalidRequest "group discovery event receiver lagged")
  end.

Definition discover_groups (events : list Recv.t) : KlfResult (list GroupInformation.t) :=
  response ← send (Request.NodeGroup (NodeGroupRequest.GetAllGroups false 0));
  match response with
  | Response.AllGroupsAccepted accepted =>
      let status := AllGroupsAccepted.status accepted in
      if status =? 0 then collect_groups events []
      else if status =? 2 then Ok []
      else Err (KlfError.DiscoveryRejected (status mod 256))  (* [status.to_be_bytes()[0]] *)
  | response => Err (unexpected_response "group discovery" response)
  end.
End client.

(** ** Shutdown

    What the client hands to the actor, and how the channel answers the shutdown command:
    closed, dropped without a reply, or the reply. *)
Module ClientAction.
Inductive t :=
| SendRequest (request : Request.t)
| SendShutdown.
Global Instance eq_dec : EqDecision t.
Proof. solve_decision. Defined.
End ClientAction.

Module ShutdownChannel.
Inductive t :=
| ChannelClosed
| ReplyDropped
| Replied (result : KlfResult unit).
End ShutdownChannel.

(** [Result::and] *)
Definition result_and (a b : KlfResult unit) : KlfResult unit :=
  match a with Ok _ => b | Err e => Err e | Panic => Panic end.

Definition expect_acknowledgement (reply : KlfResult Response.t) (command : CommandId)
    (operation : string) : KlfResult unit :=
  match reply with
  | Ok (Response.Acknowledgement c as response) =>
      if command_eqb c command then Ok tt else Err (unexpected_response operation response)
  | Ok response => Err (unexpected_response operation response)
  | Err error => Err error
  | Panic => Panic
  end.

Definition shutdown_inner (send : Request.t → KlfResult Response.t) (channel : ShutdownChannel.t)
    (reboot : bool) : list ClientAction.t * KlfResult unit :=
  let monitor_result :=
    expect_acknowledgement (send Request.HouseStatusMonitorDisable)
      GW_HOUSE_STATUS_MONITOR_DISABLE_CFM "house monitor disable" in
  let reboot_result :=
    if reboot then expect_acknowledgement (send Request.Reboot) GW_REBOOT_CFM "gateway reboot"
    else Ok tt in
  ([ClientAction.SendRequest Request.HouseStatusMonitorDisable]
   ++ (if reboot then [ClientAction.SendRequest Request.Reboot] else [])
   ++ [ClientAction.SendShutdown],
   match channel with
   | ShutdownChannel.ChannelClosed =>
       result_and (result_and reboot_result monitor_result) (Err KlfError.ClientClosed)
   | ShutdownChannel.ReplyDropped => Err KlfError.ConnectionClosed
   | ShutdownChannel.Replied shutdown_result =>
       _ ← shutdown_result;
       match reboot_result with
       | Err error => Err error
       | Ok _ => if reboot then Ok tt else monitor_result
       | Panic => Panic
       end
   end).

Definition shutdown send channel := shutdown_inner send channel false.
Definition shutdown_and_reboot send channel := shutdown_inner send channel true.

(** * Facts *)

(** The items that neither end a discovery nor fail it. *)
Definition passing (finished : CommandId) (r : Recv.t) : bool :=
  match r with
  | Recv.Event (ConnectionEvent.Notification (Response.Acknowledgement command)) =>
      negb (command_eqb command finished)
  | Recv.Event (ConnectionEvent.Disconnected _) | Recv.Event (ConnectionEvent.ProtocolError _)
  | Recv.Closed | Recv.Lagged _ => false
  | Recv.Event _ => true
  end.

Definition finished_event (command : CommandId) : Recv.t :=
  Recv.Event (ConnectionEvent.Notification (Response.Acknowledgement command)).

Definition node_of (r : Recv.t) : option NodeInformation.t :=
  match r with
  | Recv.Event (ConnectionEvent.Notification (Response.NodeInformation node)) => Some node
  | _ => None
  end.

Definition group_of (r : Recv.t) : option GroupInformation.t :=
  match r with
  | Recv.Event (ConnectionEvent.Notification (Response.GroupInformation n)) =>
      then_some (command_eqb (GroupInformationNotification.command n) GW_GET_ALL_GROUPS_INFORMATION_NTF)
        (GroupInformationNotification.information n)
  | _ => None
  end.

Lemma collect_nodes_passing events rest nodes :
  forallb (passing GW_GET_ALL_NODES_INFORMATION_FINISHED_NTF) events = true →
  collect_nodes (events ++ rest) nodes = collect_nodes rest (nodes ++ omap node_of events).
Proof.
  revert nodes. induction events as [|r events IH]; intros nodes; cbn [app omap list_omap].
  { by rewrite app_nil_r. }
  cbn [forallb]. intros [Hr Hall]%andb_true_iff. specialize (IH nodes Hall) as IHn.
  destruct r as [[[]|?|?|?|?]| |]; cbn in *; try done.
  - apply negb_true_iff in Hr. by rewrite Hr.
  - rewrite IH by done. by rewrite <- app_assoc.
Qed.

Lemma collect_groups_passing events rest groups :
  forallb (passing GW_GET_ALL_GROUPS_INFORMATION_FINISHED_NTF) events = true →
  collect_groups (events ++ rest) groups = collect_groups rest (groups ++ omap group_of events).
Proof.
  revert groups. induction events as [|r events IH]; intros groups; cbn [app omap list_omap].
  { by rewrite app_nil_r. }
  cbn [forallb]. intros [Hr Hall]%andb_true_iff. specialize (IH groups Hall) as IHn.
  destruct r as [[[]|?|?|?|?]| |]; cbn in *; try done.
  - apply negb_true_iff in Hr. by rewrite Hr.
  - unfold then_some. case_match; [|done]. rewrite IH by done. by rewrite <- app_assoc.
Qed.

(** * Properties *)

(** Discovery is complete: when the gateway accepts, and the finished notification arrives
    before a disconnect, a protocol error, a lag or the timeout, the result is exactly the
    notified nodes (groups), in order, whatever else is broadcast in between; and when the
    gateway refuses, its status is the error. *)
Theorem discovery_collects_notifications (send : Request.t → KlfResult Response.t)
    (events rest : list Recv.t) :
  (∀ total, send Request.GetAllNodesInformation = Ok (Response.AllNodesInformationAccepted 0 total) →
     forallb (passing GW_GET_ALL_NODES_INFORMATION_FINISHED_NTF) events = true →
     discover_nodes send (events ++ finished_event GW_GET_ALL_NODES_INFORMATION_FINISHED_NTF :: rest)
     = Ok (omap node_of events))
  ∧ (∀ total, send (Request.NodeGroup (NodeGroupRequest.GetAllGroups false 0))
              = Ok (Response.AllGroupsAccepted (AllGroupsAccepted.mk 0 total)) →
     forallb (passing GW_GET_ALL_GROUPS_INFORMATION_FINISHED_NTF) events = true →
     discover_groups send (events ++ finished_event GW_GET_ALL_GROUPS_INFORMATION_FINISHED_NTF :: rest)
     = Ok (omap group_of events))
  ∧ (∀ status total, status ≠ 0 →
       send Request.GetAllNodesInformation = Ok (Response.AllNodesInformationAccepted status total) →
       discover_nodes send events = Err (KlfError.DiscoveryRejected status)).
Proof.
  unfold discover_nodes, discover_groups. split_and!.
  - intros total -> Hp. cbn [mbind outcome_bind Z.eqb]. by rewrite collect_nodes_passing.
  - intros total -> Hp. cbn. by rewrite collect_groups_passing.
  - intros status total Hs ->. cbn. by rewrite (proj2 (Z.eqb_neq _ _) Hs).
Qed.

(** Shutting down always hands the actor the shutdown command last, after disabling the
    house monitor and, when asked, rebooting; it succeeds only if the stream was closed, and
    a confirmed reboot supersedes a failed monitor disable. *)
Theorem shutdown_closes_stream (send : Request.t → KlfResult Response.t)
    (channel : ShutdownChannel.t) (reboot : bool) :
  let (actions, result) := shutdown_inner send channel reboot in
  let confirmed request command :=
    send request = Ok (Response.Acknowledgement command) in
  actions = ClientAction.SendRequest Request.HouseStatusMonitorDisable
            :: (if reboot then [ClientAction.SendRequest Request.Reboot] else [])
            ++ [ClientAction.SendShutdown]
  ∧ (result = Ok tt ↔
     channel = ShutdownChannel.Replied (Ok tt)
     ∧ (if reboot then confirmed Request.Reboot GW_REBOOT_CFM
        else confirmed Request.HouseStatusMonitorDisable GW_HOUSE_STATUS_MONITOR_DISABLE_CFM)).
Proof.
  assert (∀ reply command operation,
    expect_acknowledgement reply command operation = Ok tt
    ↔ reply = Ok (Response.Acknowledgement command)) as Hack.
  { intros reply command operation. unfold expect_acknowledgement. split.
    - intros H. repeat case_match; simplify_eq. f_equal. f_equal. by apply command_eqb_iff.
    - intros ->. by rewrite (proj2 (command_eqb_iff command command) eq_refl). }
  unfold shutdown_inner. cbv zeta. split; [done|].
  destruct channel as [| |[[]|e|]]; cbn.
  - split; [|by intros [? _]]. unfold result_and. repeat case_match; done.
  - by split; [|intros [? _]].
  - destruct reboot.
    + rewrite <- (Hack _ _ "gateway reboot"). destruct (expect_acknowledgement _ _ _) as [[]|e|];
        naive_solver.
    + rewrite <- (Hack _ _ "house monitor disable"). naive_solver.
  - by split; [|intros [? _]].
  - by split; [|intros [? _]].
Qed.
