(* ===== verification/Broadcast.v ===== *)
(** * The broadcast of the connection (klf200/connection.rs, [event_tx])

    The actor sends its events on a bounded broadcast channel, and a receiver that does not keep
    up loses the oldest of them. The channel is a parameter, seen from one receiver: an interface
    with the documented laws; a list is an instance. How much the actor sends is bounded from
    above and below by what it receives. *)

From S2P Require Import Prelude RustStd CommandIds Error Types Frame Command.
From S2P Require Import ResponseTypes Response Connection ConnectionFacts Client.
Import Effect Actor.

(** [recv] is [None] while there is nothing to receive; [missed] counts the events that were
    overwritten before they were received. *)
Class EventReceiver (Q : Type) := {
  send_event : Q → ConnectionEvent.t → Q;
  recv : Q → option (Recv.t * Q);
  unread : Q → list ConnectionEvent.t;
  missed : Q → nat;
  buffer : Q → nat
}.

Class BroadcastChannel (Q : Type) `{!EventReceiver Q} : Prop := {
  send_event_buffer q e : buffer (send_event q e) = buffer q;
  send_event_room q e :
    (length (unread q) < buffer q)%nat →
    unread (send_event q e) = unread q ++ [e] ∧ missed (send_event q e) = missed q;
  send_event_full q e :
    (buffer q ≤ length (unread q))%nat →
    unread (send_event q e) = drop 1 (unread q ++ [e]) ∧ missed (send_event q e) = S (missed q);
  recv_lagged q :
    (0 < missed q)%nat →
    ∃ q', recv q = Some (Recv.Lagged (missed q), q') ∧ unread q' = unread q ∧ missed q' = 0%nat;
  recv_oldest q e events :
    missed q = 0%nat → unread q = e :: events →
    ∃ q', recv q = Some (Recv.Event e, q') ∧ unread q' = events ∧ missed q' = 0%nat;
  recv_waits q : missed q = 0%nat → unread q = [] → recv q = None
}.

(** ** A receiver during a series of events *)
Section broadcast.
Context `{EventReceiver Q}.

(** The events a receiver is sent while it does not receive *)
Definition send_all (q : Q) (events : list ConnectionEvent.t) : Q := foldl send_event q events.

(** What successive calls of [recv] yield *)
Fixpoint received (n : nat) (q : Q) : list Recv.t :=
  match n with
  | O => []
  | S n => match recv q with Some (item, q) => item :: received n q | None => [] end
  end.

(** How many of the events do not fit *)
Definition excess (q : Q) (events : list ConnectionEvent.t) : nat :=
  (length (unread q) + length events - buffer q)%nat.

Context `{!BroadcastChannel Q}.

(** Whatever is sent, the latest events are kept, as many as the buffer holds. *)
Lemma send_all_spec q events :
  (length (unread q) ≤ buffer q)%nat →
  let q' := send_all q events in
  unread q' = drop (excess q events) (unread q ++ events)
  ∧ missed q' = (missed q + excess q events)%nat ∧ buffer q' = buffer q.
Proof.
  unfold send_all. revert q. induction events as [|e events IH]; intros q Hq; cbn.
  { unfold excess. replace (_ - _)%nat with 0%nat by (cbn; lia). by rewrite app_nil_r, Nat.add_0_r. }
  pose proof (send_event_buffer q e) as Hb. pose proof (send_event_room q e) as Hroom.
  pose proof (send_event_full q e) as Hfull. revert Hb Hroom Hfull.
  generalize (send_event q e). intros q1 Hb Hroom Hfull. unfold excess in *. cbn [length].
  destruct (decide (length (unread q) < buffer q)%nat) as [Hlt|Hge].
  - destruct (Hroom Hlt) as [Hu Hm].
    assert (length (unread q1) = S (length (unread q))) as Hl by (rewrite Hu, length_app; cbn; lia).
    destruct (IH q1) as (-> & -> & ->); [lia|]. rewrite Hl, Hu, Hm, Hb, <- app_assoc.
    by rewrite Nat.add_succ_comm.
  - destruct Hfull as [Hu Hm]; [lia|].
    assert (length (unread q1) = length (unread q)) as Hl.
    { rewrite Hu, length_drop, length_app. cbn. lia. }
    destruct (IH q1) as (-> & -> & ->); [lia|]. rewrite Hl, Hm, Hb, Hu.
    replace (length (unread q) + S (length events) - buffer q)%nat
      with (S (length (unread q) + length events - buffer q)) by lia.
    rewrite <- drop_app_le by (rewrite length_app; cbn; lia).
    rewrite drop_drop, <- app_assoc. split_and!; [done|lia|done].
Qed.

(** Without a lag the events are received one by one, in order. *)
Lemma received_all q :
  missed q = 0%nat → received (length (unread q)) q = Recv.Event <$> unread q.
Proof.
  generalize (eq_refl (unread q)). generalize (unread q) at 1 3 4. intros events.
  revert q. induction events as [|e events IH]; intros q Hu Hm; [done|]. cbn.
  destruct (recv_oldest q e events Hm) as (q' & -> & Hu' & Hm'); [done|]. f_equal. by apply IH.
Qed.
End broadcast.

(** ** A list as the receiver *)
Module Ring.
Record t := mk { held : list ConnectionEvent.t; lag : nat; limit : nat }.

Global Instance receiver : EventReceiver t := {|
  send_event q e :=
    if bool_decide (length (held q) < limit q)%nat then mk (held q ++ [e]) (lag q) (limit q)
    else mk (drop 1 (held q ++ [e])) (S (lag q)) (limit q);
  recv q :=
    match lag q, held q with
    | S _, _ => Some (Recv.Lagged (lag q), mk (held q) 0 (limit q))
    | O, e :: events => Some (Recv.Event e, mk events 0 (limit q))
    | O, [] => None
    end;
  unread := held;
  missed := lag;
  buffer := limit
|}.

Global Instance broadcast : BroadcastChannel t.
Proof.
  split; cbn.
  - intros q e. by case_bool_decide.
  - intros q e Hq. by rewrite bool_decide_true.
  - intros q e Hq. by rewrite bool_decide_false by lia.
  - intros [h l n] Hl. cbn in *. destruct l as [|l]; [lia|]. eexists. by split.
  - intros [h l n] e events. cbn. intros -> ->. eexists. by split.
  - intros [h l n]. cbn. by intros -> ->.
Qed.

(** The channel [from_stream] creates, with the capacity it asks for *)
Definition new (settings : ConnectionSettings.t) : t :=
  mk [] 0 (Nat.max (ConnectionSettings.event_buffer settings) 1).
End Ring.

(** ** How much the actor broadcasts *)
Definition emitted (effects : list Effect.t) : list ConnectionEvent.t :=
  omap (λ e, if e is Emitted event then Some event else None) effects.

Definition is_received (i : Input.t) : bool := if i is Input.Received (Some _) then true else false.

(** A frame the decoder accepts or refuses, of a command that only notifies *)
Definition is_notification (i : Input.t) : bool :=
  match i with
  | Input.Received (Some (Incoming.IncomingFrame f)) =>
      bool_decide (CommandId.kind (Frame.command f) = CommandKind.Notification)
  | _ => false
  end.

Definition count (p : Input.t → bool) (inputs : list Input.t) : nat := length (List.filter p inputs).

Lemma count_app p a b : count p (a ++ b) = (count p a + count p b)%nat.
Proof. unfold count. by rewrite List.filter_app, length_app. Qed.

Lemma emitted_app a b : emitted (a ++ b) = emitted a ++ emitted b.
Proof. apply omap_app. Qed.

Lemma emitted_events {A} (f : A → ConnectionEvent.t) l : emitted ((λ x, Emitted (f x)) <$> l) = f <$> l.
Proof. induction l as [|x l IH]; [done|]. cbn. by f_equal. Qed.

(** *** At most one event per item received, and one per session in use *)

Lemma dispatch_next_emits requests sessions w now timeout :
  emitted (dispatch_next requests sessions w now timeout).1.2 = [].
Proof.
  induction requests as [|q requests IH]; cbn [dispatch_next]; [done|].
  destruct (dispatch_next requests sessions w now timeout) as [[[rest p] effects] outcome].
  by repeat case_match.
Qed.

Lemma dispatch_emits settings s w now s' effects outcome :
  dispatch settings s w now = (s', effects, outcome) → emitted effects = [] ∧ sessions s' = sessions s.
Proof.
  unfold dispatch. destruct (pending s); [by intros [= <- <- _]|].
  pose proof (dispatch_next_emits (requests s) (sessions s) w now
    (ConnectionSettings.request_timeout settings)) as H.
  destruct (dispatch_next _ _ _ _ _) as [[[rest p] e] out]. by intros [= <- <- _].
Qed.

Lemma handle_frame_emits f pending sessions now timeout pending' sessions' effects :
  handle_frame f pending sessions now timeout = Some (pending', sessions', effects) →
  (length (emitted effects) + size sessions' ≤ 1 + size sessions)%nat.
Proof.
  assert (∀ k, size (delete k sessions) ≤ size sessions)%nat as Hd.
  { intros k. rewrite map_size_delete. destruct (sessions !! k); cbn; lia. }
  assert (∀ k d, size (<[k := d]> sessions) ≤ S (size sessions))%nat as Hi.
  { intros k d. rewrite map_size_insert. destruct (sessions !! k); cbn; lia. }
  unfold handle_frame, settle_session. intros H. repeat case_match; simplify_eq; cbn; try lia;
    try apply le_n_S; auto.
Qed.

Lemma size_foldr_delete {V} (m : gmap SessionId.t V) ks :
  NoDup ks → Forall (λ k, is_Some (m !! k)) ks →
  (length ks + size (foldr delete m ks) = size m)%nat.
Proof.
  induction 1 as [|k ks Hk _ IH]; [done|]. intros [[v Hv] Hks]%Forall_cons. cbn.
  rewrite map_size_delete, lookup_foldr_delete_not_elem_of, Hv by done. cbn.
  rewrite <- (IH Hks). enough (0 < size (foldr delete m ks))%nat by lia.
  apply Nat.neq_0_lt_0. intros Hs%map_size_empty_iff.
  pose proof (lookup_foldr_delete_not_elem_of m ks k Hk) as Hl. rewrite Hs, Hv in Hl. done.
Qed.

Lemma expire_sessions_size sessions now :
  let (sessions', effects) := expire_sessions sessions now in
  (length (emitted effects) + size sessions' = size sessions)%nat.
Proof.
  unfold expire_sessions. rewrite emitted_events, length_fmap. apply size_foldr_delete.
  - eapply sublist_NoDup; [apply (NoDup_fst_map_to_list sessions)|].
    induction (map_to_list sessions) as [|[k d] l IH]; [constructor|]. cbn.
    unfold then_some at 1. destruct (d <=? now); by constructor.
  - apply Forall_forall. intros k ([k' d] & Hk & Hs)%list_elem_of_omap.
    unfold then_some in Hs. destruct (d <=? now); [|done]. injection Hs as <-.
    exists d. by apply elem_of_map_to_list.
Qed.

Lemma select_emits settings s i now s' effects exit :
  select settings s i now = Some (s', effects, exit) →
  (length (emitted effects) + size (sessions s') ≤ count is_received [i] + size (sessions s))%nat.
Proof.
  unfold select. destruct i as [[[request reply|reply]|]|[[f|e|e]|]|]; intros H;
    simplify_eq; cbn; try lia.
  - apply bind_Some in H as ([[p' m] effs] & Hh & [= <- <- <-]). cbn.
    apply handle_frame_emits in Hh. lia.
  - pose proof (expire_request_sub (pending s) (sessions s) now) as Hsub.
    destruct (expire_request _ _ _) as [[p' m] effs] eqn:Her.
    specialize (Hsub _ _ _ eq_refl) as [Hm%map_subseteq_size _].
    pose proof (expire_sessions_size m now) as Hes. destruct (expire_sessions m now) as [m' effs'].
    injection H as <- <- <-. rewrite emitted_app, length_app. cbn.
    assert (emitted effs = []) as ->; [|cbn; lia].
    unfold expire_request in Her. by repeat case_match; simplify_eq.
Qed.

Lemma run_emits settings turns s s' effects exit :
  run settings s turns = Some (s', effects, exit) →
  (length (emitted effects) + size (sessions s')
   ≤ count is_received (consumed settings s turns) + size (sessions s))%nat.
Proof.
  apply (run_relation settings (λ _, True)
    (λ s i e s', (length (emitted e) + size (sessions s') ≤ count is_received i + size (sessions s))%nat)).
  - done.
  - intros s1 i1 e1 s2 i2 e2 s3 H1 H2. rewrite emitted_app, length_app, count_app. lia.
  - intros s0 w now s1 e1 out Hd _. by destruct (dispatch_emits _ _ _ _ _ _ _ Hd) as [-> ->].
  - intros. by eapply select_emits.
  - by apply Forall_true.
Qed.

(** *** One event per notification received *)

(** Only confirmations are waited for. *)
Definition awaits (p : option PendingRequest.t) : Prop :=
  ∀ request, p = Some request →
    CommandId.kind (PendingRequest.expected_confirmation request) = CommandKind.Confirmation.

Lemma expected_confirmation_kind c d :
  CommandId.expected_confirmation c = Some d → CommandId.kind d = CommandKind.Confirmation.
Proof.
  intros Hd. pose proof (CommandIdFacts.expected_confirmation_request _ _ Hd) as Hc.
  destruct (CommandIdFacts.request_confirmation _ Hc) as (d' & Hd' & Hk). congruence.
Qed.

Lemma dispatch_next_awaits requests sessions w now timeout :
  awaits (dispatch_next requests sessions w now timeout).1.1.2.
Proof.
  induction requests as [|q requests IH]; cbn [dispatch_next]; [done|].
  destruct (dispatch_next requests sessions w now timeout) as [[[rest p] effects] outcome].
  repeat case_match; try done; intros request [= <-]; by eapply expected_confirmation_kind.
Qed.

Lemma dispatch_awaits settings s w now s' effects outcome :
  dispatch settings s w now = (s', effects, outcome) → awaits (pending s) → awaits (pending s').
Proof.
  unfold dispatch. destruct (pending s) eqn:Hp; [intros [= <- <- <-]; by rewrite Hp|].
  pose proof (dispatch_next_awaits (requests s) (sessions s) w now
    (ConnectionSettings.request_timeout settings)) as H.
  destruct (dispatch_next _ _ _ _ _) as [[[rest p] e] out]. by intros [= <- <- _].
Qed.

Lemma handle_frame_broadcasts f pending sessions now timeout pending' sessions' effects :
  handle_frame f pending sessions now timeout = Some (pending', sessions', effects) →
  awaits pending → CommandId.kind (Frame.command f) = CommandKind.Notification →
  ∃ event, emitted effects = [event] ∧ ∀ r, decode f = Ok r → event = ConnectionEvent.Notification r.
Proof.
  intros H Hp Hk. unfold handle_frame in H. rewrite Hk in H.
  assert (match pending with
          | Some request => command_eqb (PendingRequest.expected_confirmation request) (Frame.command f)
          | None => false
          end = false) as Hc.
  { destruct pending as [request|]; [|done]. apply not_true_iff_false. intros Hc%command_eqb_true.
    specialize (Hp request eq_refl). congruence. }
  cbv zeta in H. rewrite bool_decide_true in H by done.
  destruct pending as [request|]; [rewrite Hc in H; cbn [negb] in H|];
    destruct (decode f) as [r|e|]; simplify_eq; (eexists; split; [done|]; by intros ? [= <-]).
Qed.

Lemma select_notifies settings s i now s' effects exit :
  select settings s i now = Some (s', effects, exit) → awaits (pending s) →
  awaits (pending s') ∧ (count is_notification [i] ≤ length (emitted effects))%nat.
Proof.
  unfold select. destruct i as [[[request reply|reply]|]|[[f|e|e]|]|]; intros H Ha;
    simplify_eq; cbn; try (split; [done|lia]).
  - apply bind_Some in H as ([[p' m] effs] & Hh & [= <- <- <-]). cbn. split.
    + by destruct (handle_frame_pending _ _ _ _ _ _ _ _ Hh) as [-> | ->].
    + case_bool_decide as Hk; [|cbn; lia]. cbn.
      by destruct (handle_frame_broadcasts _ _ _ _ _ _ _ _ Hh Ha Hk) as (event & -> & _).
  - pose proof (expire_request_sub (pending s) (sessions s) now) as Hsub.
    destruct (expire_request _ _ _) as [[p' m] effs]. destruct (Hsub _ _ _ eq_refl) as [_ Hp].
    destruct (expire_sessions m now) as [m' effs']. injection H as <- <- <-. cbn.
    split; [by destruct Hp as [-> | ->]|lia].
Qed.

Lemma run_notifies settings turns s s' effects exit :
  run settings s turns = Some (s', effects, exit) → awaits (pending s) →
  (count is_notification (consumed settings s turns) ≤ length (emitted effects))%nat.
Proof.
  intros Hr Ha.
  refine (proj2 (run_relation settings (λ _, True)
    (λ s i e s', awaits (pending s) →
       awaits (pending s') ∧ (count is_notification i ≤ length (emitted e))%nat)
    _ _ _ _ turns s s' effects exit _ Hr Ha)).
  - done.
  - intros s1 i1 e1 s2 i2 e2 s3 H1 H2 [Ha2 Hc1]%H1. destruct (H2 Ha2) as [Ha3 Hc2].
    rewrite emitted_app, length_app, count_app. split; [done|lia].
  - intros s0 w now s1 e1 out Hd _ H0. split; [by eapply dispatch_awaits|cbn; lia].
  - intros. by eapply select_notifies.
  - by apply Forall_true.
Qed.

(** A connection that stays up has consumed all its turns. *)
Lemma run_through settings turns s s' effects :
  run settings s turns = Some (s', effects, None) → consumed settings s turns = Turn.input <$> turns.
Proof.
  revert s s' effects. induction turns as [|t turns IH]; intros s s' effects; [done|].
  cbn [run consumed]. intros H. apply bind_Some in H as ([[s1 e1] x1] & Hturn & H). unfold turn in Hturn.
  destruct (dispatch settings s _ _) as [[s0 e0] [[]|e|]]; [| |done].
  - apply bind_Some in Hturn as ([[s2 e2] x2] & -> & [= <- <- <-]). destruct x2; [done|].
    apply bind_Some in H as ([[s3 e3] x3] & Hr & [= <- <- ->]). cbn. f_equal. by eapply IH.
  - by injection Hturn as <- <- <-.
Qed.

(** Whether it stays up or not, it has consumed some of them. *)
Lemma consumed_prefix settings turns s : consumed settings s turns `prefix_of` (Turn.input <$> turns).
Proof.
  revert s. induction turns as [|t turns IH]; intros s; cbn [consumed]; [done|].
  destruct (dispatch settings s _ _) as [[s0 e0] [[]|e|]]; [|apply prefix_nil..].
  cbn. apply prefix_cons. destruct (select _ _ _ _) as [[[s1 e1] [x|]]|];
    [apply prefix_nil|apply IH|apply prefix_nil].
Qed.

Lemma count_prefix p a b : a `prefix_of` b → (count p a ≤ count p b)%nat.
Proof. intros [c ->]. rewrite count_app. lia. Qed.
