(* ===== verification/Tls.v ===== *)
(** * Connecting to the gateway (klf200/connection.rs, configuration, TLS and [connect])

    The connection settings and the steps of [Klf200Client::connect]: TCP, TLS configuration,
    server name and handshake. The file system, the PEM reader, the network and the TLS library
    are inputs; which server certificate is accepted is decided here, and is the theorem at the
    end. *)

From S2P Require Import Prelude RustStd CommandIds Error Types Frame Command.
From S2P Require Import ResponseTypes Connection.

Module Klf200Config.
Record t := mk {
  host : string;
  port : Z;
  certificate : option string;
  connect_timeout : Z;
  connection : ConnectionSettings.t
}.

Definition DEFAULT_KLF_PORT : Z := 51200.

Definition new (host : string) : t := mk host DEFAULT_KLF_PORT None 10000 ConnectionSettings.default.
Definition set_host (host : string) (c : t) : t :=
  mk host (port c) (certificate c) (connect_timeout c) (connection c).
End Klf200Config.

Definition io_error (message : string) : KlfError.t := KlfError.Io message.

(** The error of an operation of the system or of a library, mapped *)
Definition map_err {E A} (wrap : E → KlfError.t) (r : outcome E A) : KlfResult A :=
  match r with Ok a => Ok a | Err e => Err (wrap e) | Panic => Panic end.

(** ** Which certificate is accepted *)
Module TlsError.
Inductive t :=
| InvalidCertificateApplicationVerificationFailure
| Library (message : string).
End TlsError.

(** A certificate is its DER encoding. *)
Abbreviation CertificateDer := (list Z) (only parsing).

(** What a server signs the handshake with *)
Abbreviation SignatureScheme := Z (only parsing).
Module DigitallySignedStruct.
Record t := mk { scheme : SignatureScheme; signature : list Z }.
End DigitallySignedStruct.

(** The signature algorithms of the TLS library: whether a signature of a message is valid for the
    key of a certificate *)
Module CryptoProvider.
Class t := {
  verify_tls12_signature :
    list Z → CertificateDer → DigitallySignedStruct.t → outcome TlsError.t unit;
  verify_tls13_signature :
    list Z → CertificateDer → DigitallySignedStruct.t → outcome TlsError.t unit;
  supported_schemes : list SignatureScheme
}.
End CryptoProvider.

Module PinnedServerCertificateVerification.
Section verifier.
Context `{CryptoProvider.t}.
Context (certificates : list CertificateDer).

Definition verify_server_cert (end_entity : CertificateDer) : outcome TlsError.t unit :=
  if existsb (λ certificate, bool_decide (certificate = end_entity)) certificates then Ok tt
  else Err TlsError.InvalidCertificateApplicationVerificationFailure.
Definition verify_tls12_signature message certificate digitally_signed : outcome TlsError.t unit :=
  CryptoProvider.verify_tls12_signature message certificate digitally_signed.
Definition verify_tls13_signature message certificate digitally_signed : outcome TlsError.t unit :=
  CryptoProvider.verify_tls13_signature message certificate digitally_signed.
Definition supported_verify_schemes : list SignatureScheme := CryptoProvider.supported_schemes.
End verifier.
End PinnedServerCertificateVerification.

Module SkipServerCertificateVerification.
Section verifier.
Context `{CryptoProvider.t}.

Definition verify_server_cert (end_entity : CertificateDer) : outcome TlsError.t unit := Ok tt.
Definition verify_tls12_signature message certificate digitally_signed : outcome TlsError.t unit :=
  CryptoProvider.verify_tls12_signature message certificate digitally_signed.
Definition verify_tls13_signature message certificate digitally_signed : outcome TlsError.t unit :=
  CryptoProvider.verify_tls13_signature message certificate digitally_signed.
Definition supported_verify_schemes : list SignatureScheme := CryptoProvider.supported_schemes.
End verifier.
End SkipServerCertificateVerification.

(** The verifier of the broker's connection when its certificate is not checked (mqtt.rs) *)
Module NoCertificateVerification.
Section verifier.
Context `{CryptoProvider.t}.

Definition verify_server_cert (end_entity : CertificateDer) : outcome TlsError.t unit := Ok tt.
Definition verify_tls12_signature message certificate dss : outcome TlsError.t unit :=
  CryptoProvider.verify_tls12_signature message certificate dss.
Definition verify_tls13_signature message certificate dss : outcome TlsError.t unit :=
  CryptoProvider.verify_tls13_signature message certificate dss.
Definition supported_verify_schemes : list SignatureScheme := CryptoProvider.supported_schemes.
End verifier.
End NoCertificateVerification.

(** [dyn ServerCertVerifier], with the two implementations for the gateway *)
Module ServerCertVerifier.
Inductive t :=
| SkipServerCertificateVerification
| PinnedServerCertificateVerification (certificates : list CertificateDer).

Section verifier.
Context `{CryptoProvider.t}.

Definition verify_server_cert (v : t) (end_entity : CertificateDer) : outcome TlsError.t unit :=
  match v with
  | PinnedServerCertificateVerification certificates =>
      PinnedServerCertificateVerification.verify_server_cert certificates end_entity
  | SkipServerCertificateVerification =>
      SkipServerCertificateVerification.verify_server_cert end_entity
  end.

(** [message] is signed by the key of [certificate], in the handshake of one of the versions. *)
Definition verify_signature (v : t) (message : list Z) (certificate : CertificateDer)
    (dss : DigitallySignedStruct.t) (tls13 : bool) : outcome TlsError.t unit :=
  match v, tls13 with
  | PinnedServerCertificateVerification _, false =>
      PinnedServerCertificateVerification.verify_tls12_signature message certificate dss
  | PinnedServerCertificateVerification _, true =>
      PinnedServerCertificateVerification.verify_tls13_signature message certificate dss
  | SkipServerCertificateVerification, false =>
      SkipServerCertificateVerification.verify_tls12_signature message certificate dss
  | SkipServerCertificateVerification, true =>
      SkipServerCertificateVerification.verify_tls13_signature message certificate dss
  end.

Definition supported_verify_schemes (v : t) : list SignatureScheme :=
  match v with
  | PinnedServerCertificateVerification _ =>
      PinnedServerCertificateVerification.supported_verify_schemes
  | SkipServerCertificateVerification => SkipServerCertificateVerification.supported_verify_schemes
  end.
End verifier.
End ServerCertVerifier.

(** The system and the libraries: opening a file, the items of a PEM file, the TCP connection
    ([None] when its timeout elapses), [set_nodelay], parsing a server name, and the handshake with
    a verifier, which returns the certificate the server presented. *)
Class Network := {
  open_file : string → outcome string (list Z);
  pem_certs : list Z → list (outcome string CertificateDer);
  tcp_connect : string → Z → Z → option (outcome string unit);
  set_nodelay : outcome string unit;
  server_name : string → outcome string string;
  tls_connect : ServerCertVerifier.t → string → Z → option (outcome string CertificateDer)
}.

Section connect.
Context `{Network}.

Definition build_tls_config (certificate : option string) : KlfResult ServerCertVerifier.t :=
  match certificate with
  | Some path =>
      file ← map_err io_error (open_file path);
      certificates ← map_err io_error (mapM id (pem_certs file));
      if bool_decide (certificates = []) then Err KlfError.EmptyCertificateFile
      else Ok (ServerCertVerifier.PinnedServerCertificateVerification certificates)
  | None => Ok ServerCertVerifier.SkipServerCertificateVerification
  end.

(** [timeout(..).await.map_err(|_| ConnectTimeout)?.map_err(..)?] *)
Definition within {A} (wrap : string → KlfError.t) (r : option (outcome string A)) : KlfResult A :=
  match r with
  | None => Err KlfError.ConnectTimeout
  | Some r => map_err wrap r
  end.

(** The certificate of the server and the settings [from_stream] starts the actor with *)
Definition connect (config : Klf200Config.t) : KlfResult (CertificateDer * ConnectionSettings.t) :=
  _ ← within io_error
        (tcp_connect (Klf200Config.host config) (Klf200Config.port config)
           (Klf200Config.connect_timeout config));
  _ ← map_err io_error set_nodelay;
  tls_config ← build_tls_config (Klf200Config.certificate config);
  name ← map_err KlfError.Tls (server_name (Klf200Config.host config));
  presented ← within KlfError.Tls (tls_connect tls_config name (Klf200Config.connect_timeout config));
  Ok (presented, Klf200Config.connection config).
End connect.

(** ** Facts *)

(** The TLS library completes a handshake only with a certificate its verifier accepted, and only
    when the server signed the handshake with the key of that certificate, by a scheme the verifier
    supports: the verifier is asked for both. *)
Class VerifyingLibrary `(N : Network) `(C : CryptoProvider.t) : Prop := {
  handshake_verified v name timeout certificate :
    tls_connect v name timeout = Some (Ok certificate) →
    ServerCertVerifier.verify_server_cert v certificate = Ok tt
    ∧ ∃ message dss tls13,
        DigitallySignedStruct.scheme dss ∈ ServerCertVerifier.supported_verify_schemes v
        ∧ ServerCertVerifier.verify_signature v message certificate dss tls13 = Ok tt
}.

(** Some handshake was signed with the key of the certificate. *)
Definition proves_key `{CryptoProvider.t} (certificate : CertificateDer) : Prop :=
  ∃ message dss,
    DigitallySignedStruct.scheme dss ∈ CryptoProvider.supported_schemes
    ∧ (CryptoProvider.verify_tls12_signature message certificate dss = Ok tt
       ∨ CryptoProvider.verify_tls13_signature message certificate dss = Ok tt).

Section facts.
Context `{N : Network}.

Lemma pinned_accepts certificates end_entity :
  ServerCertVerifier.verify_server_cert
    (ServerCertVerifier.PinnedServerCertificateVerification certificates) end_entity = Ok tt
  ↔ end_entity ∈ certificates.
Proof.
  cbn. unfold PinnedServerCertificateVerification.verify_server_cert.
  destruct (existsb _ _) eqn:He.
  - split; [|done]. intros _. apply existsb_exists in He as (c & Hc & ->%bool_decide_eq_true).
    by apply list_elem_of_In.
  - split; [done|]. intros Hin%list_elem_of_In. exfalso. apply not_true_iff_false in He. apply He.
    apply existsb_exists. exists end_entity. split; [done|]. by apply bool_decide_eq_true.
Qed.

(** Whatever it makes of the certificate, a verifier checks the signature. *)
Lemma signature_proves_key `{C : CryptoProvider.t} v message certificate dss tls13 :
  DigitallySignedStruct.scheme dss ∈ ServerCertVerifier.supported_verify_schemes v →
  ServerCertVerifier.verify_signature v message certificate dss tls13 = Ok tt →
  proves_key certificate.
Proof. intros Hs Hv. exists message, dss. split; [by destruct v|]. destruct v, tls13; auto. Qed.

Lemma map_err_Ok {E A} (wrap : E → KlfError.t) (r : outcome E A) a : map_err wrap r = Ok a ↔ r = Ok a.
Proof. destruct r; naive_solver. Qed.

Lemma within_Ok {A} wrap (r : option (outcome string A)) a : within wrap r = Ok a ↔ r = Some (Ok a).
Proof. destruct r as [r|]; [|done]. cbn. rewrite map_err_Ok. naive_solver. Qed.

(** The verifier of a configuration with a certificate file *)
Lemma build_tls_config_pinned path v :
  build_tls_config (Some path) = Ok v ↔
  ∃ file certificates,
    open_file path = Ok file ∧ mapM id (pem_certs file) = Ok certificates ∧ certificates ≠ []
    ∧ v = ServerCertVerifier.PinnedServerCertificateVerification certificates.
Proof.
  simpl. rewrite outcome_bind_Ok. setoid_rewrite map_err_Ok. setoid_rewrite outcome_bind_Ok.
  setoid_rewrite map_err_Ok. split.
  - intros (file & Hf & certs & Hc & Hv). exists file, certs. case_bool_decide; naive_solver.
  - intros (file & certs & ? & ? & ? & ->). exists file. split; [done|]. exists certs. split; [done|].
    by rewrite bool_decide_false.
Qed.
End facts.

(** C34: with a certificate file configured, a connection is only established with a gateway whose
    certificate is, byte for byte, one of those in the file, which was read without error and is
    not empty; the actor starts with the configured settings. Without one, any certificate is
    accepted. With or without one, the gateway proved that it holds the key of the certificate it
    presented. *)
Theorem connect_pins_certificate `{N : Network, C : CryptoProvider.t, !VerifyingLibrary N C}
    (config : Klf200Config.t) (presented : CertificateDer) (settings : ConnectionSettings.t) :
  connect config = Ok (presented, settings) →
  settings = Klf200Config.connection config ∧ proves_key presented
  ∧ match Klf200Config.certificate config with
    | Some path =>
        ∃ file certificates,
          open_file path = Ok file ∧ pem_certs file = Ok <$> certificates ∧ presented ∈ certificates
    | None =>
        ∀ other, ServerCertVerifier.verify_server_cert
                   ServerCertVerifier.SkipServerCertificateVerification other = Ok tt
    end.
Proof.
  unfold connect. intros (_ & _ & (_ & _ & (v & Hv & (name & _ & (cert & Hcert & [= <- <-])%outcome_bind_Ok)
    %outcome_bind_Ok)%outcome_bind_Ok)%outcome_bind_Ok)%outcome_bind_Ok.
  split; [done|]. apply within_Ok in Hcert.
  apply handshake_verified in Hcert as (Hcert & message & dss & tls13 & Hs & Hsigned).
  split; [by eapply signature_proves_key|].
  destruct (Klf200Config.certificate config) as [path|]; [|done].
  apply build_tls_config_pinned in Hv as (file & certs & Hf & Hc & _ & ->).
  apply pinned_accepts in Hcert. exists file, certs. split_and!; [done| |done]. by apply mapM_id_Ok.
Qed.

(** A gateway that presents a fixed certificate and signs with its own bytes, and a library that
    verifies both. *)
Definition sample_crypto : CryptoProvider.t := {|
  CryptoProvider.verify_tls12_signature _ _ _ := Err (TlsError.Library "TLS 1.2 is not offered");
  CryptoProvider.verify_tls13_signature message certificate dss :=
    if bool_decide (DigitallySignedStruct.signature dss = certificate ++ message) then Ok tt
    else Err (TlsError.Library "bad signature");
  CryptoProvider.supported_schemes := [2055]
|}.

Definition sample_network : Network := {|
  open_file _ := Ok [];
  pem_certs _ := [Ok [1; 2]; Ok [3]];
  tcp_connect _ _ _ := Some (Ok tt);
  set_nodelay := Ok tt;
  server_name name := Ok name;
  tls_connect v _ _ :=
    match ServerCertVerifier.verify_server_cert v [3] with
    | Ok _ => Some (Ok [3])
    | _ => Some (Err "invalid certificate")
    end
|}.

Lemma connect_pins_certificate_witness :
  let config := Klf200Config.mk "klf" 51200 (Some "klf.pem") 10000 ConnectionSettings.default in
  @connect sample_network config = Ok ([3], ConnectionSettings.default)
  ∧ ∃ certificates, [Ok [1; 2]; Ok [3]] = (Ok (E := string)) <$> certificates ∧ [3] ∈ certificates.
Proof.
  assert (@VerifyingLibrary sample_network sample_crypto) as Hlib.
  { split. intros v name timeout certificate. cbn -[ServerCertVerifier.verify_server_cert].
    destruct (ServerCertVerifier.verify_server_cert v [3]) as [[]| |] eqn:Hv; [|done..].
    intros [= <-]. split; [done|]. exists [9], (DigitallySignedStruct.mk 2055 [3; 9]), true.
    destruct v; (split; [left|reflexivity]). }
  cbv zeta. split; [vm_compute; reflexivity|].
  destruct (@connect_pins_certificate sample_network sample_crypto Hlib
    (Klf200Config.mk "klf" 51200 (Some "klf.pem") 10000 ConnectionSettings.default) [3]
    ConnectionSettings.default ltac:(vm_compute; reflexivity)) as (_ & _ & file & certs & _ & Hc & Hin).
  exists certs. split; [exact Hc|exact Hin].
Defined.
