(* ===== verification/Gate.v ===== *)
(** * Several callers of one client (klf200/connection.rs, the request gate)

    The clones of a client share a mutex that every operation locks before its first request and
    holds to its end. Here the operations are programs that stop at each await, so that the calls
    of several tasks can be interleaved at any of them and dropped at any of them. That calls are
    serialized is the theorem: what the tasks do to the actor is the concatenation of what each
    call does on its own, and a call that completes has the result it has in [Client], where it
    runs alone. *)

From S2P Require Import Prelude RustStd CommandIds Error Types Frame Command.
From S2P Require Import ResponseTypes Response Connection Client.

(** ** The operations *)
Module Operation.
Inductive t :=
| Send (request : Request.t)
| Login (password : string)
| Version
| ProtocolVersion
| GatewayState
| DiscoverNodes
| NodeInformation (node_id : NodeId.t)
| DiscoverGroups
| Shutdown (reboot : bool).
End Operation.

(** What they resolve to *)
Module Value.
Inductive t :=
| Response (response : Response.t)
| Version (version : Version.t)
| ProtocolVersion (version : ProtocolVersion.t)
| GatewayState (state : GatewayState.t)
| Nodes (nodes : list NodeInformation.t)
| Node (information : NodeInformation.t)
| Groups (groups : list GroupInformation.t)
| Unit.
End Value.

(** A call, up to its next await: of the gate, of the reply to a request, of the reply to the
    shutdown of the actor, of the receive loop. *)
Module Call.
Inductive t :=
| Return (result : KlfResult Value.t)
| Lock (rest : t)
| Send (request : Request.t) (rest : KlfResult Response.t → t)
| Shutdown (rest : ShutdownChannel.t → t)
| Receive (rest : list Recv.t → t).
End Call.
Import Call.

Definition value {A} (wrap : A → Value.t) (result : KlfResult A) : Call.t := Return (wrap <$> result).

(** [send_unlocked(request).await?] and a decision on the response *)
Definition request (r : Request.t) (decide_on : Response.t → Call.t) : Call.t :=
  Call.Send r (λ reply,
    match reply with
    | Ok response => decide_on response
    | Err error => Return (Err error)
    | Panic => Return Panic
    end).

Definition send (r : Request.t) : Call.t := Lock (Call.Send r (value Value.Response)).

(** The operations that [send] one request and read its response *)
Definition single (r : Request.t) (decide_on : Response.t → KlfResult Value.t) : Call.t :=
  Lock (request r (λ response, Return (decide_on response))).

Definition login (password : string) : Call.t :=
  match Request.password_enter password with
  | Ok r =>
      single r (λ response,
        match response with
        | Response.PasswordEntered true => Ok Value.Unit
        | Response.PasswordEntered false => Err KlfError.AuthenticationRejected
        | response => Err (unexpected_response "password login" response)
        end)
  | Err error => Return (Err error)
  | Panic => Return Panic
  end.

Definition version : Call.t :=
  single Request.GetVersion (λ response,
    match response with
    | Response.Version version => Ok (Value.Version version)
    | response => Err (unexpected_response "version request" response)
    end).

Definition protocol_version : Call.t :=
  single Request.GetProtocolVersion (λ response,
    match response with
    | Response.ProtocolVersion version => Ok (Value.ProtocolVersion version)
    | response => Err (unexpected_response "protocol version request" response)
    end).

Definition gateway_state : Call.t :=
  single Request.GetState (λ response,
    match response with
    | Response.GatewayState state => Ok (Value.GatewayState state)
    | response => Err (unexpected_response "gateway state request" response)
    end).

Definition discover_nodes : Call.t :=
  Lock (request Request.GetAllNodesInformation (λ response,
    match response with
    | Response.AllNodesInformationAccepted status _ =>
        if status =? 0 then Receive (λ events, value Value.Nodes (collect_nodes events []))
        else Return (Err (KlfError.DiscoveryRejected status))
    | response => Return (Err (unexpected_response "node discovery" response))
    end)).

Definition node_information (node_id : NodeId.t) : Call.t :=
  Lock (request (Request.GetNodeInformation node_id) (λ response,
    match response with
    | Response.NodeInformationAccepted status confirmed =>
        if status =? 0 then
          if decide (confirmed = node_id)
          then Receive (λ events, value Value.Node (await_node events node_id))
          else Return (Err (KlfError.InvalidRequest
                 "node information confirmation referenced another node"))
        else Return (Err (KlfError.DiscoveryRejected status))
    | response => Return (Err (unexpected_response "node information request" response))
    end)).

Definition discover_groups : Call.t :=
  Lock (request (Request.NodeGroup (NodeGroupRequest.GetAllGroups false 0)) (λ response,
    match response with
    | Response.AllGroupsAccepted accepted =>
        let status := AllGroupsAccepted.status accepted in
        if status =? 0 then Receive (λ events, value Value.Groups (collect_groups events []))
        else if status =? 2 then Return (Ok (Value.Groups []))
        else Return (Err (KlfError.DiscoveryRejected (status mod 256)))
    | response => Return (Err (unexpected_response "group discovery" response))
    end)).

Definition shutdown_inner (reboot : bool) : Call.t :=
  Lock (Call.Send Request.HouseStatusMonitorDisable (λ reply,
    let monitor_result :=
      expect_acknowledgement reply GW_HOUSE_STATUS_MONITOR_DISABLE_CFM "house monitor disable" in
    let close reboot_result :=
      Call.Shutdown (λ channel,
        value (λ _, Value.Unit)
          match channel with
          | ShutdownChannel.ChannelClosed =>
              result_and (result_and reboot_result monitor_result) (Err KlfError.ClientClosed)
          | ShutdownChannel.ReplyDropped => Err KlfError.ConnectionClosed
          | ShutdownChannel.Replied shutdown_result =>
              _ ← shutdown_result;
              match reboot_result with
              | Err error => Err error
              | Ok _ => if reboot then Ok tt else monitor_result
              | Panic => Panic
              end
          end) in
    if reboot then
      Call.Send Request.Reboot (λ reply,
        close (expect_acknowledgement reply GW_REBOOT_CFM "gateway reboot"))
    else close (Ok tt))).

Definition program (operation : Operation.t) : Call.t :=
  match operation with
  | Operation.Send r => send r
  | Operation.Login password => login password
  | Operation.Version => version
  | Operation.ProtocolVersion => protocol_version
  | Operation.GatewayState => gateway_state
  | Operation.DiscoverNodes => discover_nodes
  | Operation.NodeInformation node_id => node_information node_id
  | Operation.DiscoverGroups => discover_groups
  | Operation.Shutdown reboot => shutdown_inner reboot
  end.

(** ** A call on its own *)

(** Where a call is, and what it does to the actor and receives from it *)
Module Status.
Inductive t :=
| Running (call : Call.t)
| Awaiting (rest : KlfResult Response.t → Call.t)
| Closing (rest : ShutdownChannel.t → Call.t).
End Status.
Import Status.

Module Deed.
Inductive t :=
| Locked
| Sent (request : Request.t)
| Answered (reply : KlfResult Response.t)
| SentShutdown
| Closed (channel : ShutdownChannel.t)
| Received (events : list Recv.t).
End Deed.
Import Deed.

Inductive local : Status.t → Deed.t → Status.t → Prop :=
| local_send r rest : local (Running (Call.Send r rest)) (Sent r) (Awaiting rest)
| local_answer rest reply : local (Awaiting rest) (Answered reply) (Running (rest reply))
| local_shutdown rest : local (Running (Call.Shutdown rest)) SentShutdown (Closing rest)
| local_closed rest channel : local (Closing rest) (Closed channel) (Running (rest channel))
| local_receive rest events :
    local (Running (Receive rest)) (Received events) (Running (rest events)).

Inductive alone : Status.t → list Deed.t → Status.t → Prop :=
| alone_nil st : alone st [] st
| alone_cons st d st1 ds st2 : local st d st1 → alone st1 ds st2 → alone st (d :: ds) st2.

(** ** Tasks that share the gate *)
Record System := mk {
  owner : option nat;
  tasks : gmap nat Status.t;
  called : gmap nat Operation.t;
  results : gmap nat (KlfResult Value.t);
  log : list (nat * Deed.t)
}.

Definition initial : System := mk None ∅ ∅ ∅ [].

(** The guard is dropped with the call. *)
Definition released (t : nat) (o : option nat) : option nat := if decide (o = Some t) then None else o.

(** The scheduler: a task makes a call, locks the gate when it is free, goes on to the next
    await, returns, or is dropped wherever it is. *)
Inductive step : System → System → Prop :=
| step_call t operation s :
    called s !! t = None →
    step s (mk (owner s) (<[t := Running (program operation)]> (tasks s))
              (<[t := operation]> (called s)) (results s) (log s))
| step_lock t rest s :
    tasks s !! t = Some (Running (Lock rest)) → owner s = None →
    step s (mk (Some t) (<[t := Running rest]> (tasks s)) (called s) (results s)
              (log s ++ [(t, Locked)]))
| step_local t st d st' s :
    tasks s !! t = Some st → local st d st' →
    step s (mk (owner s) (<[t := st']> (tasks s)) (called s) (results s) (log s ++ [(t, d)]))
| step_return t result s :
    tasks s !! t = Some (Running (Return result)) →
    step s (mk (released t (owner s)) (delete t (tasks s)) (called s)
              (<[t := result]> (results s)) (log s))
| step_drop t st s :
    tasks s !! t = Some st →
    step s (mk (released t (owner s)) (delete t (tasks s)) (called s) (results s) (log s)).

Inductive running : System → Prop :=
| running_initial : running initial
| running_step s s' : running s → step s s' → running s'.

(** ** The operations of [Client] *)
Section client.
Context (answer : Request.t → KlfResult Response.t) (events : list Recv.t)
  (channel : ShutdownChannel.t).

Definition client_result (operation : Operation.t) : KlfResult Value.t :=
  match operation with
  | Operation.Send r => Value.Response <$> answer r
  | Operation.Login password => (λ _, Value.Unit) <$> Client.login answer password
  | Operation.Version => Value.Version <$> Client.version answer
  | Operation.ProtocolVersion => Value.ProtocolVersion <$> Client.protocol_version answer
  | Operation.GatewayState => Value.GatewayState <$> Client.gateway_state answer
  | Operation.DiscoverNodes => Value.Nodes <$> Client.discover_nodes answer events
  | Operation.NodeInformation node_id => Value.Node <$> Client.node_information answer node_id events
  | Operation.DiscoverGroups => Value.Groups <$> Client.discover_groups answer events
  | Operation.Shutdown reboot =>
      (λ _, Value.Unit) <$> (Client.shutdown_inner answer channel reboot).2
  end.

(** What a call was told is what [answer], [events] and [channel] say. *)
Fixpoint told (ds : list Deed.t) : Prop :=
  match ds with
  | Sent r :: (Answered reply :: ds) as rest => answer r = reply ∧ told ds
  | SentShutdown :: (Closed c :: ds) as rest => c = channel ∧ told ds
  | Received received :: ds => received = events ∧ told ds
  | _ :: ds => told ds
  | [] => True
  end.

Fixpoint result_of (call : Call.t) : KlfResult Value.t :=
  match call with
  | Return result => result
  | Lock rest => result_of rest
  | Call.Send r rest => result_of (rest (answer r))
  | Call.Shutdown rest => result_of (rest channel)
  | Receive rest => result_of (rest events)
  end.

Lemma result_of_program operation : result_of (program operation) = client_result operation.
Proof.
  destruct operation as [r|p| | | | |id| |[]]; cbn; try done.
  - unfold login, Client.login. destruct (Request.password_enter p) as [r|e|]; [|done..]. cbn.
    destruct (answer r) as [[]|e|]; try done. cbn. by destruct accepted.
  - unfold Client.version. by destruct (answer _) as [[]|e|].
  - unfold Client.protocol_version. by destruct (answer _) as [[]|e|].
  - unfold Client.gateway_state. by destruct (answer _) as [[]|e|].
  - unfold Client.discover_nodes. destruct (answer _) as [[]|e|]; try done. cbn. by case_match.
  - unfold Client.node_information. destruct (answer _) as [[]|e|]; try done. cbn. by repeat case_match.
  - unfold Client.discover_groups. destruct (answer _) as [[]|e|]; try done. cbn. by repeat case_match.
Qed.

Lemma alone_result call ds result :
  alone (Running call) ds (Running (Return result)) → told ds → result_of call = result.
Proof.
  revert ds. induction call as [r|c IH|r rest IH|rest IH|rest IH]; intros ds Ha Ht;
    inversion Ha as [|? ? ? ? ? Hl Ha']; subst; try done; inversion Hl; subst.
  - inversion Ha' as [|? ? ? ? ? Hl2 Ha2]; subst. inversion Hl2; subst. destruct Ht as [<- Ht].
    by eapply IH.
  - inversion Ha' as [|? ? ? ? ? Hl2 Ha2]; subst. inversion Hl2; subst. destruct Ht as [-> Ht].
    by eapply IH.
  - destruct Ht as [-> Ht]. by eapply IH.
Qed.
End client.

(** ** Every operation holds the gate *)

(** No await of the gate *)
Fixpoint lock_free (call : Call.t) : Prop :=
  match call with
  | Return _ => True
  | Lock _ => False
  | Call.Send _ rest => ∀ reply, lock_free (rest reply)
  | Call.Shutdown rest => ∀ channel, lock_free (rest channel)
  | Receive rest => ∀ events, lock_free (rest events)
  end.
Definition status_lock_free (st : Status.t) : Prop :=
  match st with
  | Running call => lock_free call
  | Awaiting rest => ∀ reply, lock_free (rest reply)
  | Closing rest => ∀ channel, lock_free (rest channel)
  end.

Definition guarded (call : Call.t) : Prop :=
  match call with Return _ => True | Lock rest => lock_free rest | _ => False end.

Lemma program_guarded operation : guarded (program operation).
Proof.
  destruct operation as [r|p| | | | | | |[]]; cbn; try done; try (unfold login; case_match; cbn; try done);
    intros [response|e|]; try done; destruct response; cbn; try done; by repeat case_match.
Qed.

Lemma local_lock_free st d st' : local st d st' → status_lock_free st → status_lock_free st'.
Proof. destruct 1; cbn; auto. Qed.

(** A call that holds the gate never waits for it. *)
Lemma lock_free_progress st :
  status_lock_free st → (∃ result, st = Running (Return result)) ∨ ∃ d st', local st d st'.
Proof.
  destruct st as [[result|rest|r rest|rest|rest]|rest|rest]; cbn; intros H; [by eauto|done|right..].
  - exists (Sent r). eexists. constructor.
  - exists SentShutdown. eexists. constructor.
  - exists (Received []). eexists. constructor.
  - exists (Answered Panic). eexists. constructor.
  - exists (Closed ShutdownChannel.ReplyDropped). eexists. constructor.
Qed.

Lemma alone_snoc st ds st1 d st2 : alone st ds st1 → local st1 d st2 → alone st (ds ++ [d]) st2.
Proof.
  intros Ha Hl. induction Ha as [|st d' sta ds stb Hl' Ha IH]; cbn.
  - econstructor; [done|constructor].
  - econstructor; [done|by apply IH].
Qed.

(** ** The log is a sequence of calls *)
Definition segment_log (segment : nat * list Deed.t) : list (nat * Deed.t) :=
  (λ d, (segment.1, d)) <$> (Locked :: segment.2).

(** A segment is what a call of its task did from locking the gate on, up to where it is, if it
    is still there, and to its result, if it returned one. *)
Definition justified (s : System) (segment : nat * list Deed.t) : Prop :=
  let (t, ds) := segment in
  ∃ operation rest st,
    called s !! t = Some operation ∧ program operation = Lock rest ∧ alone (Running rest) ds st
    ∧ (∀ st', tasks s !! t = Some st' → st' = st)
    ∧ (∀ result, results s !! t = Some result → st = Running (Return result)).

Record serial (s : System) (segments : list (nat * list Deed.t)) : Prop := {
  serial_log : log s = concat (segment_log <$> segments);
  serial_once : NoDup segments.*1;
  serial_justified : Forall (justified s) segments;
  serial_task t st :
    tasks s !! t = Some st →
    results s !! t = None ∧ is_Some (called s !! t)
    ∧ (owner s = Some t ∧ status_lock_free st
       ∨ (t ∉ segments.*1) ∧ ∃ operation, called s !! t = Some operation ∧ st = Running (program operation));
  serial_owner t :
    owner s = Some t → is_Some (tasks s !! t) ∧ ∃ ds before, segments = before ++ [(t, ds)];
  serial_result t result :
    results s !! t = Some result →
    t ∈ segments.*1
    ∨ ∃ operation, called s !! t = Some operation ∧ program operation = Return result;
  serial_fresh t : called s !! t = None → tasks s !! t = None ∧ results s !! t = None ∧ t ∉ segments.*1
}.

(** A segment stays justified while its task does nothing that is logged. *)
Lemma segments_justified s s' segments :
  (∀ t operation, called s !! t = Some operation → called s' !! t = Some operation) →
  (∀ t st, t ∈ segments.*1 → tasks s' !! t = Some st → tasks s !! t = Some st) →
  (∀ t result, t ∈ segments.*1 → results s' !! t = Some result →
     results s !! t = Some result ∨ tasks s !! t = Some (Running (Return result))) →
  Forall (justified s) segments → Forall (justified s') segments.
Proof.
  intros Hc Ht Hr Hs. rewrite Forall_forall in Hs |- *. intros [t ds] Hin.
  specialize (Hs _ Hin) as (operation & rest & st & Hop & Hp & Ha & Hst & Hres).
  assert (t ∈ segments.*1) as Hin' by (apply list_elem_of_fmap; by exists (t, ds)).
  exists operation, rest, st. split_and!; [by apply Hc|done..| |].
  - intros st' H. by apply Hst, Ht.
  - intros result [H|H]%Hr; [by apply Hres| |done]. symmetry. by apply Hst.
Qed.

(** *** The steps keep it *)
Section steps.
Context (s : System) (segments : list (nat * list Deed.t)) (Hs : serial s segments).

Lemma serial_call t operation :
  called s !! t = None →
  serial (mk (owner s) (<[t := Running (program operation)]> (tasks s))
            (<[t := operation]> (called s)) (results s) (log s)) segments.
Proof.
  intros Hfresh. pose proof (serial_fresh _ _ Hs t Hfresh) as (Ht & Hr & Hin).
  assert (∀ t', is_Some (called s !! t') → t' ≠ t) as Hne by (intros t' [? H] ->; congruence).
  split; cbn [log owner tasks results called].
  - apply Hs.
  - apply Hs.
  - eapply segments_justified, Hs; cbn [tasks results called]; [|intros t' st Hin'|by left].
    + intros t' op Hop. rewrite lookup_insert_ne; [done|]. symmetry. by apply Hne.
    + rewrite lookup_insert_ne; [done|]. by intros <-.
  - intros t' st. destruct (decide (t' = t)) as [->|Hn].
    + rewrite !lookup_insert_eq. intros [= <-]. split_and!; [done|by eexists|right].
      split; [done|by exists operation].
    + rewrite !lookup_insert_ne by done. apply Hs.
  - intros t' Ho. destruct (serial_owner _ _ Hs t' Ho) as [[st Hst] Hseg]. split; [|done].
    rewrite lookup_insert_ne; [by eexists|]. intros <-. congruence.
  - intros t' result Hr'. destruct (serial_result _ _ Hs t' result Hr') as [H|(op & Hop & Hp)];
      [by left|right]. exists op. split; [|done].
    rewrite lookup_insert_ne; [done|]. symmetry. apply Hne. by eexists.
  - intros t' [Hn Hnone]%lookup_insert_None. rewrite lookup_insert_ne by done. by apply Hs.
Qed.

Lemma serial_lock t rest :
  tasks s !! t = Some (Running (Lock rest)) → owner s = None →
  serial (mk (Some t) (<[t := Running rest]> (tasks s)) (called s) (results s)
            (log s ++ [(t, Locked)])) (segments ++ [(t, [])]).
Proof.
  intros Ht Ho. destruct (serial_task _ _ Hs t _ Ht) as (Hr & Hcalled & [[Ho' _]|(Hin & op & Hop & Hp)]);
    [congruence|]. injection Hp as Hp. pose proof (program_guarded op) as Hg. rewrite <- Hp in Hg.
  split; cbn [log owner tasks results called].
  - rewrite fmap_app, concat_app, (serial_log _ _ Hs). done.
  - rewrite fmap_app. apply NoDup_app. split_and!; [apply Hs| |apply NoDup_singleton].
    intros t' Hin' ->%list_elem_of_singleton. done.
  - apply Forall_app. split.
    + eapply segments_justified, Hs; cbn [tasks results called]; [done| |by left].
      intros t' st Hin'. rewrite lookup_insert_ne; [done|]. by intros <-.
    + apply Forall_singleton. exists op, rest, (Running rest). cbn [tasks results called].
      split_and!; [done|done|constructor| |congruence].
      intros st'. rewrite lookup_insert_eq. by intros [= <-].
  - intros t' st. destruct (decide (t' = t)) as [->|Hn].
    + rewrite lookup_insert_eq. intros [= <-]. split_and!; [done|done|by left].
    + rewrite lookup_insert_ne by done. intros Hst.
      destruct (serial_task _ _ Hs t' st Hst) as (? & ? & [[]|[]]); [congruence|].
      split_and!; [done|done|right]. split; [|done]. rewrite fmap_app. set_solver.
  - intros t' [= <-]. rewrite lookup_insert_eq. split; [by eexists|by eauto].
  - intros t' result Hr'. rewrite fmap_app, elem_of_app.
    destruct (serial_result _ _ Hs t' result Hr'); by eauto.
  - intros t' Hn. destruct (serial_fresh _ _ Hs t' Hn) as (? & ? & ?).
    assert (t ≠ t') as Hne by (intros ->; congruence).
    rewrite lookup_insert_ne by done. split_and!; [done|done|]. rewrite fmap_app. set_solver.
Qed.

(** Only the owner of the gate does anything with the actor. *)
Lemma local_owner t st d st' :
  tasks s !! t = Some st → local st d st' → owner s = Some t ∧ status_lock_free st.
Proof.
  intros Ht Hl. destruct (serial_task _ _ Hs t st Ht) as (_ & _ & [H|(_ & op & _ & ->)]); [done|].
  pose proof (program_guarded op) as Hg. by inversion Hl as [? ? H|? ?|? H|? ?|? ? H]; rewrite <- H in Hg.
Qed.

Lemma serial_local t st d st' :
  tasks s !! t = Some st → local st d st' →
  ∃ segments',
    serial (mk (owner s) (<[t := st']> (tasks s)) (called s) (results s) (log s ++ [(t, d)])) segments'.
Proof.
  intros Ht Hl. destruct (local_owner t st d st' Ht Hl) as [Ho Hfree].
  destruct (serial_task _ _ Hs t st Ht) as (Hr & Hcalled & _).
  destruct (serial_owner _ _ Hs t Ho) as (_ & ds & before & Hseg).
  exists (before ++ [(t, ds ++ [d])]).
  assert ((before ++ [(t, ds ++ [d])]).*1 = segments.*1) as Hfst by (by rewrite Hseg, !fmap_app).
  pose proof (serial_once _ _ Hs) as Hdup. pose proof (serial_justified _ _ Hs) as Hj.
  assert (t ∉ before.*1) as Hin.
  { rewrite Hseg, fmap_app in Hdup. apply NoDup_app in Hdup as (_ & Hdup & _).
    intros Hin. apply (Hdup t Hin). by left. }
  split; cbn [log owner tasks results called]; rewrite ?Hfst.
  - rewrite (serial_log _ _ Hs), Hseg, !fmap_app, !concat_app, <- app_assoc. f_equal.
    unfold segment_log. cbn [fmap list_fmap concat fst snd]. by rewrite !app_nil_r, fmap_app.
  - done.
  - rewrite Hseg in Hj. apply Forall_app in Hj as [Hb Hlast]. apply Forall_app. split.
    + eapply segments_justified, Hb; cbn [tasks results called]; [done| |by left].
      intros t' st'' Hin'. rewrite lookup_insert_ne; [done|]. by intros <-.
    + apply Forall_singleton in Hlast as (op & rest & st0 & Hop & Hp & Ha & Hst & _).
      apply Forall_singleton. rewrite <- (Hst st Ht) in Ha.
      exists op, rest, st'. cbn [tasks results called].
      split_and!; [done|done|by eapply alone_snoc| |congruence].
      intros st''. rewrite lookup_insert_eq. by intros [= <-].
  - intros t' st''. destruct (decide (t' = t)) as [->|Hn].
    + rewrite lookup_insert_eq. intros [= <-]. split_and!; [done|done|left].
      split; [done|by eapply local_lock_free].
    + rewrite lookup_insert_ne by done. intros H. exact (serial_task _ _ Hs t' st'' H).
  - intros t' Ho'. assert (t' = t) as -> by congruence. rewrite lookup_insert_eq.
    split; [by eexists|by eauto].
  - apply Hs.
  - intros t' Hn. destruct (serial_fresh _ _ Hs t' Hn) as (? & ? & ?).
    assert (t ≠ t') as Hne by (intros ->; congruence). by rewrite lookup_insert_ne.
Qed.

(** A call ends, with a result or dropped. *)
Lemma serial_end t results' :
  is_Some (tasks s !! t) →
  (∀ t', t' ≠ t → results' !! t' = results s !! t') →
  (∀ result, results' !! t = Some result → tasks s !! t = Some (Running (Return result))) →
  serial (mk (released t (owner s)) (delete t (tasks s)) (called s) results' (log s)) segments.
Proof.
  intros [st Ht] Hother Hresult. destruct (serial_task _ _ Hs t st Ht) as (Hr & Hcalled & Hwhere).
  split; cbn [log owner tasks results called].
  - apply Hs.
  - apply Hs.
  - eapply segments_justified, Hs; cbn [tasks results called]; [done|intros t' st' _|intros t' result _].
    + by intros [_ H]%lookup_delete_Some.
    + destruct (decide (t' = t)) as [->|Hn]; [|rewrite Hother by done; by left].
      intros H. right. by apply Hresult.
  - intros t' st' [Hn H]%lookup_delete_Some. rewrite Hother by done.
    destruct (serial_task _ _ Hs t' st' H) as (? & ? & [[Ho Hf]|Hother']); split_and!; try done; [|by right].
    left. split; [|done]. unfold released. by rewrite Ho, decide_False by congruence.
  - intros t' Ho. unfold released in Ho. case_decide as Hd; [done|].
    destruct (serial_owner _ _ Hs t' Ho) as [H ?]. split; [|done].
    rewrite lookup_delete_ne by congruence. done.
  - intros t' result. destruct (decide (t' = t)) as [->|Hn].
    + intros H%Hresult. destruct Hwhere as [[Ho _]|(_ & op & Hop & Hp)].
      * left. destruct (serial_owner _ _ Hs t Ho) as (_ & ds & before & ->).
        rewrite fmap_app, elem_of_app. right. by left.
      * right. exists op. split; [done|]. congruence.
    + rewrite Hother by done. apply Hs.
  - intros t' Hn. destruct (serial_fresh _ _ Hs t' Hn) as (Ht' & Hr' & Hin).
    assert (t' ≠ t) as Hne by (intros ->; congruence).
    rewrite lookup_delete_ne, Hother by done. done.
Qed.
End steps.

Lemma running_serial s : running s → ∃ segments, serial s segments.
Proof.
  induction 1 as [|s s' _ [segments Hs] Hstep].
  { exists []. split; cbn; try done; [apply NoDup_nil_2|].
    intros t _. split_and!; [done..|]. by apply not_elem_of_nil. }
  destruct Hstep as [t operation s Hfresh|t rest s Ht Ho|t st d st' s Ht Hl|t result s Ht|t st s Ht].
  - exists segments. by apply serial_call.
  - eexists. by apply serial_lock.
  - by eapply serial_local.
  - exists segments. apply serial_end; [done|by eexists| |].
    + intros t' Hn. by rewrite lookup_insert_ne.
    + intros result'. rewrite lookup_insert_eq. by intros [= <-].
  - exists segments. apply serial_end; [done|by eexists|done|].
    intros result H. destruct (serial_task _ _ Hs t st Ht) as (Hnone & _). congruence.
Qed.

(** ** What a call was told determines its result *)

(** No request twice, and one shutdown and one receive loop at most *)
Fixpoint asks_once (seen : list Request.t) (closed received : bool) (call : Call.t) : Prop :=
  match call with
  | Return _ => True
  | Lock rest => asks_once seen closed received rest
  | Call.Send r rest => (r ∉ seen) ∧ ∀ reply, asks_once (r :: seen) closed received (rest reply)
  | Call.Shutdown rest => closed = false ∧ ∀ channel, asks_once seen true received (rest channel)
  | Receive rest => received = false ∧ ∀ events, asks_once seen closed true (rest events)
  end.

Lemma program_asks_once operation : asks_once [] false false (program operation).
Proof.
  assert (∀ r : Request.t, r ∉ []) as Hnil by (intros; by apply not_elem_of_nil).
  destruct operation as [r|p| | | | | | |[]]; cbn; try (split; [done|]); try done;
    try (unfold login; case_match; cbn; try done; split; [done|]).
  1-7: intros [response|e|]; try done; destruct response; cbn; try done; by repeat case_match.
  - intros reply. split; [|done]. by intros ?%list_elem_of_singleton.
Qed.

Lemma told_exists seen closed received call ds result answer events channel :
  asks_once seen closed received call → alone (Running call) ds (Running (Return result)) →
  ∃ answer' events' channel',
    told answer' events' channel' ds
    ∧ (∀ r, r ∈ seen → answer' r = answer r)
    ∧ (received = true → events' = events) ∧ (closed = true → channel' = channel).
Proof.
  revert seen closed received ds answer events channel.
  induction call as [res|c IH|r rest IH|rest IH|rest IH];
    intros seen closed received ds answer events channel Hasks Ha;
    inversion Ha as [|? ? ? ds0 ? Hl Ha']; subst; try (by inversion Hl).
  - by exists answer, events, channel.
  - inversion Hl; subst. inversion Ha' as [|? ? ? ds2 ? Hl2 Ha2]; subst. inversion Hl2; subst.
    destruct Hasks as [Hr Hasks].
    destruct (IH reply (r :: seen) closed received ds2 (λ r', if decide (r' = r) then reply else answer r')
      events channel (Hasks reply) Ha2) as (a & e & c & Ht & Hseen & He & Hc).
    exists a, e, c. split_and!; [|intros r' Hr'|done|done].
    + split; [|done]. rewrite Hseen by (by left). by rewrite decide_True.
    + rewrite Hseen by (by right). rewrite decide_False; [done|]. by intros ->.
  - inversion Hl; subst. inversion Ha' as [|? ? ? ds2 ? Hl2 Ha2]; subst. inversion Hl2; subst.
    destruct Hasks as [-> Hasks].
    destruct (IH channel0 seen true received ds2 answer events channel0 (Hasks channel0) Ha2)
      as (a & e & c & Ht & Hseen & He & Hc).
    exists a, e, c. split_and!; [split; [by rewrite Hc|done]|done|done|done].
  - inversion Hl; subst. destruct Hasks as [-> Hasks].
    destruct (IH events0 seen closed true ds0 answer events0 channel (Hasks events0) Ha')
      as (a & e & c & Ht & Hseen & He & Hc).
    exists a, e, c. split_and!; [split; [by rewrite He|done]|done|done|done].
Qed.

(** ** Properties *)

(** C17: calls through a client and its clones are serialized, however the tasks are scheduled and
    wherever calls are dropped. What reaches the actor and what is received from it is a
    sequence of blocks, one per call that got the gate, each of which is what the operation does
    on its own, from its start. A call that returned did so at the end of its block, or without
    one if it asks for nothing; the replies, the events and the channel it was told are those of
    some function from requests to replies, some list of events and some channel, and for all
    such its result is the one of the client's operation. The call that holds the gate never
    waits for it, so it can always go on. *)
Theorem calls_serialized (s : System) :
  running s →
  (∃ segments,
     log s = concat (segment_log <$> segments) ∧ NoDup segments.*1 ∧ Forall (justified s) segments
     ∧ ∀ t result, results s !! t = Some result →
         ∃ operation ds,
           called s !! t = Some operation ∧ ((t, ds) ∈ segments ∨ ds = [])
           ∧ (∃ answer events channel, told answer events channel ds)
           ∧ ∀ answer events channel, told answer events channel ds →
               client_result answer events channel operation = result)
  ∧ ∀ t, owner s = Some t →
      ∃ st, tasks s !! t = Some st
            ∧ ((∃ result, st = Running (Return result)) ∨ ∃ d st', local st d st').
Proof.
  intros Hrun. destruct (running_serial s Hrun) as [segments Hs]. split.
  - exists segments. split_and!; [apply Hs..|]. intros t result Hr.
    destruct (serial_result _ _ Hs t result Hr) as [Hin|(op & Hop & Hp)].
    + apply list_elem_of_fmap in Hin as ([t' ds] & -> & Hin).
      pose proof (proj1 (Forall_forall _ _) (serial_justified _ _ Hs) _ Hin)
        as (op & rest & st & Hop & Hp & Ha & _ & Hst).
      specialize (Hst result Hr) as ->. exists op, ds. split_and!; [done|by left| |].
      * pose proof (program_asks_once op) as Honce. rewrite Hp in Honce. cbn in Honce.
        destruct (told_exists _ _ _ _ _ _ (λ _, Panic) [] ShutdownChannel.ChannelClosed Honce Ha)
          as (a & e & c & Ht & _). by exists a, e, c.
      * intros answer events channel Ht. rewrite <- result_of_program, Hp. cbn.
        by eapply alone_result.
    + exists op, []. split_and!; [done|by right| |].
      * by exists (λ _, Panic), [], ShutdownChannel.ChannelClosed.
      * intros answer events channel _. by rewrite <- result_of_program, Hp.
  - intros t Ho. destruct (serial_owner _ _ Hs t Ho) as [[st Hst] _]. exists st. split; [done|].
    apply lock_free_progress.
    destruct (serial_task _ _ Hs t st Hst) as (_ & _ & [[_ H]|(Hin & _)]); [done|].
    destruct (serial_owner _ _ Hs t Ho) as (_ & ds & before & ->). destruct Hin.
    rewrite fmap_app, elem_of_app. right. by left.
Qed.

(** ** A schedule, executed *)
Module Move.
Inductive t :=
| Calls (task : nat) (operation : Operation.t)
| Locks (task : nat)
| Goes (task : nat) (d : Deed.t)
| Returns (task : nat)
| Drops (task : nat).
End Move.

Definition next (st : Status.t) (d : Deed.t) : option Status.t :=
  match st, d with
  | Running (Call.Send r rest), Sent r' => then_some (bool_decide (r = r')) (Awaiting rest)
  | Awaiting rest, Answered reply => Some (Running (rest reply))
  | Running (Call.Shutdown rest), SentShutdown => Some (Closing rest)
  | Closing rest, Closed channel => Some (Running (rest channel))
  | Running (Receive rest), Received events => Some (Running (rest events))
  | _, _ => None
  end.

Definition advance (s : System) (move : Move.t) : option System :=
  match move with
  | Move.Calls t operation =>
      match called s !! t with
      | None =>
          Some (mk (owner s) (<[t := Running (program operation)]> (tasks s))
                  (<[t := operation]> (called s)) (results s) (log s))
      | Some _ => None
      end
  | Move.Locks t =>
      match tasks s !! t, owner s with
      | Some (Running (Lock rest)), None =>
          Some (mk (Some t) (<[t := Running rest]> (tasks s)) (called s) (results s)
                  (log s ++ [(t, Locked)]))
      | _, _ => None
      end
  | Move.Goes t d =>
      st ← tasks s !! t;
      st' ← next st d;
      Some (mk (owner s) (<[t := st']> (tasks s)) (called s) (results s) (log s ++ [(t, d)]))
  | Move.Returns t =>
      match tasks s !! t with
      | Some (Running (Return result)) =>
          Some (mk (released t (owner s)) (delete t (tasks s)) (called s)
                  (<[t := result]> (results s)) (log s))
      | _ => None
      end
  | Move.Drops t =>
      _ ← tasks s !! t;
      Some (mk (released t (owner s)) (delete t (tasks s)) (called s) (results s) (log s))
  end.

Fixpoint scheduled (moves : list Move.t) (s : System) : option System :=
  match moves with
  | [] => Some s
  | move :: moves => s ← advance s move; scheduled moves s
  end.

Lemma next_local st d st' : next st d = Some st' → local st d st'.
Proof.
  destruct st as [[]|rest|rest], d; cbn; try done; try (intros [= <-]; constructor).
  unfold then_some. case_bool_decide as Hr; [|done]. intros [= <-]. rewrite <- Hr. constructor.
Qed.

Lemma advance_step s move s' : advance s move = Some s' → step s s'.
Proof.
  destruct move as [t op|t|t d|t|t]; cbn.
  - destruct (called s !! t) eqn:Hc; [done|]. intros [= <-]. by constructor.
  - destruct (tasks s !! t) as [[[]| |]|] eqn:Ht; try done. destruct (owner s) eqn:Ho; [done|].
    intros [= <-]. by constructor.
  - intros (st & Ht & (st' & Hn & [= <-])%bind_Some)%bind_Some. econstructor; [done|].
    by apply next_local.
  - destruct (tasks s !! t) as [[[]| |]|] eqn:Ht; try done. intros [= <-]. by constructor.
  - intros (st & Ht & [= <-])%bind_Some. by econstructor.
Qed.

Lemma scheduled_running moves s s' : running s → scheduled moves s = Some s' → running s'.
Proof.
  revert s. induction moves as [|move moves IH]; intros s Hs; [by intros [= <-]|].
  intros (s1 & Hstep & Hrest)%bind_Some. eapply IH, Hrest. eapply running_step; [done|].
  by eapply advance_step.
Qed.

(** A discovery and a shutdown, called while the discovery waits: it gets the gate when the
    discovery has returned. *)
Definition sample_moves : list Move.t :=
  [Move.Calls 0 Operation.DiscoverNodes; Move.Locks 0;
   Move.Goes 0 (Sent Request.GetAllNodesInformation);
   Move.Calls 1 (Operation.Shutdown true);
   Move.Goes 0 (Answered (Ok (Response.AllNodesInformationAccepted 0 0)));
   Move.Goes 0 (Received [Recv.Event (ConnectionEvent.Notification
     (Response.Acknowledgement GW_GET_ALL_NODES_INFORMATION_FINISHED_NTF))]);
   Move.Returns 0; Move.Locks 1; Move.Goes 1 (Sent Request.HouseStatusMonitorDisable)].

Lemma calls_serialized_witness :
  ∃ s segments,
    running s ∧ results s !! 0%nat = Some (Ok (Value.Nodes [])) ∧ owner s = Some 1%nat
    ∧ log s = concat (segment_log <$> segments).
Proof.
  assert (∃ s, scheduled sample_moves initial = Some s
               ∧ results s !! 0%nat = Some (Ok (Value.Nodes [])) ∧ owner s = Some 1%nat)
    as (s & Hs & Hr & Ho)
    by (eexists; split; [vm_compute; reflexivity|split; vm_compute; reflexivity]).
  pose proof (scheduled_running _ _ _ running_initial Hs) as Hrun.
  destruct (calls_serialized s Hrun) as [(segments & Hlog & _) _].
  exists s, segments. split; [exact Hrun|]. split; [exact Hr|]. split; [exact Ho|exact Hlog].
Defined.
