(* ===== verification/VeluxNode.v ===== *)
(** * The node model (veluxnode.rs)

    A cover as the bridge knows it: what discovery, notifications and command confirmations
    say about it, the state derived for MQTT, the resolution of cover actions, and the cache
    of all nodes. *)

From stdpp Require Import sorting.
From S2P Require Import Prelude RustStd CommandIds Error Types Command ResponseTypes.

Module ActuatorType.
Inductive t :=
| VenetianBlind | RollerShutter | Awning | WindowOpener | GarageOpener | Light | GateOpener
| RollingDoorOpener | Lock | Blind | Beacon | DualShutter | HeatingTemperatureInterface
| OnOffSwitch | HorizontalAwning | ExteriorVenetianBlind | LouvreBlind | CurtainTrack
| VentilationPoint | ExteriorHeating | HeatPump | IntrusionAlarm | SwingingShutter
| Unknown (code : Z).
Global Instance eq_dec : EqDecision t.
Proof. solve_decision. Defined.

Definition code (a : t) : Z :=
  match a with
  | VenetianBlind => 1 | RollerShutter => 2 | Awning => 3 | WindowOpener => 4
  | GarageOpener => 5 | Light => 6 | GateOpener => 7 | RollingDoorOpener => 8 | Lock => 9
  | Blind => 10 | Beacon => 12 | DualShutter => 13 | HeatingTemperatureInterface => 14
  | OnOffSwitch => 15 | HorizontalAwning => 16 | ExteriorVenetianBlind => 17 | LouvreBlind => 18
  | CurtainTrack => 19 | VentilationPoint => 20 | ExteriorHeating => 21 | HeatPump => 22
  | IntrusionAlarm => 23 | SwingingShutter => 24
  | Unknown code => code
  end.

Definition from_code (code : Z) : t :=
  match code with
  | 1 => VenetianBlind | 2 => RollerShutter | 3 => Awning | 4 => WindowOpener
  | 5 => GarageOpener | 6 => Light | 7 => GateOpener | 8 => RollingDoorOpener | 9 => Lock
  | 10 => Blind | 12 => Beacon | 13 => DualShutter | 14 => HeatingTemperatureInterface
  | 15 => OnOffSwitch | 16 => HorizontalAwning | 17 => ExteriorVenetianBlind | 18 => LouvreBlind
  | 19 => CurtainTrack | 20 => VentilationPoint | 21 => ExteriorHeating | 22 => HeatPump
  | 23 => IntrusionAlarm | 24 => SwingingShutter
  | code => Unknown code
  end.

Definition label (a : t) : string :=
  match a with
  | VenetianBlind => "venetian_blind"
  | RollerShutter => "roller_shutter"
  | Awning => "awning"
  | WindowOpener => "window_opener"
  | GarageOpener => "garage_opener"
  | Light => "light"
  | GateOpener => "gate_opener"
  | RollingDoorOpener => "rolling_door_opener"
  | Lock => "lock"
  | Blind => "blind"
  | Beacon => "beacon"
  | DualShutter => "dual_shutter"
  | HeatingTemperatureInterface => "heating_temperature_interface"
  | OnOffSwitch => "on_off_switch"
  | HorizontalAwning => "horizontal_awning"
  | ExteriorVenetianBlind => "exterior_venetian_blind"
  | LouvreBlind => "louvre_blind"
  | CurtainTrack => "curtain_track"
  | VentilationPoint => "ventilation_point"
  | ExteriorHeating => "exterior_heating"
  | HeatPump => "heat_pump"
  | IntrusionAlarm => "intrusion_alarm"
  | SwingingShutter => "swinging_shutter"
  | Unknown _ => "unknown"
  end.
End ActuatorType.

Module CoverStrategy.
Inductive t := MainParameter.
Global Instance eq_dec : EqDecision t.
Proof. solve_decision. Defined.

Definition for_actuator (actuator_type : ActuatorType.t) : option t :=
  match actuator_type with
  | ActuatorType.VenetianBlind | ActuatorType.RollerShutter | ActuatorType.Awning
  | ActuatorType.WindowOpener | ActuatorType.GarageOpener | ActuatorType.GateOpener
  | ActuatorType.RollingDoorOpener | ActuatorType.Blind | ActuatorType.HorizontalAwning
  | ActuatorType.ExteriorVenetianBlind | ActuatorType.LouvreBlind | ActuatorType.CurtainTrack
  | ActuatorType.SwingingShutter => Some MainParameter
  | ActuatorType.Light | ActuatorType.Lock | ActuatorType.Beacon | ActuatorType.DualShutter
  | ActuatorType.HeatingTemperatureInterface | ActuatorType.OnOffSwitch
  | ActuatorType.VentilationPoint | ActuatorType.ExteriorHeating | ActuatorType.HeatPump
  | ActuatorType.IntrusionAlarm | ActuatorType.Unknown _ => None
  end.
End CoverStrategy.

Module CoverState.
Inductive t := Open | Closed | Opening | Closing | Unknown.
Global Instance eq_dec : EqDecision t.
Proof. solve_decision. Defined.
End CoverState.

Module Availability.
Inductive t := Available | Unavailable.
Global Instance eq_dec : EqDecision t.
Proof. solve_decision. Defined.
End Availability.

Module StatusSource.
Inductive t := Discovery | Notification | Poll | Command.
Global Instance eq_dec : EqDecision t.
Proof. solve_decision. Defined.
End StatusSource.

Module StatusFreshness.
Record t := mk { source : StatusSource.t; timestamp : option ProtocolTimestamp.t }.
Global Instance eq_dec : EqDecision t.
Proof. solve_decision. Defined.
End StatusFreshness.

Module CoverAction.
Inductive t := Open | Close | Toggle.
Global Instance eq_dec : EqDecision t.
Proof. solve_decision. Defined.
End CoverAction.

Module CoverEndpoint.
Inductive t := Open | Closed.
Global Instance eq_dec : EqDecision t.
Proof. solve_decision. Defined.

Definition parameter (e : t) : StandardParameter.t :=
  match e with
  | Open => StandardParameter.Relative Percentage.FULLY_OPEN
  | Closed => StandardParameter.Relative Percentage.FULLY_CLOSED
  end.
End CoverEndpoint.

Module NodeError.
Inductive t :=
| UnsupportedActuator (node_id : NodeId.t)
| PositionUnknown (node_id : NodeId.t)
| Protocol (message : string).
Global Instance eq_dec : EqDecision t.
Proof. solve_decision. Defined.
End NodeError.

(** ** Positions and states *)
Definition derive_cover_state (operating_state : OperatingState.t)
    (current_position target_position : option Percentage.t) : CoverState.t :=
  match operating_state with
  | OperatingState.Executing | OperatingState.WaitingForPower =>
      match current_position, target_position with
      | Some current, Some target =>
          if Percentage.raw target >? Percentage.raw current then CoverState.Closing
          else if Percentage.raw target <? Percentage.raw current then CoverState.Opening
          else CoverState.Unknown
      | _, _ => CoverState.Unknown
      end
  | OperatingState.NonExecuting | OperatingState.Done =>
      match current_position with
      | Some position =>
          if decide (position = Percentage.FULLY_CLOSED) then CoverState.Closed else CoverState.Open
      | None => CoverState.Unknown
      end
  | OperatingState.ExecutionError | OperatingState.NotUsed | OperatingState.Unknown _ =>
      CoverState.Unknown
  end.

Definition relative_position (parameter : StandardParameter.t) : option Percentage.t :=
  match parameter with StandardParameter.Relative position => Some position | _ => None end.

(** [100_u8.saturating_sub(position.rounded_percent())] *)
Definition mqtt_open_percent (position : Percentage.t) : Z :=
  Z.max 0 (100 - Percentage.rounded_percent position).

Definition known_remaining_time (seconds : Z) : option Z :=
  then_some (negb (seconds =? 65535)) seconds.

Definition operating_state_from_run_status (run_status : RunStatus.t) : OperatingState.t :=
  match run_status with
  | RunStatus.Completed => OperatingState.Done
  | RunStatus.Failed => OperatingState.ExecutionError
  | RunStatus.Active => OperatingState.Executing
  | RunStatus.Unknown value => OperatingState.Unknown value
  end.

Definition operating_state_label (operating_state : OperatingState.t) : string :=
  match operating_state with
  | OperatingState.NonExecuting => "nonexecuting"
  | OperatingState.ExecutionError => "execution_error"
  | OperatingState.NotUsed => "not_used"
  | OperatingState.WaitingForPower => "waiting_for_power"
  | OperatingState.Executing => "executing"
  | OperatingState.Done => "done"
  | OperatingState.Unknown _ => "unknown"
  end.

Module CoverStatusSnapshot.
Record t := mk {
  state : CoverState.t;
  position : option Z;
  target : option Z;
  operating_state : string;
  remaining_time : option Z
}.
Global Instance eq_dec : EqDecision t.
Proof. solve_decision. Defined.
End CoverStatusSnapshot.

(** ** A node *)
Module VeluxNode.
Record t := mk {
  id : NodeId.t;
  name : string;
  order : Z;
  placement : Z;
  serial_number : list Z;
  node_type_sub_type : Z;
  actuator_type : ActuatorType.t;
  actuator_subtype : Z;
  product_group : Z;
  product_type : Z;
  velocity : Z;
  variation : Z;
  power_mode : Z;
  build_number : Z;
  cover_strategy : option CoverStrategy.t;
  availability : Availability.t;
  operating_state : OperatingState.t;
  current_position : option Percentage.t;
  target_position : option Percentage.t;
  remaining_time : option Z;
  freshness : option StatusFreshness.t
}.
Global Instance eq_dec : EqDecision t.
Proof. solve_decision. Defined.

(** The assignments to the status fields that the operations below share. *)
Definition set_status (n : t) (availability : Availability.t) (operating_state : OperatingState.t)
    (current_position target_position : option Percentage.t) (remaining_time : option Z)
    (freshness : StatusFreshness.t) : t :=
  mk (id n) (name n) (order n) (placement n) (serial_number n) (node_type_sub_type n)
    (actuator_type n) (actuator_subtype n) (product_group n) (product_type n) (velocity n)
    (variation n) (power_mode n) (build_number n) (cover_strategy n) availability operating_state
    current_position target_position remaining_time (Some freshness).

Definition from_information (i : NodeInformation.t) : t :=
  let type := NodeInformation.node_type_sub_type i in
  let actuator_type := ActuatorType.from_code (Z.shiftr type 6) in
  mk (NodeInformation.node_id i) (NodeInformation.name i) (NodeInformation.order i)
    (NodeInformation.placement i) (NodeInformation.serial_number i) type actuator_type
    (Z.land type 0x3F) (NodeInformation.product_group i) (NodeInformation.product_type i)
    (NodeInformation.velocity i) (NodeInformation.variation i) (NodeInformation.power_mode i)
    (NodeInformation.build_number i) (CoverStrategy.for_actuator actuator_type)
    Availability.Available (NodeInformation.operating_state i)
    (relative_position (NodeInformation.current_position i))
    (relative_position (NodeInformation.target_position i))
    (known_remaining_time (NodeInformation.remaining_time i))
    (Some (StatusFreshness.mk StatusSource.Discovery (Some (NodeInformation.timestamp i)))).

Definition is_controllable (n : t) : bool := if cover_strategy n is Some _ then true else false.

Definition state (n : t) : CoverState.t :=
  derive_cover_state (operating_state n) (current_position n) (target_position n).

Definition snapshot (n : t) : CoverStatusSnapshot.t :=
  CoverStatusSnapshot.mk (state n) (mqtt_open_percent <$> current_position n)
    (mqtt_open_percent <$> target_position n) (operating_state_label (operating_state n))
    (remaining_time n).

Definition serial_number_hex (n : t) : string :=
  String.string_of_list_ascii
    (serial_number n ≫= λ byte,
       [KlfError.hex_digit_lower (Z.shiftr byte 4); KlfError.hex_digit_lower (Z.land byte 0x0F)]).

Definition toggle_endpoint (n : t) : outcome NodeError.t CoverEndpoint.t :=
  let from_position :=
    ok_or ((λ position, if Percentage.raw (Percentage.from_percent 50) <=? Percentage.raw position
                        then CoverEndpoint.Open else CoverEndpoint.Closed)
             <$> current_position n)
      (NodeError.PositionUnknown (id n)) in
  match operating_state n with
  | OperatingState.Executing | OperatingState.WaitingForPower =>
      if decide (target_position n = Some Percentage.FULLY_CLOSED) then Ok CoverEndpoint.Open
      else if decide (target_position n = Some Percentage.FULLY_OPEN) then Ok CoverEndpoint.Closed
      else match state n with
           | CoverState.Closing => Ok CoverEndpoint.Open
           | CoverState.Opening => Ok CoverEndpoint.Closed
           | _ => from_position
           end
  | _ => from_position
  end.

Definition resolve_action (n : t) (action : CoverAction.t) : outcome NodeError.t CoverEndpoint.t :=
  match action with
  | CoverAction.Open => Ok CoverEndpoint.Open
  | CoverAction.Close => Ok CoverEndpoint.Closed
  | CoverAction.Toggle => toggle_endpoint n
  end.

Definition command_request (n : t) (session_id : SessionId.t) (action : CoverAction.t)
    : outcome NodeError.t Request.t :=
  if negb (is_controllable n) then Err (NodeError.UnsupportedActuator (id n))
  else
    endpoint ← resolve_action n action;
    match CommandTarget.new [id n] with
    | Ok target =>
        Ok (Request.CommandSend (CommandRequest.new session_id (CoverEndpoint.parameter endpoint))
              target)
    | Err error => Err (NodeError.Protocol (KlfError.display error))
    | Panic => Panic
    end.

(** [*self != previous] *)
Definition changed (n n' : t) : t * bool := (n', bool_decide (n' ≠ n)).

Definition mark_command_accepted (n : t) (endpoint : CoverEndpoint.t) : t * bool :=
  changed n
    (set_status n (availability n) OperatingState.Executing (current_position n)
       (match endpoint with
        | CoverEndpoint.Open => Some Percentage.FULLY_OPEN
        | CoverEndpoint.Closed => Some Percentage.FULLY_CLOSED
        end) (remaining_time n) (StatusFreshness.mk StatusSource.Command None)).

Definition apply_command_confirmation (n : t) (response : Response.t) (session_id : SessionId.t)
    (endpoint : CoverEndpoint.t) : t * bool :=
  match response with
  | Response.CommandAccepted confirmed status =>
      if (status =? 1) && bool_decide (confirmed = session_id)
      then mark_command_accepted n endpoint else (n, false)
  | _ => (n, false)
  end.

Definition apply_information_changed (n : t) (i : NodeInformationChanged.t) : t * bool :=
  if decide (NodeInformationChanged.node_id i = id n) then
    changed n
      (mk (id n) (NodeInformationChanged.name i) (NodeInformationChanged.order i)
         (NodeInformationChanged.placement i) (serial_number n) (node_type_sub_type n)
         (actuator_type n) (actuator_subtype n) (product_group n) (product_type n) (velocity n)
         (NodeInformationChanged.variation i) (power_mode n) (build_number n) (cover_strategy n)
         (availability n) (operating_state n) (current_position n) (target_position n)
         (remaining_time n) (freshness n))
  else (n, false).

Definition apply_state_position (n : t) (s : NodeStatePosition.t) (source : StatusSource.t)
    : t * bool :=
  if decide (NodeStatePosition.node_id s = id n) then
    changed n
      (set_status n Availability.Available (NodeStatePosition.operating_state s)
         (relative_position (NodeStatePosition.current_position s))
         (relative_position (NodeStatePosition.target_position s))
         (known_remaining_time (NodeStatePosition.remaining_time s))
         (StatusFreshness.mk source (Some (NodeStatePosition.timestamp s))))
  else (n, false).

Definition apply_status (n : t) (s : StatusNotification.t) (source : StatusSource.t) : t * bool :=
  if decide (StatusNotification.node_id s = id n) then
    match StatusNotification.detail s with
    | StatusNotificationDetail.Main target_position current_position remaining_time _ _ =>
        changed n
          (set_status n Availability.Available
             (operating_state_from_run_status (StatusNotification.run_status s))
             (relative_position current_position) (relative_position target_position)
             (known_remaining_time remaining_time) (StatusFreshness.mk source None))
    | _ => (n, false)
    end
  else (n, false).

Definition apply_run_status (n : t) (s : CommandRunStatus.t) : t * bool :=
  if decide (CommandRunStatus.node_id s = id n) then
    changed n
      (set_status n (availability n)
         (operating_state_from_run_status (CommandRunStatus.run_status s))
         (if CommandRunStatus.node_parameter s =? 0
          then relative_position (CommandRunStatus.parameter_value s) else current_position n)
         (target_position n)
         (match CommandRunStatus.run_status s with
          | RunStatus.Completed => Some 0
          | RunStatus.Failed => None
          | RunStatus.Active | RunStatus.Unknown _ => remaining_time n
          end)
         (StatusFreshness.mk StatusSource.Notification None))
  else (n, false).

Definition set_available (n : t) (available : bool) : t * bool :=
  let value := if available then Availability.Available else Availability.Unavailable in
  if decide (availability n = value) then (n, false)
  else
    (mk (id n) (name n) (order n) (placement n) (serial_number n) (node_type_sub_type n)
       (actuator_type n) (actuator_subtype n) (product_group n) (product_type n) (velocity n)
       (variation n) (power_mode n) (build_number n) (cover_strategy n) value
       (operating_state n) (current_position n) (target_position n) (remaining_time n)
       (freshness n), true).

(** The [CommandRemainingTime] arm of [VeluxNodeCache::apply_response] *)
Definition apply_remaining_time (n : t) (seconds : Z) : t * bool :=
  let updated := known_remaining_time seconds in
  if decide (remaining_time n = updated) then (n, false)
  else
    (set_status n (availability n) (operating_state n) (current_position n) (target_position n)
       updated (StatusFreshness.mk StatusSource.Notification None), true).

Definition mark_status_unknown (n : t) : t * bool :=
  changed n
    (set_status n (availability n) (OperatingState.Unknown 255) None None None
       (StatusFreshness.mk StatusSource.Poll None)).
End VeluxNode.

(** ** The cache: a [BTreeMap], iterated in the order of its keys *)
Module ReconcileResult.
Record t := mk { added : list NodeId.t; updated : list NodeId.t; removed : list NodeId.t }.
Definition default : t := mk [] [] [].
End ReconcileResult.

Definition node_id_le (a b : NodeId.t) : Prop := NodeId.get a ≤ NodeId.get b.
Global Instance node_id_le_dec a b : Decision (node_id_le a b) := ltac:(unfold node_id_le; apply _).

Definition sorted_keys {A} (m : gmap NodeId.t A) : list NodeId.t :=
  merge_sort node_id_le (map_to_list m).*1.

Module VeluxNodeCache.
Abbreviation t := (gmap NodeId.t VeluxNode.t) (only parsing).
Definition new : t := ∅.

Definition get (nodes : t) (node_id : NodeId.t) : option VeluxNode.t := nodes !! node_id.

(** [self.nodes.get_mut(&id).and_then(|node| f(node).then_some(node.id))] *)
Definition update (nodes : t) (node_id : NodeId.t) (f : VeluxNode.t → VeluxNode.t * bool)
    : t * option NodeId.t :=
  match nodes !! node_id with
  | None => (nodes, None)
  | Some node =>
      let (node, changed) := f node in
      (<[node_id := node]> nodes, then_some changed (VeluxNode.id node))
  end.

(** The first loop of [reconcile] *)
Fixpoint reconcile_present (nodes : t) (result : ReconcileResult.t)
    (information : list NodeInformation.t) : t * ReconcileResult.t :=
  match information with
  | [] => (nodes, result)
  | i :: information =>
      let node := VeluxNode.from_information i in
      let id := VeluxNode.id node in
      let (added, updated, removed) := result in
      let result :=
        match nodes !! id with
        | None => ReconcileResult.mk (added ++ [id]) updated removed
        | Some existing =>
            if decide (existing ≠ node) then ReconcileResult.mk added (updated ++ [id]) removed
            else result
        end in
      reconcile_present (<[id := node]> nodes) result information
  end.

Definition reconcile (nodes : t) (information : list NodeInformation.t) : t * ReconcileResult.t :=
  let present : gset NodeId.t := list_to_set (NodeInformation.node_id <$> information) in
  let (nodes, result) := reconcile_present nodes ReconcileResult.default information in
  let removed := List.filter (λ id, bool_decide (id ∉ present)) (sorted_keys nodes) in
  (foldl (λ nodes id, delete id nodes) nodes removed,
   ReconcileResult.mk (ReconcileResult.added result) (ReconcileResult.updated result) removed).

Definition apply_response (nodes : t) (response : Response.t) : t * option NodeId.t :=
  match response with
  | Response.NodeInformation information =>
      let node := VeluxNode.from_information information in
      let id := VeluxNode.id node in
      (<[id := node]> nodes, then_some (bool_decide (nodes !! id ≠ Some node)) id)
  | Response.NodeInformationChanged information =>
      update nodes (NodeInformationChanged.node_id information)
        (λ node, VeluxNode.apply_information_changed node information)
  | Response.NodeStatePosition state =>
      update nodes (NodeStatePosition.node_id state)
        (λ node, VeluxNode.apply_state_position node state StatusSource.Notification)
  | Response.StatusNotification status =>
      update nodes (StatusNotification.node_id status)
        (λ node, VeluxNode.apply_status node status StatusSource.Poll)
  | Response.CommandRunStatus status =>
      update nodes (CommandRunStatus.node_id status)
        (λ node, VeluxNode.apply_run_status node status)
  | Response.CommandRemainingTime _ node_id _ seconds =>
      update nodes node_id (λ node, VeluxNode.apply_remaining_time node seconds)
  | _ => (nodes, None)
  end.

Definition set_all_available (nodes : t) (available : bool) : t * list NodeId.t :=
  (fst ∘ (λ node, VeluxNode.set_available node available) <$> nodes,
   omap (λ key, node ← nodes !! key;
                then_some (snd (VeluxNode.set_available node available)) (VeluxNode.id node))
     (sorted_keys nodes)).
End VeluxNodeCache.
