(* ===== verification/NodeFacts.v ===== *)
(** * What the node model guarantees

    The invariant of a node and of the cache, kept by every operation; the MQTT snapshot of
    a node; the resolution of cover actions into requests; and the specifications of
    [reconcile], [apply_response] and [set_all_available]. *)

From stdpp Require Import sorting.
From S2P Require Import Prelude RustStd CommandIds Error Types Frame Command CommandLayout.
From S2P Require Import ResponseTypes ResponseFacts VeluxNode.

(** ** The invariant *)
Definition position_wf (o : option Percentage.t) : Prop :=
  if o is Some p then ParameterFacts.percentage_wf p else True.

Definition remaining_wf (o : option Z) : Prop := if o is Some s then 0 ≤ s < 65535 else True.

Definition velux_node_wf (n : VeluxNode.t) : Prop :=
  node_wf (VeluxNode.id n) ∧ is_str (VeluxNode.name n)
  ∧ byte_array 8 (VeluxNode.serial_number n)
  ∧ VeluxNode.actuator_type n
    = ActuatorType.from_code (Z.shiftr (VeluxNode.node_type_sub_type n) 6)
  ∧ 0 ≤ VeluxNode.actuator_subtype n < 64
  ∧ VeluxNode.cover_strategy n = CoverStrategy.for_actuator (VeluxNode.actuator_type n)
  ∧ position_wf (VeluxNode.current_position n) ∧ position_wf (VeluxNode.target_position n)
  ∧ remaining_wf (VeluxNode.remaining_time n).

(** Every node is stored under its own identifier. *)
Definition cache_wf (nodes : VeluxNodeCache.t) : Prop :=
  map_Forall (λ id n, VeluxNode.id n = id ∧ velux_node_wf n) nodes.

(** The MQTT direction of a position: open percent decreases as the raw value grows. *)
Definition moving (n : VeluxNode.t) : Prop :=
  VeluxNode.operating_state n = OperatingState.Executing
  ∨ VeluxNode.operating_state n = OperatingState.WaitingForPower.

Definition resting (n : VeluxNode.t) : Prop :=
  VeluxNode.operating_state n = OperatingState.NonExecuting
  ∨ VeluxNode.operating_state n = OperatingState.Done.

Global Instance moving_dec n : Decision (moving n).
Proof. unfold moving. apply _. Defined.

(** ** Fields *)
Lemma relative_position_wf p : parameter_wf p → position_wf (relative_position p).
Proof. by destruct p. Qed.

Lemma known_remaining_time_wf s : is_u16 s → remaining_wf (known_remaining_time s).
Proof.
  unfold known_remaining_time, remaining_wf, is_u16. intros.
  destruct (Z.eqb_spec s 65535); simpl; [done|lia].
Qed.

#[export] Hint Resolve relative_position_wf known_remaining_time_wf : klf.

Lemma actuator_code_from_code c : ActuatorType.code (ActuatorType.from_code c) = c.
Proof. by unfold ActuatorType.from_code; repeat case_match. Qed.

Lemma mqtt_open_percent_range p :
  ParameterFacts.percentage_wf p → 0 ≤ mqtt_open_percent p ≤ 100.
Proof.
  intros H. apply ParameterFacts.rounded_percent_nearest in H. unfold mqtt_open_percent. lia.
Qed.

Lemma mqtt_open_percent_antitone p q :
  Percentage.raw p ≤ Percentage.raw q → mqtt_open_percent q ≤ mqtt_open_percent p.
Proof.
  intros H. unfold mqtt_open_percent, Percentage.rounded_percent.
  assert ((Percentage.raw p + 256) / 512 ≤ (Percentage.raw q + 256) / 512)
    by (apply Z.div_le_mono; lia).
  repeat case_match; lia.
Qed.

(** ** Every operation keeps the node's identity and its invariant *)
Definition keeps (n n' : VeluxNode.t) : Prop :=
  VeluxNode.id n' = VeluxNode.id n ∧ (velux_node_wf n → velux_node_wf n').

Lemma keeps_refl n : keeps n n.
Proof. by split. Qed.

Lemma set_status_keeps n a o c t r f :
  (velux_node_wf n → position_wf c ∧ position_wf t ∧ remaining_wf r) →
  keeps n (VeluxNode.set_status n a o c t r f).
Proof.
  intros H. split; [done|]. intros Hn. pose proof (H Hn) as (?&?&?).
  unfold velux_node_wf in *. destruct n; simpl in *. tauto.
Qed.

Lemma mark_command_accepted_keeps n e : keeps n (VeluxNode.mark_command_accepted n e).1.
Proof.
  apply set_status_keeps. intros (_&_&_&_&_&_&?&_&?). split_and!; [done| |done].
  by destruct e; apply (bool_decide_unpack _); vm_compute.
Qed.

Lemma apply_command_confirmation_keeps n r s e :
  keeps n (VeluxNode.apply_command_confirmation n r s e).1.
Proof.
  unfold VeluxNode.apply_command_confirmation.
  repeat case_match; apply keeps_refl || apply mark_command_accepted_keeps.
Qed.

Lemma apply_information_changed_keeps n i :
  node_information_changed_wf i → keeps n (VeluxNode.apply_information_changed n i).1.
Proof.
  intros Hi. unfold VeluxNode.apply_information_changed. case_decide; [|apply keeps_refl].
  destruct i, Hi as (_&?&_). split; [done|]. intros (?&_&Hn). split; [done|]. by split.
Qed.

Lemma apply_state_position_keeps n s src :
  node_state_position_wf s → keeps n (VeluxNode.apply_state_position n s src).1.
Proof.
  intros Hs. unfold VeluxNode.apply_state_position. case_decide; [|apply keeps_refl].
  apply set_status_keeps. intros _. destruct s, Hs as (_&_&?&?&_&_&?&_). auto with klf.
Qed.

Lemma apply_status_keeps n s src :
  status_notification_wf s → keeps n (VeluxNode.apply_status n s src).1.
Proof.
  intros Hs. unfold VeluxNode.apply_status. case_decide; [|apply keeps_refl].
  destruct s as [? ? ? ? ? detail], Hs as (_&_&_&_&_&Hd). simpl.
  destruct detail; try apply keeps_refl. destruct Hd as (?&?&?&_).
  apply set_status_keeps. auto with klf.
Qed.

Lemma apply_run_status_keeps n s :
  command_run_status_wf s → keeps n (VeluxNode.apply_run_status n s).1.
Proof.
  intros Hs. unfold VeluxNode.apply_run_status. case_decide; [|apply keeps_refl].
  apply set_status_keeps. intros (_&_&_&_&_&_&?&?&?).
  destruct s as [? ? ? ? ? run ? ?], Hs as (_&_&_&_&?&_). simpl in *. split_and!; [|done|].
  - case_match; auto with klf.
  - by destruct run; simpl.
Qed.

Lemma set_available_keeps n b : keeps n (VeluxNode.set_available n b).1.
Proof. unfold VeluxNode.set_available. case_decide; [apply keeps_refl|]. by split. Qed.

Lemma apply_remaining_time_keeps n s :
  is_u16 s → keeps n (VeluxNode.apply_remaining_time n s).1.
Proof.
  intros. unfold VeluxNode.apply_remaining_time. case_decide; [apply keeps_refl|].
  apply set_status_keeps. intros (_&_&_&_&_&_&?&?&_). auto with klf.
Qed.

Lemma mark_status_unknown_keeps n : keeps n (VeluxNode.mark_status_unknown n).1.
Proof. by apply set_status_keeps. Qed.

Lemma from_information_wf i :
  node_information_wf i → velux_node_wf (VeluxNode.from_information i).
Proof.
  destruct i. intros (?&_&_&?&_&?&_&_&_&_&_&?&_&?&?&_&_&?&_).
  unfold velux_node_wf, VeluxNode.from_information; cbn -[Z.land Z.shiftr].
  split_and!; auto with klf.
  - change 63 with (Z.ones 6). rewrite Z.land_ones by lia. width_lia.
  - change 63 with (Z.ones 6). rewrite Z.land_ones by lia. width_lia.
Qed.

(** ** The state published for a cover *)
(** The MQTT snapshot of a well-formed node is consistent: positions are open percentages in
    0..100; a cover is published as closed only at open percent 0 and as open or closed only
    while it rests at a known position; a cover published as opening (closing) has a known
    current and target position with the target not below (not above) the current one. *)
Theorem snapshot_consistent (n : VeluxNode.t) :
  velux_node_wf n →
  let s := VeluxNode.snapshot n in
  (if CoverStatusSnapshot.position s is Some p then 0 ≤ p ≤ 100 else True)
  ∧ (if CoverStatusSnapshot.target s is Some t then 0 ≤ t ≤ 100 else True)
  ∧ match CoverStatusSnapshot.state s with
    | CoverState.Closed => resting n ∧ CoverStatusSnapshot.position s = Some 0
    | CoverState.Open =>
        resting n ∧ ∃ p, CoverStatusSnapshot.position s = Some p
                         ∧ VeluxNode.current_position n ≠ Some Percentage.FULLY_CLOSED
    | CoverState.Opening =>
        moving n ∧ ∃ p t, CoverStatusSnapshot.position s = Some p
                          ∧ CoverStatusSnapshot.target s = Some t ∧ p ≤ t
    | CoverState.Closing =>
        moving n ∧ ∃ p t, CoverStatusSnapshot.position s = Some p
                          ∧ CoverStatusSnapshot.target s = Some t ∧ t ≤ p
    | CoverState.Unknown =>
        VeluxNode.current_position n = None ∨ ¬ resting n
    end.
Proof.
  intros (_&_&_&_&_&_&Hc&Ht&_). unfold VeluxNode.snapshot; simpl.
  unfold position_wf, VeluxNode.state, derive_cover_state, moving, resting in *.
  destruct (VeluxNode.current_position n) as [c|] eqn:Ec,
    (VeluxNode.target_position n) as [t|] eqn:Et; simpl;
    (split; [try done; by apply mqtt_open_percent_range|]);
    (split; [try done; by apply mqtt_open_percent_range|]);
    destruct (VeluxNode.operating_state n); repeat case_match; simplify_eq/=;
    try (left; done); try (right; naive_solver);
    try (split; [by auto|]); eauto 10;
    try (do 2 eexists; split_and!; [done..|apply mqtt_open_percent_antitone; lia]);
    eexists; (split; [done|congruence]).
Qed.

Definition sample_node : VeluxNode.t :=
  VeluxNode.mk (NodeId.new 4) "Bedroom" 0 0 (replicate 8 0) 128 ActuatorType.RollerShutter 0 0 0
    0 0 0 0 (Some CoverStrategy.MainParameter) Availability.Available OperatingState.Executing
    (Some (Percentage.from_percent 30)) (Some Percentage.FULLY_CLOSED) None None.

Lemma sample_node_wf : velux_node_wf sample_node.
Proof.
  unfold velux_node_wf, node_wf, position_wf, remaining_wf, ParameterFacts.percentage_wf.
  split_and!; try exact I; by apply (bool_decide_unpack _); vm_compute.
Defined.

Lemma snapshot_consistent_witness :
  VeluxNode.snapshot sample_node
  = CoverStatusSnapshot.mk CoverState.Closing (Some 70) (Some 0) "executing" None
  ∧ moving sample_node.
Proof.
  split; [reflexivity|]. exact (proj1 (proj2 (proj2 (snapshot_consistent _ sample_node_wf)))).
Defined.

(** ** Cover actions *)
Definition reverse (e : CoverEndpoint.t) : CoverEndpoint.t :=
  match e with CoverEndpoint.Open => CoverEndpoint.Closed | CoverEndpoint.Closed => CoverEndpoint.Open end.

(** Where a moving cover is heading, as far as the node knows. *)
Definition heading (n : VeluxNode.t) : option CoverEndpoint.t :=
  match VeluxNode.target_position n with
  | None => None
  | Some t =>
      if decide (t = Percentage.FULLY_CLOSED) then Some CoverEndpoint.Closed
      else if decide (t = Percentage.FULLY_OPEN) then Some CoverEndpoint.Open
      else match VeluxNode.current_position n with
           | None => None
           | Some c =>
               match Percentage.raw t ?= Percentage.raw c with
               | Gt => Some CoverEndpoint.Closed
               | Lt => Some CoverEndpoint.Open
               | Eq => None
               end
           end
  end.

(** Toggle reverses a cover whose direction of movement is known; otherwise it goes to the
    endpoint on the other side of the half-way position; and it fails, naming the node, exactly
    when neither the direction nor the position is known. *)
Theorem toggle_endpoint_spec (n : VeluxNode.t) :
  VeluxNode.toggle_endpoint n =
    match (if decide (moving n) then heading n else None), VeluxNode.current_position n with
    | Some e, _ => Ok (reverse e)
    | None, Some p =>
        Ok (if Percentage.raw (Percentage.from_percent 50) <=? Percentage.raw p
            then CoverEndpoint.Open else CoverEndpoint.Closed)
    | None, None => Err (NodeError.PositionUnknown (VeluxNode.id n))
    end.
Proof.
  unfold VeluxNode.toggle_endpoint, heading, VeluxNode.state, derive_cover_state.
  destruct (decide (moving n)) as [Hm|Hm].
  - destruct (VeluxNode.current_position n) as [c|], (VeluxNode.target_position n) as [t|];
      (destruct Hm as [-> | ->]; simpl; [|]);
      repeat case_decide; simplify_eq; try done;
      rewrite Z.gtb_ltb;
      destruct (Z.compare_spec (Percentage.raw t) (Percentage.raw c)),
        (Z.ltb_spec (Percentage.raw c) (Percentage.raw t)),
        (Z.ltb_spec (Percentage.raw t) (Percentage.raw c)); done || lia.
  - unfold moving in Hm.
    destruct (VeluxNode.operating_state n); try (exfalso; by auto);
      by destruct (VeluxNode.current_position n).
Qed.

(** The request that drives one node to an endpoint. *)
Definition drive_request (n : VeluxNode.t) (session_id : SessionId.t) (e : CoverEndpoint.t)
    : Request.t :=
  Request.CommandSend (CommandRequest.new session_id (CoverEndpoint.parameter e))
    (CommandTarget.mk [VeluxNode.id n]).

(** A cover action becomes a request exactly for supported covers whose action resolves.
    The request then drives that one node to the resolved endpoint under the given session, is
    accepted by the encoder and fits a frame that decodes to it; building it neither panics nor
    fails for a protocol reason. *)
Theorem command_request_spec (n : VeluxNode.t) (session_id : SessionId.t) (action : CoverAction.t) :
  velux_node_wf n → SessionId.wf session_id →
  match VeluxNode.command_request n session_id action with
  | Ok r =>
      ∃ e f bytes,
        VeluxNode.is_controllable n = true
        ∧ VeluxNode.resolve_action n action = Ok e
        ∧ r = drive_request n session_id e
        ∧ Request.session_id r = Some session_id
        ∧ Request.encode r = Ok f ∧ Frame.encode f = Ok bytes ∧ Frame.decode bytes = Ok f
  | Err (NodeError.UnsupportedActuator node_id) =>
      VeluxNode.is_controllable n = false ∧ node_id = VeluxNode.id n
  | Err (NodeError.PositionUnknown node_id) =>
      VeluxNode.is_controllable n = true ∧ action = CoverAction.Toggle
      ∧ VeluxNode.current_position n = None ∧ node_id = VeluxNode.id n
  | Err (NodeError.Protocol _) | Panic => False
  end.
Proof.
  intros Hn Hs. unfold VeluxNode.command_request.
  destruct (VeluxNode.is_controllable n) eqn:Hc; simpl negb; cbn match; [|done].
  assert (∀ e, ∃ f bytes, Request.encode (drive_request n session_id e) = Ok f
                          ∧ Frame.encode f = Ok bytes ∧ Frame.decode bytes = Ok f) as Hfit.
  { intros e.
    assert (request_wf (drive_request n session_id e)) as Hwf.
    { split_and!; [done|by destruct e; apply (bool_decide_unpack _); vm_compute|].
      split_and!; [done|simpl; unfold MAX_TARGETS; lia|apply NoDup_singleton|].
      apply Forall_singleton, Hn. }
    assert (invalid (drive_request n session_id e) = None) as Hi by (by destruct e).
    eexists. rewrite encode_layout, Hi by done.
    destruct (layout_fits_frame _ Hwf eq_refl Hi) as (_&_&bytes&?). by exists bytes. }
  destruct (VeluxNode.resolve_action n action) as [e|err|] eqn:Hr; cbn [mbind outcome_bind].
  - assert (CommandTarget.new [VeluxNode.id n] = Ok (CommandTarget.mk [VeluxNode.id n])) as ->
      by done.
    destruct (Hfit e) as (f&bytes&?). by exists e, f, bytes.
  - unfold VeluxNode.resolve_action in Hr. destruct action; [done..|].
    unfold VeluxNode.toggle_endpoint in Hr.
    destruct (VeluxNode.current_position n), (VeluxNode.operating_state n); simpl in Hr;
      repeat case_match; simplify_eq; done.
  - unfold VeluxNode.resolve_action, VeluxNode.toggle_endpoint in Hr.
    destruct (VeluxNode.current_position n); simpl in Hr; repeat case_match; done.
Qed.

Lemma command_request_spec_witness :
  VeluxNode.command_request sample_node (SessionId.mk 9) CoverAction.Toggle
    = Ok (drive_request sample_node (SessionId.mk 9) CoverEndpoint.Open)
  ∧ ∃ f bytes, Request.encode (drive_request sample_node (SessionId.mk 9) CoverEndpoint.Open) = Ok f
               ∧ Frame.encode f = Ok bytes ∧ Frame.decode bytes = Ok f.
Proof.
  split; [reflexivity|].
  destruct (command_request_spec sample_node (SessionId.mk 9) CoverAction.Open sample_node_wf
    ltac:(apply (bool_decide_unpack _); vm_compute; exact I))
    as (e & f & bytes & _ & He & -> & _ & H).
  injection He as <-. exists f, bytes. exact H.
Defined.

(** ** The cache *)
Lemma cache_insert_wf nodes n :
  cache_wf nodes → velux_node_wf n → cache_wf (<[VeluxNode.id n := n]> nodes).
Proof. intros ??. by apply map_Forall_insert_2. Qed.

Lemma update_wf nodes id f :
  (∀ n, keeps n (f n).1) → cache_wf nodes → cache_wf (VeluxNodeCache.update nodes id f).1.
Proof.
  intros Hf Hwf. unfold VeluxNodeCache.update. destruct (nodes !! id) as [n|] eqn:Hn; [|done].
  destruct (Hwf _ _ Hn) as [Hid Hok], (Hf n) as [Hid' Hok'], (f n) as [n' b].
  apply map_Forall_insert_2; [|done]. simpl in *. split; [congruence|auto].
Qed.

Lemma apply_response_wf nodes r :
  cache_wf nodes → response_wf r → cache_wf (VeluxNodeCache.apply_response nodes r).1.
Proof.
  intros Hwf Hr. destruct r; try done; simpl in *;
    [by apply cache_insert_wf, from_information_wf|..]; apply update_wf; try done; intros m.
  - by apply apply_information_changed_keeps.
  - by apply apply_state_position_keeps.
  - by apply apply_run_status_keeps.
  - apply apply_remaining_time_keeps. tauto.
  - by apply apply_status_keeps.
Qed.

(** An operation reports a change exactly when it makes one, and applied again makes none. *)
Definition honest (f : VeluxNode.t → VeluxNode.t * bool) : Prop :=
  ∀ n, ((f n).2 = true ↔ (f n).1 ≠ n) ∧ f (f n).1 = ((f n).1, false).

Lemma changed_iff n n' : (VeluxNode.changed n n').2 = true ↔ (VeluxNode.changed n n').1 ≠ n.
Proof. apply bool_decide_eq_true. Qed.

Lemma changed_self n : VeluxNode.changed n n = (n, false).
Proof. unfold VeluxNode.changed. by rewrite bool_decide_false by naive_solver. Qed.

Lemma unchanged_iff (n : VeluxNode.t) : false = true ↔ n ≠ n.
Proof. naive_solver. Qed.

(** Every status operation is a constant assignment guarded by the node's identity. *)
Ltac honest_tac :=
  let n := fresh "n" in
  intros n; case_decide; [|split; [apply unchanged_iff|by rewrite decide_False]];
  split; [apply changed_iff|]; simpl; rewrite decide_True by done; apply changed_self.

Lemma apply_information_changed_honest i : honest (λ n, VeluxNode.apply_information_changed n i).
Proof. unfold VeluxNode.apply_information_changed. honest_tac. Qed.

Lemma apply_state_position_honest s src : honest (λ n, VeluxNode.apply_state_position n s src).
Proof. unfold VeluxNode.apply_state_position. honest_tac. Qed.

Lemma apply_status_honest s src : honest (λ n, VeluxNode.apply_status n s src).
Proof.
  unfold VeluxNode.apply_status. destruct (StatusNotification.detail s).
  2: honest_tac.
  all: intros n; case_decide; split; try apply unchanged_iff; simpl; by case_decide.
Qed.

Lemma apply_run_status_honest s : honest (λ n, VeluxNode.apply_run_status n s).
Proof.
  unfold VeluxNode.apply_run_status. destruct (CommandRunStatus.node_parameter s =? 0),
    (CommandRunStatus.run_status s); honest_tac.
Qed.

Lemma apply_remaining_time_honest s : honest (λ n, VeluxNode.apply_remaining_time n s).
Proof.
  intros n. unfold VeluxNode.apply_remaining_time. case_decide as Hr.
  - split; [apply unchanged_iff|]. simpl. by rewrite decide_True.
  - split; [|by simpl; rewrite decide_True]. simpl. split; [|done]. intros _ Heq.
    apply Hr. by rewrite <- Heq.
Qed.

Lemma set_available_honest b : honest (λ n, VeluxNode.set_available n b).
Proof.
  intros n. unfold VeluxNode.set_available. case_decide as Ha.
  - split; [apply unchanged_iff|]. simpl. by rewrite decide_True.
  - split; [|by simpl; rewrite decide_True]. simpl. split; [|done]. intros _ Heq.
    apply Ha. by rewrite <- Heq.
Qed.

(** What one cache operation reports, and what it leaves alone. *)
Definition reports (nodes : VeluxNodeCache.t) (result : VeluxNodeCache.t * option NodeId.t)
    : Prop :=
  (result.2 = None ↔ result.1 = nodes)
  ∧ ∀ id, result.2 = Some id →
      is_Some (result.1 !! id) ∧ ∀ other, other ≠ id → result.1 !! other = nodes !! other.

Lemma update_reports nodes id f :
  cache_wf nodes → honest f → (∀ n, VeluxNode.id (f n).1 = VeluxNode.id n) →
  reports nodes (VeluxNodeCache.update nodes id f).
Proof.
  intros Hwf Hf Hid. unfold VeluxNodeCache.update.
  destruct (nodes !! id) as [n|] eqn:Hn; [|split; [done|by intros ?]].
  destruct (Hwf _ _ Hn) as [Hkey _]. pose proof (Hid n) as Hid'. destruct (Hf n) as [Hiff _].
  destruct (f n) as [n' [|]]; simpl in *.
  - split.
    + split; [done|]. intros Heq. exfalso. apply (proj1 Hiff eq_refl).
      apply (f_equal (lookup id)) in Heq. simpl in Heq. rewrite lookup_insert_eq, Hn in Heq. congruence.
    + intros i [= <-]. rewrite Hid', Hkey. cbn [fst]. split; [rewrite lookup_insert_eq; by eexists|].
      intros. by rewrite lookup_insert_ne.
  - split; [|done]. split; [intros _|done].
    assert (n' = n) as -> by (destruct (decide (n' = n)); [done|exfalso; naive_solver]).
    by apply insert_id.
Qed.

(** Only a node's own information adds it to the cache. *)
Lemma apply_response_dom (nodes : VeluxNodeCache.t) (r : Response.t) :
  match r with
  | Response.NodeInformation i =>
      dom (VeluxNodeCache.apply_response nodes r).1 = {[NodeInformation.node_id i]} ∪ dom nodes
  | _ => dom (VeluxNodeCache.apply_response nodes r).1 = dom nodes
  end.
Proof.
  assert (∀ id f, dom (VeluxNodeCache.update nodes id f).1 = dom nodes) as Hupdate.
  { intros id f. unfold VeluxNodeCache.update. destruct (nodes !! id) as [n|] eqn:Hn; [|done].
    destruct (f n) as [n' c]. cbn [fst]. apply dom_insert_lookup_L. by eexists. }
  destruct r; try done; try apply Hupdate. apply dom_insert_L.
Qed.

Lemma apply_response_reports (nodes : VeluxNodeCache.t) (r : Response.t) :
  cache_wf nodes → response_wf r → reports nodes (VeluxNodeCache.apply_response nodes r).
Proof.
  intros Hwf Hr.
  assert (∀ f, honest f → (∀ n, VeluxNode.id (f n).1 = VeluxNode.id n) →
    ∀ id, reports nodes (VeluxNodeCache.update nodes id f)) as Hupdate
    by (intros; by apply update_reports).
  destruct r; try (split; [done|by intros ?]); simpl in *.
  - unfold reports. simpl. case_bool_decide as Hd; simpl.
    + split; [|intros id [= <-]; split; [rewrite lookup_insert_eq; by eexists|]].
      * split; [done|]. intros Heq. exfalso. apply Hd. rewrite <- Heq at 1.
        apply lookup_insert_eq.
      * intros. by rewrite lookup_insert_ne.
    + split; [|done]. split; [intros _|done]. by apply insert_id.
  - apply Hupdate; [apply apply_information_changed_honest|].
    intros m. by apply apply_information_changed_keeps.
  - apply Hupdate; [apply apply_state_position_honest|].
    intros m. by apply apply_state_position_keeps.
  - apply Hupdate; [apply apply_run_status_honest|]. intros m. by apply apply_run_status_keeps.
  - apply Hupdate; [apply apply_remaining_time_honest|].
    intros m. apply apply_remaining_time_keeps. tauto.
  - apply Hupdate; [apply apply_status_honest|]. intros m. by apply apply_status_keeps.
Qed.

(** C33: feeding a decoded response to the cache keeps its invariant (every node stored under its
    own identifier, well formed), and what it reports is exact: [None] exactly when the cache did
    not change, and otherwise the identifier of the only node that did. *)
Theorem cache_apply_response_spec (nodes : VeluxNodeCache.t) (r : Response.t) :
  cache_wf nodes → response_wf r →
  cache_wf (VeluxNodeCache.apply_response nodes r).1
  ∧ reports nodes (VeluxNodeCache.apply_response nodes r).
Proof.
  intros. split; [by apply apply_response_wf|by apply apply_response_reports].
Qed.

Definition sample_cache : VeluxNodeCache.t := {[ NodeId.new 4 := sample_node ]}.

Lemma sample_cache_wf : cache_wf sample_cache.
Proof. apply map_Forall_singleton. split; [done|exact sample_node_wf]. Defined.

Lemma cache_apply_response_spec_witness :
  reports sample_cache
    (VeluxNodeCache.apply_response sample_cache
       (Response.CommandRemainingTime (SessionId.mk 9) (NodeId.new 4) 0 17)).
Proof.
  apply (cache_apply_response_spec sample_cache
    (Response.CommandRemainingTime (SessionId.mk 9) (NodeId.new 4) 0 17) sample_cache_wf).
  split_and!; by apply (bool_decide_unpack _); vm_compute.
Defined.

(** Responses are idempotent on the cache: the same response a second time changes nothing
    and reports no change, so a repeated notification is not published twice. *)
Theorem cache_apply_response_idempotent (nodes : VeluxNodeCache.t) (r : Response.t) :
  let nodes' := (VeluxNodeCache.apply_response nodes r).1 in
  VeluxNodeCache.apply_response nodes' r = (nodes', None).
Proof.
  assert (∀ id f, honest f →
    let nodes' := (VeluxNodeCache.update nodes id f).1 in
    VeluxNodeCache.update nodes' id f = (nodes', None)) as Hupdate.
  { intros id f Hf. unfold VeluxNodeCache.update.
    destruct (nodes !! id) as [n|] eqn:Hn; simpl; [|by rewrite Hn].
    destruct (Hf n) as [_ Hagain]. destruct (f n) as [n' b]. simpl in *.
    rewrite lookup_insert_eq, Hagain. by rewrite insert_insert_eq. }
  destruct r; try done; cbn -[VeluxNodeCache.update]; try apply Hupdate.
  - rewrite lookup_insert_eq, insert_insert_eq. by rewrite bool_decide_false by naive_solver.
  - apply apply_information_changed_honest.
  - apply apply_state_position_honest.
  - apply apply_run_status_honest.
  - apply apply_remaining_time_honest.
  - apply apply_status_honest.
Qed.

(** *** Reconciliation *)
Definition ids (information : list NodeInformation.t) : list NodeId.t :=
  NodeInformation.node_id <$> information.

(** The last entry for a node. *)
Fixpoint latest (id : NodeId.t) (information : list NodeInformation.t)
    : option NodeInformation.t :=
  match information with
  | [] => None
  | i :: information =>
      match latest id information with
      | Some j => Some j
      | None => if decide (NodeInformation.node_id i = id) then Some i else None
      end
  end.

Lemma latest_is_Some id information : is_Some (latest id information) ↔ id ∈ ids information.
Proof.
  unfold ids. induction information as [|i l IH]; [split; [by intros []|by intros ?%elem_of_nil]|].
  rewrite fmap_cons, elem_of_cons, <- IH. simpl.
  destruct (latest id l) eqn:Hl; [split; [by right|by eexists]|].
  case_decide; split; naive_solver.
Qed.

Lemma reconcile_present_nodes nodes result information id :
  (VeluxNodeCache.reconcile_present nodes result information).1 !! id
  = match latest id information with
    | Some i => Some (VeluxNode.from_information i)
    | None => nodes !! id
    end.
Proof.
  revert nodes result. induction information as [|i l IH]; intros nodes result; [done|].
  cbn [VeluxNodeCache.reconcile_present latest]. destruct result as [added updated removed].
  rewrite IH. destruct (latest id l); [done|].
  case_decide as Hid; [subst id; by rewrite lookup_insert_eq|]. by rewrite lookup_insert_ne.
Qed.

Lemma reconcile_present_added nodes result information :
  let added := ReconcileResult.added (VeluxNodeCache.reconcile_present nodes result information).2 in
  (∀ id, id ∈ added ↔ id ∈ ReconcileResult.added result
                      ∨ (nodes !! id = None ∧ id ∈ ids information))
  ∧ (NoDup (ReconcileResult.added result) →
     (∀ id, id ∈ ReconcileResult.added result → is_Some (nodes !! id)) → NoDup added).
Proof.
  unfold ids. revert nodes result.
  induction information as [|i l IH]; intros nodes [added updated removed].
  { simpl. split; [|done]. intros id. split; [by left|].
    intros [?|[_ ?%elem_of_nil]]; done. }
  cbn [VeluxNodeCache.reconcile_present]. rewrite fmap_cons.
  set (n := VeluxNode.from_information i). change (NodeInformation.node_id i) with (VeluxNode.id n).
  clearbody n. set (result := match nodes !! VeluxNode.id n with None => _ | _ => _ end).
  assert (ReconcileResult.added result
          = if nodes !! VeluxNode.id n is Some _ then added else added ++ [VeluxNode.id n]) as Hadded
    by (subst result; destruct (nodes !! _); [by case_decide|done]).
  destruct (IH (<[VeluxNode.id n:=n]> nodes) result) as [IHin IHnd]. rewrite Hadded in IHin, IHnd.
  clearbody result. cbn [ReconcileResult.added].
  destruct (nodes !! VeluxNode.id n) as [m|] eqn:Hn; split.
  - intros id. rewrite IHin, elem_of_cons.
    destruct (decide (id = VeluxNode.id n)) as [->|];
      [rewrite lookup_insert_eq, Hn|rewrite lookup_insert_ne by done]; naive_solver.
  - intros Hnd Hin. apply IHnd; [done|]. intros id ?. destruct (decide (id = VeluxNode.id n)) as [->|];
      [rewrite lookup_insert_eq; by eexists|rewrite lookup_insert_ne by done; auto].
  - intros id. rewrite IHin, elem_of_cons, elem_of_app, list_elem_of_singleton.
    destruct (decide (id = VeluxNode.id n)) as [->|];
      [rewrite lookup_insert_eq, Hn|rewrite lookup_insert_ne by done]; naive_solver.
  - intros Hnd Hin. apply IHnd.
    + apply NoDup_app. split_and!; [done| |apply NoDup_singleton].
      intros id Hi ->%list_elem_of_singleton. apply Hin in Hi. rewrite Hn in Hi. by destruct Hi.
    + intros id. rewrite elem_of_app, list_elem_of_singleton.
      destruct (decide (id = VeluxNode.id n)) as [->|];
        [rewrite lookup_insert_eq; by eexists|rewrite lookup_insert_ne by done].
      intros [?|?]; [auto|done].
Qed.

Lemma reconcile_present_updated nodes result information :
  let updated := ReconcileResult.updated (VeluxNodeCache.reconcile_present nodes result information).2 in
  NoDup (ids information) →
  ∀ id, id ∈ updated ↔ id ∈ ReconcileResult.updated result
          ∨ ∃ n i, nodes !! id = Some n ∧ latest id information = Some i
                   ∧ n ≠ VeluxNode.from_information i.
Proof.
  revert nodes result. induction information as [|i l IH]; intros nodes [added updated removed] u Hnd id.
  { subst u. simpl. naive_solver. }
  apply NoDup_cons in Hnd as [Hnotin Hnd]. subst u. cbn [VeluxNodeCache.reconcile_present].
  rewrite IH by done. clear IH. cbn [latest].
  assert (latest (NodeInformation.node_id i) l = None) as Hnone.
  { apply eq_None_not_Some. by rewrite latest_is_Some. }
  change (VeluxNode.id (VeluxNode.from_information i)) with (NodeInformation.node_id i).
  destruct (decide (id = NodeInformation.node_id i)) as [->|Hne].
  - rewrite Hnone, lookup_insert_eq, decide_True by done.
    destruct (nodes !! NodeInformation.node_id i) as [m|]; [|naive_solver].
    case_decide; cbn [ReconcileResult.updated]; [|naive_solver].
    rewrite elem_of_app, list_elem_of_singleton. naive_solver.
  - rewrite lookup_insert_ne, decide_False by done.
    assert (∀ o : option NodeInformation.t, match o with Some j => Some j | None => None end = o)
      as -> by (by intros []).
    destruct (nodes !! NodeInformation.node_id i) as [m|]; [|done].
    case_decide; cbn [ReconcileResult.updated]; [|done].
    rewrite elem_of_app, list_elem_of_singleton. naive_solver.
Qed.

Global Instance node_id_le_trans : Transitive node_id_le.
Proof. intros a b c; unfold node_id_le; lia. Qed.
Global Instance node_id_le_antisymm : AntiSymm eq node_id_le.
Proof. intros [a] [b]; unfold node_id_le; simpl; intros; f_equal; lia. Qed.
Global Instance node_id_le_total : Total node_id_le.
Proof. intros a b; unfold node_id_le; lia. Qed.

(** The keys of a [BTreeMap] come once each, in ascending order. *)
Section sorted_keys.
Context {A : Type}.
Implicit Types m : gmap NodeId.t A.

Lemma elem_of_sorted_keys m id : id ∈ sorted_keys m ↔ is_Some (m !! id).
Proof.
  unfold sorted_keys. rewrite merge_sort_Permutation, list_elem_of_fmap. split.
  - intros ([i a] & -> & Hin%elem_of_map_to_list). by exists a.
  - intros [a Ha]. exists (id, a). by rewrite elem_of_map_to_list.
Qed.

Lemma NoDup_sorted_keys m : NoDup (sorted_keys m).
Proof. unfold sorted_keys. rewrite merge_sort_Permutation. apply NoDup_fst_map_to_list. Qed.

Lemma StronglySorted_sorted_keys m : StronglySorted node_id_le (sorted_keys m).
Proof. apply (StronglySorted_merge_sort _). Qed.

Lemma sorted_keys_dom m m' : dom m = dom m' → sorted_keys m = sorted_keys m'.
Proof.
  intros Hdom. apply (StronglySorted_unique node_id_le); [apply StronglySorted_sorted_keys..|].
  apply NoDup_Permutation; [apply NoDup_sorted_keys..|]. intros id.
  by rewrite !elem_of_sorted_keys, <- !elem_of_dom, Hdom.
Qed.
End sorted_keys.

Lemma elem_of_filter_bool {A} (p : A → bool) l x : x ∈ List.filter p l ↔ x ∈ l ∧ p x = true.
Proof. by rewrite !list_elem_of_In, List.filter_In. Qed.

Lemma NoDup_filter_bool {A} (p : A → bool) l : NoDup l → NoDup (List.filter p l).
Proof. rewrite !NoDup_ListNoDup. apply List.NoDup_filter. Qed.

Lemma StronglySorted_filter_bool {A} (R : A → A → Prop) p l :
  StronglySorted R l → StronglySorted R (List.filter p l).
Proof.
  induction 1 as [|x l ? IH Hx]; simpl; [constructor|]. destruct (p x); [|done].
  constructor; [done|]. rewrite Forall_forall in *. intros y [? _]%elem_of_filter_bool. auto.
Qed.

Lemma lookup_foldl_delete {A} (m : gmap NodeId.t A) l id :
  foldl (λ m id, delete id m) m l !! id = if decide (id ∈ l) then None else m !! id.
Proof.
  revert m. induction l as [|x l IH]; intros m; cbn [foldl].
  { by rewrite decide_False by apply not_elem_of_nil. }
  rewrite IH. destruct (decide (id ∈ l)), (decide (id ∈ x :: l)); try done; try set_solver.
  - assert (id = x) as -> by set_solver. apply lookup_delete_eq.
  - apply lookup_delete_ne. set_solver.
Qed.

Lemma omap_then_some {A} (f : A → option A) p l :
  (∀ x, x ∈ l → f x = then_some (p x) x) → omap f l = List.filter p l.
Proof.
  induction l as [|x l IH]; intros Hf; [done|]. cbn. rewrite Hf by set_solver.
  rewrite IH by set_solver. by destruct (p x).
Qed.

(** Where a list is reported to the caller in ascending order, without repetitions. *)
Definition ascending (l : list NodeId.t) : Prop := NoDup l ∧ StronglySorted node_id_le l.

Lemma reconcile_removed (m : VeluxNodeCache.t) information id :
  id ∈ List.filter (λ id, bool_decide (id ∉ (list_to_set (ids information) : gset NodeId.t)))
         (sorted_keys m)
  ↔ is_Some (m !! id) ∧ latest id information = None.
Proof.
  rewrite elem_of_filter_bool, elem_of_sorted_keys, bool_decide_eq_true.
  by rewrite elem_of_list_to_set, eq_None_not_Some, latest_is_Some.
Qed.

Lemma reconcile_lookup nodes information id :
  (VeluxNodeCache.reconcile nodes information).1 !! id
  = VeluxNode.from_information <$> latest id information.
Proof.
  unfold VeluxNodeCache.reconcile.
  pose proof (reconcile_present_nodes nodes ReconcileResult.default information id) as Hnodes.
  destruct (VeluxNodeCache.reconcile_present _ _ _) as [m result]. cbn [fst snd] in *.
  rewrite lookup_foldl_delete. pose proof (reconcile_removed m information id) as Hremoved.
  unfold ids in Hremoved. case_decide as Hin.
  - by apply Hremoved in Hin as [_ ->].
  - rewrite Hremoved in Hin. rewrite Hnodes in *. destruct (latest id information); [done|].
    destruct (nodes !! id); naive_solver.
Qed.

(** C32: reconciliation makes the cache exactly the discovered nodes: it holds, for every
    identifier in the discovery, the node built from its last entry and nothing else; the
    reported lists are the identifiers that appeared, that disappeared (ascending), and, when the
    discovery lists each node once, those whose node differs. *)
Theorem cache_reconcile_spec (nodes : VeluxNodeCache.t) (information : list NodeInformation.t) :
  let (nodes', result) := VeluxNodeCache.reconcile nodes information in
  (∀ id, nodes' !! id = VeluxNode.from_information <$> latest id information)
  ∧ (∀ id, id ∈ ReconcileResult.added result ↔ nodes !! id = None ∧ is_Some (nodes' !! id))
  ∧ NoDup (ReconcileResult.added result)
  ∧ (∀ id, id ∈ ReconcileResult.removed result ↔ is_Some (nodes !! id) ∧ nodes' !! id = None)
  ∧ ascending (ReconcileResult.removed result)
  ∧ (NoDup (ids information) → ∀ id, id ∈ ReconcileResult.updated result
       ↔ ∃ n n', nodes !! id = Some n ∧ nodes' !! id = Some n' ∧ n ≠ n').
Proof.
  unfold VeluxNodeCache.reconcile.
  pose proof (reconcile_present_nodes nodes ReconcileResult.default information) as Hnodes.
  pose proof (reconcile_present_added nodes ReconcileResult.default information) as [Hadd Hnd].
  pose proof (reconcile_present_updated nodes ReconcileResult.default information) as Hupd.
  pose proof (reconcile_lookup nodes information) as Hfinal. unfold VeluxNodeCache.reconcile in Hfinal.
  destruct (VeluxNodeCache.reconcile_present _ _ _) as [m result]. cbn [fst snd] in *.
  pose proof (reconcile_removed m information) as Hremoved. unfold ids in Hremoved.
  cbn [ReconcileResult.added ReconcileResult.updated ReconcileResult.removed].
  split_and!; [done| | | | |].
  - intros id. rewrite Hfinal, fmap_is_Some, latest_is_Some, Hadd. simpl.
    rewrite elem_of_nil. naive_solver.
  - apply Hnd; [constructor|]. intros id ?%elem_of_nil. done.
  - intros id. rewrite Hremoved, Hfinal, fmap_None, Hnodes.
    destruct (latest id information); naive_solver.
  - split; [apply NoDup_filter_bool, NoDup_sorted_keys|].
    apply StronglySorted_filter_bool, StronglySorted_sorted_keys.
  - intros Hids id. rewrite Hupd by done. simpl. rewrite elem_of_nil, Hfinal.
    destruct (latest id information); naive_solver.
Qed.

(** Marking the whole cache available or unavailable sets exactly that field of every node,
    and reports, in ascending order, the nodes whose availability was different. *)
Theorem cache_set_all_available_spec (nodes : VeluxNodeCache.t) (available : bool) :
  cache_wf nodes →
  let value := if available then Availability.Available else Availability.Unavailable in
  let (nodes', changed) := VeluxNodeCache.set_all_available nodes available in
  cache_wf nodes' ∧ dom nodes' = dom nodes
  ∧ (∀ id n, nodes !! id = Some n → ∃ n',
       nodes' !! id = Some n' ∧ VeluxNode.availability n' = value
       ∧ CoverStatusSnapshot.position (VeluxNode.snapshot n')
         = CoverStatusSnapshot.position (VeluxNode.snapshot n)
       ∧ VeluxNode.state n' = VeluxNode.state n
       ∧ (id ∈ changed ↔ VeluxNode.availability n ≠ value) ∧ (id ∉ changed → n' = n))
  ∧ (∀ id, id ∈ changed → is_Some (nodes !! id))
  ∧ ascending changed.
Proof.
  intros Hwf. unfold VeluxNodeCache.set_all_available. set (value := if available then _ else _).
  rewrite (omap_then_some _ (λ id, if nodes !! id is Some n
                                   then (VeluxNode.set_available n available).2 else false)).
  2: { intros id [n Hn]%elem_of_sorted_keys. cbn. rewrite Hn. cbn.
       by destruct (Hwf id n Hn) as [-> _]. }
  split_and!.
  - apply map_Forall_fmap. intros id n Hn. destruct (Hwf id n Hn) as [Hid Hok].
    destruct (set_available_keeps n available) as [Hid' Hok']. simpl. split; [congruence|auto].
  - apply dom_fmap_L.
  - intros id n Hn. exists (VeluxNode.set_available n available).1.
    rewrite lookup_fmap, Hn, elem_of_filter_bool, elem_of_sorted_keys, Hn.
    assert (is_Some (Some n)) by (by eexists). cbn [fmap option_fmap option_map compose].
    unfold VeluxNode.set_available. fold value.
    destruct (decide (VeluxNode.availability n = value)) as [He|He]; split_and!; cbn; try done;
      naive_solver.
  - intros id [Hin _]%elem_of_filter_bool. by apply elem_of_sorted_keys.
  - split; [apply NoDup_filter_bool, NoDup_sorted_keys|].
    apply StronglySorted_filter_bool, StronglySorted_sorted_keys.
Qed.

Lemma cache_set_all_available_spec_witness :
  (VeluxNodeCache.set_all_available sample_cache false).2 = [NodeId.new 4]
  ∧ ascending (VeluxNodeCache.set_all_available sample_cache false).2.
Proof.
  split; [reflexivity|].
  exact (proj2 (proj2 (proj2 (proj2
    (cache_set_all_available_spec sample_cache false sample_cache_wf))))).
Defined.
