(* ===== verification/RustText.v ===== *)
(** * Splitting, ASCII case and decimal numbers

    [str::split] on a character, [to_ascii_lowercase], [eq_ignore_ascii_case], [Display] and
    [str::parse] of a [u8], with the laws the topic and discovery components use. *)

From S2P Require Import Prelude RustStd.

Definition slash : Ascii.ascii := Ascii.ascii_of_N 47.
Definition plus : Ascii.ascii := Ascii.ascii_of_N 43.

(** ** Splitting *)
Fixpoint split (sep : Ascii.ascii) (s : string) : list string :=
  match s with
  | EmptyString => [""]
  | String c s =>
      if Ascii.eqb c sep then "" :: split sep s
      else match split sep s with
           | seg :: segs => String c seg :: segs
           | [] => [String c ""]
           end
  end.

Fixpoint join (sep : Ascii.ascii) (l : list string) : string :=
  match l with
  | [] => ""
  | [seg] => seg
  | seg :: l => seg +:+ String sep (join sep l)
  end.

Fixpoint has_char (sep : Ascii.ascii) (s : string) : bool :=
  match s with EmptyString => false | String c s => Ascii.eqb c sep || has_char sep s end.

Lemma split_nonempty sep s : split sep s ≠ [].
Proof. destruct s as [|c s]; cbn; [done|]. case_match; [done|]. by destruct (split sep s). Qed.

Lemma join_split sep s : join sep (split sep s) = s.
Proof.
  induction s as [|c s IH]; [done|]. cbn [split].
  pose proof (split_nonempty sep s) as Hne.
  destruct (Ascii.eqb_spec c sep) as [->|_]; destruct (split sep s) as [|seg [|seg' segs]];
    try done; cbn in *; by rewrite <- IH.
Qed.

Lemma split_inj sep s t : split sep s = split sep t → s = t.
Proof. intros H. by rewrite <- (join_split sep s), H, join_split. Qed.

Lemma split_app sep a b : split sep (a +:+ String sep b) = split sep a ++ split sep b.
Proof.
  induction a as [|c a IH].
  - rewrite string_app_nil_l. cbn. by rewrite Ascii.eqb_refl.
  - rewrite string_app_cons. cbn [split]. rewrite IH. pose proof (split_nonempty sep a).
    case_match; [done|]. by destruct (split sep a).
Qed.

Lemma split_plain sep s : has_char sep s = false → split sep s = [s].
Proof.
  induction s as [|c s IH]; [done|]. cbn. intros [-> Hs]%orb_false_iff. by rewrite IH.
Qed.

Lemma split_elem_plain sep s seg : seg ∈ split sep s → has_char sep seg = false.
Proof.
  revert seg. induction s as [|c s IH]; intros seg; cbn [split].
  { by intros ->%list_elem_of_singleton. }
  pose proof (split_nonempty sep s) as Hne.
  destruct (Ascii.eqb_spec c sep) as [->|Hc]; [by intros [->|?]%elem_of_cons; [|apply IH]|].
  destruct (split sep s) as [|x segs]; [done|]. intros [->|Hin]%elem_of_cons.
  - cbn. rewrite (proj2 (Ascii.eqb_neq c sep) Hc). apply IH. by left.
  - apply IH. by right.
Qed.

(** A first segment, and what follows it. *)
Lemma split_cons sep s seg rest :
  split sep s = seg :: rest →
  (rest = [] ∧ s = seg) ∨ (rest ≠ [] ∧ s = seg +:+ String sep (join sep rest)).
Proof.
  intros H. rewrite <- (join_split sep s), H. destruct rest; [by left|by right].
Qed.

(** ** ASCII case *)
Definition ascii_lower (c : Ascii.ascii) : Ascii.ascii :=
  let n := Ascii.N_of_ascii c in
  if ((65 <=? n) && (n <=? 90))%N then Ascii.ascii_of_N (n + 32) else c.

Fixpoint to_ascii_lowercase (s : string) : string :=
  match s with
  | EmptyString => ""
  | String c s => String (ascii_lower c) (to_ascii_lowercase s)
  end.

Definition eq_ignore_ascii_case (s t : string) : bool :=
  String.eqb (to_ascii_lowercase s) (to_ascii_lowercase t).

(** ** Decimal numbers *)
Definition to_digit (c : Ascii.ascii) : option Z :=
  let n := Z.of_N (Ascii.N_of_ascii c) in
  if ((48 <=? n) && (n <=? 57))%Z then Some (n - 48)%Z else None.

(** The digit loop of [u8::from_str], where every step is checked. *)
Fixpoint parse_digits (acc : Z) (s : string) : option Z :=
  match s with
  | EmptyString => Some acc
  | String c s =>
      d ← to_digit c;
      let acc := (acc * 10 + d)%Z in
      if (acc <=? 255)%Z then parse_digits acc s else None
  end.

Definition parse_u8 (s : string) : option Z :=
  match s with
  | String c digits =>
      if String.eqb s "+" || String.eqb s "-" then None
      else parse_digits 0 (if Ascii.eqb c plus then digits else s)
  | EmptyString => None
  end.

(** [u8::to_string] *)
Definition show (n : Z) : string := pretty n.

Lemma u8_forall (P : Z → bool) :
  forallb (λ n, P (Z.of_nat n)) (seq 0 256) = true → ∀ n, is_u8 n → P n = true.
Proof.
  intros H n Hn. unfold is_u8 in Hn. rewrite forallb_forall in H.
  rewrite <- (Z2Nat.id n) by lia. apply H. apply in_seq. lia.
Qed.

Lemma parse_show n : is_u8 n → parse_u8 (show n) = Some n.
Proof.
  intros Hn. apply (bool_decide_unpack _).
  enough (bool_decide (parse_u8 (show n) = Some n) = true) as -> by done.
  revert n Hn. apply u8_forall. vm_compute. reflexivity.
Qed.

Lemma show_inj m n : is_u8 m → is_u8 n → show m = show n → m = n.
Proof. intros Hm Hn H. apply parse_show in Hm, Hn. congruence. Qed.

(** Decimal numbers are digits only, so they end where any other character begins. *)
Lemma show_digits n : is_u8 n →
  forallb (λ c, bool_decide (is_Some (to_digit c))) (String.list_ascii_of_string (show n)) = true.
Proof. revert n. apply u8_forall. vm_compute. reflexivity. Qed.

Lemma show_no_slash n : is_u8 n → has_char slash (show n) = false.
Proof.
  intros Hn. apply negb_true_iff. revert n Hn. apply (u8_forall (λ n, negb (has_char slash (show n)))).
  vm_compute. reflexivity.
Qed.

Lemma parse_digits_u8 acc s n : is_u8 acc → parse_digits acc s = Some n → is_u8 n.
Proof.
  revert acc. induction s as [|c s IH]; intros acc Ha; cbn [parse_digits]; [by intros [= <-]|].
  unfold to_digit. destruct ((48 <=? _) && _)%Z eqn:Hd; cbn; [|done].
  destruct (Z.leb_spec (acc * 10 + (Z.of_N (Ascii.N_of_ascii c) - 48)) 255); [|done].
  apply IH. apply andb_true_iff in Hd as [?%Z.leb_le ?]. unfold is_u8 in *. lia.
Qed.

Lemma parse_u8_range s n : parse_u8 s = Some n → is_u8 n.
Proof.
  assert (∀ t, parse_digits 0 t = Some n → is_u8 n) as Hd.
  { intros t. apply parse_digits_u8. unfold is_u8; lia. }
  unfold parse_u8. destruct s as [|c s]; [done|]. case_match; [done|]. apply Hd.
Qed.

Lemma parse_digits_plain acc s n : parse_digits acc s = Some n → has_char slash s = false.
Proof.
  revert acc. induction s as [|c s IH]; intros acc; [done|]. cbn [parse_digits has_char].
  destruct (Ascii.eqb_spec c slash) as [->|_]; [done|].
  destruct (to_digit c); cbn; [|done]. case_match; [apply IH|done].
Qed.

Lemma parse_u8_plain s n : parse_u8 s = Some n → has_char slash s = false.
Proof.
  unfold parse_u8. destruct s as [|c s]; [done|]. case_match; [done|].
  destruct (Ascii.eqb_spec c plus) as [->|]; intros Hs%parse_digits_plain; done.
Qed.
