(* ===== verification/Mqtt.v ===== *)
(** * MQTT topics, commands and publications (mqtt.rs)

    The configuration and its validation, the topic layout, the parser of commands, the
    retained publications about nodes and groups, and the connection: the options it is
    opened with and what it makes of the client's events. JSON text is produced by serde_json,
    a parameter; what is handed to it is the value the derived serializers describe. *)

From S2P Require Import Prelude RustStd RustText CommandIds Error Types ResponseTypes VeluxNode.

Definition ONLINE_PAYLOAD : string := "online".
Definition OFFLINE_PAYLOAD : string := "offline".

Module MqttError.
Inductive t :=
| InvalidConfiguration (message : string)
| CertificateRead (path message : string)
| InvalidBaseTopic (topic : string)
| RetainedCommand
| UnexpectedCommandTopic (topic : string)
| InvalidNodeId (topic : string)
| InvalidGroupId (topic : string)
| InvalidCommandPayload (payload : string)
| InvalidIncomingUtf8 (field : string)
| Connection (message : string)
| Serialization (message : string)
| ShutdownTimeout.
Global Instance eq_dec : EqDecision t.
Proof. solve_decision. Defined.
End MqttError.
Abbreviation MqttResult A := (outcome MqttError.t A) (only parsing).

Set Warnings "-register-all".

(** The serde data model of the values the program serializes, objects in field order. *)
Module Json.
Inductive t :=
| Null
| Bool (b : bool)
| Number (n : Z)
| String (s : string)
| Array (items : list t)
| Object (fields : list (string * t)).

Definition option_number (o : option Z) : t := match o with Some n => Number n | None => Null end.

(** [#[serde(skip_serializing_if = ...)]] *)
Definition field_if_some {A} (name : string) (f : A → t) (o : option A) : list (string * t) :=
  match o with Some a => [(name, f a)] | None => [] end.
End Json.

(** ** Configuration *)
Module MqttConfig.
Record t := mk {
  server : string;
  port : Z;
  ca_cert : option string;
  insecure : bool;
  client_id : string;
  user : string;
  password : string;
  base_topic : string;
  keep_alive : Z;
  request_capacity : Z
}.

Definition new (server : string) : t := mk server 1883 None false "velux2mqtt" "" "" "velux" 60000 256.
End MqttConfig.

Module IncomingMessage.
Record t := mk { topic : string; payload : string; retained : bool }.
End IncomingMessage.

Module MqttEvent.
Inductive t := Connected | Message (message : IncomingMessage.t).
End MqttEvent.

Module MqttPublication.
Record t := mk { topic : string; payload : list Z; retained : bool }.
Global Instance eq_dec : EqDecision t.
Proof. solve_decision. Defined.

(** [MqttPublication::retained] *)
Definition retain (topic : string) (payload : list Z) : t := mk topic payload true.
Definition clear (topic : string) : t := retain topic [].
End MqttPublication.

Module NodeCommand.
Record t := mk { node_id : NodeId.t; action : CoverAction.t }.
End NodeCommand.

Module GroupAction.
Inductive t := Open | Close.
Global Instance eq_dec : EqDecision t.
Proof. solve_decision. Defined.
End GroupAction.

Module GroupCommand.
Record t := mk { group_id : GroupId.t; action : GroupAction.t }.
End GroupCommand.

Module MqttCommand.
Inductive t :=
| Node (command : NodeCommand.t)
| Group (command : GroupCommand.t)
| GatewayReboot.
End MqttCommand.

Definition cover_state_label (state : CoverState.t) : string :=
  match state with
  | CoverState.Open => "open"
  | CoverState.Closed => "closed"
  | CoverState.Opening => "opening"
  | CoverState.Closing => "closing"
  | CoverState.Unknown => "unknown"
  end.

(** ** What is serialized *)
Module NodeMetadata.
Record t := mk {
  id : Z;
  name : string;
  serial_number : string;
  actuator_type : string;
  actuator_subtype : Z;
  product_group : Z;
  product_type : Z;
  controllable : bool;
  order : Z;
  placement : Z;
  build_number : Z;
  status_timestamp : option Z
}.

Definition from (node : VeluxNode.t) : t :=
  mk (NodeId.get (VeluxNode.id node)) (VeluxNode.name node) (VeluxNode.serial_number_hex node)
    (ActuatorType.label (VeluxNode.actuator_type node)) (VeluxNode.actuator_subtype node)
    (VeluxNode.product_group node) (VeluxNode.product_type node) (VeluxNode.is_controllable node)
    (VeluxNode.order node) (VeluxNode.placement node) (VeluxNode.build_number node)
    (ProtocolTimestamp.unix_seconds <$> (VeluxNode.freshness node ≫= StatusFreshness.timestamp)).

Definition to_json (m : t) : Json.t :=
  Json.Object
    ([("id", Json.Number (id m)); ("name", Json.String (name m));
      ("serial_number", Json.String (serial_number m));
      ("actuator_type", Json.String (actuator_type m));
      ("actuator_subtype", Json.Number (actuator_subtype m));
      ("product_group", Json.Number (product_group m));
      ("product_type", Json.Number (product_type m));
      ("controllable", Json.Bool (controllable m)); ("order", Json.Number (order m));
      ("placement", Json.Number (placement m)); ("build_number", Json.Number (build_number m))]
     ++ Json.field_if_some "status_timestamp" Json.Number (status_timestamp m)).
End NodeMetadata.

Module GroupMetadata.
Record t := mk {
  id : Z;
  name : string;
  group_type : Z;
  object_count : Z;
  node_ids : list Z;
  order : Z;
  placement : Z;
  velocity : Z;
  node_variation : Z;
  revision : Z
}.

Definition from (group : GroupInformation.t) : t :=
  mk (GroupId.get (GroupInformation.group_id group)) (GroupInformation.name group)
    (GroupInformation.group_type group) (GroupInformation.object_count group)
    (omap u8_try_from (ActuatorSet.iter (GroupInformation.actuators group)))
    (GroupInformation.order group) (GroupInformation.placement group)
    (GroupInformation.velocity group) (GroupInformation.node_variation group)
    (GroupInformation.revision group).

Definition to_json (m : t) : Json.t :=
  Json.Object
    [("id", Json.Number (id m)); ("name", Json.String (name m));
     ("group_type", Json.Number (group_type m)); ("object_count", Json.Number (object_count m));
     ("node_ids", Json.Array (Json.Number <$> node_ids m)); ("order", Json.Number (order m));
     ("placement", Json.Number (placement m)); ("velocity", Json.Number (velocity m));
     ("node_variation", Json.Number (node_variation m)); ("revision", Json.Number (revision m))].
End GroupMetadata.

(** [#[derive(Serialize)]] of the snapshot in veluxnode.rs *)
Definition snapshot_to_json (s : CoverStatusSnapshot.t) : Json.t :=
  Json.Object
    [("state", Json.String (cover_state_label (CoverStatusSnapshot.state s)));
     ("position", Json.option_number (CoverStatusSnapshot.position s));
     ("target", Json.option_number (CoverStatusSnapshot.target s));
     ("operating_state", Json.String (CoverStatusSnapshot.operating_state s));
     ("remaining_time", Json.option_number (CoverStatusSnapshot.remaining_time s))].

(** ** The topic layout *)
Module TopicLayout.
Record t := mk { base : string }.
Global Instance eq_dec : EqDecision t.
Proof. solve_decision. Defined.

(** [base.trim().trim_matches('/')] *)
Definition normalise (topic : string) : string := trim_matches ["/"] (trim topic).

Definition forbidden_byte (b : Z) : bool := (b =? 43) || (b =? 35) || (b =? 0).

Definition new (topic : string) : MqttResult t :=
  let base := normalise topic in
  if String.eqb base "" || existsb (λ segment, String.eqb segment "") (split slash base)
     || existsb forbidden_byte (bytes_of base)
  then Err (MqttError.InvalidBaseTopic base)
  else Ok (mk base).

Section topics.
Context (l : t).

Definition state : string := base l +:+ "/state".
Definition nodes : string := base l +:+ "/nodes".
Definition groups : string := base l +:+ "/groups".
Definition command_filter : string := base l +:+ "/+/cmnd/control".
Definition gateway_reboot_command : string := base l +:+ "/cmnd/reboot".
Definition node_root (node_id : NodeId.t) : string :=
  base l +:+ "/velux_node_" +:+ show (NodeId.get node_id).
Definition node_info (node_id : NodeId.t) : string := node_root node_id +:+ "/info".
Definition node_status (node_id : NodeId.t) : string := node_root node_id +:+ "/status".
Definition node_state (node_id : NodeId.t) : string := node_root node_id +:+ "/state".
Definition node_position (node_id : NodeId.t) : string := node_root node_id +:+ "/position".
Definition node_target (node_id : NodeId.t) : string := node_root node_id +:+ "/target".
Definition node_command (node_id : NodeId.t) : string := node_root node_id +:+ "/cmnd/control".
Definition group_root (group_id : GroupId.t) : string :=
  base l +:+ "/velux_group_" +:+ show (GroupId.get group_id).
Definition group_info (group_id : GroupId.t) : string := group_root group_id +:+ "/info".
Definition group_command (group_id : GroupId.t) : string := group_root group_id +:+ "/cmnd/control".
End topics.

Definition node_action (payload : string) : option CoverAction.t :=
  if eq_ignore_ascii_case payload "OPEN" then Some CoverAction.Open
  else if eq_ignore_ascii_case payload "CLOSE" then Some CoverAction.Close
  else if eq_ignore_ascii_case payload "TOGGLE" then Some CoverAction.Toggle
  else None.

Definition group_action (payload : string) : option GroupAction.t :=
  if eq_ignore_ascii_case payload "OPEN" then Some GroupAction.Open
  else if eq_ignore_ascii_case payload "CLOSE" then Some GroupAction.Close
  else None.

(** The branches of the parser once the path is known to be [<target>/cmnd/control] *)
Definition parse_target (topic target_segment payload : string) : MqttResult MqttCommand.t :=
  match strip_prefix "velux_node_" target_segment with
  | Some node_id =>
      node_id ← ok_or (NodeId.new <$> parse_u8 node_id) (MqttError.InvalidNodeId topic);
      action ← ok_or (node_action payload) (MqttError.InvalidCommandPayload payload);
      Ok (MqttCommand.Node (NodeCommand.mk node_id action))
  | None =>
      match strip_prefix "velux_group_" target_segment with
      | Some group_id =>
          group_id ← ok_or (GroupId.new <$> parse_u8 group_id) (MqttError.InvalidGroupId topic);
          action ← ok_or (group_action payload) (MqttError.InvalidCommandPayload payload);
          Ok (MqttCommand.Group (GroupCommand.mk group_id action))
      | None => Err (MqttError.UnexpectedCommandTopic topic)
      end
  end.

Definition parse_command (l : t) (message : IncomingMessage.t) : MqttResult MqttCommand.t :=
  let topic := IncomingMessage.topic message in
  if IncomingMessage.retained message then Err MqttError.RetainedCommand
  else
    let payload := trim (IncomingMessage.payload message) in
    if String.eqb topic (gateway_reboot_command l) then
      if eq_ignore_ascii_case payload "REBOOT" then Ok MqttCommand.GatewayReboot
      else Err (MqttError.InvalidCommandPayload payload)
    else
      relative ← ok_or (strip_prefix (base l) topic ≫= strip_prefix "/")
                   (MqttError.UnexpectedCommandTopic topic);
      match split slash relative with
      | [target_segment; cmnd; control] =>
          if String.eqb cmnd "cmnd" && String.eqb control "control"
          then parse_target topic target_segment payload
          else Err (MqttError.UnexpectedCommandTopic topic)
      | _ => Err (MqttError.UnexpectedCommandTopic topic)
      end.

(** *** Publications *)
Section publications.
Context (to_vec : Json.t → outcome string (list Z)) (l : t).

Definition serialize_json (value : Json.t) : MqttResult (list Z) :=
  match to_vec value with
  | Ok bytes => Ok bytes
  | Err message => Err (MqttError.Serialization message)
  | Panic => Panic
  end.

Definition inventory_publication (cache : gmap NodeId.t VeluxNode.t) : MqttResult MqttPublication.t :=
  payload ← serialize_json (Json.Array (Json.Number ∘ NodeId.get <$> sorted_keys cache));
  Ok (MqttPublication.retain (nodes l) payload).

Definition info_publication (node : VeluxNode.t) : MqttResult MqttPublication.t :=
  payload ← serialize_json (NodeMetadata.to_json (NodeMetadata.from node));
  Ok (MqttPublication.retain (node_info l (VeluxNode.id node)) payload).

Definition groups_publication (gs : list GroupInformation.t) : MqttResult MqttPublication.t :=
  payload ← serialize_json
              (Json.Array (Json.Number ∘ GroupId.get ∘ GroupInformation.group_id <$> gs));
  Ok (MqttPublication.retain (groups l) payload).

Definition group_info_publication (group : GroupInformation.t) : MqttResult MqttPublication.t :=
  payload ← serialize_json (GroupMetadata.to_json (GroupMetadata.from group));
  Ok (MqttPublication.retain (group_info l (GroupInformation.group_id group)) payload).

Definition percent_text (value : option Z) : string :=
  match value with Some value => show value | None => "unknown" end.

Definition status_publications (node : VeluxNode.t) : MqttResult (list MqttPublication.t) :=
  let snapshot := VeluxNode.snapshot node in
  let id := VeluxNode.id node in
  payload ← serialize_json (snapshot_to_json snapshot);
  Ok [MqttPublication.retain (node_status l id) payload;
      MqttPublication.retain (node_state l id)
        (bytes_of (cover_state_label (CoverStatusSnapshot.state snapshot)));
      MqttPublication.retain (node_position l id)
        (bytes_of (percent_text (CoverStatusSnapshot.position snapshot)));
      MqttPublication.retain (node_target l id)
        (bytes_of (percent_text (CoverStatusSnapshot.target snapshot)))].
End publications.

Definition availability_publication (l : t) (online : bool) : MqttPublication.t :=
  MqttPublication.retain (state l) (bytes_of (if online then ONLINE_PAYLOAD else OFFLINE_PAYLOAD)).

Definition clear_node_publications (l : t) (node_id : NodeId.t) : list MqttPublication.t :=
  MqttPublication.clear <$>
    [node_info l node_id; node_status l node_id; node_state l node_id; node_position l node_id;
     node_target l node_id].

Definition clear_group_publications (l : t) (group_id : GroupId.t) : list MqttPublication.t :=
  [MqttPublication.clear (group_info l group_id)].
End TopicLayout.

(** ** Validation: the normalised configuration and the verdict *)
Definition validate (c : MqttConfig.t) : MqttConfig.t * MqttResult unit :=
  let '(MqttConfig.mk server port ca_cert insecure client_id user password base_topic keep_alive
          request_capacity) := c in
  if (if ca_cert is Some _ then true else false) && insecure then
    (c, Err (MqttError.InvalidConfiguration
               "MQTT CA certificate and insecure TLS options are mutually exclusive"))
  else
    let server := trim server in
    let client_id := trim client_id in
    let base_topic := TopicLayout.normalise base_topic in
    let c := MqttConfig.mk server port ca_cert insecure client_id user password base_topic
               keep_alive request_capacity in
    (c,
     if String.eqb server "" then
       Err (MqttError.InvalidConfiguration "MQTT server cannot be empty")
     else if String.eqb client_id "" then
       Err (MqttError.InvalidConfiguration "MQTT client ID cannot be empty")
     else
       _ ← TopicLayout.new base_topic;
       if keep_alive =? 0 then
         Err (MqttError.InvalidConfiguration "MQTT keep-alive must be greater than zero")
       else if request_capacity =? 0 then
         Err (MqttError.InvalidConfiguration "MQTT request capacity must be greater than zero")
       else Ok tt).

(** ** The connection

    The client library is an input: what reading the certificate, subscribing, publishing and
    the successive polls of its event loop return. *)
Module Transport.
Inductive t := Tls (ca : list Z) | TlsWithoutVerification | Tcp.
End Transport.

Module LastWill.
Record t := mk { topic : string; payload : string; retained : bool }.
End LastWill.

Module MqttOptions.
Record t := mk {
  client_id : string;
  host : string;
  port : Z;
  transport : Transport.t;
  clean_start : bool;
  keep_alive : Z;
  last_will : LastWill.t;
  credentials : option (string * string);
  request_capacity : Z
}.
End MqttOptions.

(** What one poll of the event loop yields, as far as the program tells the packets apart *)
Module LoopEvent.
Inductive t :=
| ConnAck (success : bool) (code : string)
| Publish (topic payload : list Z) (retain : bool)
| OutgoingDisconnect
| Other.
End LoopEvent.

Module MqttConnection.
Definition transport (read : string → outcome string (list Z)) (c : MqttConfig.t)
    : MqttResult Transport.t :=
  match MqttConfig.ca_cert c with
  | Some path =>
      match read path with
      | Ok ca => Ok (Transport.Tls ca)
      | Err message => Err (MqttError.CertificateRead path message)
      | Panic => Panic
      end
  | None => Ok (if MqttConfig.insecure c then Transport.TlsWithoutVerification else Transport.Tcp)
  end.

Definition new (read : string → outcome string (list Z)) (config : MqttConfig.t)
    : MqttResult (MqttOptions.t * TopicLayout.t) :=
  let (config, verdict) := validate config in
  _ ← verdict;
  transport ← transport read config;
  topics ← TopicLayout.new (MqttConfig.base_topic config);
  Ok (MqttOptions.mk (MqttConfig.client_id config) (MqttConfig.server config)
        (MqttConfig.port config) transport true (MqttConfig.keep_alive config)
        (LastWill.mk (TopicLayout.state topics) OFFLINE_PAYLOAD true)
        (then_some (negb (String.eqb (MqttConfig.user config) ""))
           (MqttConfig.user config, MqttConfig.password config))
        (MqttConfig.request_capacity config), topics).

Definition connection_error {A} (message : string) : MqttResult A :=
  Err (MqttError.Connection message).

(** The subscriptions requested and the result; [None] while nothing is available. *)
Fixpoint poll (l : TopicLayout.t) (subscribe : string → outcome string unit)
    (events : list (outcome string LoopEvent.t)) : list string * option (MqttResult MqttEvent.t) :=
  match events with
  | [] => ([], None)
  | Err message :: _ => ([], Some (connection_error message))
  | Panic :: _ => ([], Some Panic)
  | Ok (LoopEvent.ConnAck success code) :: _ =>
      if negb success then
        ([], Some (connection_error ("broker rejected connection: " +:+ code)))
      else
        match subscribe (TopicLayout.command_filter l) with
        | Ok _ =>
            ([TopicLayout.command_filter l; TopicLayout.gateway_reboot_command l],
             Some (match subscribe (TopicLayout.gateway_reboot_command l) with
                   | Ok _ => Ok MqttEvent.Connected
                   | Err message => connection_error message
                   | Panic => Panic
                   end))
        | Err message => ([TopicLayout.command_filter l], Some (connection_error message))
        | Panic => ([TopicLayout.command_filter l], Some Panic)
        end
  | Ok (LoopEvent.Publish topic payload retain) :: _ =>
      ([], Some (topic ← ok_or (from_utf8 topic) (MqttError.InvalidIncomingUtf8 "topic");
                 payload ← ok_or (from_utf8 payload) (MqttError.InvalidIncomingUtf8 "payload");
                 Ok (MqttEvent.Message (IncomingMessage.mk topic payload retain))))
  | Ok (LoopEvent.OutgoingDisconnect | LoopEvent.Other) :: events => poll l subscribe events
  end.

(** The loop of [disconnect]; the list ends where its timeout strikes. *)
Fixpoint flush (events : list (outcome string LoopEvent.t)) : MqttResult unit :=
  match events with
  | [] => Err MqttError.ShutdownTimeout
  | Err message :: _ => connection_error message
  | Panic :: _ => Panic
  | Ok LoopEvent.OutgoingDisconnect :: _ => Ok tt
  | Ok _ :: events => flush events
  end.

Definition disconnect (request : outcome string unit) (events : list (outcome string LoopEvent.t))
    : MqttResult unit :=
  match request with
  | Ok _ => flush events
  | Err message => connection_error message
  | Panic => Panic
  end.
End MqttConnection.
