(* ===== verification/MqttFacts.v ===== *)
(** * What the MQTT layer guarantees

    The topic layout: which base topics are accepted, and that distinct topics never collide;
    the command parser, characterised exactly; the publications about a node; and the
    normalisation of the configuration. *)

From S2P Require Import Prelude RustStd RustText CommandIds Error Types ResponseTypes.
From S2P Require Import VeluxNode NodeFacts Mqtt.

Import TopicLayout.

(** ** The topics as a data type *)
Module Topic.
Inductive t :=
| State | Nodes | Groups | GatewayReboot
| NodeInfo (id : NodeId.t) | NodeStatus (id : NodeId.t) | NodeState (id : NodeId.t)
| NodePosition (id : NodeId.t) | NodeTarget (id : NodeId.t) | NodeCommand (id : NodeId.t)
| GroupInfo (id : GroupId.t) | GroupCommand (id : GroupId.t).
Global Instance eq_dec : EqDecision t.
Proof. solve_decision. Defined.

Definition render (l : TopicLayout.t) (x : t) : string :=
  match x with
  | State => state l
  | Nodes => nodes l
  | Groups => groups l
  | GatewayReboot => gateway_reboot_command l
  | NodeInfo id => node_info l id
  | NodeStatus id => node_status l id
  | NodeState id => node_state l id
  | NodePosition id => node_position l id
  | NodeTarget id => node_target l id
  | NodeCommand id => node_command l id
  | GroupInfo id => group_info l id
  | GroupCommand id => group_command l id
  end.

Definition wf (x : t) : Prop :=
  match x with
  | State | Nodes | Groups | GatewayReboot => True
  | NodeInfo id | NodeStatus id | NodeState id | NodePosition id | NodeTarget id
  | NodeCommand id => is_u8 (NodeId.get id)
  | GroupInfo id | GroupCommand id => is_u8 (GroupId.get id)
  end.

Definition node_segment (id : NodeId.t) : string := "velux_node_" +:+ show (NodeId.get id).
Definition group_segment (id : GroupId.t) : string := "velux_group_" +:+ show (GroupId.get id).

(** The path segments below the base. *)
Definition segments (x : t) : list string :=
  match x with
  | State => ["state"]
  | Nodes => ["nodes"]
  | Groups => ["groups"]
  | GatewayReboot => ["cmnd"; "reboot"]
  | NodeInfo id => [node_segment id; "info"]
  | NodeStatus id => [node_segment id; "status"]
  | NodeState id => [node_segment id; "state"]
  | NodePosition id => [node_segment id; "position"]
  | NodeTarget id => [node_segment id; "target"]
  | NodeCommand id => [node_segment id; "cmnd"; "control"]
  | GroupInfo id => [group_segment id; "info"]
  | GroupCommand id => [group_segment id; "cmnd"; "control"]
  end.
End Topic.

Lemma has_char_app c s t : has_char c (s +:+ t) = has_char c s || has_char c t.
Proof.
  induction s as [|x s IH]; [done|]. rewrite string_app_cons. cbn. by rewrite IH, orb_assoc.
Qed.

Lemma string_app_inj_l p s t : p +:+ s = p +:+ t → s = t.
Proof. induction p as [|c p IH]; [done|]. rewrite !string_app_cons. intros [= ?]. auto. Qed.

Lemma node_segment_plain id : is_u8 (NodeId.get id) → has_char slash (Topic.node_segment id) = false.
Proof. intros. unfold Topic.node_segment. rewrite has_char_app, show_no_slash by done. done. Qed.

Lemma group_segment_plain id :
  is_u8 (GroupId.get id) → has_char slash (Topic.group_segment id) = false.
Proof. intros. unfold Topic.group_segment. rewrite has_char_app, show_no_slash by done. done. Qed.

(** A path below a base splits into the base's segments and the path's. *)
Lemma split_below base rest : split slash (base +:+ "/" +:+ rest) = split slash base ++ split slash rest.
Proof. apply split_app. Qed.

Lemma split_segment seg rest :
  has_char slash seg = false → split slash (seg +:+ "/" +:+ rest) = seg :: split slash rest.
Proof. intros. rewrite split_below. by rewrite (split_plain _ seg). Qed.

Lemma split_render l x :
  Topic.wf x → split slash (Topic.render l x) = split slash (base l) ++ Topic.segments x.
Proof.
  assert (∀ id rest, is_u8 (NodeId.get id) →
    split slash (node_root l id +:+ "/" +:+ rest)
    = split slash (base l) ++ Topic.node_segment id :: split slash rest) as Hnode.
  { intros id rest Hid. unfold node_root. rewrite <- !string_app_assoc.
    change ("/velux_node_" +:+ ?x) with ("/" +:+ ("velux_node_" +:+ x)).
    rewrite split_below. f_equal. rewrite string_app_assoc.
    apply (split_segment (Topic.node_segment id)). by apply node_segment_plain. }
  assert (∀ id rest, is_u8 (GroupId.get id) →
    split slash (group_root l id +:+ "/" +:+ rest)
    = split slash (base l) ++ Topic.group_segment id :: split slash rest) as Hgroup.
  { intros id rest Hid. unfold group_root. rewrite <- !string_app_assoc.
    change ("/velux_group_" +:+ ?x) with ("/" +:+ ("velux_group_" +:+ x)).
    rewrite split_below. f_equal. rewrite string_app_assoc.
    apply (split_segment (Topic.group_segment id)). by apply group_segment_plain. }
  destruct x; intros Hwf; cbn [Topic.render Topic.segments Topic.wf] in *.
  - apply (split_below (base l) "state").
  - apply (split_below (base l) "nodes").
  - apply (split_below (base l) "groups").
  - apply (split_below (base l) "cmnd/reboot").
  - by apply (Hnode id "info").
  - by apply (Hnode id "status").
  - by apply (Hnode id "state").
  - by apply (Hnode id "position").
  - by apply (Hnode id "target").
  - by apply (Hnode id "cmnd/control").
  - by apply (Hgroup id "info").
  - by apply (Hgroup id "cmnd/control").
Qed.

Lemma render_inj l x y :
  Topic.wf x → Topic.wf y → Topic.render l x = Topic.render l y → x = y.
Proof.
  intros Hx Hy H%(f_equal (split slash)). rewrite !split_render in H by done.
  apply app_inv_head in H.
  destruct x, y; try done; cbn [Topic.segments Topic.wf] in *; simplify_eq; f_equal;
    destruct id, id0; by f_equal.
Qed.

(** C38: topics never collide: under one base, two topics with the same text are the same topic,
    of the same node or group. *)
Theorem topics_distinct (l : TopicLayout.t) (x y : Topic.t) :
  Topic.wf x → Topic.wf y → Topic.render l x = Topic.render l y → x = y.
Proof. apply render_inj. Qed.

Lemma topics_distinct_witness :
  Topic.NodeState (NodeId.new 1) = Topic.NodeState (NodeId.new 1).
Proof.
  apply (topics_distinct (mk "velux")); [by apply (bool_decide_unpack _)..|reflexivity].
Defined.

(** ** Base topics *)
Definition base_wf (base : string) : Prop :=
  base ≠ "" ∧ Forall (.≠ "") (split slash base)
  ∧ Forall (λ b, forbidden_byte b = false) (bytes_of base).

Lemma slash_nonempty : "" ∉ ["/"].
Proof. apply (bool_decide_unpack _). vm_compute. exact I. Qed.

Lemma normalise_trimmed topic : trimmed ["/"] (normalise topic).
Proof. apply trim_matches_trimmed, slash_nonempty. Qed.

Lemma existsb_false {A} (f : A → bool) l : existsb f l = false ↔ Forall (λ x, f x = false) l.
Proof.
  induction l as [|x l IH]; cbn; [done|]. by rewrite orb_false_iff, IH, Forall_cons.
Qed.

Lemma new_spec topic :
  TopicLayout.new topic
  = if decide (base_wf (normalise topic)) then Ok (mk (normalise topic))
    else Err (MqttError.InvalidBaseTopic (normalise topic)).
Proof.
  unfold TopicLayout.new. set (base := normalise topic). clearbody base.
  assert (String.eqb base "" || existsb (λ segment, String.eqb segment "") (split slash base)
          || existsb forbidden_byte (bytes_of base) = false ↔ base_wf base) as Hiff.
  { unfold base_wf. rewrite !orb_false_iff, String.eqb_neq.
    rewrite !existsb_false. rewrite (Forall_iff _ _ (.≠ "")); [tauto|].
    intros x. apply String.eqb_neq. }
  destruct (_ || _ || _) eqn:H; case_decide as Hd; try done.
  - by apply Hiff in Hd.
  - by destruct Hd; apply Hiff.
Qed.

(** A base topic is accepted exactly when, stripped of surrounding white space and then of
    surrounding slashes, it is non-empty and has neither empty segments nor wildcards nor NUL;
    the layout keeps that stripped text, which no slash begins or ends, and a refusal names it. *)
Theorem topic_layout_new_spec (topic : string) :
  match TopicLayout.new topic with
  | Ok l => base l = normalise topic ∧ base_wf (base l) ∧ trimmed ["/"] (base l)
  | Err e => e = MqttError.InvalidBaseTopic (normalise topic) ∧ ¬ base_wf (normalise topic)
  | Panic => False
  end.
Proof.
  rewrite new_spec. pose proof (normalise_trimmed topic). by case_decide.
Qed.

(** ** Commands *)
Lemma ok_or_Ok {E A} (o : option A) (e : E) a : ok_or o e = Ok a ↔ o = Some a.
Proof. destruct o; cbn; naive_solver. Qed.

(** The payloads of the actions, regardless of case *)
Definition node_word (a : CoverAction.t) : string :=
  match a with
  | CoverAction.Open => "OPEN"
  | CoverAction.Close => "CLOSE"
  | CoverAction.Toggle => "TOGGLE"
  end.

Definition group_word (a : GroupAction.t) : string :=
  match a with GroupAction.Open => "OPEN" | GroupAction.Close => "CLOSE" end.

Lemma eq_ignore_ascii_case_spec s t :
  eq_ignore_ascii_case s t = true ↔ to_ascii_lowercase s = to_ascii_lowercase t.
Proof. apply String.eqb_eq. Qed.

Lemma node_action_spec payload a :
  node_action payload = Some a ↔ eq_ignore_ascii_case payload (node_word a) = true.
Proof.
  unfold node_action. rewrite eq_ignore_ascii_case_spec.
  repeat (let H := fresh in destruct (eq_ignore_ascii_case _ _) eqn:H;
    [apply eq_ignore_ascii_case_spec in H; rewrite H; by destruct a|
     rewrite <- not_true_iff_false, eq_ignore_ascii_case_spec in H]).
  split; [done|]. by destruct a.
Qed.

Lemma group_action_spec payload a :
  group_action payload = Some a ↔ eq_ignore_ascii_case payload (group_word a) = true.
Proof.
  unfold group_action. rewrite eq_ignore_ascii_case_spec.
  repeat (let H := fresh in destruct (eq_ignore_ascii_case _ _) eqn:H;
    [apply eq_ignore_ascii_case_spec in H; rewrite H; by destruct a|
     rewrite <- not_true_iff_false, eq_ignore_ascii_case_spec in H]).
  split; [done|]. by destruct a.
Qed.

(** What a target segment and a payload mean. *)
Definition means (segment payload : string) (cmd : MqttCommand.t) : Prop :=
  match cmd with
  | MqttCommand.Node c =>
      ∃ digits, segment = "velux_node_" +:+ digits
        ∧ parse_u8 digits = Some (NodeId.get (NodeCommand.node_id c))
        ∧ eq_ignore_ascii_case payload (node_word (NodeCommand.action c)) = true
  | MqttCommand.Group c =>
      ∃ digits, segment = "velux_group_" +:+ digits
        ∧ parse_u8 digits = Some (GroupId.get (GroupCommand.group_id c))
        ∧ eq_ignore_ascii_case payload (group_word (GroupCommand.action c)) = true
  | MqttCommand.GatewayReboot => False
  end.

Lemma parse_target_spec topic segment payload cmd :
  parse_target topic segment payload = Ok cmd ↔ means segment payload cmd.
Proof.
  unfold parse_target, means.
  destruct (strip_prefix "velux_node_" segment) as [digits|] eqn:Hn.
  - apply strip_prefix_Some in Hn as ->.
    rewrite outcome_bind_Ok. setoid_rewrite outcome_bind_Ok. setoid_rewrite ok_or_Ok.
    split.
    + intros (id & (x & Hx & ->)%fmap_Some & a & Ha%node_action_spec & [= <-]). exists digits. by destruct x.
    + destruct cmd as [[[id] a]|[[id] a]|]; [|by intros (? & [=] & _)|done]. cbn.
      intros (d & ->%string_app_inj_l & Hd & Ha%node_action_spec). exists (NodeId.new id). rewrite Hd.
      split; [done|]. by exists a.
  - assert (∀ d, segment ≠ "velux_node_" +:+ d) as Hno.
    { intros d ->. by rewrite (proj2 (strip_prefix_Some _ _ d) eq_refl) in Hn. }
    destruct (strip_prefix "velux_group_" segment) as [digits|] eqn:Hg.
    + apply strip_prefix_Some in Hg as ->.
      rewrite outcome_bind_Ok. setoid_rewrite outcome_bind_Ok. setoid_rewrite ok_or_Ok.
      split.
      * intros (id & (x & Hx & ->)%fmap_Some & a & Ha%group_action_spec & [= <-]). exists digits. by destruct x.
      * destruct cmd as [[[id] a]|[[id] a]|]; [by intros (? & [=] & _)| |done]. cbn.
        intros (d & ->%string_app_inj_l & Hd & Ha%group_action_spec). exists (GroupId.new id). rewrite Hd.
        split; [done|]. by exists a.
    + split; [done|]. assert (∀ d, segment ≠ "velux_group_" +:+ d) as Hno'.
      { intros d ->. by rewrite (proj2 (strip_prefix_Some _ _ d) eq_refl) in Hg. }
      destruct cmd; naive_solver.
Qed.

Lemma means_plain segment payload cmd : means segment payload cmd → has_char slash segment = false.
Proof.
  destruct cmd; [intros (d & -> & Hd & _)..|done]; rewrite has_char_app;
    by rewrite (parse_u8_plain _ _ Hd).
Qed.

Lemma parse_command_iff (l : TopicLayout.t) (m : IncomingMessage.t) (cmd : MqttCommand.t) :
  parse_command l m = Ok cmd
  ↔ IncomingMessage.retained m = false
    ∧ let payload := trim (IncomingMessage.payload m) in
      match cmd with
      | MqttCommand.GatewayReboot =>
          IncomingMessage.topic m = gateway_reboot_command l
          ∧ eq_ignore_ascii_case payload "REBOOT" = true
      | _ => ∃ segment, IncomingMessage.topic m = base l +:+ "/" +:+ segment +:+ "/cmnd/control"
                        ∧ means segment payload cmd
      end.
Proof.
  unfold parse_command. destruct m as [topic payload [|]]; cbn [IncomingMessage.retained
    IncomingMessage.topic IncomingMessage.payload]; [naive_solver|].
  set (text := trim payload). clearbody text.
  assert (∀ segment, has_char slash segment = false →
    base l +:+ "/" +:+ segment +:+ "/cmnd/control" ≠ gateway_reboot_command l) as Hneq.
  { intros seg Hseg H%(f_equal (split slash)). unfold gateway_reboot_command in H.
    rewrite split_below, (split_below _ "cmnd/reboot"), (split_segment _ "cmnd/control") in H by done.
    by apply app_inv_head in H. }
  destruct (String.eqb_spec topic (gateway_reboot_command l)) as [->|Hreboot].
  - destruct (eq_ignore_ascii_case text "REBOOT"), cmd as [c|c|]; split; try (intros [=]);
      try (intros (_ & seg & Ht & Hm); exfalso; by apply (Hneq seg); [eapply means_plain|]).
    + by repeat split.
    + done.
    + by intros (_ & _ & [=]).
  - rewrite outcome_bind_Ok. setoid_rewrite ok_or_Ok. split.
    + intros (rel & Hrel & Hcmd). split; [done|].
      apply bind_Some in Hrel as (suffix & Hs%strip_prefix_Some & Hr%strip_prefix_Some).
      destruct (split slash rel) as [|seg [|c [|d [|]]]] eqn:Hsplit; try done.
      destruct (String.eqb_spec c "cmnd") as [->|], (String.eqb_spec d "control") as [->|]; try done.
      apply parse_target_spec in Hcmd.
      pose proof (join_split slash rel) as Hj. rewrite Hsplit in Hj. cbn in Hj.
      destruct cmd; [| |done]; exists seg; by rewrite Hs, Hr, <- Hj.
    + intros (_ & Hcmd).
      assert (∃ segment, topic = base l +:+ "/" +:+ segment +:+ "/cmnd/control"
                         ∧ means segment text cmd) as (seg & -> & Hm).
      { destruct cmd as [c|c|]; [done..|naive_solver]. }
      exists (seg +:+ "/cmnd/control"). split.
      * apply bind_Some. exists ("/" +:+ seg +:+ "/cmnd/control"). by rewrite !strip_prefix_Some.
      * change "/cmnd/control" with ("/" +:+ "cmnd/control").
        rewrite split_segment by (by eapply means_plain). by apply parse_target_spec.
Qed.

(** C37: the parser is exact: a message is a command if and only if it is not retained and either
    its topic is the gateway's reboot topic and its payload, trimmed and regardless of case, is
    REBOOT, or its topic is [<base>/<target>/cmnd/control] where the target names a node (group)
    with an identifier below 256 and the payload, trimmed and regardless of case, is the word of
    its action: OPEN, CLOSE or TOGGLE for nodes, OPEN or CLOSE for groups. *)
Theorem parse_command_spec (l : TopicLayout.t) (m : IncomingMessage.t) (cmd : MqttCommand.t) :
  parse_command l m = Ok cmd
  ↔ IncomingMessage.retained m = false
    ∧ let payload := trim (IncomingMessage.payload m) in
      match cmd with
      | MqttCommand.GatewayReboot =>
          IncomingMessage.topic m = gateway_reboot_command l
          ∧ eq_ignore_ascii_case payload "REBOOT" = true
      | _ => ∃ segment, IncomingMessage.topic m = base l +:+ "/" +:+ segment +:+ "/cmnd/control"
                        ∧ means segment payload cmd
      end.
Proof. apply parse_command_iff. Qed.

Lemma node_command_parses l id :
  is_u8 (NodeId.get id) →
  let send payload := parse_command l (IncomingMessage.mk (node_command l id) payload false) in
  send "OPEN" = Ok (MqttCommand.Node (NodeCommand.mk id CoverAction.Open))
  ∧ send "CLOSE" = Ok (MqttCommand.Node (NodeCommand.mk id CoverAction.Close))
  ∧ send "TOGGLE" = Ok (MqttCommand.Node (NodeCommand.mk id CoverAction.Toggle)).
Proof.
  intros Hid. cbv zeta. unfold node_command, node_root. rewrite <- !string_app_assoc.
  split_and!; apply parse_command_iff; (split; [reflexivity|]);
    (exists (Topic.node_segment id); split; [reflexivity|]);
    exists (show (NodeId.get id)); (split; [reflexivity|]); (split; [by apply parse_show|reflexivity]).
Qed.

Lemma group_command_parses l id :
  is_u8 (GroupId.get id) →
  let send payload := parse_command l (IncomingMessage.mk (group_command l id) payload false) in
  send "OPEN" = Ok (MqttCommand.Group (GroupCommand.mk id GroupAction.Open))
  ∧ send "CLOSE" = Ok (MqttCommand.Group (GroupCommand.mk id GroupAction.Close)).
Proof.
  intros Hid. cbv zeta. unfold group_command, group_root. rewrite <- !string_app_assoc.
  split_and!; apply parse_command_iff; (split; [reflexivity|]);
    (exists (Topic.group_segment id); split; [reflexivity|]);
    exists (show (GroupId.get id)); (split; [reflexivity|]); (split; [by apply parse_show|reflexivity]).
Qed.

(** ** Publications about a node *)
Section publications.
Context (to_vec : Json.t → outcome string (list Z)) (l : TopicLayout.t).

Lemma serialize_json_Ok value payload :
  serialize_json to_vec value = Ok payload ↔ to_vec value = Ok payload.
Proof. unfold serialize_json. destruct (to_vec value); naive_solver. Qed.

Lemma info_publication_Ok node p :
  info_publication to_vec l node = Ok p →
  MqttPublication.topic p = node_info l (VeluxNode.id node) ∧ MqttPublication.retained p = true.
Proof. intros (? & ? & [= <-])%outcome_bind_Ok. done. Qed.

Lemma status_publications_Ok node ps :
  status_publications to_vec l node = Ok ps ↔
  ∃ payload, to_vec (snapshot_to_json (VeluxNode.snapshot node)) = Ok payload
  ∧ let id := VeluxNode.id node in
    let s := VeluxNode.snapshot node in
    ps = [MqttPublication.retain (node_status l id) payload;
          MqttPublication.retain (node_state l id)
            (bytes_of (cover_state_label (CoverStatusSnapshot.state s)));
          MqttPublication.retain (node_position l id)
            (bytes_of (percent_text (CoverStatusSnapshot.position s)));
          MqttPublication.retain (node_target l id)
            (bytes_of (percent_text (CoverStatusSnapshot.target s)))].
Proof.
  unfold status_publications. rewrite outcome_bind_Ok. setoid_rewrite serialize_json_Ok.
  split; intros (payload & ? & H); exists payload; split; try done; cbn in *; congruence.
Qed.
End publications.

Lemma percent_text_parse o :
  (if o is Some p then 0 ≤ p ≤ 100 else True) → parse_u8 (percent_text o) = o.
Proof. destruct o; intros; [|done]. apply parse_show. unfold is_u8; lia. Qed.

Lemma closed_position n :
  VeluxNode.state n = CoverState.Closed →
  VeluxNode.current_position n = Some Percentage.FULLY_CLOSED.
Proof.
  unfold VeluxNode.state, derive_cover_state.
  destruct (VeluxNode.operating_state n), (VeluxNode.current_position n); try done;
    repeat case_match; simplify_eq; done.
Qed.

(** The topics a controllable node owns below its root, commands apart. *)
Definition owned_topics (l : TopicLayout.t) (id : NodeId.t) : list string :=
  Topic.render l <$> [Topic.NodeInfo id; Topic.NodeStatus id; Topic.NodeState id;
                      Topic.NodePosition id; Topic.NodeTarget id].

(** What is retained about a node is what clearing it clears: the metadata and status
    publications of a node are retained on the node's own topics, each once, and the clearing
    publications are exactly the empty retained payloads on those topics. *)
Theorem clear_covers_retained (to_vec : Json.t → outcome string (list Z)) (l : TopicLayout.t)
    (node : VeluxNode.t) (info : MqttPublication.t) (status : list MqttPublication.t) :
  info_publication to_vec l node = Ok info →
  status_publications to_vec l node = Ok status →
  MqttPublication.topic <$> (info :: status) = owned_topics l (VeluxNode.id node)
  ∧ Forall (λ p, MqttPublication.retained p = true) (info :: status)
  ∧ clear_node_publications l (VeluxNode.id node)
    = MqttPublication.clear <$> (MqttPublication.topic <$> (info :: status)).
Proof.
  intros [Ht Hr]%info_publication_Ok (payload & _ & ->)%status_publications_Ok.
  cbn. rewrite Ht. split; [done|]. split; [|done]. by repeat constructor.
Qed.

Lemma clear_covers_retained_witness :
  clear_node_publications (mk "velux") (NodeId.new 4)
  = MqttPublication.clear
      <$> ["velux/velux_node_4/info"; "velux/velux_node_4/status"; "velux/velux_node_4/state";
           "velux/velux_node_4/position"; "velux/velux_node_4/target"].
Proof.
  exact (proj2 (proj2 (clear_covers_retained (λ _, Ok []) (mk "velux") sample_node _ _
    eq_refl eq_refl))).
Defined.

(** The leaf topics of a well-formed node carry its snapshot as text: the state topic one of
    the five labels, the position and target topics [unknown] or a decimal from 0 to 100 that
    reads back as the snapshot's value; a closed cover is always at position 0. *)
Theorem status_payloads (to_vec : Json.t → outcome string (list Z)) (l : TopicLayout.t)
    (node : VeluxNode.t) (status : list MqttPublication.t) :
  velux_node_wf node → status_publications to_vec l node = Ok status →
  ∃ snapshot_payload position target,
    MqttPublication.payload <$> status
    = [snapshot_payload; bytes_of (cover_state_label (VeluxNode.state node));
       bytes_of position; bytes_of target]
    ∧ parse_u8 position = (mqtt_open_percent <$> VeluxNode.current_position node)
    ∧ parse_u8 target = (mqtt_open_percent <$> VeluxNode.target_position node)
    ∧ (position = "unknown" ↔ VeluxNode.current_position node = None)
    ∧ (VeluxNode.state node = CoverState.Closed → position = "0").
Proof.
  intros Hwf (payload & _ & ->)%status_publications_Ok.
  assert (∀ o, position_wf o →
    if mqtt_open_percent <$> o is Some p then 0 ≤ p ≤ 100 else True) as Hrange.
  { intros [p|]; [|done]. apply mqtt_open_percent_range. }
  destruct Hwf as (_&_&_&_&_&_&Hc%Hrange&Ht%Hrange&_). cbn.
  do 3 eexists. split; [done|]. rewrite !percent_text_parse by done. split_and!; try done.
  - destruct (VeluxNode.current_position node) as [p|]; cbn in *; [|done].
    split; [|done]. intros Hu. pose proof (parse_show (mqtt_open_percent p)) as Hp.
    rewrite Hu in Hp. specialize (Hp ltac:(unfold is_u8; lia)). done.
  - by intros ->%closed_position.
Qed.

Lemma status_payloads_witness :
  ∃ snapshot_payload, MqttPublication.payload <$> [
    MqttPublication.retain "velux/velux_node_4/status" [];
    MqttPublication.retain "velux/velux_node_4/state" (bytes_of "closing");
    MqttPublication.retain "velux/velux_node_4/position" (bytes_of "70");
    MqttPublication.retain "velux/velux_node_4/target" (bytes_of "0")]
  = [snapshot_payload; bytes_of "closing"; bytes_of "70"; bytes_of "0"].
Proof.
  destruct (status_payloads (λ _, Ok []) (mk "velux") sample_node _ sample_node_wf eq_refl)
    as (s & p & t & Heq & _). exists s. injection Heq as <- _ _. reflexivity.
Defined.

(** ** Configuration *)
Lemma trim_trimmed s : trimmed whitespace (trim s).
Proof. apply trim_matches_trimmed, whitespace_nonempty. Qed.

Lemma guarded_Ok {E A} (b : bool) (e : E) (rest : outcome E A) a :
  (if b then Err e else rest) = Ok a ↔ b = false ∧ rest = Ok a.
Proof. destruct b; naive_solver. Qed.

(** The verdict, whatever the configuration it is about *)
Lemma validate_verdict (c : MqttConfig.t) :
  (validate c).2 = Ok tt ↔
  ¬ (is_Some (MqttConfig.ca_cert c) ∧ MqttConfig.insecure c = true)
  ∧ trim (MqttConfig.server c) ≠ "" ∧ trim (MqttConfig.client_id c) ≠ ""
  ∧ (∃ topics, TopicLayout.new (normalise (MqttConfig.base_topic c)) = Ok topics)
  ∧ MqttConfig.keep_alive c ≠ 0 ∧ MqttConfig.request_capacity c ≠ 0.
Proof.
  destruct c as [server port ca insecure client user password topic keep capacity].
  unfold validate. cbn -[trim normalise TopicLayout.new].
  assert (((if ca is Some _ then true else false) && insecure) = true
          ↔ is_Some ca ∧ insecure = true) as <-.
  { rewrite andb_true_iff. destruct ca; unfold is_Some; naive_solver. }
  destruct (_ && _); cbn -[trim normalise TopicLayout.new]; [naive_solver|].
  rewrite !guarded_Ok, outcome_bind_Ok, !String.eqb_neq.
  setoid_rewrite guarded_Ok. setoid_rewrite guarded_Ok. setoid_rewrite Z.eqb_neq. split.
  - intros (?&?&topics&?&?&?&_). split_and!; try done. by exists topics.
  - intros (_&?&?&(topics&?)&?&?). split_and!; try done. by exists topics.
Qed.

(** The normalised configuration, when the TLS options do not exclude each other *)
Lemma validate_normalised (c : MqttConfig.t) :
  ¬ (is_Some (MqttConfig.ca_cert c) ∧ MqttConfig.insecure c = true) →
  (validate c).1
  = MqttConfig.mk (trim (MqttConfig.server c)) (MqttConfig.port c) (MqttConfig.ca_cert c)
      (MqttConfig.insecure c) (trim (MqttConfig.client_id c)) (MqttConfig.user c)
      (MqttConfig.password c) (normalise (MqttConfig.base_topic c)) (MqttConfig.keep_alive c)
      (MqttConfig.request_capacity c).
Proof. destruct c as [? ? [ca|] []]; try done. intros []. split; [by exists ca|done]. Qed.

Lemma trim_idemp s : trim (trim s) = trim s.
Proof. unfold trim. apply trim_matches_id, trim_trimmed. Qed.

(** A base topic without surrounding white space or slashes is its own normal form. *)
Lemma normalise_id topic :
  trimmed whitespace topic → trimmed ["/"] topic → normalise topic = topic.
Proof.
  intros Hw Hs. unfold normalise, trim. rewrite (trim_matches_id whitespace) by done.
  by apply trim_matches_id.
Qed.

(** A validated configuration has a trimmed, non-empty server and client identifier, not both
    TLS options, non-zero limits and a base topic the layout accepts; validation changes nothing
    else, and is the identity the second time when the base topic has no surrounding white
    space left. *)
Theorem validate_spec (c c' : MqttConfig.t) :
  validate c = (c', Ok tt) →
  MqttConfig.server c' = trim (MqttConfig.server c) ∧ MqttConfig.server c' ≠ ""
  ∧ MqttConfig.client_id c' = trim (MqttConfig.client_id c) ∧ MqttConfig.client_id c' ≠ ""
  ∧ MqttConfig.base_topic c' = normalise (MqttConfig.base_topic c)
  ∧ ¬ (is_Some (MqttConfig.ca_cert c') ∧ MqttConfig.insecure c' = true)
  ∧ MqttConfig.keep_alive c' ≠ 0 ∧ MqttConfig.request_capacity c' ≠ 0
  ∧ MqttConfig.ca_cert c' = MqttConfig.ca_cert c ∧ MqttConfig.insecure c' = MqttConfig.insecure c
  ∧ MqttConfig.password c' = MqttConfig.password c ∧ MqttConfig.port c' = MqttConfig.port c
  ∧ (∃ topics, TopicLayout.new (MqttConfig.base_topic c') = Ok topics)
  ∧ (trimmed whitespace (MqttConfig.base_topic c') → validate c' = (c', Ok tt)).
Proof.
  destruct c as [server port ca insecure client user password topic keep capacity].
  unfold validate at 1.
  destruct ((if ca is Some _ then true else false) && insecure) eqn:Htls; [done|].
  pose proof (normalise_trimmed topic) as Hslash. intros [= <- H]. cbn.
  destruct (String.eqb_spec (trim server) "") as [|Hs]; [done|].
  destruct (String.eqb_spec (trim client) "") as [|Hc]; [done|].
  apply outcome_bind_Ok in H as (topics & Htopics & H).
  destruct (Z.eqb_spec keep 0) as [|Hk]; [done|].
  destruct (Z.eqb_spec capacity 0) as [|Hcap]; [done|].
  split_and!; try done.
  - intros [[? ->] ->]. done.
  - by exists topics.
  - intros Hw. rewrite Htls, (normalise_id _ Hw Hslash), Htopics. unfold trim.
    rewrite !(trim_matches_id whitespace (trim_matches whitespace _)) by apply trim_trimmed.
    fold (trim server) (trim client).
    rewrite (proj2 (String.eqb_neq _ _) Hs), (proj2 (String.eqb_neq _ _) Hc).
    done.
Qed.

Definition sample_config : MqttConfig.t :=
  MqttConfig.mk " broker " 1883 None false "bridge" "" "" "/home/velux/" 60000 256.

Lemma validate_spec_witness :
  MqttConfig.base_topic (validate sample_config).1 = "home/velux"
  ∧ validate (validate sample_config).1 = ((validate sample_config).1, Ok tt).
Proof.
  split; [reflexivity|].
  refine (proj2 (proj2 (proj2 (proj2 (proj2 (proj2 (proj2 (proj2 (proj2 (proj2 (proj2 (proj2 (proj2
    (validate_spec sample_config (validate sample_config).1 _))))))))))))) _); [reflexivity|].
  intros c Hc. revert c Hc. apply Forall_forall. apply (bool_decide_unpack _). vm_compute. exact I.
Defined.

(** C40: normalising a base topic is not idempotent: slashes are stripped after white space and
    may leave white space at the ends. The layout built from a validated configuration and the
    layout of the connection opened with it, which validates once more, then differ: states are
    published below one base while commands are awaited, and the last will left, below another. *)
Theorem base_topic_renormalised (read : string → outcome string (list Z)) :
  ∃ (c c' : MqttConfig.t) (options : MqttOptions.t) (bridge_topics mqtt_topics : TopicLayout.t),
    validate c = (c', Ok tt)
    ∧ TopicLayout.new (MqttConfig.base_topic c') = Ok bridge_topics
    ∧ MqttConnection.new read c' = Ok (options, mqtt_topics)
    ∧ command_filter bridge_topics ≠ command_filter mqtt_topics
    ∧ LastWill.topic (MqttOptions.last_will options) ≠ state bridge_topics.
Proof.
  exists (MqttConfig.mk "broker" 1883 None false "bridge" "" "" "/ / / a" 60000 256).
  do 4 eexists. split; [vm_compute; reflexivity|]. split; [vm_compute; reflexivity|].
  split; [vm_compute; reflexivity|]. by vm_compute.
Qed.
