(* ===== verification/Broker.v ===== *)
(** * The broker's retained messages

    The abstract view subscribers have of what the program publishes: a broker stores the last
    retained payload of every topic, and an empty retained payload removes it. *)

From S2P Require Import Prelude Mqtt.

Module Broker.
Abbreviation store := (gmap string (list Z)) (only parsing).

Definition deliver (s : store) (p : MqttPublication.t) : store :=
  if MqttPublication.retained p then
    if bool_decide (MqttPublication.payload p = []) then delete (MqttPublication.topic p) s
    else <[MqttPublication.topic p := MqttPublication.payload p]> s
  else s.

Definition deliver_all (s : store) (ps : list MqttPublication.t) : store := foldl deliver s ps.

(** The payload as the store keeps it. *)
Definition stored (payload : list Z) : option (list Z) :=
  if bool_decide (payload = []) then None else Some payload.

Lemma deliver_all_app s ps qs : deliver_all s (ps ++ qs) = deliver_all (deliver_all s ps) qs.
Proof. apply foldl_app. Qed.

Lemma deliver_all_snoc s ps p : deliver_all s (ps ++ [p]) = deliver (deliver_all s ps) p.
Proof. apply deliver_all_app. Qed.

Lemma deliver_ne s p topic :
  topic ≠ MqttPublication.topic p → deliver s p !! topic = s !! topic.
Proof.
  intros Hne. unfold deliver. repeat case_match; [by rewrite lookup_delete_ne| |done].
  by rewrite lookup_insert_ne.
Qed.

Lemma deliver_retain s topic payload :
  deliver s (MqttPublication.retain topic payload) !! topic = stored payload.
Proof.
  unfold deliver, stored; simpl. case_bool_decide; [apply lookup_delete_eq|apply lookup_insert_eq].
Qed.

Lemma deliver_all_other s ps topic :
  topic ∉ MqttPublication.topic <$> ps → deliver_all s ps !! topic = s !! topic.
Proof.
  revert s. induction ps as [|p ps IH]; intros s; [done|].
  rewrite fmap_cons, not_elem_of_cons. intros [Hne Hin].
  unfold deliver_all. cbn [foldl]. rewrite IH by done. by apply deliver_ne.
Qed.

(** A topic on which one payload is published, and published or retained already, ends with that
    payload. *)
Lemma deliver_all_settled s ps topic payload :
  MqttPublication.retain topic payload ∈ ps ∨ s !! topic = stored payload →
  (∀ p, p ∈ ps → MqttPublication.topic p = topic → p = MqttPublication.retain topic payload) →
  deliver_all s ps !! topic = stored payload.
Proof.
  induction ps as [|p ps IH] using rev_ind; intros Hin Hall.
  { destruct Hin as [Hin|]; [by apply elem_of_nil in Hin|done]. }
  rewrite deliver_all_snoc. destruct (decide (MqttPublication.topic p = topic)) as [Ht|Ht].
  - rewrite (Hall p) by (done || set_solver). apply deliver_retain.
  - rewrite deliver_ne by done. apply IH; [|set_solver]. destruct Hin as [Hin|?]; [|by right].
    apply elem_of_app in Hin as [?|Hin]; [by left|]. apply list_elem_of_singleton in Hin. by subst p.
Qed.

Lemma deliver_clears s topics topic :
  deliver_all s (MqttPublication.clear <$> topics) !! topic
  = if decide (topic ∈ topics) then None else s !! topic.
Proof.
  induction topics as [|t topics IH] using rev_ind.
  { by rewrite decide_False by apply not_elem_of_nil. }
  rewrite fmap_app. cbn [fmap list_fmap]. rewrite deliver_all_snoc.
  destruct (decide (topic = t)) as [->|Hne].
  - rewrite (decide_True (P := t ∈ _)) by set_solver. apply (deliver_retain _ _ []).
  - rewrite deliver_ne by done. rewrite IH.
    destruct (decide (topic ∈ topics)), (decide (topic ∈ topics ++ [t])); done || set_solver.
Qed.
End Broker.
