(* ===== verification/MqttQueue.v ===== *)
(** * The queue of publications (mqtt.rs, [MqttConnection::publish])

    rumqttc hands the requests of its client to its event loop through a bounded channel, whose
    capacity is [request_capacity]. Sending waits while the channel is full, and only polling the
    event loop empties it. The channel is a parameter, an interface with the documented laws of a
    bounded first-in first-out channel; a list is an instance. *)

From S2P Require Import Prelude RustStd Types Mqtt.

(** What the client asks of its event loop; every request is sent with QoS 1. *)
Module ClientRequest.
Inductive t :=
| Publish (topic : string) (retained : bool) (payload : list Z)
| Subscribe (filter : string)
| Disconnect.
Global Instance eq_dec : EqDecision t.
Proof. solve_decision. Defined.
End ClientRequest.

(** The sending half of the channel. [None]: the send waits until the event loop is polled. *)
Class RequestChannel (Q : Type) := {
  send_async : Q → ClientRequest.t → option (Q * outcome string unit);
  pending : Q → list ClientRequest.t;
  capacity : Q → nat;
  closed : Q → bool
}.

Class BoundedChannel (Q : Type) `{!RequestChannel Q} : Prop := {
  send_room q r :
    closed q = false → (length (pending q) < capacity q)%nat →
    ∃ q', send_async q r = Some (q', Ok tt)
          ∧ pending q' = pending q ++ [r] ∧ capacity q' = capacity q ∧ closed q' = false;
  send_full q r :
    closed q = false → (capacity q ≤ length (pending q))%nat → send_async q r = None;
  send_closed q r :
    closed q = true → ∃ message, send_async q r = Some (q, Err message)
}.

Module MqttQueue.
Section queue.
Context `{RequestChannel Q}.

(** [client.publish_bytes(..).await] *)
Definition request (p : MqttPublication.t) : ClientRequest.t :=
  ClientRequest.Publish (MqttPublication.topic p) (MqttPublication.retained p)
    (MqttPublication.payload p).

Definition publish (q : Q) (publication : MqttPublication.t) : Q * option (MqttResult unit) :=
  match send_async q (request publication) with
  | None => (q, None)
  | Some (q, Ok _) => (q, Some (Ok tt))
  | Some (q, Err message) => (q, Some (Err (MqttError.Connection message)))
  | Some (q, Panic) => (q, Some Panic)
  end.

Fixpoint publish_all (q : Q) (publications : list MqttPublication.t) : Q * option (MqttResult unit) :=
  match publications with
  | [] => (q, Some (Ok tt))
  | publication :: publications =>
      match publish q publication with
      | (q, Some (Ok _)) => publish_all q publications
      | stopped => stopped
      end
  end.

(** The requests the channel has room for *)
Definition room (q : Q) : nat := (capacity q - length (pending q))%nat.

Context `{!BoundedChannel Q}.

Lemma publish_all_closed q ps :
  closed q = true →
  ∃ message, publish_all q ps
    = (q, Some (match ps with [] => Ok tt | _ => Err (MqttError.Connection message) end)).
Proof.
  intros Hq. destruct ps as [|p ps]; [by exists ""|]. destruct (send_closed q (request p) Hq) as [m Hm].
  exists m. cbn [publish_all]. unfold publish. by rewrite Hm.
Qed.

Lemma publish_all_open q ps :
  closed q = false →
  let (q', r) := publish_all q ps in
  pending q' = pending q ++ take (room q) (request <$> ps)
  ∧ capacity q' = capacity q ∧ closed q' = false
  ∧ r = (if bool_decide (length ps ≤ room q)%nat then Some (Ok tt) else None).
Proof.
  revert q. induction ps as [|p ps IH]; intros q Hq.
  { cbn. by rewrite take_nil, app_nil_r. }
  cbn [publish_all]. unfold publish, room.
  destruct (decide (length (pending q) < capacity q)%nat) as [Hroom|Hfull].
  - destruct (send_room q (request p) Hq Hroom) as (q1 & -> & Hp & Hc & Hq1).
    specialize (IH q1 Hq1). destruct (publish_all q1 ps) as [q' r].
    destruct IH as (-> & -> & -> & ->). unfold room. rewrite Hp, Hc, length_app. cbn [length].
    replace (capacity q - length (pending q))%nat
      with (S (capacity q - (length (pending q) + 1)))%nat by lia.
    cbn [fmap list_fmap take]. split_and!; [by rewrite <- app_assoc|done..|].
    cbn [length]. repeat case_bool_decide; done || lia.
  - rewrite send_full by (done || lia). replace (capacity q - length (pending q))%nat with 0%nat by lia.
    by rewrite take_0, app_nil_r.
Qed.

(** What [publish_all] does to the channel: on an open channel it queues the publications in
    their order behind what is pending, as many as there is room for; it returns, successfully,
    exactly if that is all of them, and otherwise waits. On a closed channel it queues nothing
    and fails, unless there is nothing to publish. *)
Theorem publish_all_queues (q : Q) (ps : list MqttPublication.t) :
  let (q', r) := publish_all q ps in
  if closed q then
    q' = q ∧ match ps, r with
             | [], Some (Ok _) | _ :: _, Some (Err (MqttError.Connection _)) => True
             | _, _ => False
             end
  else
    pending q' = pending q ++ take (room q) (request <$> ps)
    ∧ capacity q' = capacity q ∧ closed q' = false
    ∧ r = (if bool_decide (length ps ≤ room q)%nat then Some (Ok tt) else None).
Proof.
  destruct (closed q) eqn:Hq; [|by apply publish_all_open].
  destruct (publish_all_closed q ps Hq) as [m ->]. by destruct ps.
Qed.
End queue.
End MqttQueue.

(** ** A list as the channel *)
Module ListChannel.
Record t := mk { queue : list ClientRequest.t; limit : nat; shut : bool }.

Global Instance channel : RequestChannel t := {|
  send_async q r :=
    if shut q then Some (q, Err "the event loop is gone")
    else if bool_decide (length (queue q) < limit q)%nat
         then Some (mk (queue q ++ [r]) (limit q) false, Ok tt)
         else None;
  pending := queue;
  capacity := limit;
  closed := shut
|}.

Global Instance bounded : BoundedChannel t.
Proof.
  split; intros [l n s] r; cbn; [intros -> Hl|intros -> Hl|intros ->].
  - rewrite bool_decide_true by lia. eexists. by split.
  - by rewrite bool_decide_false by lia.
  - by eexists.
Qed.

(** The channel [AsyncClient::new] creates *)
Definition new (c : MqttConfig.t) : t := mk [] (Z.to_nat (MqttConfig.request_capacity c)) false.
End ListChannel.

Lemma publish_all_queues_witness :
  let ps := replicate 3 (MqttPublication.retain "velux/state" [1]) in
  let (q, r) := MqttQueue.publish_all (ListChannel.mk [] 2 false) ps in
  pending q = MqttQueue.request <$> take 2 ps ∧ r = None.
Proof.
  pose proof (MqttQueue.publish_all_queues (ListChannel.mk [] 2 false)
    (replicate 3 (MqttPublication.retain "velux/state" [1]))) as H.
  vm_compute in H. vm_compute. exact (conj (proj1 H) (proj2 (proj2 (proj2 H)))).
Defined.
