(* ===== verification/HassDiscovery.v ===== *)
(** * Home Assistant discovery (hassdiscovery.rs)

    Identifiers, discovery topics and the publications that announce the covers of a gateway as
    one device, migrate the topics of earlier versions, and withdraw what disappeared. The
    JSON library and the package's build-time metadata are parameters. *)

From stdpp Require Import sorting.
From S2P Require Import Prelude RustStd RustText CommandIds Error Types ResponseTypes VeluxNode Mqtt.

Definition DEFAULT_DISCOVERY_PREFIX : string := "homeassistant".

Definition is_ascii_alphanumeric (c : Ascii.ascii) : bool :=
  let n := Ascii.N_of_ascii c in
  (((48 <=? n) && (n <=? 57)) || ((65 <=? n) && (n <=? 90)) || ((97 <=? n) && (n <=? 122)))%N.

(** The loop of [topic_identifier]. It runs over characters in the code: the bytes of a
    character outside ASCII are never alphanumeric, so they count as one separator run. *)
Fixpoint identifier_loop (identifier : string) (last_was_separator : bool) (value : string) : string :=
  match value with
  | EmptyString => identifier
  | String c value =>
      if is_ascii_alphanumeric c then
        identifier_loop (identifier +:+ String (ascii_lower c) "") false value
      else if negb last_was_separator && negb (String.eqb identifier "") then
        identifier_loop (identifier +:+ "_") true value
      else identifier_loop identifier last_was_separator value
  end.

Definition topic_identifier (value : string) : string :=
  let identifier := trim_end_matches ["_"] (identifier_loop "" false value) in
  if String.eqb identifier "" then "velux2mqtt" else identifier.

Definition device_class (actuator_type : ActuatorType.t) : string :=
  match actuator_type with
  | ActuatorType.Awning | ActuatorType.HorizontalAwning => "awning"
  | ActuatorType.CurtainTrack => "curtain"
  | ActuatorType.GarageOpener => "garage"
  | ActuatorType.GateOpener => "gate"
  | ActuatorType.WindowOpener => "window"
  | ActuatorType.RollerShutter | ActuatorType.RollingDoorOpener | ActuatorType.Blind
  | ActuatorType.SwingingShutter => "shutter"
  | _ => "blind"
  end.

(** ** The serialized structures *)
Module CoverDiscovery.
Record t := mk {
  p : string;
  name : string;
  unique_id : string;
  object_id : string;
  command_topic : string;
  state_topic : option string;
  position_topic : option string;
  payload_open : string;
  payload_close : string;
  state_open : option string;
  state_opening : option string;
  state_closed : option string;
  state_closing : option string;
  position_open : option Z;
  position_closed : option Z;
  optimistic : bool;
  qos : Z;
  retain : bool;
  device_class : string
}.

Definition new (name unique_id command_topic device_class : string) (optimistic : bool) : t :=
  mk "cover" name unique_id unique_id command_topic None None "OPEN" "CLOSE" None None None None
    None None optimistic 1 false device_class.

Definition to_json (c : t) : Json.t :=
  Json.Object
    ([("p", Json.String (p c)); ("name", Json.String (name c));
      ("unique_id", Json.String (unique_id c)); ("object_id", Json.String (object_id c));
      ("command_topic", Json.String (command_topic c))]
     ++ Json.field_if_some "state_topic" Json.String (state_topic c)
     ++ Json.field_if_some "position_topic" Json.String (position_topic c)
     ++ [("payload_open", Json.String (payload_open c));
         ("payload_close", Json.String (payload_close c))]
     ++ Json.field_if_some "state_open" Json.String (state_open c)
     ++ Json.field_if_some "state_opening" Json.String (state_opening c)
     ++ Json.field_if_some "state_closed" Json.String (state_closed c)
     ++ Json.field_if_some "state_closing" Json.String (state_closing c)
     ++ Json.field_if_some "position_open" Json.Number (position_open c)
     ++ Json.field_if_some "position_closed" Json.Number (position_closed c)
     ++ [("optimistic", Json.Bool (optimistic c)); ("qos", Json.Number (qos c));
         ("retain", Json.Bool (retain c)); ("device_class", Json.String (device_class c))]).
End CoverDiscovery.

Module Device.
Record t := mk { identifiers : list string; name : string; manufacturer : string; model : string }.

Definition to_json (d : t) : Json.t :=
  Json.Object
    [("identifiers", Json.Array (Json.String <$> identifiers d)); ("name", Json.String (name d));
     ("manufacturer", Json.String (manufacturer d)); ("model", Json.String (model d))].
End Device.

Module Origin.
Record t := mk { name : string; sw_version : string; support_url : string }.

Definition to_json (o : t) : Json.t :=
  Json.Object
    [("name", Json.String (name o)); ("sw_version", Json.String (sw_version o));
     ("support_url", Json.String (support_url o))].
End Origin.

(** A [BTreeMap<String, _>] is iterated in the order of its keys. *)
Definition string_le (s t : string) : Prop := String.leb s t = true.
Global Instance string_le_dec s t : Decision (string_le s t) := ltac:(unfold string_le; apply _).

Definition sorted_strings (s : gset string) : list string := merge_sort string_le (elements s).

Module DeviceDiscovery.
Record t := mk {
  device : Device.t;
  origin : Origin.t;
  availability_topic : string;
  payload_available : string;
  payload_not_available : string;
  cmps : gmap string CoverDiscovery.t
}.

Definition cmps_to_json (cmps : gmap string CoverDiscovery.t) : list (string * Json.t) :=
  omap (λ key, (λ c, (key, CoverDiscovery.to_json c)) <$> cmps !! key) (sorted_strings (dom cmps)).

Definition to_json (d : t) : Json.t :=
  Json.Object
    [("device", Device.to_json (device d)); ("origin", Origin.to_json (origin d));
     ("availability_topic", Json.String (availability_topic d));
     ("payload_available", Json.String (payload_available d));
     ("payload_not_available", Json.String (payload_not_available d));
     ("cmps", Json.Object (cmps_to_json (cmps d)))].
End DeviceDiscovery.

(** [value[key]] as a place: the field of an object, added when it is missing *)
Fixpoint alter_field (key : string) (f : option Json.t → Json.t) (fields : list (string * Json.t))
    : list (string * Json.t) :=
  match fields with
  | [] => [(key, f None)]
  | (k, v) :: fields =>
      if String.eqb k key then (k, f (Some v)) :: fields else (k, v) :: alter_field key f fields
  end.

(** [removal["cmps"][id] = json!({"p": "cover"})]; indexing a value that is neither an object
    nor null would panic, and the serialized structure has none there. *)
Definition withdraw (removal : Json.t) (id : string) : Json.t :=
  let entry := Json.Object [("p", Json.String "cover")] in
  match removal with
  | Json.Object fields =>
      Json.Object
        (alter_field "cmps"
           (λ cmps, match cmps with
                    | Some (Json.Object components) =>
                        Json.Object (alter_field id (λ _, entry) components)
                    | None | Some Json.Null => Json.Object [(id, entry)]
                    | Some other => other
                    end) fields)
  | removal => removal
  end.

Definition MIGRATE_DISCOVERY : string :=
  String.string_of_list_ascii
    ([Ascii.ascii_of_N 123; Ascii.ascii_of_N 34] ++ String.list_ascii_of_string "migrate_discovery"
     ++ [Ascii.ascii_of_N 34] ++ String.list_ascii_of_string ":true" ++ [Ascii.ascii_of_N 125]).

(** ** The component *)
Module HomeAssistantDiscovery.
Record t := mk { prefix : string; client_id : string; known_components : gset string }.

Definition new (client_id : string) : t := mk DEFAULT_DISCOVERY_PREFIX client_id ∅.
Definition with_prefix (client_id prefix : string) : t :=
  mk (trim_matches ["/"] prefix) client_id ∅.

Definition unique_id (d : t) (node : VeluxNode.t) : string :=
  if existsb (λ byte, negb (byte =? 0)) (VeluxNode.serial_number node)
  then "velux_" +:+ VeluxNode.serial_number_hex node
  else topic_identifier (client_id d) +:+ "_node_" +:+ show (NodeId.get (VeluxNode.id node)).

Definition config_topic (d : t) (unique_id : string) : string :=
  prefix d +:+ "/cover/" +:+ unique_id +:+ "/config".

Definition topic (d : t) (node : VeluxNode.t) : string := config_topic d (unique_id d node).

Definition group_unique_id (d : t) (group : GroupInformation.t) : string :=
  topic_identifier (client_id d) +:+ "_group_" +:+ show (GroupId.get (GroupInformation.group_id group)).

Definition group_topic (d : t) (group : GroupInformation.t) : string :=
  config_topic d (group_unique_id d group).

Definition device_identifier (d : t) : string := topic_identifier (client_id d) +:+ "_gateway".

Definition device_topic (d : t) : string :=
  prefix d +:+ "/device/" +:+ device_identifier d +:+ "/config".

(** The bodies of the two loops of [publications] *)
Definition node_component (d : t) (topics : TopicLayout.t) (node : VeluxNode.t) : CoverDiscovery.t :=
  let id := VeluxNode.id node in
  let unique_id := unique_id d node in
  let '(CoverDiscovery.mk p name uid oid command _ _ payload_open payload_close _ _ _ _ _ _ optimistic
          qos retain class) :=
    CoverDiscovery.new (VeluxNode.name node) unique_id (TopicLayout.node_command topics id)
      (device_class (VeluxNode.actuator_type node)) false in
  CoverDiscovery.mk p name uid oid command (Some (TopicLayout.node_state topics id))
    (Some (TopicLayout.node_position topics id)) payload_open payload_close (Some "open")
    (Some "opening") (Some "closed") (Some "closing") (Some 100) (Some 0) optimistic qos retain class.

Definition group_component (d : t) (topics : TopicLayout.t) (group : GroupInformation.t)
    : CoverDiscovery.t :=
  let id := GroupInformation.group_id group in
  let name := GroupInformation.name group in
  CoverDiscovery.new
    (if String.eqb (trim name) "" then "VELUX group " +:+ show (GroupId.get id) else name)
    (group_unique_id d group) (TopicLayout.group_command topics id) "blind" true.

Definition components (d : t) (topics : TopicLayout.t) (nodes : list VeluxNode.t)
    (groups : list GroupInformation.t) : gmap string CoverDiscovery.t :=
  let components :=
    foldl (λ m node, <[unique_id d node := node_component d topics node]> m) ∅
      (List.filter VeluxNode.is_controllable nodes) in
  foldl (λ m group, <[group_unique_id d group := group_component d topics group]> m) components groups.

Section publications.
Context (to_vec : Json.t → outcome string (list Z)) (to_value : Json.t → outcome string Json.t)
  (value_to_string : Json.t → string) (package : Origin.t).

Definition serialization {A} (r : outcome string A) : MqttResult A :=
  match r with
  | Ok a => Ok a
  | Err message => Err (MqttError.Serialization message)
  | Panic => Panic
  end.

Definition discovery (d : t) (topics : TopicLayout.t) (cmps : gmap string CoverDiscovery.t)
    : DeviceDiscovery.t :=
  DeviceDiscovery.mk
    (Device.mk [device_identifier d] ("VELUX KLF 200 " +:+ client_id d) "VELUX" "KLF 200") package
    (TopicLayout.state topics) "online" "offline" cmps.

(** [publications]: the new state, unchanged on an error, and what is to be published. *)
Definition publications (d : t) (topics : TopicLayout.t) (nodes : list VeluxNode.t)
    (groups : list GroupInformation.t) : t * MqttResult (list MqttPublication.t) :=
  let cmps := components d topics nodes groups in
  let current := dom cmps in
  let legacy_topics := config_topic d <$> sorted_strings current in
  let discovery := discovery d topics cmps in
  let removed := sorted_strings (known_components d ∖ current) in
  let empty := bool_decide (cmps = ∅) in
  let result :=
    payload ← (if empty then Ok [] else serialization (to_vec (DeviceDiscovery.to_json discovery)));
    removal ← (if negb (bool_decide (removed = [])) && negb empty then
                 removal ← serialization (to_value (DeviceDiscovery.to_json discovery));
                 Ok [MqttPublication.retain (device_topic d)
                       (bytes_of (value_to_string (foldl withdraw removal removed)))]
               else Ok []);
    Ok (((λ topic, MqttPublication.retain topic (bytes_of MIGRATE_DISCOVERY)) <$> legacy_topics)
        ++ removal ++ [MqttPublication.retain (device_topic d) payload]
        ++ (MqttPublication.clear <$> legacy_topics)) in
  match result with
  | Ok _ => (mk (prefix d) (client_id d) current, result)
  | _ => (d, result)
  end.
End publications.

Definition clear_publication (d : t) (node : VeluxNode.t) : option MqttPublication.t :=
  then_some (VeluxNode.is_controllable node) (MqttPublication.clear (topic d node)).

Definition clear_group_publication (d : t) (group : GroupInformation.t) : MqttPublication.t :=
  MqttPublication.clear (group_topic d group).
End HomeAssistantDiscovery.
