(* ===== verification/HassFacts.v ===== *)
(** * What the Home Assistant discovery guarantees

    Topic identifiers are safe path segments; unique identifiers separate nodes and groups;
    what is advertised is what the command parser understands; and the broker's retained
    messages after a publication are the current discovery and no legacy ones. *)

From stdpp Require Import sorting.
From S2P Require Import Prelude RustStd RustText CommandIds Error Types ResponseTypes.
From S2P Require Import VeluxNode NodeFacts Mqtt MqttFacts Broker HassDiscovery.

Import HomeAssistantDiscovery.

(** ** Topic identifiers *)
Definition underscore : Ascii.ascii := Ascii.ascii_of_N 95.

(** Lower-case letters and digits in non-empty runs separated by single underscores. *)
Definition identifier_char (c : Ascii.ascii) : bool :=
  Ascii.eqb c underscore
  || (is_ascii_alphanumeric c && Ascii.eqb (ascii_lower c) c).

Definition identifier (s : string) : Prop :=
  Forall (.≠ "") (split underscore s)
  ∧ forallb identifier_char (String.list_ascii_of_string s) = true.

Global Instance identifier_dec s : Decision (identifier s).
Proof. unfold identifier. apply _. Defined.

Lemma list_ascii_app s t :
  String.list_ascii_of_string (s +:+ t)
  = String.list_ascii_of_string s ++ String.list_ascii_of_string t.
Proof. induction s as [|c s IH]; [done|]. rewrite string_app_cons. cbn. by rewrite IH. Qed.

Lemma ascii_forall (P : Ascii.ascii → bool) :
  forallb (λ n, P (Ascii.ascii_of_nat n)) (seq 0 256) = true → ∀ c, P c = true.
Proof.
  intros H c. rewrite forallb_forall in H. rewrite <- (Ascii.ascii_nat_embedding c). apply H.
  apply in_seq. pose proof (Ascii.nat_ascii_bounded c). lia.
Qed.

Lemma lower_alphanumeric c :
  is_ascii_alphanumeric c = true →
  identifier_char (ascii_lower c) = true ∧ Ascii.eqb (ascii_lower c) underscore = false.
Proof.
  intros Hc.
  enough (negb (is_ascii_alphanumeric c)
          || (identifier_char (ascii_lower c) && negb (Ascii.eqb (ascii_lower c) underscore)) = true)
    as H by (rewrite Hc in H; cbn in H; by apply andb_true_iff in H as [? ?%negb_true_iff]).
  revert c Hc. intros c _. revert c. apply ascii_forall. vm_compute. reflexivity.
Qed.

(** Appending a character other than the separator extends the last segment. *)
Lemma split_snoc sep s c :
  Ascii.eqb c sep = false →
  ∃ init last, split sep s = init ++ [last] ∧ split sep (s +:+ String c "") = init ++ [last +:+ String c ""].
Proof.
  intros Hc. induction s as [|x s IH].
  - exists [], "". rewrite !string_app_nil_l. cbn [split]. by rewrite Hc.
  - destruct IH as (init & last & Hs & Hs'). rewrite string_app_cons. cbn [split].
    destruct (Ascii.eqb x sep).
    + exists ("" :: init), last. by rewrite Hs, Hs'.
    + rewrite Hs, Hs'. destruct init as [|seg init]; cbn.
      * by exists [], (String x last).
      * by exists (String x seg :: init), last.
Qed.

Lemma app_string_nonempty s c : s +:+ String c "" ≠ "".
Proof. by destruct s. Qed.

(** The loop invariant: what is collected is empty, an identifier, or an identifier and one
    underscore. *)
Definition collected (s : string) (last_was_separator : bool) : Prop :=
  if last_was_separator then ∃ i, s = i +:+ "_" ∧ identifier i
  else s = "" ∨ identifier s.

Lemma identifier_snoc s c :
  is_ascii_alphanumeric c = true →
  (s = "" ∨ identifier s ∨ ∃ i, s = i +:+ "_" ∧ identifier i) →
  identifier (s +:+ String (ascii_lower c) "").
Proof.
  intros [Hc Hsep]%lower_alphanumeric Hs.
  assert (forallb identifier_char (String.list_ascii_of_string s) = true) as Hchars.
  { destruct Hs as [->|[[_ ?]|(i & -> & _ & ?)]]; try done.
    by rewrite list_ascii_app, forallb_app; apply andb_true_iff. }
  split.
  - destruct (split_snoc underscore s _ Hsep) as (init & last & Hsplit & ->).
    apply Forall_app. split; [|by repeat constructor; apply app_string_nonempty].
    destruct Hs as [->|[[Hi _]|(i & -> & Hi & _)]].
    + cbn in Hsplit. by destruct init as [|? []]; simplify_eq.
    + rewrite Hsplit in Hi. by apply Forall_app in Hi as [? _].
    + change "_" with (String underscore "") in Hsplit. rewrite split_app in Hsplit.
      apply app_inj_tail in Hsplit as [<- _]. done.
  - rewrite list_ascii_app, forallb_app, Hchars. cbn. by rewrite Hc.
Qed.

Lemma identifier_loop_collected s last value :
  collected s last →
  ∃ last', collected (identifier_loop s last value) last'.
Proof.
  revert s last. induction value as [|c value IH]; intros s last Hs; cbn [identifier_loop].
  { by exists last. }
  destruct (is_ascii_alphanumeric c) eqn:Hc.
  - apply IH. right. apply identifier_snoc; [done|].
    destruct last; cbn in Hs; naive_solver.
  - destruct last; cbn; [by apply IH|].
    destruct (String.eqb_spec s "") as [->|Hne]; cbn; apply IH; [by left|].
    exists s. split; [done|]. by destruct Hs.
Qed.

Lemma identifier_no_underscore_end i : identifier i → strip_suffix "_" i = None.
Proof.
  intros [Hi _]. destruct (strip_suffix "_" i) as [r|] eqn:Hr; [|done].
  apply strip_suffix_Some in Hr as ->. change "_" with (String underscore "") in Hi.
  rewrite split_app in Hi. apply Forall_app in Hi as [_ Hi]. by inversion Hi.
Qed.

Lemma trim_underscores_id fuel i : strip_suffix "_" i = None → trim_end_loop fuel ["_"] i = i.
Proof. intros H. destruct fuel; [done|]. cbn [trim_end_loop first_some]. by rewrite H. Qed.

Lemma trim_collected s last :
  collected s last → trim_end_matches ["_"] s = "" ∨ identifier (trim_end_matches ["_"] s).
Proof.
  unfold trim_end_matches. destruct last; cbn [collected].
  - intros (i & -> & Hi). right. rewrite string_length_app, Nat.add_comm.
    change (String.length "_" + ?n)%nat with (S n). cbn [trim_end_loop first_some].
    rewrite strip_suffix_app.
    by rewrite trim_underscores_id by (by apply identifier_no_underscore_end).
  - intros [->|Hi]; [by left|]. right.
    by rewrite trim_underscores_id by (by apply identifier_no_underscore_end).
Qed.

Lemma topic_identifier_identifier value : identifier (topic_identifier value).
Proof.
  unfold topic_identifier.
  destruct (identifier_loop_collected "" false value ltac:(by left)) as [last H].
  apply trim_collected in H. set (i := trim_end_matches _ _) in *. clearbody i.
  destruct (String.eqb_spec i "") as [Hn|Hn].
  - apply (bool_decide_unpack _). vm_compute. exact I.
  - by destruct H.
Qed.

Lemma identifier_harmless c i :
  identifier_char c = false → identifier i → has_char c i = false.
Proof.
  intros Hc [_ Hi]. induction i as [|x i IH]; [done|].
  cbn in Hi. apply andb_true_iff in Hi as [Hx Hi]. cbn.
  destruct (Ascii.eqb_spec x c) as [->|]; [congruence|]. by apply IH.
Qed.

(** A topic identifier is a safe path segment whatever the client is called: non-empty runs
    of lower-case letters and digits joined by single underscores, without the separator and the
    wildcards of MQTT. *)
Theorem topic_identifier_safe (value : string) :
  let i := topic_identifier value in
  i ≠ ""
  ∧ Forall (.≠ "") (split underscore i)
  ∧ (∀ c, c ∈ String.list_ascii_of_string i → identifier_char c = true)
  ∧ Forall (λ b, TopicLayout.forbidden_byte b = false) (bytes_of i)
  ∧ has_char slash i = false.
Proof.
  pose proof (topic_identifier_identifier value) as Hi. set (i := topic_identifier value) in *.
  clearbody i. pose proof Hi as [Hsegs Hchars]. cbv zeta.
  assert (∀ c, c ∈ String.list_ascii_of_string i → identifier_char c = true) as Hc.
  { intros c Hc. rewrite forallb_forall in Hchars. apply Hchars. by apply list_elem_of_In. }
  split_and!; try done.
  - intros ->. by inversion Hsegs.
  - unfold bytes_of. apply Forall_fmap, Forall_forall. intros c Hin%Hc. cbn.
    enough (negb (identifier_char c) || negb (TopicLayout.forbidden_byte (Z.of_N (Ascii.N_of_ascii c))) = true)
      as H by (rewrite Hin in H; by apply negb_true_iff).
    clear. revert c. apply ascii_forall. vm_compute. reflexivity.
  - by apply identifier_harmless.
Qed.

(** ** Unique identifiers *)
Lemma hex_digit_inj x y :
  0 ≤ x < 16 → 0 ≤ y < 16 → KlfError.hex_digit_lower x = KlfError.hex_digit_lower y → x = y.
Proof.
  intros Hx Hy H. unfold KlfError.hex_digit_lower in H.
  apply (f_equal Ascii.N_of_ascii) in H.
  destruct (Z.ltb_spec x 10), (Z.ltb_spec y 10);
    rewrite !Ascii.N_ascii_embedding in H by lia; lia.
Qed.

Lemma hex_digit_alphanumeric x :
  0 ≤ x < 16 → Ascii.eqb (KlfError.hex_digit_lower x) underscore = false.
Proof.
  intros Hx. assert (∃ n, n ∈ seq 0 16 ∧ x = Z.of_nat n) as (n & Hn & ->).
  { exists (Z.to_nat x). split; [apply list_elem_of_In, in_seq; lia|lia]. }
  assert (forallb (λ n, negb (Ascii.eqb (KlfError.hex_digit_lower (Z.of_nat n)) underscore))
            (seq 0 16) = true) as H by (vm_compute; reflexivity).
  rewrite forallb_forall in H. apply negb_true_iff, H, list_elem_of_In, Hn.
Qed.

Definition hex_pair (b : Z) : list Ascii.ascii :=
  [KlfError.hex_digit_lower (Z.shiftr b 4); KlfError.hex_digit_lower (Z.land b 15)].

Lemma nibbles b : is_u8 b → 0 ≤ Z.shiftr b 4 < 16 ∧ 0 ≤ Z.land b 15 < 16
                          ∧ b = 16 * Z.shiftr b 4 + Z.land b 15.
Proof.
  intros Hb. change 15 with (Z.ones 4). rewrite Z.land_ones, Z.shiftr_div_pow2 by lia.
  change (2 ^ 4) with 16. width_lia.
Qed.

Lemma hex_pairs_inj l l' :
  Forall is_u8 l → Forall is_u8 l' → l ≫= hex_pair = l' ≫= hex_pair → l = l'.
Proof.
  revert l'. induction l as [|b l IH]; intros [|b' l'] Hl Hl' H; try done.
  apply Forall_cons in Hl as [Hb Hl], Hl' as [Hb' Hl']. cbn -[Z.land Z.shiftr] in H.
  injection H as H1 H2 H. destruct (nibbles b Hb) as (?&?&Hn), (nibbles b' Hb') as (?&?&Hn').
  apply hex_digit_inj in H1; [|done..]. apply hex_digit_inj in H2; [|done..].
  f_equal; [congruence|]. by apply IH.
Qed.

Lemma hex_plain l :
  Forall is_u8 l → has_char underscore (String.string_of_list_ascii (l ≫= hex_pair)) = false.
Proof.
  induction 1 as [|b l Hb _ IH]; [done|]. destruct (nibbles b Hb) as (?&?&_).
  cbn -[Z.land Z.shiftr]. by rewrite !hex_digit_alphanumeric.
Qed.

Lemma split_unique_id_serial l :
  Forall is_u8 l →
  split underscore ("velux_" +:+ String.string_of_list_ascii (l ≫= hex_pair))
  = ["velux"; String.string_of_list_ascii (l ≫= hex_pair)].
Proof.
  intros Hl. change ("velux_" +:+ ?x) with ("velux" +:+ String underscore x).
  rewrite split_app. by rewrite (split_plain _ (String.string_of_list_ascii _)) by by apply hex_plain.
Qed.

Lemma show_no_underscore n : is_u8 n → has_char underscore (show n) = false.
Proof.
  intros Hn. apply negb_true_iff. revert n Hn.
  apply (u8_forall (λ n, negb (has_char underscore (show n)))). vm_compute. reflexivity.
Qed.

(** [<identifier>_<kind>_<number>] *)
Lemma split_unique_id_number i kind n :
  has_char underscore kind = false → is_u8 n →
  split underscore (i +:+ String underscore (kind +:+ String underscore (show n)))
  = split underscore i ++ [kind; show n].
Proof.
  intros Hk Hn. rewrite split_app, split_app, (split_plain _ kind) by done.
  by rewrite (split_plain _ (show n)) by by apply show_no_underscore.
Qed.

Definition has_serial (n : VeluxNode.t) : bool :=
  existsb (λ byte, negb (byte =? 0)) (VeluxNode.serial_number n).

Lemma split_unique_id d n :
  velux_node_wf n →
  split underscore (unique_id d n)
  = if has_serial n then ["velux"; VeluxNode.serial_number_hex n]
    else split underscore (topic_identifier (client_id d)) ++ ["node"; show (NodeId.get (VeluxNode.id n))].
Proof.
  intros (Hid & _ & [_ Hserial] & _). unfold unique_id, has_serial. case_match.
  - by apply split_unique_id_serial.
  - by apply (split_unique_id_number _ "node").
Qed.

Lemma split_group_unique_id d g :
  is_u8 (GroupId.get (GroupInformation.group_id g)) →
  split underscore (group_unique_id d g)
  = split underscore (topic_identifier (client_id d))
    ++ ["group"; show (GroupId.get (GroupInformation.group_id g))].
Proof. intros. by apply (split_unique_id_number _ "group"). Qed.

(** Unique identifiers separate what they name: two nodes share one only if they carry the
    same non-zero serial number, or neither has one and they are the same node; two groups only
    if they are the same group; and a node never shares one with a group. *)
Theorem unique_ids_distinct (d : t) :
  (∀ m n, velux_node_wf m → velux_node_wf n → unique_id d m = unique_id d n →
     VeluxNode.serial_number m = VeluxNode.serial_number n
     ∧ (has_serial m = false → VeluxNode.id m = VeluxNode.id n))
  ∧ (∀ g h, is_u8 (GroupId.get (GroupInformation.group_id g)) →
       is_u8 (GroupId.get (GroupInformation.group_id h)) →
       group_unique_id d g = group_unique_id d h →
       GroupInformation.group_id g = GroupInformation.group_id h)
  ∧ (∀ n g, velux_node_wf n → is_u8 (GroupId.get (GroupInformation.group_id g)) →
       unique_id d n ≠ group_unique_id d g).
Proof.
  pose proof (split_nonempty underscore (topic_identifier (client_id d))) as Hne.
  assert (∀ n x y, velux_node_wf n → has_serial n = true →
    split underscore (unique_id d n) ≠ split underscore (topic_identifier (client_id d)) ++ [x; y])
    as Hserial.
  { intros n x y Hn Hs H%(f_equal length). rewrite split_unique_id, Hs, length_app in H by done.
    apply Hne, nil_length_inv. change (length [_; _]) with 2%nat in H. lia. }
  split_and!.
  - intros m n Hm Hn Heq%(f_equal (split underscore)).
    pose proof Hm as (Hidm & _ & [Hlm Hsm] & _). pose proof Hn as (Hidn & _ & [Hln Hsn] & _).
    destruct (has_serial m) eqn:Em, (has_serial n) eqn:En.
    + rewrite !split_unique_id, Em, En in Heq by done. injection Heq as Heq. split; [|done].
      apply hex_pairs_inj; [done..|]. apply (f_equal String.list_ascii_of_string) in Heq.
      unfold VeluxNode.serial_number_hex in Heq.
      by rewrite !String.list_ascii_of_string_of_list_ascii in Heq.
    + exfalso. rewrite (split_unique_id d n), En in Heq by done. by apply (Hserial m _ _ Hm Em) in Heq.
    + exfalso. rewrite (split_unique_id d m), Em in Heq by done. symmetry in Heq.
      by apply (Hserial n _ _ Hn En) in Heq.
    + rewrite !split_unique_id, Em, En in Heq by done. apply app_inv_head in Heq.
      injection Heq as Heq%show_inj; [|done..].
      assert (VeluxNode.id m = VeluxNode.id n) as Hid
        by (destruct (VeluxNode.id m), (VeluxNode.id n); simpl in *; congruence).
      split; [|done]. unfold has_serial in Em, En. rewrite existsb_false in Em, En.
      assert (∀ l, length l = 8%nat → Forall (λ b, negb (b =? 0) = false) l → l = replicate 8 0)
        as Hzero.
      { intros l <-. induction 1 as [|b l Hb _ IH]; [done|]. cbn. rewrite <- IH.
        by apply negb_false_iff, Z.eqb_eq in Hb as ->. }
      by rewrite (Hzero _ Hlm Em), (Hzero _ Hln En).
  - intros g h Hg Hh Heq%(f_equal (split underscore)).
    rewrite !split_group_unique_id in Heq by done. apply app_inv_head in Heq.
    injection Heq as Heq%show_inj; [|done..].
    destruct (GroupInformation.group_id g), (GroupInformation.group_id h); simpl in *; congruence.
  - intros n g Hn Hg Heq%(f_equal (split underscore)). rewrite split_group_unique_id in Heq by done.
    destruct (has_serial n) eqn:En; [by apply (Hserial n _ _ Hn En) in Heq|].
    rewrite split_unique_id, En in Heq by done. by apply app_inv_head in Heq.
Qed.

(** ** What is advertised *)
Lemma foldl_insert_lookup {A B} (f : A → string) (g : A → B) l (m : gmap string B) k c :
  foldl (λ m x, <[f x := g x]> m) m l !! k = Some c →
  (∃ x, x ∈ l ∧ f x = k ∧ g x = c) ∨ m !! k = Some c.
Proof.
  revert m. induction l as [|x l IH]; intros m; [by right|]. cbn [foldl].
  intros [(y & ? & ?)|Hm]%IH; [left; exists y; split; [by right|done]|].
  destruct (decide (f x = k)) as [<-|Hne].
  - rewrite lookup_insert_eq in Hm. injection Hm as <-. left. exists x. split; [by left|done].
  - rewrite lookup_insert_ne in Hm by done. by right.
Qed.

Lemma foldl_insert_dom {A B} (f : A → string) (g : A → B) l (m : gmap string B) :
  dom (foldl (λ m x, <[f x := g x]> m) m l) = list_to_set (f <$> l) ∪ dom m.
Proof.
  revert m. induction l as [|x l IH]; intros m; cbn; [set_solver|].
  rewrite IH, dom_insert_L. set_solver.
Qed.

Lemma components_cases d topics nodes groups uid c :
  components d topics nodes groups !! uid = Some c →
  (∃ g, g ∈ groups ∧ uid = group_unique_id d g ∧ c = group_component d topics g)
  ∨ (∃ n, n ∈ nodes ∧ VeluxNode.is_controllable n = true ∧ uid = unique_id d n
          ∧ c = node_component d topics n).
Proof.
  unfold components. intros [(g & ? & ? & ?)|H]%foldl_insert_lookup; [left; by exists g|].
  apply foldl_insert_lookup in H as [(n & [? ?]%elem_of_filter_bool & ? & ?)|H].
  - right. by exists n.
  - by rewrite lookup_empty in H.
Qed.

Definition gateway_wf (nodes : list VeluxNode.t) (groups : list GroupInformation.t) : Prop :=
  Forall velux_node_wf nodes
  ∧ Forall (λ g, is_u8 (GroupId.get (GroupInformation.group_id g))) groups.

(** C39: what is advertised works: for every announced cover, its open and close payloads sent to
    its command topic parse to opening and closing the very node or group whose unique
    identifier it is announced under, and its state and position topics are that node's. *)
Theorem advertised_commands_understood (d : t) (topics : TopicLayout.t) (nodes : list VeluxNode.t)
    (groups : list GroupInformation.t) (uid : string) (c : CoverDiscovery.t) :
  gateway_wf nodes groups → components d topics nodes groups !! uid = Some c →
  CoverDiscovery.unique_id c = uid
  ∧ let press payload :=
      TopicLayout.parse_command topics
        (IncomingMessage.mk (CoverDiscovery.command_topic c) payload (CoverDiscovery.retain c)) in
    (∃ n, n ∈ nodes ∧ VeluxNode.is_controllable n = true ∧ uid = unique_id d n
       ∧ press (CoverDiscovery.payload_open c)
         = Ok (MqttCommand.Node (NodeCommand.mk (VeluxNode.id n) CoverAction.Open))
       ∧ press (CoverDiscovery.payload_close c)
         = Ok (MqttCommand.Node (NodeCommand.mk (VeluxNode.id n) CoverAction.Close))
       ∧ CoverDiscovery.state_topic c = Some (Topic.render topics (Topic.NodeState (VeluxNode.id n)))
       ∧ CoverDiscovery.position_topic c
         = Some (Topic.render topics (Topic.NodePosition (VeluxNode.id n))))
    ∨ (∃ g, g ∈ groups ∧ uid = group_unique_id d g
       ∧ press (CoverDiscovery.payload_open c)
         = Ok (MqttCommand.Group (GroupCommand.mk (GroupInformation.group_id g) GroupAction.Open))
       ∧ press (CoverDiscovery.payload_close c)
         = Ok (MqttCommand.Group (GroupCommand.mk (GroupInformation.group_id g) GroupAction.Close))
       ∧ CoverDiscovery.optimistic c = true).
Proof.
  intros [Hnodes Hgroups] [(g & Hg & -> & ->)|(n & Hn & Hc & -> & ->)]%components_cases.
  - rewrite Forall_forall in Hgroups. split; [done|]. right. exists g.
    destruct (group_command_parses topics _ (Hgroups g Hg)) as [? ?]. done.
  - rewrite Forall_forall in Hnodes. split; [done|]. left. exists n.
    destruct (Hnodes n Hn) as [Hid _].
    destruct (node_command_parses topics _ Hid) as (? & ? & _). done.
Qed.

Definition sample_discovery : t := new "Home bridge".

Lemma sample_gateway_wf : gateway_wf [sample_node] [].
Proof. split; [apply Forall_singleton, sample_node_wf|constructor]. Defined.

Lemma advertised_commands_understood_witness :
  unique_id sample_discovery sample_node = "home_bridge_node_4"
  ∧ CoverDiscovery.unique_id (node_component sample_discovery (TopicLayout.mk "velux") sample_node)
    = "home_bridge_node_4".
Proof.
  split; [reflexivity|].
  refine (proj1 (advertised_commands_understood sample_discovery (TopicLayout.mk "velux")
    [sample_node] [] _ _ sample_gateway_wf _)). vm_compute. reflexivity.
Defined.

(** ** What stays retained *)
Lemma elem_of_sorted_strings s x : x ∈ sorted_strings s ↔ x ∈ s.
Proof. unfold sorted_strings. by rewrite merge_sort_Permutation, elem_of_elements. Qed.

Lemma device_topic_not_config d uid : device_topic d ≠ config_topic d uid.
Proof. unfold device_topic, config_topic. intros H%string_app_inj_l. discriminate. Qed.

Section publications.
Context (to_vec : Json.t → outcome string (list Z)) (to_value : Json.t → outcome string Json.t)
  (value_to_string : Json.t → string) (package : Origin.t).

Definition publish := publications to_vec to_value value_to_string package.

(** The shape of a successful publication. *)
Lemma publish_Ok d topics nodes groups d' ps :
  publish d topics nodes groups = (d', Ok ps) →
  let cmps := components d topics nodes groups in
  let legacy := config_topic d <$> sorted_strings (dom cmps) in
  d' = mk (prefix d) (client_id d) (dom cmps)
  ∧ ∃ payload removal,
      (if decide (cmps = ∅) then payload = []
       else to_vec (DeviceDiscovery.to_json (discovery package d topics cmps)) = Ok payload)
      ∧ Forall (λ p, MqttPublication.topic p = device_topic d ∧ MqttPublication.retained p = true)
          removal
      ∧ ps = ((λ topic, MqttPublication.retain topic (bytes_of MIGRATE_DISCOVERY)) <$> legacy)
             ++ removal ++ [MqttPublication.retain (device_topic d) payload]
             ++ (MqttPublication.clear <$> legacy).
Proof.
  unfold publish, publications. set (cmps := components d topics nodes groups).
  set (legacy := config_topic d <$> _). set (result := _ ≫= _).
  destruct result as [ps'| |] eqn:Hr; [|done..]. intros [= <- <-]. split; [done|].
  subst result. apply outcome_bind_Ok in Hr as (payload & Hpayload & Hr).
  apply outcome_bind_Ok in Hr as (removal & Hremoval & [= <-]).
  exists payload, removal. split_and!; [| |done].
  - clear Hremoval. case_bool_decide as He; case_decide; try done; [by injection Hpayload as <-|].
    unfold serialization in Hpayload. by destruct (to_vec _); simplify_eq.
  - destruct (_ && _); [|by injection Hremoval as <-; constructor].
    apply outcome_bind_Ok in Hremoval as (? & _ & [= <-]). by repeat constructor.
Qed.

(** After a successful publication the broker retains, whatever it retained before, the
    current device discovery, or none when no cover is left; no configuration on the legacy
    topic of any announced cover; and every other topic as it was. The component remembers
    exactly the announced covers, and everything it publishes is retained. *)
Theorem discovery_retained (d : t) (topics : TopicLayout.t) (nodes : list VeluxNode.t)
    (groups : list GroupInformation.t) (d' : t) (ps : list MqttPublication.t) (s : Broker.store) :
  publish d topics nodes groups = (d', Ok ps) →
  let cmps := components d topics nodes groups in
  let s' := Broker.deliver_all s ps in
  (∃ payload, s' !! device_topic d = Broker.stored payload
     ∧ (if decide (cmps = ∅) then payload = []
        else to_vec (DeviceDiscovery.to_json (discovery package d topics cmps)) = Ok payload))
  ∧ (∀ uid, is_Some (cmps !! uid) → s' !! config_topic d uid = None)
  ∧ (∀ topic, topic ≠ device_topic d → (∀ uid, is_Some (cmps !! uid) → topic ≠ config_topic d uid) →
       s' !! topic = s !! topic)
  ∧ (∀ uid, uid ∈ known_components d' ↔ is_Some (cmps !! uid))
  ∧ Forall (λ p, MqttPublication.retained p = true) ps.
Proof.
  intros (-> & payload & removal & Hpayload & Hremoval & ->)%publish_Ok. cbv zeta.
  set (cmps := components d topics nodes groups) in *.
  set (legacy := config_topic d <$> sorted_strings (dom cmps)).
  assert (∀ topic, topic ∈ legacy ↔ ∃ uid, topic = config_topic d uid ∧ is_Some (cmps !! uid))
    as Hlegacy.
  { intros topic. unfold legacy. rewrite list_elem_of_fmap. setoid_rewrite elem_of_sorted_strings.
    by setoid_rewrite elem_of_dom. }
  assert (device_topic d ∉ legacy) as Hdevice.
  { intros (uid & H & _)%Hlegacy. by apply device_topic_not_config in H. }
  rewrite !app_assoc, Broker.deliver_all_app. set (head := _ ++ [_]).
  split_and!.
  - exists payload. split; [|done]. rewrite Broker.deliver_clears, decide_False by done.
    unfold head. rewrite Broker.deliver_all_snoc. apply Broker.deliver_retain.
  - intros uid Huid. rewrite Broker.deliver_clears, decide_True; [done|]. apply Hlegacy. by exists uid.
  - intros topic Hne Hno. rewrite Broker.deliver_clears, decide_False.
    2: { intros (uid & -> & Huid)%Hlegacy. by apply (Hno uid). }
    apply Broker.deliver_all_other. unfold head.
    rewrite !fmap_app, !not_elem_of_app, <- list_fmap_compose. split; [split|].
    + intros (uid & -> & Huid)%list_elem_of_fmap. apply Hlegacy in Huid as (u & -> & Hu).
      by apply (Hno u).
    + intros (p & -> & Hp)%list_elem_of_fmap. rewrite Forall_forall in Hremoval.
      by destruct (Hremoval p Hp).
    + by intros ->%list_elem_of_singleton.
  - intros uid. apply elem_of_dom.
  - unfold head. rewrite !Forall_app, !Forall_fmap. split_and!.
    + by apply Forall_true.
    + eapply Forall_impl; [done|]. by intros ? [].
    + by repeat constructor.
    + by apply Forall_true.
Qed.
End publications.

Definition sample_package : Origin.t := Origin.mk "velux2mqtt" "0" "".

Lemma discovery_retained_witness :
  Broker.deliver_all ∅
    [MqttPublication.retain "homeassistant/device/home_bridge_gateway/config" []] = ∅
  ∧ known_components (publish (λ _, Ok [1]) Ok (λ _, "") sample_package sample_discovery
                        (TopicLayout.mk "velux") [] []).1 = ∅.
Proof.
  split; [reflexivity|].
  destruct (discovery_retained (λ _, Ok [1]) Ok (λ _, "") sample_package sample_discovery
    (TopicLayout.mk "velux") [] [] _ _ ∅ eq_refl) as (_ & _ & _ & Hknown & _).
  apply set_eq. intros uid. etransitivity; [apply Hknown|].
  split; [intros [c Hc]; vm_compute in Hc; discriminate|set_solver].
Defined.
