(* ===== verification/Bridge.v ===== *)
(** * The bridge (bridge.rs)

    The loop between the gateway and the broker. A handler is a function of the bridge's state
    and of the history of what it did so far; the environment - the broker, the gateway, the
    clock and the random jitter - answers each action as an arbitrary function of that history.
    The history is a list of [Action]s, so what a handler publishes and sends, and in which
    order, is part of its result. *)

From stdpp Require Import sorting.
From S2P Require Import Prelude RustStd RustText CommandIds Error Types Command.
From S2P Require Import ResponseTypes Connection Client Tls VeluxNode Mqtt HassDiscovery.

(** A [Duration] and an [Instant], in nanoseconds *)
Abbreviation Duration := Z (only parsing).
Definition from_secs (s : Z) : Duration := s * 1000000000.
Definition from_millis (ms : Z) : Duration := ms * 1000000.
Definition DURATION_MAX : Duration := 18446744073709551615 * 1000000000 + 999999999.

(** ** Reconnecting *)
Module ReconnectBackoff.
Record t := mk { minimum : Duration; maximum : Duration; current : Duration }.

Definition new (minimum maximum : Duration) : t := mk minimum maximum minimum.

(** The limit handed to the random generator *)
Definition jitter_limit (base : Duration) : Z := Z.min (base / 1000000 / 4) 18446744073709551615.

(** [jitter] is what [fastrand::u64(0..=limit)] returns. *)
Definition next_delay (b : t) (jitter : Z) : t * Duration :=
  let base := current b in
  (mk (minimum b) (maximum b) (Z.min (Z.min (base * 2) DURATION_MAX) (maximum b)),
   Z.min (base + from_millis jitter) DURATION_MAX).

Definition reset (b : t) : t := mk (minimum b) (maximum b) (minimum b).
End ReconnectBackoff.

(** ** Configuration *)
Module BridgeError.
Inductive t :=
| Bail (message : string)
| Klf (error : KlfError.t)
| Mqtt (error : MqttError.t)
| Node (error : NodeError.t)
| NodeNotPresent (node_id : NodeId.t)
| GroupNotPresent (group_id : GroupId.t)
| PositionUnknown (node_id : NodeId.t)
| GatewayOffline
| Rejected (session_id : SessionId.t) (status : Z)
| Unexpected (response : Response.t)
| SessionTimedOut (session_id : SessionId.t)
| StatusTimedOut (node_id : NodeId.t)
| Disconnected (message : string)
| Receive (item : Recv.t).
End BridgeError.

Module VeluxMqttBridgeConfig.
Record t := mk {
  klf : Klf200Config.t;
  klf_password : string;
  mqtt : MqttConfig.t;
  hass_discovery : bool;
  reboot_on_shutdown : bool;
  reboot_reconnect_delay : Duration;
  heartbeat_interval : Duration;
  status_refresh_interval : Duration;
  status_response_timeout : Duration;
  reconnect_min_delay : Duration;
  reconnect_max_delay : Duration
}.

Definition new (klf : Klf200Config.t) (klf_password : string) (mqtt : MqttConfig.t) : t :=
  mk klf klf_password mqtt false false (from_secs 30) (from_secs 30) (from_secs 300)
    (from_millis (ConnectionSettings.request_timeout (Klf200Config.connection klf)))
    (from_secs 1) (from_secs 60).

Definition validate (c : t) : t * outcome BridgeError.t unit :=
  let '(mk klf password mqtt hass reboot_on_shutdown reboot_delay heartbeat refresh response_timeout
          min_delay max_delay) := c in
  let klf := Klf200Config.set_host (trim (Klf200Config.host klf)) klf in
  let c := mk klf password mqtt hass reboot_on_shutdown reboot_delay heartbeat refresh
             response_timeout min_delay max_delay in
  if String.eqb (Klf200Config.host klf) "" then (c, Err (BridgeError.Bail "KLF host cannot be empty"))
  else if String.eqb password "" then (c, Err (BridgeError.Bail "KLF password cannot be empty"))
  else
    let (mqtt, verdict) := Mqtt.validate mqtt in
    (mk klf password mqtt hass reboot_on_shutdown reboot_delay heartbeat refresh response_timeout
       min_delay max_delay,
     match verdict with
     | Err e => Err (BridgeError.Mqtt e)
     | Panic => Panic
     | Ok _ =>
         if (reboot_delay =? 0) || (heartbeat =? 0) || (refresh =? 0) || (response_timeout =? 0)
            || (min_delay =? 0) || (max_delay <? min_delay)
         then Err (BridgeError.Bail
                     "bridge intervals must be non-zero and reconnect maximum must not be below its minimum")
         else Ok tt
     end).
End VeluxMqttBridgeConfig.

(** ** State, history and environment *)

(** An [Arc<dyn Gateway>]: which of the gateways connected over time it is *)
Abbreviation GatewayHandle := nat (only parsing).

(** [Wait] is the loop's [tokio::select!] while none of its branches is ready: time passes. *)
Module Action.
Inductive t :=
| Publish (publication : MqttPublication.t) (accepted : bool)
| MqttDisconnect
| Send (gateway : GatewayHandle) (request : Request.t)
| GatewayState (gateway : GatewayHandle)
| GatewayShutdown (gateway : GatewayHandle) (reboot : bool)
| StartSetup
| Wait.
Global Instance eq_dec : EqDecision t.
Proof. solve_decision. Defined.
End Action.

(** The traits [Broker] and [Gateway], the serializer, the clock and the random generator, as the
    bridge uses them. [call_returns] says whether the call an action makes ever returns: a publication
    that the full channel of the broker's client never takes does not. The results are those of
    the calls that return. [instant_max] is the last [Instant] the platform represents: the
    addition of a [Duration] beyond it panics. *)
Class Environment := {
  call_returns : list Action.t → Action.t → bool;
  publish_result : list Action.t → MqttPublication.t → MqttResult unit;
  disconnect_result : list Action.t → MqttResult unit;
  send_result : list Action.t → GatewayHandle → Request.t → KlfResult Response.t;
  state_result : list Action.t → GatewayHandle → KlfResult GatewayState.t;
  shutdown_result : list Action.t → GatewayHandle → bool → KlfResult unit;
  now : list Action.t → Z;
  instant_max : Z;
  random : list Action.t → Z → Z;
  to_vec : Json.t → outcome string (list Z);
  to_value : Json.t → outcome string Json.t;
  value_to_string : Json.t → string;
  package : Origin.t
}.

Module Bridge.
Record t := mk {
  config : VeluxMqttBridgeConfig.t;
  topics : TopicLayout.t;
  discovery : option HomeAssistantDiscovery.t;
  gateway : option GatewayHandle;
  gateway_events : bool;
  setup : bool;
  cache : gmap NodeId.t VeluxNode.t;
  groups : gmap GroupId.t GroupInformation.t;
  session_ids : SessionIdAllocator.t;
  mqtt_connected : bool;
  next_reconnect : Z;
  reconnect : ReconnectBackoff.t
}.

(** [VeluxMqttBridge::new], with the connection's options. *)
Definition new (read : string → outcome string (list Z)) (start : Z)
    (config : VeluxMqttBridgeConfig.t) : outcome BridgeError.t (t * MqttOptions.t * TopicLayout.t) :=
  let (config, verdict) := VeluxMqttBridgeConfig.validate config in
  _ ← verdict;
  let mqtt := VeluxMqttBridgeConfig.mqtt config in
  match TopicLayout.new (MqttConfig.base_topic mqtt) with
  | Ok topics =>
      match MqttConnection.new read mqtt with
      | Ok (options, mqtt_topics) =>
          Ok (mk config topics
                (then_some (VeluxMqttBridgeConfig.hass_discovery config)
                   (HomeAssistantDiscovery.new (MqttConfig.client_id mqtt)))
                None false false ∅ ∅ SessionIdAllocator.new false start
                (ReconnectBackoff.new (VeluxMqttBridgeConfig.reconnect_min_delay config)
                   (VeluxMqttBridgeConfig.reconnect_max_delay config)), options, mqtt_topics)
      | Err e => Err (BridgeError.Mqtt e)
      | Panic => Panic
      end
  | Err e => Err (BridgeError.Mqtt e)
  | Panic => Panic
  end.

(** Assignments to the fields the handlers change *)
Definition set_gateway (g : option GatewayHandle) (events : bool) (b : t) : t :=
  mk (config b) (topics b) (discovery b) g events (setup b) (cache b) (groups b) (session_ids b)
    (mqtt_connected b) (next_reconnect b) (reconnect b).
Definition set_setup (s : bool) (b : t) : t :=
  mk (config b) (topics b) (discovery b) (gateway b) (gateway_events b) s (cache b) (groups b)
    (session_ids b) (mqtt_connected b) (next_reconnect b) (reconnect b).
Definition set_cache (c : gmap NodeId.t VeluxNode.t) (b : t) : t :=
  mk (config b) (topics b) (discovery b) (gateway b) (gateway_events b) (setup b) c (groups b)
    (session_ids b) (mqtt_connected b) (next_reconnect b) (reconnect b).
Definition set_groups (g : gmap GroupId.t GroupInformation.t) (b : t) : t :=
  mk (config b) (topics b) (discovery b) (gateway b) (gateway_events b) (setup b) (cache b) g
    (session_ids b) (mqtt_connected b) (next_reconnect b) (reconnect b).
Definition set_session_ids (s : SessionIdAllocator.t) (b : t) : t :=
  mk (config b) (topics b) (discovery b) (gateway b) (gateway_events b) (setup b) (cache b)
    (groups b) s (mqtt_connected b) (next_reconnect b) (reconnect b).
Definition set_mqtt_connected (c : bool) (b : t) : t :=
  mk (config b) (topics b) (discovery b) (gateway b) (gateway_events b) (setup b) (cache b)
    (groups b) (session_ids b) c (next_reconnect b) (reconnect b).
Definition set_next_reconnect (i : Z) (b : t) : t :=
  mk (config b) (topics b) (discovery b) (gateway b) (gateway_events b) (setup b) (cache b)
    (groups b) (session_ids b) (mqtt_connected b) i (reconnect b).
Definition set_reconnect (r : ReconnectBackoff.t) (b : t) : t :=
  mk (config b) (topics b) (discovery b) (gateway b) (gateway_events b) (setup b) (cache b)
    (groups b) (session_ids b) (mqtt_connected b) (next_reconnect b) r.
Definition set_discovery (d : option HomeAssistantDiscovery.t) (b : t) : t :=
  mk (config b) (topics b) d (gateway b) (gateway_events b) (setup b) (cache b) (groups b)
    (session_ids b) (mqtt_connected b) (next_reconnect b) (reconnect b).
End Bridge.
Import Bridge.

(** The state a handler runs in *)
Module St.
Record t := mk { bridge : Bridge.t; history : list Action.t }.
End St.

(** Handlers: state passing with the errors of [anyhow]; the state reached is kept on errors. *)
Definition M (A : Type) : Type := St.t → St.t * outcome BridgeError.t A.

Global Instance M_ret : MRet M := λ A a s, (s, Ok a).
Global Instance M_bind : MBind M := λ A B f m s,
  let (s, r) := m s in
  match r with Ok a => f a s | Err e => (s, Err e) | Panic => (s, Panic) end.

Definition fail {A} (e : BridgeError.t) : M A := λ s, (s, Err e).
Definition gets {A} (f : Bridge.t → A) : M A := λ s, (s, Ok (f (St.bridge s))).
Definition modify (f : Bridge.t → Bridge.t) : M unit :=
  λ s, (St.mk (f (St.bridge s)) (St.history s), Ok tt).

(** [?] on the results of the other components *)
Definition lift {E A} (wrap : E → BridgeError.t) (r : outcome E A) : M A :=
  λ s, (s, match r with Ok a => Ok a | Err e => Err (wrap e) | Panic => Panic end).
Definition ok_or_fail {A} (o : option A) (e : BridgeError.t) : M A :=
  match o with Some a => mret a | None => fail e end.

(** [if let Err(error) = ... { log }] *)
Definition logged (m : M unit) : M unit := λ s,
  let (s, r) := m s in (s, match r with Panic => Panic | _ => Ok tt end).

Fixpoint for_each {A} (l : list A) (f : A → M unit) : M unit :=
  match l with
  | [] => mret tt
  | a :: l => _ ← f a; for_each l f
  end.

(** Maps are iterated in the order of their keys. *)
Definition group_id_le (a b : GroupId.t) : Prop := GroupId.get a ≤ GroupId.get b.
Global Instance group_id_le_dec a b : Decision (group_id_le a b) := ltac:(unfold group_id_le; apply _).

Definition nodes_of (cache : gmap NodeId.t VeluxNode.t) : list VeluxNode.t :=
  omap (λ id, cache !! id) (sorted_keys cache).
Definition groups_of (groups : gmap GroupId.t GroupInformation.t) : list GroupInformation.t :=
  omap (λ id, groups !! id) (merge_sort group_id_le (map_to_list groups).*1).

Section bridge.
Context `{Environment}.

(** ** The actions *)
Definition perform (a : Action.t) : M unit :=
  λ s, (St.mk (St.bridge s) (St.history s ++ [a]), Ok tt).

Definition mqtt_publish (p : MqttPublication.t) : M unit := λ s,
  let r := publish_result (St.history s) p in
  (St.mk (St.bridge s) (St.history s ++ [Action.Publish p (if r is Ok _ then true else false)]),
   match r with Ok _ => Ok tt | Err e => Err (BridgeError.Mqtt e) | Panic => Panic end).

Definition mqtt_publish_all (ps : list MqttPublication.t) : M unit := for_each ps mqtt_publish.

(** [gateway.send(request).await], its result for a [match] *)
Definition gateway_send (g : GatewayHandle) (request : Request.t) : M (KlfResult Response.t) := λ s,
  (St.mk (St.bridge s) (St.history s ++ [Action.Send g request]),
   Ok (send_result (St.history s) g request)).

Definition gateway_state (g : GatewayHandle) : M (KlfResult GatewayState.t) := λ s,
  (St.mk (St.bridge s) (St.history s ++ [Action.GatewayState g]), Ok (state_result (St.history s) g)).

Definition gateway_shutdown (g : GatewayHandle) (reboot : bool) : M (KlfResult unit) := λ s,
  (St.mk (St.bridge s) (St.history s ++ [Action.GatewayShutdown g reboot]),
   Ok (shutdown_result (St.history s) g reboot)).

Definition mqtt_disconnect : M unit := λ s,
  let r := disconnect_result (St.history s) in
  (St.mk (St.bridge s) (St.history s ++ [Action.MqttDisconnect]),
   match r with Ok _ => Ok tt | Err e => Err (BridgeError.Mqtt e) | Panic => Panic end).

(** [Instant::now() + delay] *)
Definition instant_after (delay : Duration) : M Z := λ s,
  let instant := now (St.history s) + delay in
  (s, if instant <=? instant_max then Ok instant else Panic).

(** [self.gateway()?] *)
Definition gateway_handle : M GatewayHandle :=
  g ← gets gateway; ok_or_fail g BridgeError.GatewayOffline.

(** [self.session_ids.allocate()?] and [self.session_ids.release(..)] *)
Definition allocate_session : M SessionId.t := λ s,
  let (ids, r) := SessionIdAllocator.allocate (session_ids (St.bridge s)) in
  (St.mk (set_session_ids ids (St.bridge s)) (St.history s),
   match r with Ok id => Ok id | Err e => Err (BridgeError.Klf e) | Panic => Panic end).

Definition release_session (session_id : SessionId.t) : M unit :=
  modify (λ b, set_session_ids (SessionIdAllocator.release (session_ids b) session_id).1 b).

(** [self.reconnect.next_delay()] *)
Definition next_delay : M Duration := λ s,
  let backoff := reconnect (St.bridge s) in
  let limit := ReconnectBackoff.jitter_limit (ReconnectBackoff.current backoff) in
  let (backoff, delay) := ReconnectBackoff.next_delay backoff (random (St.history s) limit) in
  (St.mk (set_reconnect backoff (St.bridge s)) (St.history s), Ok delay).

Definition update_cache (f : gmap NodeId.t VeluxNode.t → gmap NodeId.t VeluxNode.t) : M unit :=
  modify (λ b, set_cache (f (cache b)) b).

(** ** Publishing *)
Definition publish_availability (online : bool) : M unit :=
  connected ← gets mqtt_connected;
  l ← gets topics;
  if connected : bool then logged (mqtt_publish (TopicLayout.availability_publication l online))
  else mret tt.

Definition publish_group_inventory : M unit :=
  b ← gets id;
  p ← lift BridgeError.Mqtt
        (TopicLayout.groups_publication to_vec (topics b) (groups_of (groups b)));
  mqtt_publish p.

Definition publish_node_inventory : M unit :=
  b ← gets id;
  p ← lift BridgeError.Mqtt (TopicLayout.inventory_publication to_vec (topics b) (cache b));
  mqtt_publish p.

Definition publish_group_info (group : GroupInformation.t) : M unit :=
  l ← gets topics;
  p ← lift BridgeError.Mqtt (TopicLayout.group_info_publication to_vec l group);
  mqtt_publish p.

Definition publish_hass_discovery : M unit :=
  b ← gets id;
  match mqtt_connected b, discovery b with
  | true, Some d =>
      let (d, ps) := HomeAssistantDiscovery.publications to_vec to_value value_to_string package d
                       (topics b) (nodes_of (cache b)) (groups_of (groups b)) in
      ps ← lift BridgeError.Mqtt ps;
      _ ← mqtt_publish_all ps;
      modify (set_discovery (Some d))
  | _, _ => mret tt
  end.

Definition publish_info (node : VeluxNode.t) : M unit :=
  l ← gets topics;
  p ← lift BridgeError.Mqtt (TopicLayout.info_publication to_vec l node);
  mqtt_publish p.

Definition publish_status (node : VeluxNode.t) : M unit :=
  l ← gets topics;
  ps ← lift BridgeError.Mqtt (TopicLayout.status_publications to_vec l node);
  mqtt_publish_all ps.

Definition publish_complete_snapshot : M unit :=
  b ← gets id;
  _ ← mqtt_publish (TopicLayout.availability_publication (topics b) false);
  _ ← publish_node_inventory;
  _ ← publish_group_inventory;
  nodes ← gets (λ b, nodes_of (cache b));
  _ ← for_each nodes (λ node,
        _ ← publish_info node;
        if VeluxNode.is_controllable node then publish_status node else mret tt);
  groups ← gets (λ b, groups_of (groups b));
  _ ← for_each groups publish_group_info;
  _ ← publish_hass_discovery;
  mqtt_publish (TopicLayout.availability_publication (topics b) true).

Definition publish_node_info (node_id : NodeId.t) : M unit :=
  b ← gets id;
  if negb (mqtt_connected b) then mret tt
  else
    node ← ok_or_fail (cache b !! node_id) (BridgeError.NodeNotPresent node_id);
    publish_info node.

Definition publish_node_status (node_id : NodeId.t) : M unit :=
  b ← gets id;
  if negb (mqtt_connected b) then mret tt
  else
    node ← ok_or_fail (cache b !! node_id) (BridgeError.NodeNotPresent node_id);
    publish_status node.

Definition clear_removed_nodes (removed : list VeluxNode.t) : M unit :=
  for_each removed (λ node,
    b ← gets id;
    _ ← mqtt_publish_all (TopicLayout.clear_node_publications (topics b) (VeluxNode.id node));
    match discovery b ≫= λ d, HomeAssistantDiscovery.clear_publication d node with
    | Some p => mqtt_publish p
    | None => mret tt
    end).

Definition clear_removed_groups (removed : list GroupInformation.t) : M unit :=
  for_each removed (λ group,
    b ← gets id;
    _ ← mqtt_publish_all
          (TopicLayout.clear_group_publications (topics b) (GroupInformation.group_id group));
    match discovery b with
    | Some d => mqtt_publish (HomeAssistantDiscovery.clear_group_publication d group)
    | None => mret tt
    end).

(** ** Commands *)
Definition request_status (node_id : NodeId.t) : M unit :=
  session_id ← allocate_session;
  target ← lift BridgeError.Klf (CommandTarget.new [node_id]);
  g ← gateway_handle;
  response ← gateway_send g (Request.StatusRequest session_id target StatusRequestType.MainInformation);
  match response with
  | Ok (Response.StatusAccepted _ status) =>
      if status =? 1 then mret tt
      else _ ← release_session session_id; fail (BridgeError.Rejected session_id status)
  | Ok response => _ ← release_session session_id; fail (BridgeError.Unexpected response)
  | Err error => _ ← release_session session_id; fail (BridgeError.Klf error)
  | Panic => λ s, (s, Panic)
  end.

Definition execute_cover_command (node_id : NodeId.t) (action : CoverAction.t) : M unit :=
  cache ← gets cache;
  node ← ok_or_fail (cache !! node_id) (BridgeError.NodeNotPresent node_id);
  match VeluxNode.resolve_action node action with
  | Err (NodeError.PositionUnknown _) =>
      _ ← request_status node_id; fail (BridgeError.PositionUnknown node_id)
  | resolved =>
      endpoint ← lift BridgeError.Node resolved;
      session_id ← allocate_session;
      match VeluxNode.command_request node session_id action with
      | Err error => _ ← release_session session_id; fail (BridgeError.Node error)
      | Panic => λ s, (s, Panic)
      | Ok request =>
          g ← gets gateway;
          match g with
          | None => _ ← release_session session_id; fail BridgeError.GatewayOffline
          | Some g =>
              response ← gateway_send g request;
              match response with
              | Ok (Response.CommandAccepted _ status as response) =>
                  if status =? 1 then
                    _ ← update_cache (λ cache,
                          match cache !! node_id with
                          | Some node =>
                              <[node_id := (VeluxNode.apply_command_confirmation node response
                                              session_id endpoint).1]> cache
                          | None => cache
                          end);
                    publish_node_status node_id
                  else
                    _ ← release_session session_id; fail (BridgeError.Rejected session_id status)
              | Ok response => _ ← release_session session_id; fail (BridgeError.Unexpected response)
              | Err error => _ ← release_session session_id; fail (BridgeError.Klf error)
              | Panic => λ s, (s, Panic)
              end
          end
      end
  end.

Definition group_request (session_id : SessionId.t) (group : GroupInformation.t) (group_id : GroupId.t)
    (action : GroupAction.t) : Request.t :=
  let position := match action with
                  | GroupAction.Open => Percentage.FULLY_OPEN
                  | GroupAction.Close => Percentage.FULLY_CLOSED
                  end in
  Request.SceneContact (SceneContactRequest.ActivateProductGroup
    (ProductGroupActivationRequest.mk session_id 1 3 (GroupId.get group_id) 0
       (StandardParameter.Relative position) (GroupInformation.velocity group) false
       (replicate 8 3) 0)).

Definition execute_group_command (group_id : GroupId.t) (action : GroupAction.t) : M unit :=
  groups ← gets groups;
  group ← ok_or_fail (groups !! group_id) (BridgeError.GroupNotPresent group_id);
  session_id ← allocate_session;
  g ← gets gateway;
  match g with
  | None => _ ← release_session session_id; fail BridgeError.GatewayOffline
  | Some g =>
      response ← gateway_send g (group_request session_id group group_id action);
      match response with
      | Ok (Response.ProductGroupResult result) =>
          if bool_decide (ProductGroupResult.session_id result = session_id)
             && (ProductGroupResult.status result =? 0)
          then mret tt
          else _ ← release_session session_id;
               fail (BridgeError.Rejected session_id (ProductGroupResult.status result))
      | Ok response => _ ← release_session session_id; fail (BridgeError.Unexpected response)
      | Err error => _ ← release_session session_id; fail (BridgeError.Klf error)
      | Panic => λ s, (s, Panic)
      end
  end.

Definition execute_gateway_reboot : M unit :=
  g ← gateway_handle;
  reboot_result ← gateway_shutdown g true;
  _ ← modify (set_gateway None false);
  _ ← update_cache (λ cache, (VeluxNodeCache.set_all_available cache false).1);
  _ ← modify (set_session_ids SessionIdAllocator.new);
  _ ← modify (λ b, set_reconnect (ReconnectBackoff.reset (reconnect b)) b);
  delay ← gets (λ b, VeluxMqttBridgeConfig.reboot_reconnect_delay (config b));
  instant ← instant_after delay;
  _ ← modify (set_next_reconnect instant);
  _ ← publish_availability false;
  lift BridgeError.Klf reboot_result.

(** ** Events of the gateway *)
Definition gateway_failed (reason : string) : M unit :=
  g ← gets gateway;
  match g with
  | None => mret tt
  | Some _ =>
      _ ← modify (set_gateway None false);
      _ ← update_cache (λ cache, (VeluxNodeCache.set_all_available cache false).1);
      _ ← modify (set_session_ids SessionIdAllocator.new);
      delay ← next_delay;
      instant ← instant_after delay;
      _ ← modify (set_next_reconnect instant);
      publish_availability false
  end.

(** What a response means for the groups: a new value, a removal, or nothing. *)
Definition group_update (groups : gmap GroupId.t GroupInformation.t) (response : Response.t)
    : option (GroupInformation.t + GroupId.t) :=
  match response with
  | Response.GroupInformation notification =>
      Some (inl (GroupInformationNotification.information notification))
  | Response.GroupChange change =>
      let id := GroupChange.group_id change in
      if GroupChange.change_type change =? 1 then inl <$> GroupChange.information change
      else if GroupChange.change_type change =? 0 then
        (λ _, inr id) <$> groups !! id
      else None
  | Response.GroupDeleted group_id => (λ _, inr group_id) <$> groups !! group_id
  | _ => None
  end.

Definition apply_group_response (response : Response.t) : M unit :=
  b ← gets id;
  match group_update (groups b) response with
  | Some (inl group) =>
      _ ← modify (λ b, set_groups (<[GroupInformation.group_id group := group]> (groups b)) b);
      if mqtt_connected b then
        _ ← publish_group_inventory;
        _ ← publish_group_info group;
        publish_hass_discovery
      else mret tt
  | Some (inr group_id) =>
      _ ← modify (λ b, set_groups (delete group_id (groups b)) b);
      match groups b !! group_id with
      | Some group =>
          if mqtt_connected b then
            _ ← publish_group_inventory;
            _ ← clear_removed_groups [group];
            publish_hass_discovery
          else mret tt
      | None => mret tt
      end
  | None => mret tt
  end.

Definition handle_response (response : Response.t) : M unit :=
  _ ← match response with
      | Response.SessionFinished session_id => release_session session_id
      | _ => mret tt
      end;
  _ ← logged (apply_group_response response);
  before ← gets cache;
  let node_added := match response with
                    | Response.NodeInformation i =>
                        bool_decide (before !! NodeInformation.node_id i = None)
                    | _ => false
                    end in
  let metadata_changed := match response with
                          | Response.NodeInformation _ | Response.NodeInformationChanged _ => true
                          | _ => false
                          end in
  let (cache', changed) := VeluxNodeCache.apply_response before response in
  _ ← modify (set_cache cache');
  match changed with
  | None => mret tt
  | Some node_id =>
      connected ← gets mqtt_connected;
      _ ← (if node_added && connected then logged publish_node_inventory else mret tt);
      _ ← (if metadata_changed then logged (publish_node_info node_id) else mret tt);
      _ ← (if metadata_changed then logged publish_hass_discovery else mret tt);
      cache ← gets cache;
      if (match cache !! node_id with Some node => VeluxNode.is_controllable node | None => false end)
      then logged (publish_node_status node_id) else mret tt
  end.

Definition handle_gateway_event (event : Recv.t) : M unit :=
  match event with
  | Recv.Event (ConnectionEvent.Notification response) => handle_response response
  | Recv.Event (ConnectionEvent.UnexpectedResponse _) => mret tt
  | Recv.Event (ConnectionEvent.SessionTimedOut session_id) => release_session session_id
  | Recv.Event (ConnectionEvent.ProtocolError _) => mret tt
  | Recv.Event (ConnectionEvent.Disconnected message) => gateway_failed message
  | Recv.Lagged count =>
      gateway_failed ("KLF event receiver lagged by " +:+ pretty (N.of_nat count) +:+ " messages")
  | Recv.Closed => gateway_failed "KLF event stream closed"
  end.

Definition heartbeat : M unit :=
  g ← gets gateway;
  match g with
  | None => mret tt
  | Some g =>
      state ← gateway_state g;
      match state with
      | Ok _ => mret tt
      | Err error => gateway_failed ("heartbeat failed: " +:+ KlfError.display error)
      | Panic => λ s, (s, Panic)
      end
  end.

Definition stationary (node : VeluxNode.t) : bool :=
  VeluxNode.is_controllable node
  && match VeluxNode.state node with CoverState.Opening | CoverState.Closing => false | _ => true end.

Definition refresh_stationary_nodes : M unit :=
  cache ← gets cache;
  for_each (List.filter (λ id, if cache !! id is Some node then stationary node else false)
              (sorted_keys cache))
    (λ node_id, logged (request_status node_id)).

(** ** Events of the broker *)
Definition handle_mqtt_message (message : IncomingMessage.t) : M unit :=
  b ← gets id;
  match TopicLayout.parse_command (topics b) message with
  | Ok command =>
      match gateway b with
      | None => mret tt
      | Some _ =>
          match command with
          | MqttCommand.Node c =>
              logged (execute_cover_command (NodeCommand.node_id c) (NodeCommand.action c))
          | MqttCommand.Group c =>
              logged (execute_group_command (GroupCommand.group_id c) (GroupCommand.action c))
          | MqttCommand.GatewayReboot => logged execute_gateway_reboot
          end
      end
  | Err _ => mret tt
  | Panic => λ s, (s, Panic)
  end.

Definition handle_mqtt_result (result : MqttResult MqttEvent.t) : M unit :=
  match result with
  | Ok MqttEvent.Connected =>
      _ ← modify (set_mqtt_connected true);
      g ← gets gateway;
      match g with
      | Some _ => logged publish_complete_snapshot
      | None => publish_availability false
      end
  | Ok (MqttEvent.Message message) => handle_mqtt_message message
  | Err _ => modify (set_mqtt_connected false)
  | Panic => λ s, (s, Panic)
  end.

(** ** Setup *)
Definition start_gateway_setup : M unit :=
  _ ← perform Action.StartSetup; modify (set_setup true).
End bridge.

Module PreparedGateway.
Record t := mk {
  gateway : GatewayHandle;
  cache : gmap NodeId.t VeluxNode.t;
  groups : gmap GroupId.t GroupInformation.t;
  session_ids : SessionIdAllocator.t
}.
End PreparedGateway.

(** What the branches of the loop's [tokio::select!] deliver, the shutdown signal apart *)
Module BridgeEvent.
Inductive t :=
| Mqtt (result : MqttResult MqttEvent.t)
| SetupFinished (result : outcome BridgeError.t PreparedGateway.t)
| GatewayEvent (event : Recv.t)
| ReconnectTimer
| HeartbeatTick
| RefreshTick.
End BridgeEvent.

(** How a future of the bridge ends: it returns, or it waits for ever in a call, after a history. *)
Module Ended.
Inductive t :=
| Returned (s : St.t) (result : outcome BridgeError.t unit)
| Waiting (history : list Action.t) (call : Action.t).
End Ended.

(** What [tokio::select!] of [shutdown_signal] delivers *)
Module ShutdownSignal.
Inductive t :=
| CtrlC (result : outcome string unit)
| Terminate.
End ShutdownSignal.

Section run.
Context `{Environment}.

Definition removed_nodes (old new : gmap NodeId.t VeluxNode.t) : list VeluxNode.t :=
  List.filter (λ node, bool_decide (new !! VeluxNode.id node = None)) (nodes_of old).
Definition removed_groups (old new : gmap GroupId.t GroupInformation.t) : list GroupInformation.t :=
  List.filter (λ group, bool_decide (new !! GroupInformation.group_id group = None)) (groups_of old).

Definition install (prepared : PreparedGateway.t) (b : Bridge.t) : Bridge.t :=
  set_reconnect (ReconnectBackoff.reset (reconnect b))
    (set_session_ids (PreparedGateway.session_ids prepared)
       (set_groups (PreparedGateway.groups prepared)
          (set_cache (PreparedGateway.cache prepared)
             (set_gateway (Some (PreparedGateway.gateway prepared)) true b)))).

Definition handle_setup_result (result : outcome BridgeError.t PreparedGateway.t) : M unit :=
  _ ← modify (set_setup false);
  match result with
  | Ok prepared =>
      b ← gets id;
      let removed := removed_nodes (cache b) (PreparedGateway.cache prepared) in
      let removed_groups := removed_groups (groups b) (PreparedGateway.groups prepared) in
      _ ← modify (install prepared);
      if mqtt_connected b then
        _ ← logged (clear_removed_nodes removed);
        _ ← logged (clear_removed_groups removed_groups);
        logged publish_complete_snapshot
      else mret tt
  | Err _ =>
      delay ← next_delay;
      instant ← instant_after delay;
      _ ← modify (set_next_reconnect instant);
      publish_availability false
  | Panic => λ s, (s, Panic)
  end.

(** [shutdown]: [cancelled] is the gateway of a setup that had completed when it was
    cancelled. *)
Definition shutdown (cancelled : option GatewayHandle) : M unit :=
  b ← gets id;
  let reboot := VeluxMqttBridgeConfig.reboot_on_shutdown (config b) in
  _ ← (if setup b then
         _ ← modify (set_setup false);
         match cancelled with
         | Some g => _ ← gateway_shutdown g reboot; mret tt
         | None => mret tt
         end
       else mret tt);
  _ ← publish_availability false;
  _ ← match gateway b with
      | Some g =>
          _ ← modify (set_gateway None (gateway_events b)); _ ← gateway_shutdown g reboot; mret tt
      | None => mret tt
      end;
  if mqtt_connected b then mqtt_disconnect else mret tt.

(** When a branch can deliver: [wait_for_setup] and [receive_gateway_event] pend on [None], the
    timers have preconditions. *)
Definition has_gateway (b : Bridge.t) : bool := if gateway b is Some _ then true else false.

Definition enabled (b : Bridge.t) (event : BridgeEvent.t) : bool :=
  match event with
  | BridgeEvent.Mqtt _ => true
  | BridgeEvent.SetupFinished _ => setup b
  | BridgeEvent.GatewayEvent _ => gateway_events b
  | BridgeEvent.ReconnectTimer => negb (has_gateway b) && negb (setup b)
  | BridgeEvent.HeartbeatTick | BridgeEvent.RefreshTick => has_gateway b
  end.

Definition handle (event : BridgeEvent.t) : M unit :=
  match event with
  | BridgeEvent.Mqtt result => handle_mqtt_result result
  | BridgeEvent.SetupFinished result => handle_setup_result result
  | BridgeEvent.GatewayEvent event => handle_gateway_event event
  | BridgeEvent.ReconnectTimer => start_gateway_setup
  | BridgeEvent.HeartbeatTick => heartbeat
  | BridgeEvent.RefreshTick => refresh_stationary_nodes
  end.

(** One iteration of the loop *)
Inductive step : St.t → BridgeEvent.t → St.t → Prop :=
| step_handle s event s' :
    enabled (St.bridge s) event = true → handle event s = (s', Ok tt) → step s event s'.

(** Time passes in the [tokio::select!]. *)
Definition waited (s : St.t) : St.t := St.mk (St.bridge s) (St.history s ++ [Action.Wait]).

(** The states the loop goes through when it is handed admissible events, now and then *)
Inductive reachable (admissible : BridgeEvent.t → Prop) (start : St.t) : St.t → Prop :=
| reachable_start : reachable admissible start start
| reachable_wait s : reachable admissible start s → reachable admissible start (waited s)
| reachable_step s event s' :
    reachable admissible start s → admissible event → step s event s' →
    reachable admissible start s'.

(** The first of a handler's actions, after the history [h], whose call does not return *)
Fixpoint stall (h actions : list Action.t) : option (list Action.t * Action.t) :=
  match actions with
  | [] => None
  | a :: actions => if call_returns h a then stall (h ++ [a]) actions else Some (h, a)
  end.

(** A handler is a function of the results of its calls, so what it does up to its first call that
    does not return is what it would do up to there if all of them did. *)
Definition awaited (m : M unit) (s : St.t) : Ended.t :=
  let (s', result) := m s in
  match stall (St.history s) (drop (length (St.history s)) (St.history s')) with
  | Some (h, call) => Ended.Waiting h call
  | None => Ended.Returned s' result
  end.

(** The loop of [run_until] over the events handled before the shutdown signal delivers
    [signal], and the shutdown; [None] is a sequence the preconditions rule out. *)
Fixpoint serve (signal : outcome BridgeError.t unit) (cancelled : option GatewayHandle)
    (events : list BridgeEvent.t) (s : St.t) : option Ended.t :=
  match events with
  | [] => Some (awaited (_ ← lift id signal; shutdown cancelled) s)
  | event :: events =>
      if enabled (St.bridge s) event then
        match awaited (handle event) s with
        | Ended.Returned s (Ok _) => serve signal cancelled events s
        | stopped => Some stopped
        end
      else None
  end.

(** [configured_interval]: the first tick is at [Instant::now() + duration]. *)
Definition configured_interval (duration : Duration) : M Z := instant_after duration.

Definition run_until (signal : outcome BridgeError.t unit) (cancelled : option GatewayHandle)
    (events : list BridgeEvent.t) (s : St.t) : option Ended.t :=
  let c := config (St.bridge s) in
  match (_ ← configured_interval (VeluxMqttBridgeConfig.heartbeat_interval c);
         configured_interval (VeluxMqttBridgeConfig.status_refresh_interval c)) s with
  | (s, Ok _) => serve signal cancelled events s
  | (s, Err e) => Some (Ended.Returned s (Err e))
  | (s, Panic) => Some (Ended.Returned s Panic)
  end.

(** [shutdown_signal]: whether the handler of SIGTERM could be registered, and which of the two
    signals is delivered first *)
Definition shutdown_signal (registered : outcome string unit) (first : ShutdownSignal.t)
    : outcome BridgeError.t unit :=
  match registered with
  | Err _ => Err (BridgeError.Bail "failed to listen for SIGTERM")
  | Panic => Panic
  | Ok _ =>
      match first with
      | ShutdownSignal.CtrlC (Err _) => Err (BridgeError.Bail "failed to listen for Ctrl+C")
      | ShutdownSignal.CtrlC Panic => Panic
      | ShutdownSignal.CtrlC (Ok _) | ShutdownSignal.Terminate => Ok tt
      end
  end.

Definition run (registered : outcome string unit) (first : ShutdownSignal.t)
    (cancelled : option GatewayHandle) (events : list BridgeEvent.t) (s : St.t)
    : option Ended.t :=
  run_until (shutdown_signal registered first) cancelled events s.
End run.
