(* ===== verification/BridgeLogic.v ===== *)
(** * Reasoning about the bridge's handlers

    A small logic for the handlers of [Bridge]: [tame I R m] says that [m], started in a state
    with [I], does not panic, keeps [I] and only moves along the preorder [R]. The laws of the
    environment the theorems rely on are a class, with one instance that satisfies them. *)

From S2P Require Import Prelude RustStd CommandIds Error Types Frame Command CommandLayout.
From S2P Require Import ResponseTypes ResponseFacts Connection Client VeluxNode NodeFacts.
From S2P Require Import Mqtt MqttFacts HassDiscovery Bridge.
Import Bridge.

(** ** The documented behaviour of the environment *)
Class Lawful (E : Environment) : Prop := {
  publish_total h p : publish_result h p ≠ Panic;
  disconnect_total h : disconnect_result h ≠ Panic;
  send_total h g r : send_result h g r ≠ Panic;
  state_total h g : state_result h g ≠ Panic;
  shutdown_total h g b : shutdown_result h g b ≠ Panic;
  to_vec_total j : to_vec j ≠ Panic;
  to_value_total j : to_value j ≠ Panic;
  random_range h limit : 0 ≤ limit → 0 ≤ random h limit ≤ limit
}.

(** ** Handlers that keep an invariant and move along a preorder *)
Section tame.
Context (I : St.t → Prop) (R : St.t → St.t → Prop) `{!PreOrder R}.

Definition tame {A} (m : M A) : Prop :=
  ∀ s, I s → I (m s).1 ∧ R s (m s).1 ∧ (m s).2 ≠ Panic.

Lemma tame_ret {A} (a : A) : tame (mret a).
Proof. by intros s. Qed.

Lemma tame_fail {A} e : tame (fail (A:=A) e).
Proof. by intros s. Qed.

Lemma tame_gets {A} (f : Bridge.t → A) : tame (gets f).
Proof. by intros s. Qed.

Lemma tame_lift {E A} (wrap : E → BridgeError.t) (r : outcome E A) : r ≠ Panic → tame (lift wrap r).
Proof. intros Hr s Hs. by destruct r. Qed.

Lemma tame_ok_or_fail {A} (o : option A) e : tame (ok_or_fail o e).
Proof. by destruct o. Qed.

Lemma tame_bind {A B} (m : M A) (f : A → M B) : tame m → (∀ a, tame (f a)) → tame (m ≫= f).
Proof.
  intros Hm Hf s Hs. destruct (Hm s Hs) as (HI & HR & Hp). unfold mbind, M_bind.
  destruct (m s) as [s' [a|e|]]; simpl in *; [|done|done].
  destruct (Hf a s' HI) as (?&?&?). split_and!; [done| |done]. by etransitivity.
Qed.

(** A read knows what the invariant says of the value. *)
Lemma tame_gets_bind {A B} (P : A → Prop) (f : Bridge.t → A) (k : A → M B) :
  (∀ s, I s → P (f (St.bridge s))) → (∀ a, P a → tame (k a)) → tame (gets f ≫= k).
Proof. intros HP Hk s Hs. exact (Hk _ (HP s Hs) s Hs). Qed.

Lemma tame_logged m : tame m → tame (logged m).
Proof.
  intros Hm s Hs. destruct (Hm s Hs) as (?&?&?). unfold logged.
  by destruct (m s) as [? []].
Qed.

Lemma tame_for_each {A} (l : list A) f : (∀ a, tame (f a)) → tame (for_each l f).
Proof. intros Hf. induction l; simpl; [apply tame_ret|apply tame_bind; [done|by intros _]]. Qed.

Lemma tame_modify f :
  (∀ s, I s → I (St.mk (f (St.bridge s)) (St.history s))
              ∧ R s (St.mk (f (St.bridge s)) (St.history s))) → tame (modify f).
Proof. intros Hf s Hs. destruct (Hf s Hs). by split_and!. Qed.
End tame.

Lemma tame_weaken {A} (I : St.t → Prop) (R R' : St.t → St.t → Prop) (m : M A) :
  (∀ s s', R s s' → R' s s') → tame I R m → tame I R' m.
Proof. intros HR Hm s Hs. destruct (Hm s Hs) as (?&?&?). auto. Qed.

(** ** Handlers that return no error: what is left of the errors is logged *)
Definition infallible {A} (m : M A) : Prop := ∀ s e, (m s).2 ≠ Err e.

Lemma infallible_ret {A} (a : A) : infallible (mret a).
Proof. by intros s e. Qed.

Lemma infallible_gets {A} (f : Bridge.t → A) : infallible (gets f).
Proof. by intros s e. Qed.

Lemma infallible_modify f : infallible (modify f).
Proof. by intros s e. Qed.

Lemma infallible_logged m : infallible (logged m).
Proof. intros s e. unfold logged. by destruct (m s) as [? []]. Qed.

Lemma infallible_bind {A B} (m : M A) (f : A → M B) :
  infallible m → (∀ a, infallible (f a)) → infallible (m ≫= f).
Proof.
  intros Hm Hf s e. pose proof (Hm s) as H. unfold mbind, M_bind.
  destruct (m s) as [s' [a|e'|]]; [apply Hf| |done]. by destruct (H e').
Qed.

Lemma infallible_for_each {A} (l : list A) f : (∀ a, infallible (f a)) → infallible (for_each l f).
Proof.
  intros Hf. induction l; [apply infallible_ret|]. apply infallible_bind; [done|by intros _].
Qed.

Lemma infallible_returns (m : M unit) s :
  infallible m → (m s).2 ≠ Panic → m s = ((m s).1, Ok tt).
Proof. intros Hm Hp. pose proof (Hm s) as H. destruct (m s) as [s' [[]|e|]]; [done| |done]. by destruct (H e). Qed.

Ltac infallible_split :=
  repeat first
    [ progress cbv zeta | apply infallible_logged | apply infallible_gets | apply infallible_modify
    | apply infallible_ret | apply infallible_bind; [|intros ?]
    | apply infallible_for_each; intros ? | case_match ].

Lemma logged_returns m s : (m s).2 ≠ Panic → logged m s = ((m s).1, Ok tt).
Proof. unfold logged. by destruct (m s) as [? []]. Qed.

(** ** The two preorders: what publishing changes, and what commands change *)
Definition is_publish (a : Action.t) : Prop := if a is Action.Publish _ _ then True else False.
Definition is_send (a : Action.t) : Prop := if a is Action.Send _ _ then True else False.

(** Publishing changes at most what the discovery remembers. *)
Definition same_bridge (b b' : Bridge.t) : Prop := b' = set_discovery (discovery b') b.

Global Instance same_bridge_preorder : PreOrder same_bridge.
Proof.
  split; [by intros []|]. intros b b' b'' H1 H2. unfold same_bridge in *.
  rewrite H2, H1. by destruct b.
Qed.

Definition publishing (s s' : St.t) : Prop :=
  same_bridge (St.bridge s) (St.bridge s') ∧ extends is_publish (St.history s) (St.history s').

Global Instance publishing_preorder : PreOrder publishing.
Proof.
  split; [by intros s; split|]. intros s s' s'' [H1 H2] [H3 H4].
  split; by etransitivity.
Qed.

(** The fields that say how the bridge is connected. *)
Definition link (b : Bridge.t) :=
  (config b, topics b, (gateway b, gateway_events b, setup b),
   (mqtt_connected b, next_reconnect b, reconnect b)).

Definition commanding (s s' : St.t) : Prop :=
  link (St.bridge s') = link (St.bridge s)
  ∧ extends (λ a, is_publish a ∨ is_send a) (St.history s) (St.history s').

Global Instance commanding_preorder : PreOrder commanding.
Proof.
  split; [by intros s; split|]. intros s s' s'' [H1 H2] [H3 H4].
  split; [by rewrite H3|by etransitivity].
Qed.

Lemma same_bridge_link b b' : same_bridge b b' → link b' = link b.
Proof. by intros ->. Qed.

Lemma publishing_commanding s s' : publishing s s' → commanding s s'.
Proof.
  intros [H1 H2]. split; [by apply same_bridge_link|]. eapply extends_weaken; [|done]. by left.
Qed.

(** ** The data the bridge holds *)
Definition groups_wf (gs : gmap GroupId.t GroupInformation.t) : Prop :=
  map_Forall (λ id g, GroupInformation.group_id g = id ∧ group_wf g) gs.

Definition data_wf (b : Bridge.t) : Prop :=
  cache_wf (cache b) ∧ groups_wf (groups b) ∧ SessionIdAllocatorFacts.wf (session_ids b).

Definition holds_data (s : St.t) : Prop := data_wf (St.bridge s).

(** ** Publishing *)
Definition always (s : St.t) : Prop := True.

Abbreviation publishes := (tame always publishing) (only parsing).

(** Handlers that only publish keep every invariant that publishing keeps. *)
Lemma publishes_tame {A} (I : St.t → Prop) (R : St.t → St.t → Prop) (m : M A) :
  (∀ s s', publishing s s' → R s s') → (∀ s s', publishing s s' → I s → I s') →
  publishes m → tame I R m.
Proof. intros HR HI Hm s Hs. destruct (Hm s) as (_&?&?); [done|]. split_and!; eauto. Qed.

Create HintDb bridge discriminated.
#[export] Hint Resolve tame_ret tame_fail tame_gets tame_ok_or_fail tame_logged : bridge.
#[export] Hint Extern 0 (PreOrder _) => apply _ : bridge.

(** Splits a handler along its syntax; what is left are its actions. *)
Ltac tame_step :=
  first
    [ progress cbv zeta
    | solve [eauto 2 with bridge]
    | apply tame_bind; [apply _| |intros ?]
    | apply tame_ret; apply _ | apply tame_fail; apply _ | apply tame_gets; apply _
    | apply tame_ok_or_fail; apply _ | apply tame_logged
    | apply tame_lift; [apply _|done]
    | apply tame_for_each; [apply _|intros ?]
    | case_match ].
Ltac tame_split := repeat tame_step.

Section publishing.
Context `{E : Environment} `{L : !Lawful E}.

Lemma publishes_publish p : publishes (mqtt_publish p).
Proof.
  intros s _. split_and!; [done|split; [by destruct s as [[]]|by apply extends_snoc]|].
  unfold mqtt_publish. pose proof (publish_total (St.history s) p). by destruct (publish_result _ _).
Qed.
Hint Resolve publishes_publish : bridge.

Lemma publishes_all ps : publishes (mqtt_publish_all ps).
Proof. apply tame_for_each; [apply _|intros]. apply publishes_publish. Qed.
Hint Resolve publishes_all : bridge.

Lemma publishes_lift {E' A} (wrap : E' → BridgeError.t) (r : outcome E' A) :
  r ≠ Panic → publishes (lift wrap r).
Proof. apply tame_lift, _. Qed.

Lemma publishes_set_discovery d : publishes (modify (set_discovery d)).
Proof. intros s _. split_and!; [done|split; [by destruct s as [[]]|done]|done]. Qed.
Hint Resolve publishes_set_discovery : bridge.

Lemma serialize_total j : TopicLayout.serialize_json to_vec j ≠ Panic.
Proof. unfold TopicLayout.serialize_json. pose proof (to_vec_total j). by destruct (to_vec j). Qed.

Lemma outcome_bind_total {E' A B} (m : outcome E' A) (f : A → outcome E' B) :
  m ≠ Panic → (∀ a, f a ≠ Panic) → m ≫= f ≠ Panic.
Proof. intros. by destruct m; simpl. Qed.

Lemma publishes_json {A} j (f : list Z → A) :
  publishes (lift BridgeError.Mqtt (p ← TopicLayout.serialize_json to_vec j; Ok (f p))).
Proof. apply publishes_lift, outcome_bind_total; [apply serialize_total|done]. Qed.
Hint Resolve publishes_json : bridge.

Lemma publishes_availability online : publishes (publish_availability online).
Proof. unfold publish_availability. tame_split. Qed.

Lemma publishes_group_inventory : publishes publish_group_inventory.
Proof. unfold publish_group_inventory. tame_split. Qed.

Lemma publishes_node_inventory : publishes publish_node_inventory.
Proof. unfold publish_node_inventory. tame_split. Qed.

Lemma publishes_group_info g : publishes (publish_group_info g).
Proof. unfold publish_group_info. tame_split. Qed.

Lemma publishes_info n : publishes (publish_info n).
Proof. unfold publish_info. tame_split. Qed.

Lemma publishes_status n : publishes (publish_status n).
Proof. unfold publish_status. tame_split. Qed.

Lemma discovery_publications_total d topics nodes groups :
  (HomeAssistantDiscovery.publications to_vec to_value value_to_string package d topics nodes groups).2
  ≠ Panic.
Proof.
  unfold HomeAssistantDiscovery.publications. set (r := _ ≫= _).
  assert (r ≠ Panic); [|by destruct r].
  assert (∀ {A} (o : outcome string A), o ≠ Panic → HomeAssistantDiscovery.serialization o ≠ Panic)
    as Hs by (intros A []; done).
  apply outcome_bind_total.
  { case_bool_decide; [done|]. apply Hs, to_vec_total. }
  intros payload. apply outcome_bind_total; [|done].
  destruct (_ && _); [|done]. apply outcome_bind_total; [apply Hs, to_value_total|done].
Qed.

Lemma publishes_hass_discovery : publishes publish_hass_discovery.
Proof.
  unfold publish_hass_discovery. apply tame_bind; [apply _|apply tame_gets, _|intros b].
  destruct (mqtt_connected b), (discovery b) as [d|]; try apply tame_ret, _.
  pose proof (discovery_publications_total d (topics b) (nodes_of (cache b)) (groups_of (groups b))).
  destruct (HomeAssistantDiscovery.publications _ _ _ _ _ _ _ _) as [d' ps].
  apply tame_bind; [apply _|by apply publishes_lift|intros]. tame_split.
Qed.
Hint Resolve publishes_availability publishes_group_inventory publishes_node_inventory
  publishes_group_info publishes_info publishes_status publishes_hass_discovery : bridge.

Lemma publishes_complete_snapshot : publishes publish_complete_snapshot.
Proof. unfold publish_complete_snapshot. tame_split. Qed.

Lemma publishes_node_info id : publishes (publish_node_info id).
Proof. unfold publish_node_info. tame_split. Qed.

Lemma publishes_node_status id : publishes (publish_node_status id).
Proof. unfold publish_node_status. tame_split. Qed.

Lemma publishes_clear_nodes l : publishes (clear_removed_nodes l).
Proof. unfold clear_removed_nodes. tame_split. Qed.

Lemma publishes_clear_groups l : publishes (clear_removed_groups l).
Proof. unfold clear_removed_groups. tame_split. Qed.
End publishing.

#[export] Hint Resolve publishes_availability publishes_group_inventory publishes_node_inventory
  publishes_group_info publishes_info publishes_status publishes_hass_discovery
  publishes_complete_snapshot publishes_node_info publishes_node_status publishes_clear_nodes
  publishes_clear_groups : bridge.

(** ** Commands *)
Section commands.
Context `{E : Environment} `{L : !Lawful E}.

Local Abbreviation commands := (tame holds_data commanding) (only parsing).

Lemma data_publishing s s' : publishing s s' → holds_data s → holds_data s'.
Proof. intros [H _]. unfold holds_data. by rewrite H. Qed.

Lemma commands_publishes {A} (m : M A) : publishes m → commands m.
Proof. apply publishes_tame; [apply publishing_commanding|apply data_publishing]. Qed.
Hint Extern 3 (tame holds_data commanding _) =>
  apply commands_publishes; solve [eauto 2 with bridge] : bridge.

(** Assignments to the data *)
Lemma commands_modify f :
  (∀ b, data_wf b → data_wf (f b)) → (∀ b, link (f b) = link b) → commands (modify f).
Proof. intros Hf Hl. apply tame_modify. intros s Hs. split; [by apply Hf|]. split; [by apply Hl|done]. Qed.

Lemma commands_release id : commands (release_session id).
Proof.
  apply commands_modify; [|done]. intros b (?&?&?). split_and!; [done..|].
  by apply SessionIdAllocatorFacts.release_wf.
Qed.

Lemma commands_allocate : commands allocate_session.
Proof.
  intros s (Hc&Hg&Hs). unfold allocate_session.
  pose proof (SessionIdAllocatorFacts.allocate_wf _ Hs) as Hwf.
  pose proof (SessionIdAllocatorFacts.allocate_total _ Hs) as Ht.
  destruct (SessionIdAllocator.allocate _) as [ids [id|e|]]; [..|done];
    (split; [done|]; split; [done|done]).
Qed.

Lemma commands_send g r : commands (gateway_send g r).
Proof. intros s Hs. split_and!; [done| |done]. split; [done|]. apply extends_snoc. by right. Qed.

Lemma commands_update_cache f :
  (∀ c, cache_wf c → cache_wf (f c)) → commands (update_cache f).
Proof. intros Hf. apply commands_modify; [|done]. intros b (?&?&?). split_and!; [by apply Hf|done..]. Qed.

Lemma commands_panicking {A} (r : KlfResult Response.t) h g q (m : M A) :
  r = send_result h g q → r = Panic → commands m.
Proof. intros -> Hp. by destruct (send_total h g q). Qed.

(** The response of a send is never a panic. *)
Lemma commands_send_bind {A} g r (f : KlfResult Response.t → M A) :
  (∀ x, x ≠ Panic → commands (f x)) → commands (gateway_send g r ≫= f).
Proof.
  intros Hf s Hs. destruct (commands_send g r s Hs) as (Hs'&HR&_).
  destruct (Hf (send_result (St.history s) g r) (send_total _ _ _) _ Hs') as (?&?&?).
  split_and!; [done| |done]. by etransitivity.
Qed.

Lemma commands_abandon {A} id e : commands (_ ← release_session id; fail (A:=A) e).
Proof. apply tame_bind; [apply _|apply commands_release|intros; apply tame_fail, _]. Qed.
Hint Resolve commands_release commands_allocate commands_abandon : bridge.

Lemma resolve_action_total n a : VeluxNode.resolve_action n a ≠ Panic.
Proof.
  unfold VeluxNode.resolve_action, VeluxNode.toggle_endpoint.
  destruct a, (VeluxNode.state n), (VeluxNode.current_position n), (VeluxNode.target_position n);
    simpl; repeat case_match; done.
Qed.

Lemma command_request_total n s a : VeluxNode.command_request n s a ≠ Panic.
Proof.
  unfold VeluxNode.command_request. case_match; [done|].
  apply outcome_bind_total; [apply resolve_action_total|done].
Qed.

Ltac command_split := repeat first [apply commands_abandon|apply commands_send_bind; intros ? ?|tame_step]; try done.

Lemma commands_request_status id : commands (request_status id).
Proof. unfold request_status, gateway_handle. command_split. Qed.
Hint Resolve commands_request_status : bridge.

Lemma confirmation_wf c id r sid e :
  cache_wf c →
  cache_wf (match c !! id with
            | Some n => <[id := (VeluxNode.apply_command_confirmation n r sid e).1]> c
            | None => c
            end).
Proof.
  intros Hc. destruct (c !! id) as [n|] eqn:Hn; [|done]. destruct (Hc _ _ Hn) as [<- Hwf].
  destruct (apply_command_confirmation_keeps n r sid e) as [<- Hk]. by apply cache_insert_wf, Hk.
Qed.

Lemma commands_cover_command id a : commands (execute_cover_command id a).
Proof.
  unfold execute_cover_command. apply tame_bind; [apply _|apply tame_gets, _|intros c].
  apply tame_bind; [apply _|apply tame_ok_or_fail, _|intros n].
  pose proof (resolve_action_total n a) as Hr.
  destruct (VeluxNode.resolve_action n a) as [e|err|]; [..|done];
    command_split; try (by edestruct command_request_total);
    apply commands_update_cache; intros; by apply confirmation_wf.
Qed.

Lemma commands_group_command id a : commands (execute_group_command id a).
Proof. unfold execute_group_command. command_split. Qed.

Lemma commands_refresh : commands refresh_stationary_nodes.
Proof. unfold refresh_stationary_nodes. tame_split. Qed.

(** *** Responses *)
Lemma group_update_wf gs r :
  response_wf r →
  match group_update gs r with
  | Some (inl g) => group_wf g
  | _ => True
  end.
Proof.
  intros Hr. destruct (group_update gs r) as [[g|]|] eqn:Hu; [|done..].
  unfold group_update in Hu. destruct r; try discriminate Hu; simpl in *.
  - destruct n. by destruct Hr; simplify_eq.
  - destruct c as [ty id [g'|]], Hr as (_&_&?); simpl in *; repeat case_match; simplify_eq/=; try done;
      by destruct (gs !! id).
  - by destruct (gs !! _).
Qed.

Lemma commands_apply_group r : response_wf r → commands (apply_group_response r).
Proof.
  intros Hr. unfold apply_group_response. apply tame_bind; [apply _|apply tame_gets, _|intros b].
  pose proof (group_update_wf (groups b) r Hr) as Hu.
  destruct (group_update (groups b) r) as [[g|id]|]; [| |tame_split].
  - apply tame_bind; [apply _|apply commands_modify; [|done]|intros _; tame_split].
    intros b' (?&?&?). split_and!; [done| |done]. by apply map_Forall_insert_2.
  - apply tame_bind; [apply _|apply commands_modify; [|done]|intros _; tame_split].
    intros b' (?&?&?). split_and!; [done| |done]. by apply map_Forall_delete.
Qed.

Lemma commands_response r : response_wf r → commands (handle_response r).
Proof.
  intros Hr. unfold handle_response. apply tame_bind; [apply _|repeat case_match; tame_split|intros _].
  apply tame_bind; [apply _|by apply tame_logged, commands_apply_group|intros _].
  apply (tame_gets_bind _ _ cache_wf); [by intros s (?&_)|intros c Hc].
  pose proof (apply_response_wf c r Hc Hr) as Hc'. cbv zeta.
  set (added := match r with Response.NodeInformation _ => _ | _ => false end). clearbody added.
  set (metadata := match r with Response.NodeInformation _ => true | _ => _ end). clearbody metadata.
  destruct (VeluxNodeCache.apply_response c r) as [c' changed].
  apply tame_bind; [apply _| |intros _].
  - apply commands_modify; [|done]. intros b (?&?&?). by split_and!.
  - destruct changed as [id|], added, metadata; tame_split.
Qed.

Lemma infallible_response r : infallible (handle_response r).
Proof. unfold handle_response, release_session. infallible_split. Qed.

Lemma infallible_refresh : infallible refresh_stationary_nodes.
Proof. unfold refresh_stationary_nodes. infallible_split. Qed.
End commands.

(** ** Commands are parsed without panicking *)
Lemma ok_or_total {A E} (o : option A) (e : E) : ok_or o e ≠ Panic.
Proof. by destruct o. Qed.

Lemma parse_target_total topic segment payload : TopicLayout.parse_target topic segment payload ≠ Panic.
Proof.
  unfold TopicLayout.parse_target.
  repeat case_match; try done; apply outcome_bind_total; try apply ok_or_total;
    intros; apply outcome_bind_total; try apply ok_or_total; done.
Qed.

Lemma parse_command_total l m : TopicLayout.parse_command l m ≠ Panic.
Proof.
  unfold TopicLayout.parse_command. cbv zeta. repeat case_match; try done.
  apply outcome_bind_total; [apply ok_or_total|]. intros path.
  repeat case_match; try done. apply parse_target_total.
Qed.
