(* ===== verification/BridgeFacts.v ===== *)
(** * What the bridge guarantees

    The invariant of the loop and its progress; the availability the broker retains while the
    gateway is gone; the exact effect of losing and rebooting the gateway; the reconnect delays;
    ignored messages. *)

From S2P Require Import Prelude RustStd CommandIds Error Types Frame Command CommandLayout.
From S2P Require Import ResponseTypes ResponseFacts Connection Client Tls VeluxNode NodeFacts.
From S2P Require Import Mqtt MqttFacts Broker HassDiscovery Bridge BridgeLogic.
Import Bridge.

(** Runs a handler up to what it asks of the environment. *)
Local Ltac handler_cbn :=
  unfold mret, mbind, M_ret, M_bind, gets, modify, update_cache, next_delay, gateway_handle;
  cbn -[ReconnectBackoff.next_delay VeluxNodeCache.set_all_available instant_after
        publish_availability].

(** ** The reconnect delays *)
Module BackoffFacts.
Import ReconnectBackoff.

Definition wf (b : t) : Prop := 0 ≤ minimum b ≤ current b ∧ current b ≤ maximum b ≤ DURATION_MAX.

(** A jitter the random generator may return. *)
Definition jitter_ok (b : t) (jitter : Z) : Prop := 0 ≤ jitter ≤ jitter_limit (current b).

Lemma jitter_limit_nonneg b : wf b → 0 ≤ jitter_limit (current b).
Proof. unfold wf, jitter_limit. intros. assert (0 ≤ current b / 1000000 / 4); [|lia]. width_lia. Qed.

Lemma next_delay_spec b jitter :
  wf b → jitter_ok b jitter →
  let (b', delay) := next_delay b jitter in
  wf b' ∧ minimum b' = minimum b ∧ maximum b' = maximum b
  ∧ current b' = Z.min (2 * current b) (maximum b)
  ∧ current b ≤ delay ≤ current b + current b / 4.
Proof.
  unfold wf, jitter_ok, jitter_limit, next_delay, from_millis, DURATION_MAX. simpl. intros Hw Hj.
  assert (0 ≤ jitter * 1000000 ≤ current b / 4).
  { split; [lia|]. assert (jitter ≤ current b / 1000000 / 4) by lia.
    rewrite Z.div_div in * by lia. width_lia. }
  split_and!; lia.
Qed.

Lemma reset_wf b : wf b → wf (reset b).
Proof. unfold wf, reset. simpl. lia. Qed.

(** The delays of successive failures *)
Fixpoint delays (b : t) (jitters : list Z) : list Z :=
  match jitters with
  | [] => []
  | j :: js => let (b, delay) := next_delay b j in delay :: delays b js
  end.

Fixpoint jitters_ok (b : t) (jitters : list Z) : Prop :=
  match jitters with
  | [] => True
  | j :: js => jitter_ok b j ∧ jitters_ok (next_delay b j).1 js
  end.
End BackoffFacts.

(** The delays of successive connection failures, starting from a fresh or reset backoff:
    the n-th delay is at least min(minimum * 2^n, maximum) and exceeds it by at most a quarter,
    whatever the random jitter is; in particular no delay exceeds the configured maximum by
    more than a quarter of it. *)
Theorem reconnect_delays (b : ReconnectBackoff.t) (jitters : list Z) (n : nat) (delay : Duration) :
  BackoffFacts.wf b → BackoffFacts.jitters_ok (ReconnectBackoff.reset b) jitters →
  BackoffFacts.delays (ReconnectBackoff.reset b) jitters !! n = Some delay →
  let base := Z.min (ReconnectBackoff.minimum b * 2 ^ Z.of_nat n) (ReconnectBackoff.maximum b) in
  base ≤ delay ≤ base + base / 4.
Proof.
  intros Hwf%BackoffFacts.reset_wf.
  change (ReconnectBackoff.maximum b) with (ReconnectBackoff.maximum (ReconnectBackoff.reset b)).
  change (ReconnectBackoff.minimum b) with (ReconnectBackoff.current (ReconnectBackoff.reset b)).
  generalize dependent (ReconnectBackoff.reset b). clear b. revert n.
  induction jitters as [|j js IH]; intros n b Hwf Hj Hn; [done|].
  cbn [BackoffFacts.delays BackoffFacts.jitters_ok] in Hj, Hn.
  destruct Hj as [Hj Hjs]. pose proof (BackoffFacts.next_delay_spec b j Hwf Hj) as Hd.
  destruct (ReconnectBackoff.next_delay b j) as [b' d]. destruct Hd as (Hwf'&_&Hmax&Hcur&Hrange).
  unfold BackoffFacts.wf in Hwf. destruct n as [|n].
  - injection Hn as <-. cbv zeta. change (2 ^ Z.of_nat 0) with 1.
    by rewrite Z.mul_1_r, Z.min_l by lia.
  - specialize (IH n b' Hwf' Hjs Hn). rewrite Hmax, Hcur in IH.
    replace (Z.min (ReconnectBackoff.current b * 2 ^ Z.of_nat (S n)) (ReconnectBackoff.maximum b))
      with (Z.min (Z.min (2 * ReconnectBackoff.current b) (ReconnectBackoff.maximum b)
                   * 2 ^ Z.of_nat n) (ReconnectBackoff.maximum b)); [done|].
    rewrite Nat2Z.inj_succ, Z.pow_succ_r by lia.
    pose proof (Z.pow_pos_nonneg 2 (Z.of_nat n) ltac:(lia) ltac:(lia)).
    destruct (Z.le_ge_cases (2 * ReconnectBackoff.current b) (ReconnectBackoff.maximum b)).
    + rewrite (Z.min_l (2 * _)) by done. f_equal. lia.
    + rewrite (Z.min_r (2 * _)) by done. rewrite !Z.min_r; nia.
Qed.

Lemma reconnect_delays_witness :
  let b := ReconnectBackoff.new (from_secs 1) (from_secs 60) in
  from_secs 32 ≤ from_secs 33 ≤ from_secs 32 + from_secs 32 / 4.
Proof.
  refine (reconnect_delays (ReconnectBackoff.new (from_secs 1) (from_secs 60))
    [0; 500; 1000; 2000; 4000; 1000] 5 (from_secs 33) _ _ eq_refl).
  - apply (bool_decide_unpack _). vm_compute. exact I.
  - vm_compute. repeat split; discriminate.
Defined.

(** ** Losing the gateway *)

(** What the bridge keeps when its gateway is gone. *)
Definition drop_gateway (b : Bridge.t) : Bridge.t :=
  set_session_ids SessionIdAllocator.new
    (set_cache (VeluxNodeCache.set_all_available (cache b) false).1 (set_gateway None false b)).

Definition offline_data (b : Bridge.t) : Prop :=
  SessionIdAllocator.active (session_ids b) = ∅
  ∧ map_Forall (λ _ n, VeluxNode.availability n = Availability.Unavailable) (cache b).

(** An event the loop can be handed: responses are those the decoder produces, a finished setup
    hands over well-formed data, and nothing that runs elsewhere panics. *)
Definition event_wf (event : BridgeEvent.t) : Prop :=
  match event with
  | BridgeEvent.Mqtt result => result ≠ Panic
  | BridgeEvent.SetupFinished (Ok p) =>
      cache_wf (PreparedGateway.cache p) ∧ groups_wf (PreparedGateway.groups p)
      ∧ SessionIdAllocatorFacts.wf (PreparedGateway.session_ids p)
  | BridgeEvent.SetupFinished (Err _) => True
  | BridgeEvent.SetupFinished Panic => False
  | BridgeEvent.GatewayEvent (Recv.Event (ConnectionEvent.Notification r)) => response_wf r
  | _ => True
  end.

(** The delays of the configuration, and the longest one the bridge ever waits *)
Definition config_wf (c : VeluxMqttBridgeConfig.t) : Prop :=
  0 ≤ VeluxMqttBridgeConfig.reconnect_min_delay c
  ∧ VeluxMqttBridgeConfig.reconnect_min_delay c ≤ VeluxMqttBridgeConfig.reconnect_max_delay c
    ≤ DURATION_MAX.

Definition longest_delay (c : VeluxMqttBridgeConfig.t) : Duration :=
  Z.max (VeluxMqttBridgeConfig.reboot_reconnect_delay c)
    (VeluxMqttBridgeConfig.reconnect_max_delay c
     + VeluxMqttBridgeConfig.reconnect_max_delay c / 4).

(** Actions that ask nothing of the broker or the gateway *)
Definition is_setup (a : Action.t) : Prop := a = Action.StartSetup ∨ a = Action.Wait.

(** The last thing said about the availability is that it is offline. *)
Definition offline_announced (l : TopicLayout.t) (h : list Action.t) : Prop :=
  ∃ h' accepted,
    extends is_setup (h' ++ [Action.Publish (TopicLayout.availability_publication l false) accepted]) h.

Section facts.
Context `{E : Environment} `{L : !Lawful E}.
Context (c : VeluxMqttBridgeConfig.t) (l : TopicLayout.t).

(** The invariant of the loop *)
Record inv (s : St.t) : Prop := {
  inv_data : data_wf (St.bridge s);
  inv_config : config (St.bridge s) = c;
  inv_topics : topics (St.bridge s) = l;
  inv_events : gateway_events (St.bridge s) = has_gateway (St.bridge s);
  inv_setup : setup (St.bridge s) = true → gateway (St.bridge s) = None;
  inv_offline : gateway (St.bridge s) = None → offline_data (St.bridge s);
  inv_backoff : BackoffFacts.wf (reconnect (St.bridge s));
  inv_limits : ReconnectBackoff.minimum (reconnect (St.bridge s))
                 = VeluxMqttBridgeConfig.reconnect_min_delay c
               ∧ ReconnectBackoff.maximum (reconnect (St.bridge s))
                 = VeluxMqttBridgeConfig.reconnect_max_delay c;
  inv_announced : mqtt_connected (St.bridge s) = true → gateway (St.bridge s) = None →
                  offline_announced l (St.history s)
}.

(** While a gateway is there, what is left of the invariant only looks at data and link. *)
Lemma inv_online s s' :
  inv s → gateway (St.bridge s) ≠ None → link (St.bridge s') = link (St.bridge s) →
  holds_data s' → inv s'.
Proof.
  intros [Hd Hc Ht He Hs Ho Hb Hl Ha] Hg Hlink Hd'. unfold link in Hlink.
  injection Hlink as Ec Et Eg Ee Es Em En Er.
  split; rewrite ?Ec, ?Et, ?Eg, ?Ee, ?Es, ?Er; try done.
  rewrite He. unfold has_gateway. by rewrite Eg.
Qed.

(** The announcement of the availability *)
Definition accepted {A} (r : MqttResult A) : bool := if r is Ok _ then true else false.

Definition announcement (s : St.t) (online : bool) : list Action.t :=
  let p := TopicLayout.availability_publication (topics (St.bridge s)) online in
  if mqtt_connected (St.bridge s)
  then [Action.Publish p (accepted (publish_result (St.history s) p))] else [].

Lemma publish_availability_eq online s :
  publish_availability online s
  = (St.mk (St.bridge s) (St.history s ++ announcement s online), Ok tt).
Proof.
  unfold publish_availability, announcement, mbind, M_bind, gets. simpl.
  destruct s as [b h]; simpl. destruct (mqtt_connected b); [|by rewrite app_nil_r].
  unfold logged, mqtt_publish. simpl.
  pose proof (publish_total h (TopicLayout.availability_publication (topics b) online)).
  by destruct (publish_result _ _).
Qed.

(** The next reconnect delay, as the generator draws it in a state *)
Definition drawn_delay (s : St.t) : ReconnectBackoff.t * Duration :=
  let backoff := reconnect (St.bridge s) in
  ReconnectBackoff.next_delay backoff
    (random (St.history s) (ReconnectBackoff.jitter_limit (ReconnectBackoff.current backoff))).

(** The exact state after a failure of the gateway, and after a requested reboot *)
Definition failed_state (s : St.t) : St.t :=
  let (backoff, delay) := drawn_delay s in
  St.mk (set_next_reconnect (now (St.history s) + delay)
           (set_reconnect backoff (drop_gateway (St.bridge s))))
    (St.history s ++ announcement s false).

Definition rebooted_state (s : St.t) (g : GatewayHandle) : St.t :=
  let b := St.bridge s in
  let h := St.history s ++ [Action.GatewayShutdown g true] in
  St.mk (set_next_reconnect (now h + VeluxMqttBridgeConfig.reboot_reconnect_delay (config b))
           (set_reconnect (ReconnectBackoff.reset (reconnect b)) (drop_gateway b)))
    (h ++ announcement (St.mk b h) false).

(** Every delay the bridge waits fits the clock. *)
Definition clock_fits : Prop := ∀ h, now h + longest_delay c ≤ instant_max.

Lemma instant_after_eq delay s :
  clock_fits → delay ≤ longest_delay c →
  instant_after delay s = (s, Ok (now (St.history s) + delay)).
Proof.
  intros Hc Hd. unfold instant_after. pose proof (Hc (St.history s)). by rewrite (proj2 (Z.leb_le _ _)) by lia.
Qed.

Lemma next_delay_ok s :
  inv s →
  let (backoff, delay) := drawn_delay s in
  BackoffFacts.wf backoff ∧ delay ≤ longest_delay c
  ∧ ReconnectBackoff.minimum backoff = VeluxMqttBridgeConfig.reconnect_min_delay c
  ∧ ReconnectBackoff.maximum backoff = VeluxMqttBridgeConfig.reconnect_max_delay c.
Proof.
  intros Hs. unfold drawn_delay. pose proof (inv_backoff s Hs) as Hb. pose proof (inv_limits s Hs) as [Hmin Hmax].
  pose proof (random_range (St.history s) _ (BackoffFacts.jitter_limit_nonneg _ Hb)) as Hj.
  pose proof (BackoffFacts.next_delay_spec _ _ Hb Hj) as Hd.
  destruct (ReconnectBackoff.next_delay _ _) as [backoff delay]. destruct Hd as (?&?&?&_&Hd).
  split_and!; [done| |congruence..]. unfold longest_delay. unfold BackoffFacts.wf in Hb.
  rewrite <- Hmax. assert (ReconnectBackoff.current (reconnect (St.bridge s)) / 4
    ≤ ReconnectBackoff.maximum (reconnect (St.bridge s)) / 4) by (apply Z.div_le_mono; lia). lia.
Qed.

Lemma gateway_failed_eq reason s :
  inv s → clock_fits → gateway (St.bridge s) ≠ None →
  gateway_failed reason s = (failed_state s, Ok tt).
Proof.
  intros Hs Hc Hg. pose proof (next_delay_ok s Hs) as Hd. unfold failed_state, gateway_failed.
  unfold drawn_delay in *.
  destruct s as [b h]. cbn [St.bridge St.history] in *. handler_cbn.
  destruct (gateway b) as [g|]; [|done].
  handler_cbn. destruct (ReconnectBackoff.next_delay _ _) as [backoff delay].
  destruct Hd as (_&Hd&_). rewrite instant_after_eq by done. handler_cbn.
  by rewrite publish_availability_eq.
Qed.

Lemma execute_gateway_reboot_eq s g :
  inv s → clock_fits → gateway (St.bridge s) = Some g →
  execute_gateway_reboot s
  = (rebooted_state s g,
     match shutdown_result (St.history s) g true with
     | Ok _ => Ok tt
     | Err e => Err (BridgeError.Klf e)
     | Panic => Panic
     end).
Proof.
  intros Hs Hc Hg. pose proof (inv_config s Hs) as Hconf. unfold rebooted_state, execute_gateway_reboot.
  destruct s as [b h]. cbn [St.bridge St.history] in *. unfold gateway_handle. handler_cbn.
  rewrite Hg. handler_cbn. rewrite Hconf, instant_after_eq; [|done|unfold longest_delay; lia].
  handler_cbn. rewrite publish_availability_eq. handler_cbn.
  by destruct (shutdown_result _ _ _) as [[]| |].
Qed.

(** ** The invariant is kept *)
Lemma set_all_available_wf nodes available :
  cache_wf nodes → cache_wf (VeluxNodeCache.set_all_available nodes available).1.
Proof.
  intros Hwf. apply map_Forall_fmap. intros id n Hn. destruct (Hwf id n Hn) as [Hid Hok].
  destruct (set_available_keeps n available) as [Hid' Hok']. simpl. split; [congruence|auto].
Qed.

Lemma announcement_offline s h :
  topics (St.bridge s) = l → mqtt_connected (St.bridge s) = true →
  offline_announced l (h ++ announcement s false).
Proof. intros <- Hm. unfold announcement. rewrite Hm. by eexists h, _. Qed.

Lemma inv_dropped s h s0 i r :
  inv s → BackoffFacts.wf r →
  ReconnectBackoff.minimum r = VeluxMqttBridgeConfig.reconnect_min_delay c →
  ReconnectBackoff.maximum r = VeluxMqttBridgeConfig.reconnect_max_delay c →
  St.bridge s0 = St.bridge s →
  inv (St.mk (set_next_reconnect i (set_reconnect r (drop_gateway (St.bridge s))))
         (h ++ announcement s0 false)).
Proof.
  intros [(Hd&Hg&Hse) Hc Ht He Hs Ho Hb Hl Ha] Hr Hmin Hmax Hs0. split; cbn; try done.
  - split_and!; [by apply set_all_available_wf|done|]. split; [simpl; lia|]. set_solver.
  - intros _. split; [done|]. intros id n Hn. unfold VeluxNodeCache.set_all_available in Hn.
    cbn in Hn. rewrite lookup_fmap in Hn. destruct (cache _ !! id) as [n'|]; [|done].
    injection Hn as <-. cbn. unfold VeluxNode.set_available. by case_decide.
  - intros Hm _. apply announcement_offline; rewrite Hs0; [apply Ht|done].
Qed.

Lemma inv_failed s : inv s → inv (failed_state s).
Proof.
  intros Hs. pose proof (next_delay_ok s Hs) as Hd. unfold failed_state.
  destruct (drawn_delay s) as [r delay]. destruct Hd as (?&_&?&?).
  by apply inv_dropped.
Qed.

Lemma inv_rebooted s g : inv s → inv (rebooted_state s g).
Proof.
  intros Hs. destruct (inv_limits s Hs). apply inv_dropped; try done.
  by apply BackoffFacts.reset_wf, inv_backoff.
Qed.

(** A handler that settles: it returns normally, in a state with the invariant. *)
Definition settles (m : M unit) (s : St.t) : Prop := ∃ s', m s = (s', Ok tt) ∧ inv s'.

Lemma settles_ret s : inv s → settles (mret tt) s.
Proof. intros. by exists s. Qed.

Lemma settles_modify f k s :
  settles (k tt) (St.mk (f (St.bridge s)) (St.history s)) → settles (modify f ≫= k) s.
Proof. done. Qed.

Lemma settles_gets {A} (f : Bridge.t → A) k s : settles (k (f (St.bridge s))) s → settles (gets f ≫= k) s.
Proof. done. Qed.

Lemma settles_commands m s :
  inv s → gateway (St.bridge s) ≠ None → tame holds_data commanding m → infallible m → settles m s.
Proof.
  intros Hs Hg Hm Hi. destruct (Hm s) as (Hd&HR&Hp); [apply (inv_data s Hs)|].
  exists (m s).1. split; [by apply infallible_returns|].
  by destruct HR; eapply inv_online.
Qed.

Lemma settles_failed reason s :
  inv s → clock_fits → gateway (St.bridge s) ≠ None → settles (gateway_failed reason) s.
Proof.
  intros Hs Hc Hg. exists (failed_state s). split; [by apply gateway_failed_eq|by apply inv_failed].
Qed.

Lemma settles_availability b h :
  data_wf b → config b = c → topics b = l → gateway_events b = has_gateway b →
  gateway b = None → offline_data b → BackoffFacts.wf (reconnect b) →
  ReconnectBackoff.minimum (reconnect b) = VeluxMqttBridgeConfig.reconnect_min_delay c →
  ReconnectBackoff.maximum (reconnect b) = VeluxMqttBridgeConfig.reconnect_max_delay c →
  settles (publish_availability false) (St.mk b h).
Proof.
  intros. eexists. split; [apply publish_availability_eq|]. split; try done.
  intros Hm _. by apply announcement_offline.
Qed.

Lemma settles_logged_commands m s :
  inv s → gateway (St.bridge s) ≠ None → tame holds_data commanding m → settles (logged m) s.
Proof.
  intros. apply settles_commands; [done..|by apply tame_logged|apply infallible_logged].
Qed.

Lemma settles_gateway_event event s :
  inv s → clock_fits → gateway (St.bridge s) ≠ None → event_wf (BridgeEvent.GatewayEvent event) →
  settles (handle_gateway_event event) s.
Proof.
  intros Hs Hc Hg Hw. destruct event as [[r|r|id|m|m]| |]; simpl;
    try (by apply settles_failed); try (by apply settles_ret).
  - apply settles_commands; [done..|by apply commands_response|apply infallible_response].
  - apply settles_commands; [done..|apply commands_release|apply infallible_modify].
Qed.

Lemma settles_heartbeat s :
  inv s → clock_fits → gateway (St.bridge s) ≠ None → settles heartbeat s.
Proof.
  intros Hs Hc Hg. unfold heartbeat, settles. destruct (gateway (St.bridge s)) as [g|] eqn:Eg; [|done].
  handler_cbn. rewrite Eg. handler_cbn. pose proof (state_total (St.history s) g) as Hp.
  set (s1 := St.mk _ _). assert (inv s1) as Hs1.
  { eapply inv_online; [done|by rewrite Eg|done|apply (inv_data s Hs)]. }
  destruct (state_result _ _) as [x|e|]; [by apply settles_ret| |done].
  apply settles_failed; [done..|]. subst s1. cbn. by rewrite Eg.
Qed.

Lemma settles_message m s : inv s → clock_fits → settles (handle_mqtt_message m) s.
Proof.
  intros Hs Hc. unfold handle_mqtt_message, settles. handler_cbn.
  pose proof (parse_command_total (topics (St.bridge s)) m) as Hp.
  destruct (TopicLayout.parse_command _ m) as [cmd|e|]; [|by apply settles_ret|done].
  destruct (gateway (St.bridge s)) as [g|] eqn:Hg; [|by apply settles_ret].
  destruct cmd as [cmd|cmd|].
  - apply settles_logged_commands; [done|by rewrite Hg|apply commands_cover_command].
  - apply settles_logged_commands; [done|by rewrite Hg|apply commands_group_command].
  - exists (rebooted_state s g). split; [|by apply inv_rebooted].
    unfold logged. rewrite (execute_gateway_reboot_eq s g) by done.
    pose proof (shutdown_total (St.history s) g true). by destruct (shutdown_result _ _ _) as [[]| |].
Qed.

(** Marking the broker connected breaks nothing but the announcement. *)
Lemma inv_connected s h :
  inv s → (gateway (St.bridge s) = None → offline_announced l h) →
  inv (St.mk (set_mqtt_connected true (St.bridge s)) h).
Proof. intros [] Ha. split; try done. Qed.

Lemma settles_mqtt_result result s :
  inv s → clock_fits → result ≠ Panic → settles (handle_mqtt_result result) s.
Proof.
  intros Hs Hc Hr. destruct result as [[|m]|e|]; [| | |done].
  - unfold settles, handle_mqtt_result. handler_cbn. destruct (gateway _) as [g|] eqn:Hg.
    + apply settles_logged_commands; [|cbn; by rewrite Hg|apply commands_publishes; auto with bridge].
      apply inv_connected; [done|by rewrite Hg].
    + destruct Hs as [? ? ? ? ? ? ? [] ?]. apply settles_availability; auto.
  - by apply settles_message.
  - eexists. split; [done|]. by destruct Hs.
Qed.

Lemma settles_setup_result result s :
  inv s → clock_fits → setup (St.bridge s) = true → event_wf (BridgeEvent.SetupFinished result) →
  settles (handle_setup_result result) s.
Proof.
  intros Hs Hc Hset Hw. pose proof (inv_setup s Hs Hset) as Hg. unfold handle_setup_result.
  destruct result as [p|e|]; [| |done].
  - assert (∀ h, inv (St.mk (install p (set_setup false (St.bridge s))) h)) as Hp.
    { intros h. destruct Hs as [? ? ? ? ? ? ? [] ?], Hw as (?&?&?). split; try done.
      by apply BackoffFacts.reset_wf. }
    apply settles_modify, settles_gets, settles_modify. destruct (mqtt_connected _).
    + apply settles_commands; [apply Hp|done| |infallible_split].
      apply commands_publishes. tame_split.
    + apply settles_ret, Hp.
  - assert (inv (St.mk (set_setup false (St.bridge s)) (St.history s))) as Hs' by (by destruct Hs).
    pose proof (next_delay_ok _ Hs') as Hd. unfold drawn_delay in Hd. unfold settles.
    unfold mbind, M_bind at 1, modify at 1. unfold mbind, M_bind, next_delay.
    destruct (ReconnectBackoff.next_delay _ _) as [r delay]. destruct Hd as (?&?&?&?).
    rewrite instant_after_eq by done. unfold modify. cbn [St.bridge St.history].
    destruct Hs as [? ? ? ? ? ? ? [] ?]. apply settles_availability; auto.
Qed.

Lemma settles_start s :
  inv s → gateway (St.bridge s) = None → settles start_gateway_setup s.
Proof.
  intros Hs Hg. eexists. split; [done|].
  destruct Hs as [? ? ? ? ? ? ? ? Ha]. split; try done.
  intros Hm _. destruct (Ha Hm Hg) as (h & acc & Hext). exists h, acc. simpl.
  etransitivity; [apply Hext|]. apply extends_snoc. by left.
Qed.

(** One iteration: the handler of every enabled event returns, without an error and without a
    panic, to a state with the invariant. *)
Lemma handle_settles event s :
  inv s → clock_fits → enabled (St.bridge s) event = true → event_wf event → settles (handle event) s.
Proof.
  intros Hs Hc He Hw. unfold enabled in He.
  assert (has_gateway (St.bridge s) = true → gateway (St.bridge s) ≠ None) as Hgw.
  { unfold has_gateway. by destruct (gateway _). }
  destruct event; simpl.
  - by apply settles_mqtt_result.
  - by apply settles_setup_result.
  - apply settles_gateway_event; try done. apply Hgw. by rewrite <- (inv_events s Hs).
  - apply settles_start; [done|]. unfold has_gateway in He. by destruct (gateway _).
  - by apply settles_heartbeat; auto.
  - apply settles_commands; [done|by auto|apply commands_refresh|apply infallible_refresh].
Qed.

Lemma inv_waited s : inv s → inv (waited s).
Proof.
  intros [? ? ? ? ? ? ? ? Ha]. split; try done. intros Hm Hg.
  destruct (Ha Hm Hg) as (h & acc & Hext). exists h, acc. etransitivity; [exact Hext|].
  apply extends_snoc. by right.
Qed.

Lemma inv_reachable start s :
  inv start → clock_fits → reachable event_wf start s → inv s.
Proof.
  intros Hstart Hc. induction 1 as [|s _ IH|s event s' _ IH Hw Hstep]; [done|by apply inv_waited|].
  inversion Hstep as [? ? ? He Hh]; subst.
  destruct (handle_settles event s IH Hc He Hw) as (s'' & Heq & Hinv). rewrite Hh in Heq. by injection Heq as ->.
Qed.
End facts.

(** ** The loop *)

(** The intervals are [Duration]s. *)
Definition durations_wf (c : VeluxMqttBridgeConfig.t) : Prop :=
  0 ≤ VeluxMqttBridgeConfig.reconnect_min_delay c ≤ DURATION_MAX
  ∧ 0 ≤ VeluxMqttBridgeConfig.reconnect_max_delay c ≤ DURATION_MAX.

Lemma validated_config_wf c c' :
  VeluxMqttBridgeConfig.validate c = (c', Ok tt) → durations_wf c → config_wf c'.
Proof.
  destruct c as [host password mqtt hass boot rdelay heartbeat refresh timeout lo hi].
  unfold VeluxMqttBridgeConfig.validate, durations_wf, config_wf. cbn.
  destruct (String.eqb _ _); [done|]. destruct (String.eqb _ _); [done|].
  destruct (Mqtt.validate mqtt) as [mqtt' [v|e|]]; [|done..].
  destruct (_ || _) eqn:Hb; [done|]. intros [= <-] Hd. cbn.
  rewrite !orb_false_iff, Z.ltb_ge in Hb. lia.
Qed.

Lemma bridge_new_inv read start config b options mqtt_topics :
  Bridge.new read start config = Ok (b, options, mqtt_topics) → durations_wf config →
  config_wf (Bridge.config b) ∧ inv (Bridge.config b) (Bridge.topics b) (St.mk b []).
Proof.
  unfold Bridge.new. intros H Hd. pose proof (validated_config_wf config) as Hwf.
  destruct (VeluxMqttBridgeConfig.validate config) as [c v]. apply outcome_bind_Ok in H as ([]&->&H).
  specialize (Hwf c eq_refl Hd). destruct (TopicLayout.new _) as [layout| |]; [|done..].
  destruct (MqttConnection.new _ _) as [[o t]| |]; [|done..]. injection H as <- <- <-.
  split; [done|]. unfold config_wf in Hwf. split; try done.
  unfold BackoffFacts.wf. simpl. lia.
Qed.

Section loop.
Context `{E : Environment} `{L : !Lawful E}.

(** A state of the loop of a bridge that [new] built. *)
Definition running (config : VeluxMqttBridgeConfig.t) (s : St.t) : Prop :=
  durations_wf config ∧ clock_fits (VeluxMqttBridgeConfig.validate config).1
  ∧ ∃ read start b options mqtt_topics,
      Bridge.new read start config = Ok (b, options, mqtt_topics)
      ∧ reachable event_wf (St.mk b []) s.

Lemma new_config read start config b options mqtt_topics :
  Bridge.new read start config = Ok (b, options, mqtt_topics) →
  Bridge.config b = (VeluxMqttBridgeConfig.validate config).1.
Proof.
  unfold Bridge.new. destruct (VeluxMqttBridgeConfig.validate config) as [c v].
  intros ([]&_&H)%outcome_bind_Ok. destruct (TopicLayout.new _); [|done..].
  destruct (MqttConnection.new _ _) as [[o t]| |]; [|done..]. by injection H as <- <- <-.
Qed.

Lemma running_inv config s :
  running config s →
  ∃ l, inv (VeluxMqttBridgeConfig.validate config).1 l s
       ∧ clock_fits (VeluxMqttBridgeConfig.validate config).1.
Proof.
  intros (Hd&Hc&read&start&b&o&t&Hnew&Hreach).
  destruct (bridge_new_inv _ _ _ _ _ _ Hnew Hd) as [_ Hinv]. rewrite (new_config _ _ _ _ _ _ Hnew) in Hinv.
  exists (Bridge.topics b). split; [|done]. by eapply inv_reachable.
Qed.

(** C4: in every state the loop reaches, whatever the broker and the gateway do, and whatever the
    clock does as long as the instants the bridge computes with its configured delays can be
    represented: the cached nodes are well formed and stored under their identifiers, the groups and the session
    identifiers are well formed; events are received exactly from a connected gateway and a setup
    only runs without one; without a gateway no session is active and every node is unavailable;
    and the reconnect delay is within its limits. *)
Theorem bridge_invariant (config : VeluxMqttBridgeConfig.t) (s : St.t) :
  running config s →
  let b := St.bridge s in
  cache_wf (cache b) ∧ groups_wf (groups b) ∧ SessionIdAllocatorFacts.wf (session_ids b)
  ∧ (gateway_events b = true ↔ is_Some (gateway b))
  ∧ (setup b = true → gateway b = None)
  ∧ (gateway b = None →
       SessionIdAllocator.active (session_ids b) = ∅
       ∧ ∀ id n, cache b !! id = Some n → VeluxNode.availability n = Availability.Unavailable)
  ∧ ReconnectBackoff.minimum (reconnect b) ≤ ReconnectBackoff.current (reconnect b)
    ≤ ReconnectBackoff.maximum (reconnect b)
  ∧ ReconnectBackoff.maximum (reconnect b)
    = VeluxMqttBridgeConfig.reconnect_max_delay (Bridge.config b).
Proof.
  intros (l & [(?&?&?) Hc _ He Hs Ho Hb [_ Hmax] _] & _)%running_inv. cbv zeta.
  unfold BackoffFacts.wf in Hb. split_and!; try done; try lia.
  - rewrite He. unfold has_gateway. destruct (gateway _); [|by split; [|intros []]].
    split; [by eexists|done].
  - by rewrite Hc.
Qed.

Lemma running_step (config : VeluxMqttBridgeConfig.t) (s : St.t) (event : BridgeEvent.t) :
  running config s → enabled (St.bridge s) event = true → event_wf event →
  ∃ s', step s event s' ∧ running config s'.
Proof.
  intros Hr He Hw. destruct (running_inv _ _ Hr) as (l & Hs & Hc).
  destruct (handle_settles _ _ _ _ Hs Hc He Hw) as (s' & Hh & _).
  exists s'. assert (step s event s') as Hstep by by constructor. split; [done|].
  destruct Hr as (?&?&read&start&b&o&t&?&?). split_and!; [done..|].
  exists read, start, b, o, t. split; [done|]. by eapply reachable_step.
Qed.

(** The loop never gets stuck: in every state it reaches, the handler of every event that can
    be delivered there returns without an error and without a panic. *)
Theorem bridge_progress (config : VeluxMqttBridgeConfig.t) (s : St.t) (event : BridgeEvent.t) :
  running config s → enabled (St.bridge s) event = true → event_wf event →
  ∃ s', step s event s' ∧ running config s'.
Proof. apply running_step. Qed.

(** What the broker was handed and accepted, in order *)
Definition delivered (h : list Action.t) : list MqttPublication.t :=
  omap (λ a, if a is Action.Publish p true then Some p else None) h.

Lemma delivered_app h h' : delivered (h ++ h') = delivered h ++ delivered h'.
Proof. apply omap_app. Qed.

Lemma delivered_setup t : Forall is_setup t → delivered t = [].
Proof. by induction 1 as [|a t [-> | ->]]. Qed.

(** C21: whenever the broker is connected and the gateway is gone, the last availability the bridge
    published, and the last thing it published at all, is "offline", and since then it only started
    set-ups and waited; when the broker accepted it,
    "offline" is what it retains, whatever it retained before. *)
Theorem offline_reported (config : VeluxMqttBridgeConfig.t) (s : St.t) :
  running config s → mqtt_connected (St.bridge s) = true → gateway (St.bridge s) = None →
  let p := TopicLayout.availability_publication (topics (St.bridge s)) false in
  ∃ h accepted attempts,
    St.history s = h ++ Action.Publish p accepted :: attempts
    ∧ Forall is_setup attempts
    ∧ (accepted = true → ∀ store,
         Broker.deliver_all store (delivered (St.history s)) !! TopicLayout.state (topics (St.bridge s))
         = Some (bytes_of OFFLINE_PAYLOAD)).
Proof.
  intros (l & Hs & _)%running_inv Hm Hg. destruct (inv_announced _ _ _ Hs Hm Hg) as (h & acc & t & Hh & Ht).
  rewrite (inv_topics _ _ _ Hs). cbv zeta. exists h, acc, t. rewrite Hh, <- app_assoc.
  split_and!; [done|done|]. intros -> store.
  rewrite !delivered_app, (delivered_setup t) by done. rewrite app_nil_r.
  change (delivered [_]) with [TopicLayout.availability_publication l false].
  rewrite Broker.deliver_all_snoc. apply Broker.deliver_retain.
Qed.
End loop.

(** ** A concrete run: a broker that accepts everything, a gateway that accepts every command *)
Definition quiet : Environment := {|
  call_returns _ _ := true;
  publish_result _ _ := Ok tt;
  disconnect_result _ := Ok tt;
  send_result _ _ r :=
    match r with
    | Request.CommandSend c _ => Ok (Response.CommandAccepted (CommandRequest.session_id c) 1)
    | Request.StatusRequest id _ _ => Ok (Response.StatusAccepted id 1)
    | _ => Err KlfError.ConnectionClosed
    end;
  state_result _ _ := Err KlfError.ConnectionClosed;
  shutdown_result _ _ _ := Ok tt;
  now _ := 0;
  instant_max := from_secs 9223372036854775807;
  random _ _ := 0;
  to_vec _ := Ok [1];
  to_value j := Ok j;
  value_to_string _ := "";
  package := Origin.mk "velux2mqtt" "0" ""
|}.

Lemma quiet_lawful : Lawful quiet.
Proof. split; try done. intros h g r. by destruct r. Qed.

(** Runs the handlers of a sequence of events. *)
Fixpoint after `{Environment} (events : list BridgeEvent.t) (s : St.t) : option St.t :=
  match events with
  | [] => Some s
  | event :: events =>
      if enabled (St.bridge s) event then
        match handle event s with (s, Ok _) => after events s | _ => None end
      else None
  end.

Lemma after_reachable `{Environment} events start s s' :
  reachable event_wf start s → Forall event_wf events → after events s = Some s' →
  reachable event_wf start s'.
Proof.
  intros Hr Hw. revert s Hr. induction Hw as [|event events Hw _ IH]; intros s Hr H'; simpl in H'.
  - by injection H' as <-.
  - destruct (enabled _ _) eqn:He; [|done].
    destruct (handle event s) as [s1 [[]|e|]] eqn:Hh; [|done..].
    apply (IH s1); [|done]. eapply reachable_step; [done..|]. by constructor.
Qed.

Definition sample_bridge_config : VeluxMqttBridgeConfig.t :=
  VeluxMqttBridgeConfig.new (Klf200Config.new "klf") "secret" sample_config.

Definition sample_bridge : Bridge.t :=
  Bridge.mk (VeluxMqttBridgeConfig.validate sample_bridge_config).1 (TopicLayout.mk "home/velux") None
    None false false ∅ ∅ SessionIdAllocator.new false 0
    (ReconnectBackoff.new (from_secs 1) (from_secs 60)).

Definition sample_group : GroupInformation.t :=
  GroupInformation.mk (GroupId.new 7) 0 0 "Bedroom" 0 0 0 1 ActuatorSet.new 0.

Definition sample_prepared : PreparedGateway.t :=
  PreparedGateway.mk 0%nat sample_cache {[ GroupId.new 7 := sample_group ]} SessionIdAllocator.new.

(** The gateway is set up, then the broker connects. *)
Definition sample_events : list BridgeEvent.t :=
  [BridgeEvent.ReconnectTimer; BridgeEvent.SetupFinished (Ok sample_prepared);
   BridgeEvent.Mqtt (Ok MqttEvent.Connected)].

Lemma sample_events_wf : Forall event_wf sample_events.
Proof.
  apply Forall_cons. split; [done|]. apply Forall_cons. split; [|by repeat constructor].
  split; [apply sample_cache_wf|]. split; [|split; [simpl; lia|set_solver]].
  apply map_Forall_singleton. split; [done|].
  apply (bool_decide_unpack _). vm_compute. exact I.
Qed.

Lemma sample_running events s :
  Forall event_wf events → @after quiet events (St.mk sample_bridge []) = Some s →
  @running quiet sample_bridge_config s.
Proof.
  intros Hw Ha. split; [by repeat split; apply Z.leb_le; vm_compute|].
  split; [intros h; apply Z.leb_le; vm_compute; reflexivity|].
  exists (λ _, Err ""), 0, sample_bridge. do 2 eexists. split; [vm_compute; reflexivity|].
  eapply after_reachable; [apply reachable_start|done..].
Qed.

(** The state a sequence of events leads to. *)
Definition sample_state (events : list BridgeEvent.t) : St.t :=
  default (St.mk sample_bridge []) (@after quiet events (St.mk sample_bridge [])).

Lemma sample_online : @running quiet sample_bridge_config (sample_state sample_events).
Proof. eapply sample_running; [apply sample_events_wf|vm_compute; reflexivity]. Qed.

Lemma bridge_invariant_witness :
  gateway (St.bridge (sample_state sample_events)) = Some 0%nat
  ∧ cache_wf (cache (St.bridge (sample_state sample_events))).
Proof.
  split; [vm_compute; reflexivity|].
  exact (proj1 (@bridge_invariant quiet quiet_lawful sample_bridge_config _ sample_online)).
Defined.

Lemma bridge_progress_witness :
  ∃ s', @step quiet (sample_state sample_events) BridgeEvent.HeartbeatTick s'.
Proof.
  destruct (@bridge_progress quiet quiet_lawful sample_bridge_config (sample_state sample_events)
    BridgeEvent.HeartbeatTick sample_online) as (s' & Hstep & _).
  - vm_compute. reflexivity.
  - exact I.
  - exists s'. exact Hstep.
Defined.

(** The heartbeat fails. *)
Definition sample_failure : list BridgeEvent.t := sample_events ++ [BridgeEvent.HeartbeatTick].

Lemma sample_offline : @running quiet sample_bridge_config (sample_state sample_failure).
Proof.
  apply (sample_running sample_failure); [|vm_compute; reflexivity].
  apply Forall_app. split; [apply sample_events_wf|by repeat constructor].
Qed.

Lemma offline_reported_witness :
  let s := sample_state sample_failure in
  mqtt_connected (St.bridge s) = true ∧ gateway (St.bridge s) = None
  ∧ ∃ h accepted attempts,
      St.history s
      = h ++ Action.Publish (TopicLayout.availability_publication (topics (St.bridge s)) false) accepted
          :: attempts
      ∧ Forall is_setup attempts.
Proof.
  assert (mqtt_connected (St.bridge (sample_state sample_failure)) = true) as Hm
    by (vm_compute; reflexivity).
  assert (gateway (St.bridge (sample_state sample_failure)) = None) as Hg by (vm_compute; reflexivity).
  split; [exact Hm|]. split; [exact Hg|].
  destruct (@offline_reported quiet quiet_lawful sample_bridge_config _ sample_offline Hm Hg)
    as (h & acc & t & Hh & Ht & _).
  exists h, acc, t. split; [exact Hh|exact Ht].
Defined.

(** ** The effect of losing and of rebooting the gateway *)
Section dropped.
Context `{E : Environment} `{L : !Lawful E}.

(** What the bridge is left with: no gateway and no session, the same nodes but unavailable, and
    everything else as it was. *)
Definition dropped (b b' : Bridge.t) : Prop :=
  gateway b' = None ∧ gateway_events b' = false
  ∧ SessionIdAllocator.active (session_ids b') = ∅
  ∧ (∀ id, cache b' !! id = (λ n, (VeluxNode.set_available n false).1) <$> cache b !! id)
  ∧ groups b' = groups b ∧ config b' = config b ∧ topics b' = topics b
  ∧ discovery b' = discovery b ∧ setup b' = setup b ∧ mqtt_connected b' = mqtt_connected b.

Lemma dropped_drop b i r : dropped b (set_next_reconnect i (set_reconnect r (drop_gateway b))).
Proof.
  split_and!; try done. intros id. cbn. unfold VeluxNodeCache.set_all_available. cbn.
  by rewrite lookup_fmap.
Qed.

(** C26: when the connection to the gateway fails, the bridge drops the gateway with its events and
    sessions, marks every node unavailable, announces "offline" if the broker is connected, and
    schedules the reconnection after a delay between the current backoff and a quarter more, which
    then doubles up to the maximum. Without a gateway a failure report changes nothing. *)
Theorem gateway_failure_spec (config : VeluxMqttBridgeConfig.t) (reason : string) (s : St.t) :
  running config s →
  let (s', r) := gateway_failed reason s in
  let b := St.bridge s in
  let b' := St.bridge s' in
  let base := ReconnectBackoff.current (reconnect b) in
  r = Ok tt
  ∧ match gateway b with
    | None => s' = s
    | Some _ =>
        dropped b b'
        ∧ now (St.history s) + base ≤ next_reconnect b' ≤ now (St.history s) + base + base / 4
        ∧ ReconnectBackoff.current (reconnect b')
          = Z.min (2 * base) (ReconnectBackoff.maximum (reconnect b))
        ∧ St.history s' = St.history s ++ announcement s false
    end.
Proof.
  intros (l & Hs & Hc)%running_inv. destruct (gateway (St.bridge s)) as [g|] eqn:Hg.
  2: { unfold gateway_failed. handler_cbn. by rewrite Hg. }
  rewrite (gateway_failed_eq _ _ reason s Hs Hc) by congruence. unfold failed_state, drawn_delay.
  pose proof (inv_backoff _ _ _ Hs) as Hb.
  pose proof (BackoffFacts.next_delay_spec _ _ Hb
    (random_range (St.history s) _ (BackoffFacts.jitter_limit_nonneg _ Hb))) as Hd.
  destruct (ReconnectBackoff.next_delay _ _) as [r delay]. destruct Hd as (_&_&_&Hcur&Hd).
  cbv zeta. rewrite Hg. split; [done|]. split; [apply dropped_drop|]. cbn. split; [lia|]. by split.
Qed.

(** The reboot command asks the connected gateway to reboot, once; whatever it answers, the
    bridge drops it, resets the backoff, schedules the reconnection after the configured delay and
    announces "offline". An error of the gateway is the error of the command. *)
Theorem gateway_reboot_spec (config : VeluxMqttBridgeConfig.t) (s : St.t) (g : GatewayHandle) :
  running config s → gateway (St.bridge s) = Some g →
  let (s', r) := execute_gateway_reboot s in
  let sent := St.history s ++ [Action.GatewayShutdown g true] in
  dropped (St.bridge s) (St.bridge s')
  ∧ next_reconnect (St.bridge s')
    = now sent + VeluxMqttBridgeConfig.reboot_reconnect_delay (Bridge.config (St.bridge s))
  ∧ ReconnectBackoff.current (reconnect (St.bridge s'))
    = ReconnectBackoff.minimum (reconnect (St.bridge s))
  ∧ St.history s' = sent ++ announcement (St.mk (St.bridge s) sent) false
  ∧ match shutdown_result (St.history s) g true with
    | Ok _ => r = Ok tt
    | Err e => r = Err (BridgeError.Klf e)
    | Panic => False
    end.
Proof.
  intros (l & Hs & Hc)%running_inv Hg. rewrite (execute_gateway_reboot_eq _ _ s g Hs Hc Hg).
  cbv zeta. pose proof (shutdown_total (St.history s) g true).
  split_and!; try done; [apply dropped_drop|]. by destruct (shutdown_result _ _ _).
Qed.
End dropped.

Lemma sample_gateway : gateway (St.bridge (sample_state sample_events)) = Some 0%nat.
Proof. vm_compute. reflexivity. Qed.

Lemma gateway_failure_spec_witness :
  dropped (St.bridge (sample_state sample_events))
    (St.bridge (@gateway_failed quiet "closed" (sample_state sample_events)).1).
Proof.
  pose proof (@gateway_failure_spec quiet quiet_lawful sample_bridge_config "closed" _ sample_online)
    as H.
  destruct (@gateway_failed quiet "closed" (sample_state sample_events)) as [s' r].
  cbv zeta in H. rewrite sample_gateway in H. exact (proj1 (proj2 H)).
Defined.

Lemma gateway_reboot_spec_witness :
  dropped (St.bridge (sample_state sample_events))
    (St.bridge (@execute_gateway_reboot quiet (sample_state sample_events)).1).
Proof.
  pose proof (@gateway_reboot_spec quiet quiet_lawful sample_bridge_config _ 0%nat sample_online
    sample_gateway) as H.
  destruct (@execute_gateway_reboot quiet (sample_state sample_events)) as [s' r].
  exact (proj1 H).
Defined.
