(* ===== verification/BridgeCommands.v ===== *)
(** * Commands

    What a message of the broker makes the bridge do: the request it sends to the gateway, the
    session it holds for it, and what it does when the gateway refuses. *)

From S2P Require Import Prelude RustStd RustText CommandIds Error Types Frame Command CommandLayout.
From S2P Require Import ResponseTypes ResponseFacts Connection Client VeluxNode NodeFacts.
From S2P Require Import Mqtt MqttFacts Broker HassDiscovery Bridge BridgeLogic BridgeFacts.
Import Bridge.

(** Runs a handler up to what it asks of the environment and of the other components. *)
Local Ltac handler_cbn :=
  unfold mret, mbind, M_ret, M_bind, gets, modify, update_cache, gateway_handle, allocate_session,
    release_session, fail;
  cbn -[publish_node_status publish_availability SessionIdAllocator.allocate
        SessionIdAllocator.release request_status CommandTarget.new
        VeluxNode.resolve_action VeluxNode.command_request VeluxNode.apply_command_confirmation
        insert lookup].

Section commands.
Context `{E : Environment} `{L : !Lawful E}.

(** *** Status requests *)
Definition status_request (sid : SessionId.t) (id : NodeId.t) : Request.t :=
  Request.StatusRequest sid (CommandTarget.mk [id]) StatusRequestType.MainInformation.

(** The state after a request was sent under a session that is kept or given back *)
Definition sent (s : St.t) (g : GatewayHandle) (q : Request.t) (ids : SessionIdAllocator.t) : St.t :=
  St.mk (set_session_ids ids (St.bridge s)) (St.history s ++ [Action.Send g q]).

Lemma target_singleton id : CommandTarget.new [id] = Ok (CommandTarget.mk [id]).
Proof. done. Qed.

Definition accepts_status (r : KlfResult Response.t) : bool :=
  match r with Ok (Response.StatusAccepted _ status) => status =? 1 | _ => false end.

(** The gateway took the command. *)
Definition accepts_command (r : KlfResult Response.t) : bool :=
  match r with Ok (Response.CommandAccepted _ status) => status =? 1 | _ => false end.

Definition accepts_group (sid : SessionId.t) (r : KlfResult Response.t) : bool :=
  match r with
  | Ok (Response.ProductGroupResult result) =>
      bool_decide (ProductGroupResult.session_id result = sid)
      && (ProductGroupResult.status result =? 0)
  | _ => false
  end.

(** A refused request: the session is free again, nothing else changed. *)
Definition refused (s : St.t) (g : GatewayHandle) (q : Request.t)
    (result : St.t * outcome BridgeError.t unit) : Prop :=
  let b := St.bridge s in
  let b' := St.bridge result.1 in
  (∃ e, result.2 = Err e)
  ∧ SessionIdAllocator.active (session_ids b') = SessionIdAllocator.active (session_ids b)
  ∧ b' = set_session_ids (session_ids b') b
  ∧ St.history result.1 = St.history s ++ [Action.Send g q].

Lemma sent_refused s g q ids sid e :
  SessionIdAllocatorFacts.wf (session_ids (St.bridge s)) →
  SessionIdAllocator.allocate (session_ids (St.bridge s)) = (ids, Ok sid) →
  refused s g q (sent s g q (SessionIdAllocator.release ids sid).1, Err e).
Proof.
  intros Hwf Ha. split_and!; try done; [by eexists|].
  by apply (SessionIdAllocatorFacts.release_allocated _ _ _ Hwf).
Qed.

Lemma request_status_cases s g id :
  SessionIdAllocatorFacts.wf (session_ids (St.bridge s)) → gateway (St.bridge s) = Some g →
  match SessionIdAllocator.allocate (session_ids (St.bridge s)) with
  | (ids, Ok sid) =>
      let q := status_request sid id in
      if accepts_status (send_result (St.history s) g q) then request_status id s = (sent s g q ids, Ok tt)
      else refused s g q (request_status id s)
  | _ => request_status id s = (s, Err (BridgeError.Klf KlfError.SessionIdsExhausted))
  end.
Proof.
  intros Hwf Hg. unfold request_status.
  pose proof (SessionIdAllocatorFacts.allocate_total _ Hwf) as Ht.
  pose proof (λ sid ids, sent_refused s g (status_request sid id) ids sid) as Hrefused.
  destruct s as [b h]. cbn [St.bridge St.history] in *. handler_cbn.
  destruct (SessionIdAllocator.allocate (session_ids b)) as [ids [sid|e|]] eqn:Ha; [| |done].
  - handler_cbn. rewrite target_singleton. handler_cbn. rewrite Hg. handler_cbn.
    fold (status_request sid id). specialize (Hrefused sid ids).
    pose proof (send_total h g (status_request sid id)) as Hp.
    destruct (send_result h g _) as [[] | |]; try done; try (by apply Hrefused).
    cbn. destruct (status =? 1); [done|by apply Hrefused].
  - destruct Ht as (->&->&_). by destruct b.
Qed.

(** *** Node commands *)

Lemma command_request_resolved node sid action e :
  VeluxNode.is_controllable node = true → VeluxNode.resolve_action node action = Ok e →
  VeluxNode.command_request node sid action = Ok (drive_request node sid e).
Proof. intros Hc Hr. unfold VeluxNode.command_request. rewrite Hc, Hr. done. Qed.

(** The node after its command was answered *)
Definition answered (node : VeluxNode.t) (sid : SessionId.t) (e : CoverEndpoint.t)
    (r : KlfResult Response.t) : VeluxNode.t :=
  match r with
  | Ok (Response.CommandAccepted confirmed _) =>
      if decide (confirmed = sid) then (VeluxNode.mark_command_accepted node e).1 else node
  | _ => node
  end.

Lemma cover_command_cases s g id action node e :
  SessionIdAllocatorFacts.wf (session_ids (St.bridge s)) →
  gateway (St.bridge s) = Some g → cache (St.bridge s) !! id = Some node →
  VeluxNode.resolve_action node action = Ok e → VeluxNode.is_controllable node = true →
  match SessionIdAllocator.allocate (session_ids (St.bridge s)) with
  | (ids, Ok sid) =>
      let q := drive_request node sid e in
      let r := send_result (St.history s) g q in
      if accepts_command r then
        execute_cover_command id action s
        = publish_node_status id
            (St.mk (set_cache (<[id := answered node sid e r]> (cache (St.bridge s)))
                      (set_session_ids ids (St.bridge s)))
               (St.history s ++ [Action.Send g q]))
      else refused s g q (execute_cover_command id action s)
  | _ => execute_cover_command id action s
         = (s, Err (BridgeError.Klf KlfError.SessionIdsExhausted))
  end.
Proof.
  intros Hwf Hg Hn Hr Hc. unfold execute_cover_command.
  pose proof (SessionIdAllocatorFacts.allocate_total _ Hwf) as Ht.
  pose proof (λ sid ids, sent_refused s g (drive_request node sid e) ids sid) as Hrefused.
  destruct s as [b h]. cbn [St.bridge St.history] in *. handler_cbn. rewrite Hn. handler_cbn.
  rewrite Hr. handler_cbn.
  destruct (SessionIdAllocator.allocate (session_ids b)) as [ids [sid|err|]] eqn:Ha; [| |done].
  - rewrite (command_request_resolved _ _ _ _ Hc Hr). handler_cbn. rewrite Hg. handler_cbn.
    specialize (Hrefused sid ids). pose proof (send_total h g (drive_request node sid e)) as Hp.
    destruct (send_result h g _) as [[] | |]; try done; try (by apply Hrefused).
    cbn. destruct (Z.eqb_spec status 1) as [->|_]; [|by apply Hrefused].
    handler_cbn. rewrite Hn. unfold VeluxNode.apply_command_confirmation.
    by case_bool_decide; case_decide.
  - destruct Ht as (->&->&_). by destruct b.
Qed.

(** Publishing the status changes nothing else, and nothing at all without a broker. *)
Lemma publish_node_status_spec id s :
  let (s', r) := publish_node_status id s in
  same_bridge (St.bridge s) (St.bridge s')
  ∧ (∃ ps, St.history s' = St.history s ++ ps ∧ Forall is_publish ps)
  ∧ (mqtt_connected (St.bridge s) = false → s' = s ∧ r = Ok tt).
Proof.
  destruct (publishes_node_status id s I) as (_&[Hb Hh]&_).
  destruct (publish_node_status id s) as [s' r] eqn:Hp. split_and!; [done|done|].
  intros Hm. unfold publish_node_status in Hp. revert Hp. handler_cbn. rewrite Hm.
  by intros [= <- <-].
Qed.

Lemma product_group_cases s g gid action group :
  SessionIdAllocatorFacts.wf (session_ids (St.bridge s)) →
  gateway (St.bridge s) = Some g → groups (St.bridge s) !! gid = Some group →
  match SessionIdAllocator.allocate (session_ids (St.bridge s)) with
  | (ids, Ok sid) =>
      let q := group_request sid group gid action in
      let r := send_result (St.history s) g q in
      if accepts_group sid r then execute_group_command gid action s = (sent s g q ids, Ok tt)
      else refused s g q (execute_group_command gid action s)
  | _ => execute_group_command gid action s
         = (s, Err (BridgeError.Klf KlfError.SessionIdsExhausted))
  end.
Proof.
  intros Hwf Hg Hn. unfold execute_group_command.
  pose proof (SessionIdAllocatorFacts.allocate_total _ Hwf) as Ht.
  pose proof (λ sid ids, sent_refused s g (group_request sid group gid action) ids sid) as Hrefused.
  destruct s as [b h]. cbn [St.bridge St.history] in *. handler_cbn. rewrite Hn. handler_cbn.
  destruct (SessionIdAllocator.allocate (session_ids b)) as [ids [sid|err|]] eqn:Ha; [| |done].
  - handler_cbn. rewrite Hg. handler_cbn. fold (group_request sid group gid action).
    specialize (Hrefused sid ids). pose proof (send_total h g (group_request sid group gid action)) as Hp.
    destruct (send_result h g _) as [[] | |]; try done; try (by apply Hrefused).
    cbn. destruct (bool_decide _ && _); [done|by apply Hrefused].
  - destruct Ht as (->&->&_). by destruct b.
Qed.

Lemma group_request_wf sid group gid action :
  SessionId.wf sid → is_u8 (GroupId.get gid) → group_wf group →
  request_wf (group_request sid group gid action).
Proof.
  intros Hs Hg Hw. destruct group, Hw as (_&_&_&Hv&_). cbn.
  split_and!; try done.
  - destruct action; apply (bool_decide_unpack _); vm_compute; exact I.
  - by repeat constructor.
Qed.

(** *** The status of a node, as it is published *)

(** The reports of a node's status below its root, each retained: the snapshot as JSON, its state
    in words, and its position and target as percentages *)
Definition status_reports (l : TopicLayout.t) (node : VeluxNode.t) (json : list Z)
    : list MqttPublication.t :=
  let id := VeluxNode.id node in
  let snapshot := VeluxNode.snapshot node in
  let percent o := bytes_of (match o with Some p => show p | None => "unknown" end) in
  [MqttPublication.mk (TopicLayout.node_status l id) json true;
   MqttPublication.mk (TopicLayout.node_state l id)
     (bytes_of (cover_state_label (CoverStatusSnapshot.state snapshot))) true;
   MqttPublication.mk (TopicLayout.node_position l id)
     (percent (CoverStatusSnapshot.position snapshot)) true;
   MqttPublication.mk (TopicLayout.node_target l id)
     (percent (CoverStatusSnapshot.target snapshot)) true].

(** What is handed to the broker's client of some publications: up to the first it refuses *)
Fixpoint handed_over (h : list Action.t) (ps : list MqttPublication.t) : list Action.t :=
  match ps with
  | [] => []
  | p :: ps =>
      match publish_result h p with
      | Ok _ => Action.Publish p true :: handed_over (h ++ [Action.Publish p true]) ps
      | _ => [Action.Publish p false]
      end
  end.

(** The status of [node] was published after the history [h], with this result: nothing without a
    broker, or if its snapshot cannot be serialized, which is an error; otherwise its reports,
    and the result is success exactly if the client took all of them. *)
Definition status_published (b : Bridge.t) (node : VeluxNode.t) (h h' : list Action.t)
    (r : outcome BridgeError.t unit) : Prop :=
  if mqtt_connected b then
    match to_vec (snapshot_to_json (VeluxNode.snapshot node)) with
    | Ok json =>
        let reports := status_reports (topics b) node json in
        h' = h ++ handed_over h reports ∧ r ≠ Panic
        ∧ (r = Ok tt ↔ handed_over h reports = (λ p, Action.Publish p true) <$> reports)
    | _ => h' = h ∧ ∃ e, r = Err e
    end
  else h' = h ∧ r = Ok tt.

Lemma publish_all_hands_over ps s :
  let (s', r) := mqtt_publish_all ps s in
  s' = St.mk (St.bridge s) (St.history s ++ handed_over (St.history s) ps) ∧ r ≠ Panic
  ∧ (r = Ok tt ↔ handed_over (St.history s) ps = (λ p, Action.Publish p true) <$> ps).
Proof.
  revert s. induction ps as [|p ps IH]; intros [b h].
  { cbn. by rewrite app_nil_r. }
  unfold mqtt_publish_all, for_each. fold (for_each ps mqtt_publish). fold (mqtt_publish_all ps).
  unfold mqtt_publish. handler_cbn. pose proof (publish_total h p) as Ht.
  destruct (publish_result h p) as [[]|e|]; [|by split_and!|done].
  specialize (IH (St.mk b (h ++ [Action.Publish p true]))). handler_cbn.
  destruct (mqtt_publish_all ps _) as [s' r]. destruct IH as (-> & Hr & Hok). cbn in *.
  rewrite <- app_assoc. split_and!; [done|done|]. rewrite Hok. split; [by intros ->|by intros [=]].
Qed.

Lemma node_status_published id s node :
  cache (St.bridge s) !! id = Some node →
  let (s', r) := publish_node_status id s in
  St.bridge s' = St.bridge s
  ∧ status_published (St.bridge s) node (St.history s) (St.history s') r.
Proof.
  intros Hn. unfold publish_node_status, status_published, publish_status. handler_cbn.
  destruct (mqtt_connected (St.bridge s)); [|done]. handler_cbn. rewrite Hn. handler_cbn.
  unfold TopicLayout.status_publications, TopicLayout.serialize_json.
  pose proof (to_vec_total (snapshot_to_json (VeluxNode.snapshot node))) as Ht.
  destruct (to_vec _) as [json|e|]; cbn -[mqtt_publish_all]; [|by split_and!; [..|eexists]|done].
  pose proof (publish_all_hands_over (status_reports (topics (St.bridge s)) node json) s) as H.
  unfold status_reports in *. cbv zeta in *. unfold TopicLayout.percent_text, MqttPublication.retain.
  destruct (mqtt_publish_all _ s) as [s' r]. by destruct H as (-> & ?).
Qed.

(** C24: a node command for a supported cover whose endpoint is known takes one free session and
    sends one request, which drives that very node to that endpoint. Exactly if the gateway
    accepts it the session stays in use, the node is marked as moving to the endpoint (when the
    confirmation carries the session) and, with a broker, its new status is published: its
    snapshot, state, position and target, in this order, up to the first that the broker's client
    refuses, and the command then succeeds exactly if the client refuses none. If the gateway
    does not accept, the command fails, the session is free again and nothing else changed. With
    no free session nothing happens. *)
Theorem node_command_spec (config : VeluxMqttBridgeConfig.t) (s : St.t) (g : GatewayHandle)
    (id : NodeId.t) (action : CoverAction.t) (node : VeluxNode.t) (e : CoverEndpoint.t) :
  running config s → gateway (St.bridge s) = Some g → cache (St.bridge s) !! id = Some node →
  VeluxNode.resolve_action node action = Ok e → VeluxNode.is_controllable node = true →
  let (s', r) := execute_cover_command id action s in
  let b := St.bridge s in
  let b' := St.bridge s' in
  match (SessionIdAllocator.allocate (session_ids b)).2 with
  | Ok sid =>
      let q := drive_request node sid e in
      let answer := send_result (St.history s) g q in
      VeluxNode.id node = id ∧ SessionIdAllocator.is_active (session_ids b) sid = false
      ∧ if accepts_command answer then
          SessionIdAllocator.active (session_ids b')
            = {[SessionId.get sid]} ∪ SessionIdAllocator.active (session_ids b)
          ∧ cache b' = <[id := answered node sid e answer]> (cache b)
          ∧ link b' = link b ∧ groups b' = groups b
          ∧ status_published b (answered node sid e answer) (St.history s ++ [Action.Send g q])
              (St.history s') r
        else refused s g q (s', r)
  | Err _ => s' = s ∧ r = Err (BridgeError.Klf KlfError.SessionIdsExhausted)
  | Panic => False
  end.
Proof.
  intros (l & Hs & _)%running_inv Hg Hn Hr Hc. destruct (inv_data _ _ _ Hs) as (Hcache&_&Hwf).
  pose proof (cover_command_cases s g id action node e Hwf Hg Hn Hr Hc) as H.
  pose proof (SessionIdAllocatorFacts.allocate_total _ Hwf) as Ht.
  pose proof (SessionIdAllocatorFacts.allocate_active (session_ids (St.bridge s))) as Hactive.
  cbv zeta in *.
  destruct (SessionIdAllocator.allocate (session_ids (St.bridge s))) as [ids [sid|err|]];
    [|by destruct (execute_cover_command id action s); simplify_eq|done].
  destruct Ht as (_&Hfree&_). destruct (Hactive ids sid Hwf eq_refl) as (Hact&_&_).
  destruct (Hcache _ _ Hn) as [Hid _]. simpl. destruct (accepts_command _).
  - rewrite H. match type of H with _ = publish_node_status id ?s1 =>
      pose proof (node_status_published id s1 _ (lookup_insert_eq _ _ _)) as Hp end.
    destruct (publish_node_status id _) as [s' r]. destruct Hp as [Hb Hp]. rewrite Hb.
    by split_and!.
  - by destruct (execute_cover_command id action s).
Qed.

(** What a status request does *)
Lemma request_status_spec s g id :
  SessionIdAllocatorFacts.wf (session_ids (St.bridge s)) → gateway (St.bridge s) = Some g →
  let (s', r) := request_status id s in
  let b := St.bridge s in
  let b' := St.bridge s' in
  b' = set_session_ids (session_ids b') b
  ∧ match (SessionIdAllocator.allocate (session_ids b)).2 with
    | Ok sid =>
        let q := status_request sid id in
        let answer := send_result (St.history s) g q in
        St.history s' = St.history s ++ [Action.Send g q]
        ∧ SessionIdAllocator.active (session_ids b')
          = (if accepts_status answer then {[SessionId.get sid]} else ∅)
            ∪ SessionIdAllocator.active (session_ids b)
        ∧ (r = Ok tt ↔ accepts_status answer = true) ∧ r ≠ Panic
    | _ => s' = s ∧ ∃ e, r = Err e
    end.
Proof.
  intros Hwf Hg. pose proof (request_status_cases s g id Hwf Hg) as H.
  pose proof (SessionIdAllocatorFacts.allocate_active (session_ids (St.bridge s))) as Hactive.
  cbv zeta in *.
  destruct (SessionIdAllocator.allocate (session_ids (St.bridge s))) as [ids [sid|err|]].
  2,3: rewrite H; split; [by destruct s as [[]]|simpl; split; [done|by eexists]].
  destruct (Hactive ids sid Hwf eq_refl) as (Hact&_&_). simpl.
  destruct (accepts_status _); [rewrite H; by split_and!|].
  destruct (request_status id s) as [s' r]. destruct H as ([e He]&Hsess&Hb&Hh).
  cbn [fst snd] in *. rewrite He, Hsess. split_and!; [done|done|set_solver|done|done].
Qed.

Lemma resolve_action_err node action e :
  VeluxNode.resolve_action node action = Err e →
  action = CoverAction.Toggle ∧ e = NodeError.PositionUnknown (VeluxNode.id node).
Proof.
  unfold VeluxNode.resolve_action, VeluxNode.toggle_endpoint. destruct action; [done..|].
  destruct (VeluxNode.state node), (VeluxNode.current_position node),
    (VeluxNode.target_position node); simpl; repeat case_match; intros; by simplify_eq.
Qed.

Lemma cover_command_unknown s id node :
  cache (St.bridge s) !! id = Some node →
  VeluxNode.resolve_action node CoverAction.Toggle
    = Err (NodeError.PositionUnknown (VeluxNode.id node)) →
  execute_cover_command id CoverAction.Toggle s
  = let (s', r) := request_status id s in
    (s', match r with
         | Ok _ => Err (BridgeError.PositionUnknown id)
         | Err e => Err e
         | Panic => Panic
         end).
Proof.
  intros Hn Hr. unfold execute_cover_command. handler_cbn. rewrite Hn. handler_cbn. rewrite Hr.
  handler_cbn. by destruct (request_status id s) as [s' [[]| |]].
Qed.

Lemma cover_command_unsupported s id action node e :
  SessionIdAllocatorFacts.wf (session_ids (St.bridge s)) → cache (St.bridge s) !! id = Some node →
  VeluxNode.resolve_action node action = Ok e →
  let (s', r) := execute_cover_command id action s in
  VeluxNode.is_controllable node = false →
  (∃ e, r = Err e) ∧ St.history s' = St.history s
  ∧ SessionIdAllocator.active (session_ids (St.bridge s'))
    = SessionIdAllocator.active (session_ids (St.bridge s))
  ∧ St.bridge s' = set_session_ids (session_ids (St.bridge s')) (St.bridge s).
Proof.
  intros Hwf Hn Hr. destruct (VeluxNode.is_controllable node) eqn:Hc.
  { by destruct (execute_cover_command id action s). }
  unfold execute_cover_command. handler_cbn. rewrite Hn. handler_cbn. rewrite Hr. handler_cbn.
  pose proof (SessionIdAllocatorFacts.allocate_total _ Hwf) as Ht.
  pose proof (SessionIdAllocatorFacts.release_allocated (session_ids (St.bridge s))) as Hreleased.
  assert (∀ sid, VeluxNode.command_request node sid action
                 = Err (NodeError.UnsupportedActuator (VeluxNode.id node))) as Hreq.
  { intros sid. unfold VeluxNode.command_request. by rewrite Hc. }
  destruct (SessionIdAllocator.allocate _) as [ids [sid|err|]]; [| |done].
  - rewrite Hreq. handler_cbn. intros _. split_and!; [by eexists|done|by apply Hreleased|done].
  - destruct Ht as (->&->&_). intros _. split_and!; [by eexists|done|done|by destruct s as [[]]].
Qed.

(** A node command that cannot be carried out sends no command: for a node that is not cached
    nothing happens; for an actuator that is not a supported cover the command fails with nothing
    sent and no session in use; and for a cover whose position is unknown the one request sent is
    a request for the status of that very node, whose session stays in use exactly if the gateway
    accepted it. *)
Theorem node_command_failures (config : VeluxMqttBridgeConfig.t) (s : St.t) (g : GatewayHandle)
    (id : NodeId.t) (action : CoverAction.t) :
  running config s → gateway (St.bridge s) = Some g →
  let (s', r) := execute_cover_command id action s in
  let b := St.bridge s in
  let b' := St.bridge s' in
  match cache b !! id with
  | None => s' = s ∧ r = Err (BridgeError.NodeNotPresent id)
  | Some node =>
      match VeluxNode.resolve_action node action with
      | Ok _ =>
          VeluxNode.is_controllable node = false →
          (∃ e, r = Err e) ∧ St.history s' = St.history s
          ∧ SessionIdAllocator.active (session_ids b') = SessionIdAllocator.active (session_ids b)
          ∧ b' = set_session_ids (session_ids b') b
      | _ =>
          action = CoverAction.Toggle ∧ (∃ e, r = Err e)
          ∧ b' = set_session_ids (session_ids b') b
          ∧ match (SessionIdAllocator.allocate (session_ids b)).2 with
            | Ok sid =>
                let q := status_request sid id in
                St.history s' = St.history s ++ [Action.Send g q]
                ∧ SessionIdAllocator.active (session_ids b')
                  = (if accepts_status (send_result (St.history s) g q)
                     then {[SessionId.get sid]} else ∅) ∪ SessionIdAllocator.active (session_ids b)
            | _ => s' = s
            end
      end
  end.
Proof.
  intros (l & Hs & _)%running_inv Hg. destruct (inv_data _ _ _ Hs) as (Hcache&_&Hwf).
  destruct (cache (St.bridge s) !! id) as [node|] eqn:Hn.
  2: { unfold execute_cover_command. handler_cbn. rewrite Hn. by rewrite ?Hn. }
  destruct (VeluxNode.resolve_action node action) as [e|err|] eqn:Hr.
  - pose proof (cover_command_unsupported s id action node e Hwf Hn Hr) as H.
    destruct (execute_cover_command id action s). cbv zeta. by rewrite Hn, Hr.
  - destruct (resolve_action_err _ _ _ Hr) as [-> ->].
    pose proof (request_status_spec s g id Hwf Hg) as Hstatus.
    rewrite (cover_command_unknown s id node) by done.
    destruct (request_status id s) as [s' r]. cbv zeta in *. rewrite Hn, Hr.
    destruct Hstatus as [Hb Hcases]. split_and!; [done| |done|].
    + destruct r as [[]|e|]; [by eexists|by eexists|].
      by destruct (SessionIdAllocator.allocate _).2; [destruct_and!|destruct Hcases as (_&?&?)..].
    + destruct (SessionIdAllocator.allocate _).2; destruct Hcases as (?&?); [|done..].
      by destruct_and!.
  - by destruct (resolve_action_total node action).
Qed.

(** The activation of a group as a product: by a user, at the priority of a user's commands, its
    main parameter going to the raw [position] at the group's own velocity, nothing locked *)
Definition activation (sid : SessionId.t) (gid : GroupId.t) (group : GroupInformation.t)
    (position : Z) : Request.t :=
  Request.SceneContact (SceneContactRequest.ActivateProductGroup {|
    ProductGroupActivationRequest.session_id := sid;
    ProductGroupActivationRequest.command_originator := 1;
    ProductGroupActivationRequest.priority_level := 3;
    ProductGroupActivationRequest.product_group_id := GroupId.get gid;
    ProductGroupActivationRequest.parameter_id := 0;
    ProductGroupActivationRequest.position :=
      StandardParameter.Relative (Percentage.from_raw position);
    ProductGroupActivationRequest.velocity := GroupInformation.velocity group;
    ProductGroupActivationRequest.priority_level_lock := false;
    ProductGroupActivationRequest.priority_level_settings := [3; 3; 3; 3; 3; 3; 3; 3];
    ProductGroupActivationRequest.lock_time := 0
  |}).

(** Open is the raw position 0, closed is 0xC800. *)
Definition raw_position (action : GroupAction.t) : Z :=
  match action with GroupAction.Open => 0 | GroupAction.Close => 51200 end.

Lemma group_request_activation sid group gid action :
  group_request sid group gid action = activation sid gid group (raw_position action).
Proof. by destruct action. Qed.

(** C25: a group command for a known group takes one free session and sends one request, which is
    well formed, fits a frame, and activates exactly that group at its own velocity: towards the
    raw position 0 to open it, and towards 0xC800 to close it. The session stays in use exactly if the gateway accepts the request under that session; otherwise
    the command fails and the session is free again. Nothing is published and no other state
    changes. *)
Theorem group_command_spec (config : VeluxMqttBridgeConfig.t) (s : St.t) (g : GatewayHandle)
    (gid : GroupId.t) (action : GroupAction.t) (group : GroupInformation.t) :
  running config s → gateway (St.bridge s) = Some g → groups (St.bridge s) !! gid = Some group →
  let (s', r) := execute_group_command gid action s in
  let b := St.bridge s in
  let b' := St.bridge s' in
  match (SessionIdAllocator.allocate (session_ids b)).2 with
  | Ok sid =>
      let q := activation sid gid group (raw_position action) in
      SessionIdAllocator.is_active (session_ids b) sid = false
      ∧ (∃ f bytes, Request.encode q = Ok f ∧ Frame.encode f = Ok bytes ∧ Frame.decode bytes = Ok f)
      ∧ if accepts_group sid (send_result (St.history s) g q) then
          r = Ok tt ∧ b' = set_session_ids (session_ids b') b
          ∧ SessionIdAllocator.active (session_ids b')
            = {[SessionId.get sid]} ∪ SessionIdAllocator.active (session_ids b)
          ∧ St.history s' = St.history s ++ [Action.Send g q]
        else refused s g q (s', r)
  | Err _ => s' = s ∧ r = Err (BridgeError.Klf KlfError.SessionIdsExhausted)
  | Panic => False
  end.
Proof.
  intros (l & Hs & _)%running_inv Hg Hn. destruct (inv_data _ _ _ Hs) as (_&Hgroups&Hwf).
  destruct (Hgroups _ _ Hn) as [Hid Hgroup].
  pose proof (product_group_cases s g gid action group Hwf Hg Hn) as H.
  pose proof (SessionIdAllocatorFacts.allocate_total _ Hwf) as Ht.
  pose proof (SessionIdAllocatorFacts.allocate_active (session_ids (St.bridge s))) as Hactive.
  cbv zeta in *.
  destruct (SessionIdAllocator.allocate (session_ids (St.bridge s))) as [ids [sid|err|]];
    [|by destruct (execute_group_command gid action s); simplify_eq|done].
  destruct Ht as (Hsid&Hfree&_). destruct (Hactive ids sid Hwf eq_refl) as (Hact&_&_).
  assert (is_u8 (GroupId.get gid)) as Hgid by (rewrite <- Hid; destruct group; apply Hgroup).
  pose proof (group_request_wf sid group gid action Hsid Hgid Hgroup) as Hwf'.
  assert (∃ f bytes, Request.encode (group_request sid group gid action) = Ok f
                     ∧ Frame.encode f = Ok bytes ∧ Frame.decode bytes = Ok f) as Hfit.
  { assert (invalid (group_request sid group gid action) = None) as Hi by done.
    eexists. rewrite encode_layout, Hi by done.
    destruct (layout_fits_frame _ Hwf' eq_refl Hi) as (_&_&bytes&?). by exists bytes. }
  cbn [snd]. rewrite <- group_request_activation. simpl. destruct (accepts_group _ _).
  - rewrite H. by split_and!.
  - by destruct (execute_group_command gid action s).
Qed.

(** *** What a message makes the bridge do *)

(** What was asked of the gateway *)
Definition gateway_actions (h : list Action.t) : list Action.t :=
  List.filter (λ a, match a with Action.Publish _ _ | Action.MqttDisconnect => false | _ => true end) h.

(** A request about one node: a drive to an endpoint, or a request for its status *)
Definition concerns (id : NodeId.t) (q : Request.t) : Prop :=
  ∃ sid, q = status_request sid id ∨ ∃ node e, VeluxNode.id node = id ∧ q = drive_request node sid e.

(** The history grew by publications and at most one request with [P]. *)
Definition one_request (g : GatewayHandle) (P : Request.t → Prop) (h h' : list Action.t) : Prop :=
  ∃ t, h' = h ++ t
    ∧ (gateway_actions t = [] ∨ ∃ q, gateway_actions t = [Action.Send g q] ∧ P q).

Lemma gateway_actions_publish t : Forall is_publish t → gateway_actions t = [].
Proof. induction 1 as [|a t Ha]; [done|]. by destruct a. Qed.

Lemma one_request_none g P h : one_request g P h h.
Proof. exists []. rewrite app_nil_r. by split; [|left]. Qed.

Lemma one_request_sent g (P : Request.t → Prop) h q ps :
  P q → Forall is_publish ps → one_request g P h ((h ++ [Action.Send g q]) ++ ps).
Proof.
  intros Hq Hps. exists (Action.Send g q :: ps). rewrite <- app_assoc. split; [done|]. right.
  exists q. cbn. by rewrite gateway_actions_publish.
Qed.

Lemma one_request_send g (P : Request.t → Prop) h q :
  P q → one_request g P h (h ++ [Action.Send g q]).
Proof. intros Hq. rewrite <- (app_nil_r (h ++ _)). by apply one_request_sent. Qed.

Lemma cover_command_request s g id action :
  SessionIdAllocatorFacts.wf (session_ids (St.bridge s)) → cache_wf (cache (St.bridge s)) →
  gateway (St.bridge s) = Some g →
  one_request g (concerns id) (St.history s) (St.history (execute_cover_command id action s).1).
Proof.
  intros Hwf Hcache Hg. destruct (cache (St.bridge s) !! id) as [node|] eqn:Hn.
  2: { unfold execute_cover_command. handler_cbn. rewrite Hn. apply one_request_none. }
  destruct (Hcache _ _ Hn) as [Hid _].
  destruct (VeluxNode.resolve_action node action) as [e|err|] eqn:Hr.
  - destruct (VeluxNode.is_controllable node) eqn:Hc.
    + pose proof (cover_command_cases s g id action node e Hwf Hg Hn Hr Hc) as H. cbv zeta in H.
      destruct (SessionIdAllocator.allocate _) as [ids [sid|err|]];
        [|rewrite H; apply one_request_none..].
      assert (concerns id (drive_request node sid e)) as Hq.
      { exists sid. right. by exists node, e. }
      destruct (accepts_command _).
      * rewrite H. match goal with |- one_request _ _ _ (St.history (publish_node_status _ ?s1).1) =>
          pose proof (publish_node_status_spec id s1) as Hp end.
        destruct (publish_node_status _ _) as [s' r]. destruct Hp as (_&(ps&Hh&Hps)&_).
        cbn [fst] in *. rewrite Hh. by apply one_request_sent.
      * destruct H as (_&_&_&->). by apply one_request_send.
    + pose proof (cover_command_unsupported s id action node e Hwf Hn Hr) as H.
      destruct (execute_cover_command id action s). destruct (H Hc) as (_&Hh&_). cbn [fst].
      rewrite Hh. apply one_request_none.
  - destruct (resolve_action_err _ _ _ Hr) as [-> ->]. rewrite (cover_command_unknown s id node) by done.
    pose proof (request_status_spec s g id Hwf Hg) as H.
    destruct (request_status id s) as [s' r]. destruct H as [_ H]. cbv zeta in H. cbn [fst].
    destruct (SessionIdAllocator.allocate _).2 as [sid|e|].
    + destruct H as (->&_). apply one_request_send. exists sid. by left.
    + destruct H as (->&_). apply one_request_none.
    + destruct H as (->&_). apply one_request_none.
  - by destruct (resolve_action_total node action).
Qed.

(** C22: a message of the broker makes the bridge ask something of the gateway only when it is a
    well-formed command that is not retained and a gateway is connected. A node command then sends
    at most one request, which concerns that node; a group command at most one, which activates
    that group; the reboot command asks for one reboot. Any other message changes nothing. Errors
    are never passed on to the loop. *)
Theorem message_effects (config : VeluxMqttBridgeConfig.t) (s : St.t) (m : IncomingMessage.t) :
  running config s →
  let (s', r) := handle_mqtt_message m s in
  r = Ok tt
  ∧ (IncomingMessage.retained m = true → s' = s)
  ∧ match TopicLayout.parse_command (topics (St.bridge s)) m, gateway (St.bridge s) with
    | Ok (MqttCommand.Node c), Some g =>
        one_request g (concerns (NodeCommand.node_id c)) (St.history s) (St.history s')
    | Ok (MqttCommand.Group c), Some g =>
        one_request g
          (λ q, ∃ sid group,
             groups (St.bridge s) !! GroupCommand.group_id c = Some group
             ∧ q = activation sid (GroupCommand.group_id c) group
                     (raw_position (GroupCommand.action c)))
          (St.history s) (St.history s')
    | Ok MqttCommand.GatewayReboot, Some g =>
        ∃ t, St.history s' = St.history s ++ t
             ∧ gateway_actions t = [Action.GatewayShutdown g true]
    | _, _ => s' = s
    end.
Proof.
  intros Hrun. destruct (running_inv _ _ Hrun) as (l & Hs & Hc).
  destruct (inv_data _ _ _ Hs) as (Hcache&_&Hwf). unfold handle_mqtt_message. handler_cbn.
  destruct (TopicLayout.parse_command _ m) as [cmd|e|] eqn:Hp;
    [|by split_and!|by destruct (parse_command_total (topics (St.bridge s)) m)].
  assert (IncomingMessage.retained m = false) as ->.
  { unfold TopicLayout.parse_command in Hp. by destruct (IncomingMessage.retained m). }
  destruct (gateway (St.bridge s)) as [g|] eqn:Hg; [|by split_and!; [..|destruct cmd]].
  destruct cmd as [cmd|cmd|].
  - rewrite logged_returns by apply (commands_cover_command _ _ s (inv_data _ _ _ Hs)).
    split_and!; [done|done|]. by apply cover_command_request.
  - rewrite logged_returns by apply (commands_group_command _ _ s (inv_data _ _ _ Hs)).
    split_and!; [done|done|].
    destruct (groups (St.bridge s) !! GroupCommand.group_id cmd) as [group|] eqn:Hn.
    2: { unfold execute_group_command. handler_cbn. rewrite Hn. apply one_request_none. }
    pose proof (product_group_cases s g _ (GroupCommand.action cmd) _ Hwf Hg Hn) as H. cbv zeta in H.
    destruct (SessionIdAllocator.allocate _) as [ids [sid|err|]];
      [|rewrite H; apply one_request_none..].
    destruct (accepts_group _ _); [rewrite H|destruct H as (_&_&_&->)];
      apply one_request_send; exists sid, group; by rewrite <- group_request_activation.
  - rewrite logged_returns.
    2: { rewrite (execute_gateway_reboot_eq _ _ s g Hs Hc Hg). cbn [snd].
         pose proof (shutdown_total (St.history s) g true). by destruct (shutdown_result _ _ _). }
    split_and!; [done|done|]. rewrite (execute_gateway_reboot_eq _ _ s g Hs Hc Hg). cbn [fst].
    eexists. split; [unfold rebooted_state; cbn; by rewrite <- app_assoc|].
    unfold announcement. by destruct (mqtt_connected _).
Qed.

End commands.

(** ** Witnesses: the bridge of the sample run *)
Definition sample_message (topic payload : string) : IncomingMessage.t :=
  IncomingMessage.mk topic payload false.

Lemma message_effects_witness :
  (@handle_mqtt_message quiet (sample_message "home/velux/velux_node_4/cmnd/control" "open")
     (sample_state sample_events)).2 = Ok tt.
Proof.
  pose proof (@message_effects quiet quiet_lawful sample_bridge_config _
    (sample_message "home/velux/velux_node_4/cmnd/control" "open") sample_online) as H.
  destruct (@handle_mqtt_message quiet _ (sample_state sample_events)) as [s' r].
  exact (proj1 H).
Defined.

Lemma node_command_spec_witness :
  let s := sample_state sample_events in
  let q := drive_request sample_node (SessionId.mk 1) CoverEndpoint.Open in
  @send_result quiet (St.history s) 0%nat q = Ok (Response.CommandAccepted (SessionId.mk 1) 1)
  ∧ SessionIdAllocator.active
      (session_ids (St.bridge (@execute_cover_command quiet (NodeId.new 4) CoverAction.Open s).1))
    = {[1]} ∪ SessionIdAllocator.active (session_ids (St.bridge s)).
Proof.
  split; [reflexivity|].
  pose proof (@node_command_spec quiet quiet_lawful sample_bridge_config _ 0%nat (NodeId.new 4)
    CoverAction.Open sample_node CoverEndpoint.Open sample_online sample_gateway
    ltac:(vm_compute; reflexivity) eq_refl eq_refl) as H.
  destruct (@execute_cover_command quiet (NodeId.new 4) CoverAction.Open (sample_state sample_events))
    as [s' r].
  cbv zeta in H.
  assert (SessionIdAllocator.allocate (session_ids (St.bridge (sample_state sample_events)))
          = (SessionIdAllocator.mk 2 {[1]}, Ok (SessionId.mk 1))) as Ha by (vm_compute; reflexivity).
  rewrite Ha in H. exact (proj1 (proj2 (proj2 H))).
Defined.

Lemma node_command_failures_witness :
  (@execute_cover_command quiet (NodeId.new 9) CoverAction.Open (sample_state sample_events)).2
  = Err (BridgeError.NodeNotPresent (NodeId.new 9)).
Proof.
  pose proof (@node_command_failures quiet quiet_lawful sample_bridge_config _ 0%nat (NodeId.new 9)
    CoverAction.Open sample_online sample_gateway) as H.
  destruct (@execute_cover_command quiet (NodeId.new 9) CoverAction.Open (sample_state sample_events))
    as [s' r].
  cbv zeta in H.
  assert (cache (St.bridge (sample_state sample_events)) !! NodeId.new 9 = None) as Hn
    by (vm_compute; reflexivity).
  rewrite Hn in H. exact (proj2 H).
Defined.

Lemma group_command_spec_witness :
  let s := sample_state sample_events in
  refused s 0%nat (activation (SessionId.mk 1) (GroupId.new 7) sample_group 51200)
    (@execute_group_command quiet (GroupId.new 7) GroupAction.Close s).
Proof.
  pose proof (@group_command_spec quiet quiet_lawful sample_bridge_config _ 0%nat (GroupId.new 7)
    GroupAction.Close sample_group sample_online sample_gateway ltac:(vm_compute; reflexivity)) as H.
  cbv zeta.
  destruct (@execute_group_command quiet (GroupId.new 7) GroupAction.Close (sample_state sample_events))
    as [s' r].
  cbv zeta in H.
  assert (SessionIdAllocator.allocate (session_ids (St.bridge (sample_state sample_events)))
          = (SessionIdAllocator.mk 2 {[1]}, Ok (SessionId.mk 1))) as Ha by (vm_compute; reflexivity).
  rewrite Ha in H. exact (proj2 (proj2 H)).
Defined.
