(* ===== verification/BridgeTiming.v ===== *)
(** * When the bridge connects

    The loop with the deadline of its reconnect timer: a set-up starts no earlier than the
    deadline, and every loss of the gateway moves the deadline. Successive set-ups are therefore
    spaced, whatever fails and whenever. *)

From S2P Require Import Prelude RustStd CommandIds Error Types Frame Command CommandLayout.
From S2P Require Import ResponseTypes ResponseFacts Connection Client VeluxNode NodeFacts.
From S2P Require Import Mqtt MqttFacts HassDiscovery Bridge BridgeLogic BridgeFacts.
Import Bridge.

(** Instants do not run backwards. *)
Class MonotoneClock (E : Environment) : Prop := {
  now_mono h t : now h ≤ now (h ++ t)
}.

Section timed.
Context `{E : Environment}.

(** [sleep_until(deadline)] has elapsed. *)
Definition wait_for_reconnect (s : St.t) : bool := next_reconnect (St.bridge s) <=? now (St.history s).

(** An event is due: the reconnect timer only once its deadline has passed. *)
Definition due (s : St.t) (event : BridgeEvent.t) : bool :=
  match event with BridgeEvent.ReconnectTimer => wait_for_reconnect s | _ => true end.

(** The states the loop goes through when its events are due; it may wait for them as long as it
    takes. *)
Inductive timed (start : St.t) : St.t → Prop :=
| timed_start : timed start start
| timed_wait s : timed start s → timed start (waited s)
| timed_step s event s' :
    timed start s → event_wf event → due s event = true → step s event s' → timed start s'.

Definition timed_running (config : VeluxMqttBridgeConfig.t) (s : St.t) : Prop :=
  durations_wf config ∧ clock_fits (VeluxMqttBridgeConfig.validate config).1
  ∧ ∃ read start b options mqtt_topics,
      Bridge.new read start config = Ok (b, options, mqtt_topics) ∧ timed (St.mk b []) s.

(** The shortest delay the bridge waits before it connects again *)
Definition shortest_delay (c : VeluxMqttBridgeConfig.t) : Duration :=
  Z.min (VeluxMqttBridgeConfig.reconnect_min_delay c) (VeluxMqttBridgeConfig.reboot_reconnect_delay c).

(** Neither a gateway nor a set-up: the timer runs. *)
Definition idle (b : Bridge.t) : Prop := gateway b = None ∧ setup b = false.
End timed.

Section facts.
Context `{E : Environment} `{L : !Lawful E} `{C : !MonotoneClock E}.
Context (c : VeluxMqttBridgeConfig.t) (l : TopicLayout.t).
Context (Hconfig : config_wf c) (Hclock : clock_fits c).

Local Abbreviation inv := (BridgeFacts.inv c l) (only parsing).

(** Nothing is set up, and if the timer runs afterwards, it ran before with the same deadline, or
    its deadline is a delay from now. *)
Definition rests (s s' : St.t) : Prop :=
  extends (.≠ Action.StartSetup) (St.history s) (St.history s')
  ∧ (idle (St.bridge s') →
     idle (St.bridge s) ∧ next_reconnect (St.bridge s') = next_reconnect (St.bridge s)
     ∨ now (St.history s) + shortest_delay c ≤ next_reconnect (St.bridge s')).

Lemma rests_commanding s s' : commanding s s' → rests s s'.
Proof.
  intros [Hlink Hh]. split.
  - eapply extends_weaken; [|exact Hh]. intros a [Ha|Ha] ->; done.
  - intros Hi. left. unfold link, idle in *. by injection Hlink as _ _ <- _ <- _ <- _.
Qed.

(** Dropping the gateway schedules the next set-up a delay after some later moment. *)
Lemma rests_scheduled s s' h t :
  St.history s' = h ++ t → extends (.≠ Action.StartSetup) (St.history s) h →
  Forall (.≠ Action.StartSetup) t → now h + shortest_delay c ≤ next_reconnect (St.bridge s') →
  rests s s'.
Proof.
  intros Hs' (u & -> & Hu) Ht Hn. split.
  - exists (u ++ t). rewrite Hs', app_assoc. split; [done|]. by apply Forall_app.
  - intros _. right. etransitivity; [|exact Hn]. pose proof (now_mono (St.history s) u). lia.
Qed.

Lemma announcement_quiet s online : Forall (.≠ Action.StartSetup) (announcement s online).
Proof. unfold announcement. case_match; by repeat constructor. Qed.

Lemma drawn_delay_least s : inv s → shortest_delay c ≤ (drawn_delay s).2.
Proof.
  intros Hs. pose proof (inv_backoff _ _ _ Hs) as Hb. pose proof (inv_limits _ _ _ Hs) as [Hmin _].
  pose proof (random_range (St.history s) _ (BackoffFacts.jitter_limit_nonneg _ Hb)) as Hj.
  pose proof (BackoffFacts.next_delay_spec _ _ Hb Hj) as Hd. unfold drawn_delay.
  destruct (ReconnectBackoff.next_delay _ _) as [backoff delay]. destruct Hd as (_&_&_&_&Hd).
  unfold BackoffFacts.wf, shortest_delay in *. cbn. lia.
Qed.

Lemma rests_failed s : inv s → rests s (failed_state s).
Proof.
  intros Hs. pose proof (drawn_delay_least s Hs). unfold failed_state.
  destruct (drawn_delay s) as [backoff delay]. cbn in *.
  eapply rests_scheduled; [done|done|apply announcement_quiet|]. cbn. lia.
Qed.

Lemma rests_gateway_failed reason s s' r :
  inv s → gateway (St.bridge s) ≠ None → gateway_failed reason s = (s', r) → rests s s'.
Proof.
  intros Hs Hg. rewrite (gateway_failed_eq c l reason s Hs Hclock Hg). intros [= <- _].
  by apply rests_failed.
Qed.

Lemma rests_rebooted s g : inv s → rests s (rebooted_state s g).
Proof.
  intros Hs. unfold rebooted_state.
  eapply rests_scheduled; [done|by apply extends_snoc|apply announcement_quiet|].
  cbn. rewrite (inv_config _ _ _ Hs). unfold shortest_delay. lia.
Qed.

Lemma rests_commands (m : M unit) s s' r :
  inv s → tame holds_data commanding m → m s = (s', r) → rests s s'.
Proof.
  intros Hs Hm Heq. destruct (Hm s (inv_data _ _ _ Hs)) as (_&HR&_). rewrite Heq in HR.
  by apply rests_commanding.
Qed.

(** A bridge with a gateway is not idle. *)
Lemma rests_online s s' :
  extends (.≠ Action.StartSetup) (St.history s) (St.history s') →
  gateway (St.bridge s') ≠ None → rests s s'.
Proof. intros Hh Hg. split; [done|]. by intros [? _]. Qed.

Lemma publishing_quiet s s' : publishing s s' → extends (.≠ Action.StartSetup) (St.history s) (St.history s').
Proof. intros [_ Hh]. eapply extends_weaken; [|exact Hh]. by intros a Ha ->. Qed.

Lemma rests_message m s s' :
  inv s → handle_mqtt_message m s = (s', Ok tt) → rests s s'.
Proof.
  intros Hs. unfold handle_mqtt_message.
  change ((gets id ≫= ?k) s) with (k (St.bridge s) s). cbv beta.
  assert (rests s s) as Hsame by by apply rests_commanding.
  destruct (TopicLayout.parse_command _ m) as [cmd|e|]; [|by intros [= <-]|done].
  destruct (gateway (St.bridge s)) as [g|] eqn:Hg; [|by intros [= <-]]. destruct cmd as [cmd|cmd|].
  - apply rests_commands; [done|]. apply tame_logged, commands_cover_command.
  - apply rests_commands; [done|]. apply tame_logged, commands_group_command.
  - unfold logged. rewrite (execute_gateway_reboot_eq c l s g Hs Hclock Hg). intros [= <- _].
    by apply rests_rebooted.
Qed.

Lemma rests_mqtt_result result s s' :
  inv s → handle_mqtt_result result s = (s', Ok tt) → rests s s'.
Proof.
  intros Hs. destruct result as [[|m]|e|]; [|by apply rests_message| |done].
  - cbn [handle_mqtt_result].
    change ((modify ?f ≫= ?k) s) with (k tt (St.mk (f (St.bridge s)) (St.history s))). cbv beta.
    set (s1 := St.mk _ _). change ((gets gateway ≫= ?k) s1) with (k (gateway (St.bridge s)) s1). cbv beta.
    assert (∀ m : M unit, tame always publishing m → m s1 = (s', Ok tt) → rests s s') as Hpub.
    { intros m Hm Heq. destruct (Hm s1 I) as (_&HR&_). rewrite Heq in HR.
      exact (rests_commanding s1 s' (publishing_commanding _ _ HR)). }
    destruct (gateway (St.bridge s)); apply Hpub; auto with bridge.
  - intros [= <-]. split; [done|]. by left.
Qed.

Lemma rests_setup_result result s s' :
  inv s → handle_setup_result result s = (s', Ok tt) → rests s s'.
Proof.
  intros Hs. unfold handle_setup_result. destruct result as [p|e|];
    change ((modify ?f ≫= ?k) s) with (k tt (St.mk (f (St.bridge s)) (St.history s))); cbv beta;
    set (s1 := St.mk (set_setup false (St.bridge s)) (St.history s)); [| |done].
  - change ((gets id ≫= ?k) s1) with (k (St.bridge s1) s1). cbv beta zeta.
    change ((modify ?f ≫= ?k) s1) with (k tt (St.mk (f (St.bridge s1)) (St.history s1))). cbv beta.
    set (s2 := St.mk (install p (St.bridge s1)) (St.history s1)). intros Heq. assert (publishing s2 s') as HR.
    { match type of Heq with ?m _ = _ => assert (tame always publishing m) as Hm by tame_split end.
      destruct (Hm s2 I) as (_&HR&_). by rewrite Heq in HR. }
    apply rests_online; [by apply (publishing_quiet s2)|]. destruct HR as [-> _]. done.
  - assert (inv s1) as Hs1 by (by destruct Hs). pose proof (drawn_delay_least s1 Hs1) as Hleast.
    pose proof (next_delay_ok c l s1 Hs1) as Hd. unfold drawn_delay in Hd, Hleast.
    unfold mbind, M_bind, next_delay. destruct (ReconnectBackoff.next_delay _ _) as [backoff delay].
    destruct Hd as (_&Hd&_). cbn [snd] in Hleast. rewrite (instant_after_eq c delay _ Hclock Hd).
    unfold modify. rewrite publish_availability_eq. intros [= <-].
    eapply rests_scheduled; [done|done|apply announcement_quiet|]. cbn in *. lia.
Qed.

Lemma rests_heartbeat s s' :
  inv s → gateway (St.bridge s) ≠ None → heartbeat s = (s', Ok tt) → rests s s'.
Proof.
  intros Hs Hg. unfold heartbeat, mbind, M_bind, gets, gateway_state.
  destruct (gateway (St.bridge s)) as [g|] eqn:Eg; [|done]. set (s1 := St.mk _ _).
  assert (inv s1) as Hs1.
  { eapply inv_online; [done|by rewrite Eg|done|apply (inv_data _ _ _ Hs)]. }
  assert (extends (.≠ Action.StartSetup) (St.history s) (St.history s1)) as Hq by by apply extends_snoc.
  destruct (state_result _ _) as [x|e|]; [| |done].
  - intros [= <-]. apply rests_online; [done|]. cbn. by rewrite Eg.
  - intros Hf. apply rests_gateway_failed in Hf as [Hh Hi]; [|done|by cbn; rewrite Eg].
    split; [by etransitivity|]. intros Hi'. destruct (Hi Hi') as [[[Hn _] _]|Hn]; [cbn in Hn; congruence|].
    right. etransitivity; [|exact Hn]. pose proof (now_mono (St.history s) [Action.GatewayState g]). cbn. lia.
Qed.

Lemma rests_waited s : rests s (waited s).
Proof. split; [by apply extends_snoc|]. by left. Qed.

(** Every step but the timer's rests. *)
Lemma rests_step s event s' :
  inv s → step s event s' → event_wf event → event ≠ BridgeEvent.ReconnectTimer → rests s s'.
Proof.
  intros Hs Hstep Hw Hne. inversion Hstep as [? ? ? He Hh]; subst.
  assert (has_gateway (St.bridge s) = true → gateway (St.bridge s) ≠ None) as Hgw.
  { unfold has_gateway. by destruct (gateway _). }
  destruct event as [result|result|event| | |]; cbn [handle enabled] in *.
  - by eapply rests_mqtt_result.
  - by eapply rests_setup_result.
  - rewrite (inv_events _ _ _ Hs) in He. apply Hgw in He.
    destruct event as [[r|r|id|m|m]| |]; cbn in Hh; try (by eapply rests_gateway_failed);
      try (injection Hh as <-; by apply rests_commanding).
    by eapply rests_commands, Hh; [|apply commands_response].
  - done.
  - eapply rests_heartbeat; auto.
  - eapply rests_commands, Hh; [done|apply commands_refresh].
Qed.

(** ** Successive set-ups *)

(** A delay lies between every two set-ups of a history, and, while the timer runs, between every
    set-up and the deadline. *)
Definition spaced (d : Duration) (h : list Action.t) : Prop :=
  ∀ h1 h2 h3, h = h1 ++ Action.StartSetup :: h2 ++ Action.StartSetup :: h3 →
  now h1 + d ≤ now (h1 ++ Action.StartSetup :: h2).

Definition awaits (d : Duration) (s : St.t) : Prop :=
  idle (St.bridge s) → ∀ h1 h2, St.history s = h1 ++ Action.StartSetup :: h2 →
  now h1 + d ≤ next_reconnect (St.bridge s).

(** A history that grows without a set-up has its set-ups where they were. *)
Lemma extends_setup h h' h1 t :
  extends (.≠ Action.StartSetup) h h' → h' = h1 ++ Action.StartSetup :: t →
  ∃ u, h = h1 ++ Action.StartSetup :: u ∧ extends (.≠ Action.StartSetup) u t.
Proof.
  intros (v & -> & Hv) (k & [[-> Hk]|[-> ->]])%app_eq_app.
  - destruct k as [|a k]; simplify_eq/=.
    + rewrite Forall_cons in Hv. by destruct Hv.
    + exists k. split; [done|]. by exists v.
  - rewrite Forall_app, Forall_cons in Hv. by destruct Hv as (_&[]&_).
Qed.

Lemma spaced_rests s s' :
  rests s s' → spaced (shortest_delay c) (St.history s) → awaits (shortest_delay c) s →
  spaced (shortest_delay c) (St.history s') ∧ awaits (shortest_delay c) s'.
Proof.
  intros [Hh Hi] Hsp Haw. split.
  - intros h1 h2 h3 Heq. destruct (extends_setup _ _ _ _ Hh Heq) as (u & Hu & Ht).
    destruct (extends_setup _ _ _ _ Ht eq_refl) as (u' & -> & _). by eapply Hsp.
  - intros Hidle h1 h2 Heq. destruct (extends_setup _ _ _ _ Hh Heq) as (u & Hu & _).
    destruct (Hi Hidle) as [[Hwas ->]|Hd]; [by eapply Haw|]. etransitivity; [|exact Hd].
    pose proof (now_mono h1 (Action.StartSetup :: u)). rewrite Hu. lia.
Qed.

Lemma spaced_start s s' :
  due s BridgeEvent.ReconnectTimer = true → step s BridgeEvent.ReconnectTimer s' →
  spaced (shortest_delay c) (St.history s) → awaits (shortest_delay c) s →
  spaced (shortest_delay c) (St.history s') ∧ awaits (shortest_delay c) s'.
Proof.
  intros Hdue%Z.leb_le Hstep Hsp Haw. inversion Hstep as [? ? ? He Hh]; subst.
  injection Hh as <-. cbn in He. apply andb_true_iff in He as [Hg Hset].
  assert (idle (St.bridge s)) as Hidle.
  { unfold has_gateway in Hg. split; [by destruct (gateway _)|by destruct (setup _)]. }
  split; [|by intros [_ ?]]. cbn [St.history]. intros h1 h2 h3 Heq.
  destruct h3 as [|a h3 _] using rev_ind.
  - rewrite app_comm_cons, app_assoc in Heq. apply app_inj_2 in Heq as [Heq _]; [|done].
    rewrite <- Heq. etransitivity; [|exact Hdue]. by eapply Haw.
  - rewrite !app_comm_cons, !app_assoc in Heq. apply app_inj_2 in Heq as [Heq _]; [|done].
    apply (Hsp h1 h2 h3). rewrite Heq. by rewrite <- app_assoc.
Qed.

Lemma spaced_timed b s :
  inv (St.mk b []) → timed (St.mk b []) s →
  inv s ∧ spaced (shortest_delay c) (St.history s) ∧ awaits (shortest_delay c) s.
Proof.
  intros Hb. induction 1 as [|s _ (Hs&Hsp&Haw)|s event s' _ (Hs&Hsp&Haw) Hw Hdue Hstep].
  { split; [done|]. by split; [intros [] ? ? ?|intros _ [] ? ?]. }
  { split; [by apply inv_waited|]. by apply (spaced_rests s); [apply rests_waited|..]. }
  split.
  - inversion Hstep as [? ? ? He Hh]; subst.
    destruct (handle_settles c l event s Hs Hclock He Hw) as (s'' & Heq & Hinv).
    rewrite Hh in Heq. by injection Heq as ->.
  - assert (event = BridgeEvent.ReconnectTimer ∨ event ≠ BridgeEvent.ReconnectTimer) as [->|Hne]
      by (destruct event; first [by left|by right]).
    { by apply (spaced_start s). }
    by apply (spaced_rests s); [eapply rests_step|..].
Qed.
End facts.

Section spacing.
Context `{E : Environment} `{L : !Lawful E} `{C : !MonotoneClock E}.

(** C13: the bridge never hammers the gateway. In every run whose reconnect timer only fires after
    its deadline, however long the loop waits for its events, whatever else happens and however
    set-ups, connections and reboots end, with a broker or without: between the starts of any two
    set-ups lies at least the shorter of the minimal reconnect delay and the delay after a reboot;
    and while the timer runs its deadline is at least that much after the start of the last
    set-up. *)
Theorem setups_spaced (config : VeluxMqttBridgeConfig.t) (s : St.t) :
  timed_running config s →
  let d := shortest_delay (VeluxMqttBridgeConfig.validate config).1 in
  (∀ h1 h2 h3, St.history s = h1 ++ Action.StartSetup :: h2 ++ Action.StartSetup :: h3 →
     now h1 + d ≤ now (h1 ++ Action.StartSetup :: h2))
  ∧ (gateway (St.bridge s) = None → setup (St.bridge s) = false →
     ∀ h1 h2, St.history s = h1 ++ Action.StartSetup :: h2 →
     now h1 + d ≤ next_reconnect (St.bridge s)).
Proof.
  intros (Hd & Hclock & read & start & b & o & t & Hnew & Ht).
  destruct (bridge_new_inv _ _ _ _ _ _ Hnew Hd) as [_ Hinv].
  rewrite (new_config _ _ _ _ _ _ Hnew) in Hinv.
  destruct (spaced_timed _ _ Hclock b s Hinv Ht) as (_ & Hsp & Haw). cbv zeta.
  split; [exact Hsp|]. intros Hg Hset. by apply Haw.
Qed.
End spacing.

(** ** A run whose first set-up fails, on a clock that advances with every action *)
Definition ticking : Environment := {|
  call_returns _ _ := true;
  publish_result := @publish_result quiet;
  disconnect_result := @disconnect_result quiet;
  send_result := @send_result quiet;
  state_result := @state_result quiet;
  shutdown_result := @shutdown_result quiet;
  now h := from_secs (Z.min (40 * Z.of_nat (length h)) 4000);
  instant_max := @instant_max quiet;
  random := @random quiet;
  to_vec := @to_vec quiet;
  to_value := @to_value quiet;
  value_to_string := @value_to_string quiet;
  package := @package quiet
|}.

Lemma ticking_lawful : Lawful ticking.
Proof. destruct quiet_lawful. by split. Qed.

Lemma ticking_monotone : MonotoneClock ticking.
Proof. split. intros h t. cbn. rewrite length_app. unfold from_secs. lia. Qed.

(** The broker is down: between the failure and the next attempt the loop only waits. *)
Definition retry_events : list (option BridgeEvent.t) :=
  [Some BridgeEvent.ReconnectTimer;
   Some (BridgeEvent.SetupFinished (Err BridgeError.GatewayOffline)); None;
   Some BridgeEvent.ReconnectTimer].

(** Runs the handlers of a sequence of due events; [None] is to wait. *)
Fixpoint after_timed `{Environment} (events : list (option BridgeEvent.t)) (s : St.t) : option St.t :=
  match events with
  | [] => Some s
  | None :: events => after_timed events (waited s)
  | Some event :: events =>
      if enabled (St.bridge s) event && due s event then
        match handle event s with (s, Ok _) => after_timed events s | _ => None end
      else None
  end.

Lemma after_timed_sound `{Environment} events start s s' :
  timed start s → Forall (λ event, if event is Some event then event_wf event else True) events →
  after_timed events s = Some s' → timed start s'.
Proof.
  intros Hr Hw. revert s Hr. induction Hw as [|[event|] events Hw _ IH]; intros s Hr H'; simpl in H'.
  - by injection H' as <-.
  - destruct (enabled _ _) eqn:He, (due _ _) eqn:Hd; [|done..]. simpl in H'.
    destruct (handle event s) as [s1 [[]|e|]] eqn:Hh; [|done..].
    apply (IH s1); [|done]. eapply timed_step; [done..|]. by constructor.
  - apply (IH (waited s)); [by apply timed_wait|done].
Qed.

Definition retried : St.t :=
  default (St.mk sample_bridge []) (@after_timed ticking retry_events (St.mk sample_bridge [])).

Lemma retried_timed : @timed_running ticking sample_bridge_config retried.
Proof.
  split; [by repeat split; apply Z.leb_le; vm_compute|]. split.
  { intros h. cbn [now ticking]. unfold from_secs.
    change (longest_delay _) with 75000000000. change instant_max with 9223372036854775807000000000. lia. }
  exists (λ _, Err ""), 0, sample_bridge. do 2 eexists. split; [vm_compute; reflexivity|].
  eapply (after_timed_sound retry_events); [apply timed_start|by repeat constructor|].
  vm_compute. reflexivity.
Qed.

(** The second set-up starts 80 seconds after the first. *)
Lemma setups_spaced_witness :
  mqtt_connected (St.bridge retried) = false
  ∧ St.history retried = [Action.StartSetup; Action.Wait; Action.StartSetup]
  ∧ @now ticking [] + from_secs 1 ≤ @now ticking [Action.StartSetup; Action.Wait].
Proof.
  split; [vm_compute; reflexivity|]. split; [vm_compute; reflexivity|].
  refine (proj1 (@setups_spaced ticking ticking_lawful ticking_monotone sample_bridge_config retried
    retried_timed) [] [_] [] _).
  vm_compute. reflexivity.
Defined.
