(* ===== verification/BridgeSnapshot.v ===== *)
(** * What the broker retains after a snapshot

    An abstract specification of the bridge towards its subscribers: the [mirror] of a bridge is
    what each topic below the base should retain. A complete snapshot makes the broker's store
    equal to the mirror, whatever it retained before. *)

From S2P Require Import Prelude RustStd RustText CommandIds Error Types Frame Command CommandLayout.
From S2P Require Import ResponseTypes Connection Client VeluxNode NodeFacts.
From S2P Require Import Mqtt MqttFacts Broker HassDiscovery HassFacts Bridge BridgeLogic BridgeFacts.
Import Bridge.

(** ** The mirror *)
Section mirror.
Context `{E : Environment}.

Definition json (value : Json.t) : option (list Z) :=
  match to_vec value with Ok payload => Some payload | _ => None end.

Definition controllable (b : Bridge.t) (id : NodeId.t) : option VeluxNode.t :=
  node ← cache b !! id; if VeluxNode.is_controllable node then Some node else None.

(** The payload a topic should retain while a gateway is connected; [None] for the topics the
    bridge has nothing to say about: those of unknown nodes and groups, and the commands. *)
Definition mirror_online (b : Bridge.t) (x : Topic.t) : option (list Z) :=
  match x with
  | Topic.State => Some (bytes_of ONLINE_PAYLOAD)
  | Topic.Nodes => json (Json.Array (Json.Number ∘ NodeId.get <$> sorted_keys (cache b)))
  | Topic.Groups =>
      json (Json.Array (Json.Number ∘ GroupId.get ∘ GroupInformation.group_id <$> groups_of (groups b)))
  | Topic.NodeInfo id => node ← cache b !! id; json (NodeMetadata.to_json (NodeMetadata.from node))
  | Topic.NodeStatus id =>
      node ← controllable b id; json (snapshot_to_json (VeluxNode.snapshot node))
  | Topic.NodeState id =>
      node ← controllable b id; Some (bytes_of (cover_state_label (VeluxNode.state node)))
  | Topic.NodePosition id =>
      node ← controllable b id;
      Some (bytes_of (TopicLayout.percent_text (mqtt_open_percent <$> VeluxNode.current_position node)))
  | Topic.NodeTarget id =>
      node ← controllable b id;
      Some (bytes_of (TopicLayout.percent_text (mqtt_open_percent <$> VeluxNode.target_position node)))
  | Topic.GroupInfo id =>
      group ← groups b !! id; json (GroupMetadata.to_json (GroupMetadata.from group))
  | Topic.GatewayReboot | Topic.NodeCommand _ | Topic.GroupCommand _ => None
  end.

(** Without a gateway only the availability is claimed. *)
Definition mirror (b : Bridge.t) (x : Topic.t) : option (list Z) :=
  if has_gateway b then mirror_online b x
  else match x with Topic.State => Some (bytes_of OFFLINE_PAYLOAD) | _ => None end.

(** ** Handlers that publish the mirror *)

(** No publication was refused. *)
Definition accepted_all (t : list Action.t) : Prop :=
  Forall (λ a, if a is Action.Publish _ false then False else True) t.

Lemma accepted_all_forallb t :
  forallb (λ a, if a is Action.Publish _ false then false else true) t = true → accepted_all t.
Proof.
  unfold accepted_all. rewrite forallb_forall, Forall_forall. intros Ht a Ha%list_elem_of_In%Ht.
  by destruct a as [? []| | | | | |].
Qed.

(** What the broker was handed and accepted *)
Definition handed (p : MqttPublication.t) : Action.t := Action.Publish p true.

Lemma delivered_handed ps : delivered (handed <$> ps) = ps.
Proof. induction ps as [|p ps IH]; [done|]. cbn. f_equal. exact IH. Qed.

(** The values the bridge serializes are maps with string keys, for which [serde_json] does not
    fail. *)
Class Serializing : Prop := {
  vec_serialized j : ∃ payload, to_vec j = Ok payload;
  value_serialized j : ∃ value, to_value j = Ok value
}.

Section emits.
Context `{!Serializing} (b0 : Bridge.t).

Local Abbreviation place x := (Topic.render (topics b0) x) (only parsing).

(** A publication the mirror allows: on a topic below the base, the mirror's payload, or anything
    where the mirror says nothing; or on a topic of the discovery. *)
Definition allowed (p : MqttPublication.t) : Prop :=
  (∃ x, Topic.wf x ∧ MqttPublication.topic p = place x
        ∧ match mirror b0 x with
          | Some payload => p = MqttPublication.retain (place x) payload
          | None => True
          end)
  ∨ last (split slash (MqttPublication.topic p)) = Some "config".

(** Unless a publication is refused, [m] returns, publishes nothing but what is allowed, and
    publishes all of [R]. *)
Definition emits {A} (R : MqttPublication.t → Prop) (m : M A) : Prop :=
  ∀ s, same_bridge b0 (St.bridge s) →
    same_bridge b0 (St.bridge (m s).1)
    ∧ ∃ t, St.history (m s).1 = St.history s ++ t
           ∧ (accepted_all t → ∃ a ps, (m s).2 = Ok a ∧ t = handed <$> ps
                                       ∧ Forall allowed ps ∧ ∀ p, R p → p ∈ ps).

Lemma emits_ret {A} (a : A) : emits (λ _, False) (mret a).
Proof.
  intros s Hb. split; [done|]. exists []. rewrite app_nil_r. split; [done|]. intros _.
  by exists a, [].
Qed.

Lemma emits_weaken {A} (R R' : MqttPublication.t → Prop) (m : M A) :
  emits R m → (∀ p, R' p → R p) → emits R' m.
Proof.
  intros Hm HR s Hb. destruct (Hm s Hb) as (?&t&?&Ht). split; [done|]. exists t. split; [done|].
  intros Ha. destruct (Ht Ha) as (a&ps&?&?&?&?). exists a, ps. split_and!; auto.
Qed.

Lemma emits_bind {A B} R1 R2 (m : M A) (f : A → M B) :
  emits R1 m → (∀ a, emits R2 (f a)) → emits (λ p, R1 p ∨ R2 p) (m ≫= f).
Proof.
  intros Hm Hf s Hb. destruct (Hm s Hb) as (Hb1&t&Hh&Ht). unfold mbind, M_bind.
  destruct (m s) as [s1 r]. cbn [fst snd] in *. destruct r as [a|e|].
  2,3: split; [done|]; exists t; split; [done|]; by intros (?&?&?&_)%Ht.
  destruct (Hf a s1 Hb1) as (Hb2&t'&Hh'&Ht'). split; [done|]. exists (t ++ t').
  rewrite app_assoc, <- Hh. split; [done|]. intros [Ha Ha']%Forall_app.
  destruct (Ht Ha) as (?&ps&_&->&?&?), (Ht' Ha') as (b&ps'&?&->&?&?). exists b, (ps ++ ps').
  rewrite fmap_app. split_and!; [done|done|by apply Forall_app|].
  intros p [?|?]; apply elem_of_app; auto.
Qed.

(** A first part that has nothing to publish *)
Lemma emits_then {A B} R (m : M A) (f : A → M B) :
  emits (λ _, False) m → (∀ a, emits R (f a)) → emits R (m ≫= f).
Proof. intros Hm Hf. eapply emits_weaken; [by apply emits_bind|]. intros p Hp. right. exact Hp. Qed.

Lemma emits_logged R m : emits R m → emits R (logged m).
Proof.
  intros Hm s Hb. destruct (Hm s Hb) as (?&t&?&Ht). unfold logged. destruct (m s) as [s' r].
  cbn [fst snd] in *. split; [done|]. exists t. split; [done|]. intros Ha.
  destruct (Ht Ha) as (a&ps&->&?). by exists tt, ps.
Qed.

Lemma emits_gets_bind {A B} R (f : Bridge.t → A) (k : A → M B) :
  (∀ b, same_bridge b0 b → emits R (k (f b))) → emits R (gets f ≫= k).
Proof. intros Hk s Hb. exact (Hk _ Hb s Hb). Qed.

Lemma emits_lift_bind {E' A B} R (wrap : E' → BridgeError.t) (r : outcome E' A) (k : A → M B) :
  (∃ a, r = Ok a) → (∀ a, r = Ok a → emits R (k a)) → emits R (lift wrap r ≫= k).
Proof. intros [a ->] Hk s Hb. exact (Hk a eq_refl s Hb). Qed.

Lemma emits_publish p : allowed p → emits (λ q, q = p) (mqtt_publish p).
Proof.
  intros Hp s Hb. split; [done|]. eexists. split; [done|]. unfold mqtt_publish. cbn.
  destruct (publish_result _ p); intros Ha; [|by inversion_clear Ha..].
  exists tt, [p]. split_and!; [done|done|by constructor|]. intros q ->. by left.
Qed.

Lemma emits_for_each {A} (l : list A) (R : A → MqttPublication.t → Prop) (f : A → M unit) :
  (∀ a, a ∈ l → emits (R a) (f a)) → emits (λ p, ∃ a, a ∈ l ∧ R a p) (for_each l f).
Proof.
  induction l as [|a l IH]; intros Hf; cbn [for_each].
  - eapply emits_weaken; [apply emits_ret|]. intros p (a & Ha & _). by apply elem_of_nil in Ha.
  - eapply emits_weaken.
    + apply emits_bind; [apply Hf; by left|intros _; apply IH]. intros b Hb. apply Hf. by right.
    + intros p (b & [->|Hb]%elem_of_cons & Hp); [by left|]. right. by exists b.
Qed.

Lemma emits_all ps : Forall allowed ps → emits (λ q, q ∈ ps) (mqtt_publish_all ps).
Proof.
  intros Hps. rewrite Forall_forall in Hps. eapply emits_weaken.
  - apply (emits_for_each ps (λ p q, q = p)). intros p Hp. by apply emits_publish, Hps.
  - intros q Hq. by exists q.
Qed.

(** *** The publications of a snapshot *)
Context (Hdata : data_wf b0) (Honline : has_gateway b0 = true).

Lemma mirror_eq x : mirror b0 x = mirror_online b0 x.
Proof. unfold mirror. by rewrite Honline. Qed.

Lemma allowed_mirror x payload :
  Topic.wf x → mirror b0 x = Some payload → allowed (MqttPublication.retain (place x) payload).
Proof. intros ? Hm. left. exists x. by rewrite Hm. Qed.

Lemma serialized value :
  ∃ payload, TopicLayout.serialize_json to_vec value = Ok payload ∧ json value = Some payload.
Proof.
  destruct (vec_serialized value) as [payload Hp]. exists payload.
  unfold TopicLayout.serialize_json, json. by rewrite Hp.
Qed.

Lemma emits_mirror x payload :
  Topic.wf x → mirror b0 x = Some payload →
  emits (λ p, p = MqttPublication.retain (place x) payload)
    (mqtt_publish (MqttPublication.retain (place x) payload)).
Proof. intros. by apply emits_publish, allowed_mirror. Qed.

(** What the topic [x] requires: the mirror's payload, if there is one. *)
Definition required (x : Topic.t) (p : MqttPublication.t) : Prop :=
  ∃ payload, mirror b0 x = Some payload ∧ p = MqttPublication.retain (place x) payload.

Lemma emits_json x value (k : list Z → MqttPublication.t) m :
  Topic.wf x → mirror_online b0 x = json value →
  (∀ payload, k payload = MqttPublication.retain (place x) payload) →
  m = (p ← lift BridgeError.Mqtt (payload ← TopicLayout.serialize_json to_vec value; Ok (k payload));
       mqtt_publish p) →
  emits (required x) m.
Proof.
  intros Hx Hm Hk ->. destruct (serialized value) as (payload & Hp & Hj).
  rewrite <- mirror_eq, Hj in Hm. rewrite Hp. apply emits_lift_bind; [by eexists|].
  intros p [= <-]. rewrite Hk. eapply emits_weaken; [by apply emits_mirror|].
  intros q (payload' & Hq & ->). congruence.
Qed.

Lemma emits_node_inventory : emits (required Topic.Nodes) publish_node_inventory.
Proof. apply emits_gets_bind. intros b ->. by eapply (emits_json Topic.Nodes). Qed.

Lemma emits_group_inventory : emits (required Topic.Groups) publish_group_inventory.
Proof. apply emits_gets_bind. intros b ->. by eapply (emits_json Topic.Groups). Qed.

Lemma cached_node id node :
  cache b0 !! id = Some node → VeluxNode.id node = id ∧ is_u8 (NodeId.get id).
Proof. destruct Hdata as (Hc&_). intros Hn. destruct (Hc _ _ Hn) as [<- Hwf]. split; [done|]. apply Hwf. Qed.

Lemma emits_info id node :
  cache b0 !! id = Some node → emits (required (Topic.NodeInfo id)) (publish_info node).
Proof.
  intros Hn. destruct (cached_node id node Hn) as [Hid Hu]. apply emits_gets_bind. intros b ->.
  eapply (emits_json (Topic.NodeInfo id)); [done| | |done].
  - simpl. by rewrite Hn.
  - intros payload. simpl. by rewrite Hid.
Qed.

Lemma emits_group_info id group :
  groups b0 !! id = Some group → emits (required (Topic.GroupInfo id)) (publish_group_info group).
Proof.
  intros Hn. destruct Hdata as (_&Hg&_). destruct (Hg _ _ Hn) as [Hid Hwf].
  assert (is_u8 (GroupId.get id)) by (rewrite <- Hid; destruct group; apply Hwf).
  apply emits_gets_bind. intros b ->.
  eapply (emits_json (Topic.GroupInfo id)); [done| | |done].
  - simpl. by rewrite Hn.
  - intros payload. simpl. by rewrite Hid.
Qed.

Definition status_topics (id : NodeId.t) : list Topic.t :=
  [Topic.NodeStatus id; Topic.NodeState id; Topic.NodePosition id; Topic.NodeTarget id].

Lemma emits_status id node :
  cache b0 !! id = Some node → VeluxNode.is_controllable node = true →
  emits (λ p, ∃ x, x ∈ status_topics id ∧ required x p) (publish_status node).
Proof.
  intros Hn Hc. destruct (cached_node id node Hn) as [Hid Hu]. apply emits_gets_bind. intros b ->.
  apply emits_lift_bind.
  { destruct (vec_serialized (snapshot_to_json (VeluxNode.snapshot node))) as [payload Hp].
    eexists. apply status_publications_Ok. by exists payload. }
  intros ps (payload & Hp & ->)%status_publications_Ok.
  assert (controllable b0 id = Some node) as Hctl.
  { unfold controllable. rewrite Hn. simpl. by rewrite Hc. }
  assert (json (snapshot_to_json (VeluxNode.snapshot node)) = Some payload) as Hj.
  { unfold json. by rewrite Hp. }
  cbv zeta. rewrite Hid. eapply emits_weaken; [apply emits_all|].
  - repeat apply Forall_cons_2; [|..|done];
      [apply (allowed_mirror (Topic.NodeStatus id))|apply (allowed_mirror (Topic.NodeState id))
      |apply (allowed_mirror (Topic.NodePosition id))|apply (allowed_mirror (Topic.NodeTarget id))];
      try done; rewrite mirror_eq; simpl; by rewrite Hctl.
  - intros p (x & Hx & payload' & Hm & ->). unfold status_topics in Hx.
    repeat (apply elem_of_cons in Hx as [->|Hx];
            [rewrite mirror_eq in Hm; simpl in Hm; rewrite Hctl in Hm; simpl in Hm; set_solver|]).
    by apply elem_of_nil in Hx.
Qed.

(** *** The discovery stays off the topics below the base *)
Lemma last_config a : last (split slash (a +:+ "/config")) = Some "config".
Proof.
  change (a +:+ "/config") with (a +:+ "/" +:+ "config"). rewrite split_below. apply last_snoc.
Qed.

Lemma config_topic_last d uid :
  last (split slash (HomeAssistantDiscovery.config_topic d uid)) = Some "config".
Proof. unfold HomeAssistantDiscovery.config_topic. rewrite !string_app_assoc. apply last_config. Qed.

Lemma device_topic_last d :
  last (split slash (HomeAssistantDiscovery.device_topic d)) = Some "config".
Proof. unfold HomeAssistantDiscovery.device_topic. rewrite !string_app_assoc. apply last_config. Qed.

Lemma discovery_allowed d ts nodes gs d' ps :
  HomeAssistantDiscovery.publications to_vec to_value value_to_string package d ts nodes gs
    = (d', Ok ps) → Forall allowed ps.
Proof.
  intros (_ & payload & removal & _ & Hremoval & ->)%publish_Ok.
  assert (∀ (f : string → MqttPublication.t) uids,
    (∀ t, MqttPublication.topic (f t) = t) →
    Forall allowed (f <$> (HomeAssistantDiscovery.config_topic d <$> uids))) as Hlegacy.
  { intros f uids Hf. rewrite !Forall_fmap. apply Forall_true. intros uid. right.
    cbn. rewrite Hf. apply config_topic_last. }
  rewrite !Forall_app. split_and!; [by apply Hlegacy| | |by apply Hlegacy].
  - eapply Forall_impl; [done|]. intros p [Ht _]. right. rewrite Ht. apply device_topic_last.
  - apply Forall_singleton. right. apply device_topic_last.
Qed.

Lemma discovery_serialized d ts nodes gs :
  ∃ ps, (HomeAssistantDiscovery.publications to_vec to_value value_to_string package d ts nodes gs).2
        = Ok ps.
Proof.
  unfold HomeAssistantDiscovery.publications. set (cmps := HomeAssistantDiscovery.components _ _ _ _).
  destruct (vec_serialized (DeviceDiscovery.to_json (HomeAssistantDiscovery.discovery package d ts cmps)))
    as [payload Hv].
  destruct (value_serialized (DeviceDiscovery.to_json (HomeAssistantDiscovery.discovery package d ts cmps)))
    as [value Hw].
  rewrite Hv, Hw. repeat case_bool_decide; by eexists.
Qed.

Lemma emits_modify R f : (∀ b, same_bridge b (f b)) → (∀ p, ¬ R p) → emits R (modify f).
Proof.
  intros Hf HR s Hb. split; [by etransitivity; [|apply Hf]|]. exists []. rewrite app_nil_r.
  split; [done|]. intros _. exists tt, []. split_and!; [done..|]. by intros p ?%HR.
Qed.

Lemma emits_hass_discovery : emits (λ _, False) publish_hass_discovery.
Proof.
  apply emits_gets_bind. intros b Hb. change (Datatypes.id b) with b.
  destruct (mqtt_connected b); [|apply emits_ret].
  destruct (discovery b) as [d|]; [|apply emits_ret].
  pose proof (discovery_serialized d (topics b) (nodes_of (cache b)) (groups_of (groups b))) as Hser.
  destruct (HomeAssistantDiscovery.publications _ _ _ _ _ _ _ _) as [d' r] eqn:Hpub.
  apply emits_lift_bind; [done|]. intros ps ->. eapply emits_weaken.
  - apply emits_bind; [apply emits_all; by eapply discovery_allowed|]. intros _.
    apply (emits_modify (λ _, False)); [|naive_solver]. intros b'. by destruct b'.
  - by intros p [].
Qed.

(** *** The complete snapshot *)
Lemma elem_of_nodes_of node : node ∈ nodes_of (cache b0) ↔ cache b0 !! VeluxNode.id node = Some node.
Proof.
  unfold nodes_of. rewrite list_elem_of_omap. split.
  - intros (id & _ & Hn). destruct (cached_node id node Hn) as [<- _]. done.
  - intros Hn. exists (VeluxNode.id node). split; [|done]. apply elem_of_sorted_keys. by eexists.
Qed.

Lemma elem_of_groups_of group :
  group ∈ groups_of (groups b0) ↔ groups b0 !! GroupInformation.group_id group = Some group.
Proof.
  destruct Hdata as (_&Hg&_). unfold groups_of. rewrite list_elem_of_omap. split.
  - intros (id & _ & Hn). by destruct (Hg _ _ Hn) as [<- _].
  - intros Hn. exists (GroupInformation.group_id group). split; [|done].
    rewrite sorting.merge_sort_Permutation, list_elem_of_fmap.
    exists (GroupInformation.group_id group, group). split; [done|]. by apply elem_of_map_to_list.
Qed.

Definition node_required (node : VeluxNode.t) (p : MqttPublication.t) : Prop :=
  required (Topic.NodeInfo (VeluxNode.id node)) p
  ∨ ∃ x, x ∈ status_topics (VeluxNode.id node) ∧ VeluxNode.is_controllable node = true ∧ required x p.

Lemma emits_node node :
  cache b0 !! VeluxNode.id node = Some node →
  emits (node_required node)
    (_ ← publish_info node;
     if VeluxNode.is_controllable node then publish_status node else mret tt).
Proof.
  intros Hn. eapply emits_weaken.
  - apply emits_bind; [by apply emits_info|]. intros _.
    instantiate (1 := λ p, ∃ x, x ∈ status_topics (VeluxNode.id node)
                                ∧ VeluxNode.is_controllable node = true ∧ required x p).
    destruct (VeluxNode.is_controllable node) eqn:Hc.
    + eapply emits_weaken; [by apply emits_status|]. intros p (x & ? & _ & ?). by exists x.
    + eapply emits_weaken; [apply emits_ret|]. by intros p (x & _ & ? & _).
  - intros p [?|?]; [left; done|right; done].
Qed.

Lemma status_required id x p :
  x ∈ status_topics id → required x p → ∃ node, controllable b0 id = Some node.
Proof.
  intros Hx (payload & Hm & _). rewrite mirror_eq in Hm. unfold status_topics in Hx.
  repeat (apply elem_of_cons in Hx as [->|Hx];
          [simpl in Hm; destruct (controllable b0 id); [by eexists|done]|]).
  by apply elem_of_nil in Hx.
Qed.

Lemma controllable_Some id node :
  controllable b0 id = Some node → cache b0 !! id = Some node ∧ VeluxNode.is_controllable node = true.
Proof.
  unfold controllable. destruct (cache b0 !! id) as [n|]; [|done]. simpl.
  destruct (VeluxNode.is_controllable n) eqn:Hc; [|done]. by intros [= <-].
Qed.

(** Everything the mirror requires is published by one part of the snapshot. *)
Lemma required_node id x p :
  x ∈ Topic.NodeInfo id :: status_topics id → required x p →
  ∃ node, node ∈ nodes_of (cache b0) ∧ node_required node p.
Proof.
  intros [->|Hx]%elem_of_cons Hp.
  - pose proof Hp as (payload & Hm & _). rewrite mirror_eq in Hm. simpl in Hm.
    destruct (cache b0 !! id) as [node|] eqn:Hn; [|done].
    destruct (cached_node id node Hn) as [<- _]. exists node.
    split; [by apply elem_of_nodes_of|by left].
  - destruct (status_required id x p Hx Hp) as [node [Hn Hc]%controllable_Some].
    destruct (cached_node id node Hn) as [<- _]. exists node.
    split; [by apply elem_of_nodes_of|]. right. by exists x.
Qed.

Lemma required_group id p :
  required (Topic.GroupInfo id) p →
  ∃ group, group ∈ groups_of (groups b0)
           ∧ required (Topic.GroupInfo (GroupInformation.group_id group)) p.
Proof.
  intros (payload & Hm & ->). rewrite mirror_eq in Hm. simpl in Hm. destruct (groups b0 !! id) as [group|] eqn:Hn; [|done].
  destruct Hdata as (_&Hg&_). destruct (Hg _ _ Hn) as [<- _]. exists group.
  split; [by apply elem_of_groups_of|]. exists payload. split; [|done].
  rewrite mirror_eq. simpl. by rewrite Hn.
Qed.

(** A snapshot between its two announcements *)
Definition snapshot_data : M unit :=
  _ ← publish_node_inventory;
  _ ← publish_group_inventory;
  nodes ← gets (λ b, nodes_of (cache b));
  _ ← for_each nodes (λ node,
        _ ← publish_info node;
        if VeluxNode.is_controllable node then publish_status node else mret tt);
  groups ← gets (λ b, groups_of (groups b));
  _ ← for_each groups publish_group_info;
  publish_hass_discovery.

Definition announce (online : bool) : M unit :=
  mqtt_publish (TopicLayout.availability_publication (topics b0) online).

Lemma bind_assoc {A B C} (m : M A) (f : A → M B) (g : B → M C) s :
  ((m ≫= f) ≫= g) s = (m ≫= λ a, f a ≫= g) s.
Proof. unfold mbind, M_bind. by destruct (m s) as [? []]. Qed.

Lemma bind_ext {A B} (m : M A) (f g : A → M B) s :
  (∀ a s, f a s = g a s) → (m ≫= f) s = (m ≫= g) s.
Proof. intros Hfg. unfold mbind, M_bind. by destruct (m s) as [? []]. Qed.

Lemma snapshot_eq s :
  topics (St.bridge s) = topics b0 →
  publish_complete_snapshot s = (_ ← announce false; _ ← snapshot_data; announce true) s.
Proof.
  intros Ht. unfold publish_complete_snapshot, announce. rewrite <- Ht.
  change ((gets id ≫= ?k) s) with (k (St.bridge s) s). cbv beta.
  apply bind_ext. intros _ s1. unfold snapshot_data.
  repeat (rewrite bind_assoc; apply bind_ext; intros ? ?). done.
Qed.

Definition data_topic (x : Topic.t) : Prop := x ≠ Topic.State.

Lemma emits_snapshot_data : emits (λ p, ∃ x, data_topic x ∧ required x p) snapshot_data.
Proof.
  apply (emits_weaken (λ p,
    required Topic.Nodes p
    ∨ (required Topic.Groups p
    ∨ ((∃ node, node ∈ nodes_of (cache b0) ∧ node_required node p)
    ∨ ((∃ group, group ∈ groups_of (groups b0)
                 ∧ required (Topic.GroupInfo (GroupInformation.group_id group)) p)
    ∨ False))))).
  - apply emits_bind; [apply emits_node_inventory|intros _].
    apply emits_bind; [apply emits_group_inventory|intros _].
    apply emits_gets_bind. intros b1 ->.
    apply emits_bind.
    { apply emits_for_each. intros node Hnode%elem_of_nodes_of. by apply emits_node. }
    intros _. apply emits_gets_bind. intros b2 ->. apply emits_bind.
    { apply emits_for_each. intros group Hgroup%elem_of_groups_of. by apply emits_group_info. }
    intros _. apply emits_hass_discovery.
  - intros p (x & Hx & Hp). destruct x.
    1: by destruct Hx.
    1: { left. done. }
    1: { right; left. done. }
    1, 7, 9: by destruct Hp as (? & Hm & _); rewrite mirror_eq in Hm.
    6: { do 3 right; left. by eapply required_group. }
    all: do 2 right; left; eapply (required_node id); [|done]; unfold status_topics; set_solver.
Qed.
End emits.

(** ** What the broker retains *)
Lemma last_config_not_rendered l x : Topic.wf x → last (split slash (Topic.render l x)) ≠ Some "config".
Proof. intros Hx. rewrite split_render by done. destruct x; simpl; by rewrite last_app. Qed.

(** Publications the mirror allows leave what the mirror requires, once it is there. *)
Lemma allowed_unique b p x payload :
  allowed b p → Topic.wf x → mirror b x = Some payload →
  MqttPublication.topic p = Topic.render (topics b) x →
  p = MqttPublication.retain (Topic.render (topics b) x) payload.
Proof.
  intros [(y & Hy & Ht & Hp)|Hc] Hx Hm Htopic.
  - rewrite Htopic in Ht. apply render_inj in Ht as ->; [|done..]. by rewrite Hm in Hp.
  - rewrite Htopic in Hc. by apply last_config_not_rendered in Hc.
Qed.

Lemma mirrored_publications b ps store x payload :
  Forall (allowed b) ps → Topic.wf x → mirror b x = Some payload →
  MqttPublication.retain (Topic.render (topics b) x) payload ∈ ps
    ∨ store !! Topic.render (topics b) x = Broker.stored payload →
  Broker.deliver_all store ps !! Topic.render (topics b) x = Broker.stored payload.
Proof.
  intros Hps Hx Hm Hin. rewrite Forall_forall in Hps.
  apply Broker.deliver_all_settled; [naive_solver|]. intros p Hp Ht. by eapply allowed_unique; eauto.
Qed.

Definition online_publication (b : Bridge.t) (online : bool) : MqttPublication.t :=
  TopicLayout.availability_publication (topics b) online.

(** What a snapshot publishes *)
Lemma snapshot_publishes `{!Serializing} s :
  data_wf (St.bridge s) → has_gateway (St.bridge s) = true →
  let b := St.bridge s in
  let (s', r) := publish_complete_snapshot s in
  same_bridge b (St.bridge s')
  ∧ ∃ t, St.history s' = St.history s ++ t
         ∧ (accepted_all t → r = Ok tt
              ∧ ∃ ps, t = handed (online_publication b false)
                          :: (handed <$> ps) ++ [handed (online_publication b true)]
                      ∧ Forall (allowed b) (ps ++ [online_publication b true])
                      ∧ ∀ x p, required b x p → p ∈ ps ++ [online_publication b true]).
Proof.
  intros Hd Hg. cbv zeta. set (b := St.bridge s) in *. rewrite (snapshot_eq b) by done.
  assert (allowed b (online_publication b true)) as Hon.
  { apply (allowed_mirror b Topic.State); [done|]. by rewrite mirror_eq. }
  pose proof (emits_snapshot_data b Hd Hg) as Hdata. unfold mbind, M_bind at 1, announce at 1.
  unfold mqtt_publish at 1. fold (online_publication b false). set (s1 := St.mk _ _).
  destruct (Hdata s1) as (Hb & t & Hh & Ht); [by destruct (St.bridge s)|].
  set (first := Action.Publish (online_publication b false) _) in *.
  destruct (publish_result (St.history s) (online_publication b false)) eqn:Hfirst.
  2,3: split; [done|]; exists [first]; split; [done|]; intros Ha; by inversion Ha.
  unfold mbind, M_bind. destruct (snapshot_data s1) as [s2 r]. cbn [fst snd] in *.
  assert (St.history s2 = St.history s ++ first :: t) as Hh2.
  { rewrite Hh. cbn. by rewrite <- app_assoc. }
  destruct r as [[]|e|].
  2,3: split; [done|]; exists (first :: t); split; [done|]; intros Ha; inversion Ha; by destruct Ht as (?&?&?&_).
  unfold announce, mqtt_publish. fold (online_publication b true).
  split; [done|]. eexists (first :: t ++ [Action.Publish (online_publication b true) _]).
  cbn [St.history]. rewrite Hh2, <- app_assoc. split; [reflexivity|]. intros Ha.
  inversion Ha as [|? ? _ Ha']. apply Forall_app in Ha' as [Hat Hlast].
  destruct (Ht Hat) as (_ & ps & _ & -> & Hps & HR).
  destruct (publish_result _ (online_publication b true)); [|by inversion Hlast..].
  split; [done|]. exists ps. split_and!; [done|by apply Forall_app; split; [|constructor]|].
  intros y p Hp. apply elem_of_app. destruct y.
  1: { right. destruct Hp as (payload & Hm & ->). rewrite mirror_eq in Hm by done.
       injection Hm as <-. by left. }
  all: left; apply HR; eexists; by split; [|exact Hp].
Qed.

(** C23: a complete snapshot, published while a gateway is connected, first announces "offline", then
    publishes the data, then announces "online". Unless the broker refuses a publication it
    succeeds, and then the broker retains on every topic of the bridge exactly what the mirror of
    the bridge's state says, whatever it retained before: the inventories, the metadata of every
    node and group, and the status of every controllable node. *)
Theorem snapshot_retained `{!Serializing} (s : St.t) :
  data_wf (St.bridge s) → has_gateway (St.bridge s) = true →
  let b := St.bridge s in
  let (s', r) := publish_complete_snapshot s in
  ∃ t, St.history s' = St.history s ++ t
       ∧ (accepted_all t →
            r = Ok tt
            ∧ (∃ ps, t = handed (online_publication b false)
                         :: (handed <$> ps) ++ [handed (online_publication b true)])
            ∧ ∀ store x payload,
                Topic.wf x → mirror b x = Some payload →
                Broker.deliver_all store (delivered t) !! Topic.render (topics b) x
                = Broker.stored payload).
Proof.
  intros Hd Hg. pose proof (snapshot_publishes s Hd Hg) as Hsnap. cbv zeta in *.
  destruct (publish_complete_snapshot s) as [s' r]. destruct Hsnap as (_ & t & Hh & Ht).
  exists t. split; [done|]. intros Ha. destruct (Ht Ha) as (-> & ps & -> & Hps & HR).
  split_and!; [done|by exists ps|]. intros store x payload Hx Hm.
  replace (delivered _) with ([online_publication (St.bridge s) false]
    ++ (ps ++ [online_publication (St.bridge s) true])).
  - rewrite Broker.deliver_all_app. apply mirrored_publications; [done..|].
    left. apply (HR x). by exists payload.
  - change (handed (online_publication (St.bridge s) false) :: ?l)
      with (([online_publication (St.bridge s) false] ≫= λ p, [handed p]) ++ l).
    rewrite !delivered_app, delivered_handed. done.
Qed.
End mirror.

Lemma quiet_serializing : @Serializing quiet.
Proof. split; intros j; by eexists. Qed.

(** The sample's snapshot: a node and a group. *)
Lemma snapshot_retained_witness :
  let s := sample_state sample_events in
  ∃ t, St.history (@publish_complete_snapshot quiet s).1 = St.history s ++ t
       ∧ Broker.deliver_all ∅ (delivered t) !! "home/velux/velux_node_4/state"
         = Some (bytes_of (cover_state_label (VeluxNode.state sample_node))).
Proof.
  cbv zeta.
  destruct (@bridge_invariant quiet quiet_lawful sample_bridge_config _ sample_online)
    as (Hc & Hgs & Hse & _).
  pose proof (@snapshot_retained quiet quiet_serializing (sample_state sample_events)
    (conj Hc (conj Hgs Hse)) ltac:(vm_compute; reflexivity)) as H.
  assert (forallb (λ a, if a is Action.Publish _ false then false else true)
            (drop (length (St.history (sample_state sample_events)))
               (St.history (@publish_complete_snapshot quiet (sample_state sample_events)).1)) = true)
    as Hacc by (vm_compute; reflexivity).
  assert (@mirror quiet (St.bridge (sample_state sample_events)) (Topic.NodeState (NodeId.new 4))
          = Some (bytes_of (cover_state_label (VeluxNode.state sample_node)))) as Hm
    by (vm_compute; reflexivity).
  cbv zeta in H. destruct (@publish_complete_snapshot quiet (sample_state sample_events)) as [s' r].
  destruct H as (t & Hh & Ht). exists t. split; [exact Hh|].
  cbn [fst] in Hacc. rewrite Hh, drop_app_length in Hacc.
  destruct Ht as (_ & _ & Hstore); [by apply accepted_all_forallb|].
  pose proof (Hstore ∅ (Topic.NodeState (NodeId.new 4)) _ ltac:(by apply (bool_decide_unpack _)) Hm) as Hfinal.
  assert (topics (St.bridge (sample_state sample_events)) = TopicLayout.mk "home/velux") as Htopics
    by (vm_compute; reflexivity).
  rewrite Htopics in Hfinal. exact Hfinal.
Defined.
