(* ===== verification/BridgeMirror.v ===== *)
(** * The broker mirrors the bridge

    The refinement of the bridge by its abstract specification: in every state of the loop, what
    the broker retains on a live topic is what the [mirror] of the bridge's state says, as long as
    the broker refused nothing. Every handler that changes what a topic should retain publishes
    it. *)

From S2P Require Import Prelude RustStd RustText CommandIds Error Types Frame Command CommandLayout.
From S2P Require Import ResponseTypes ResponseFacts Connection Client VeluxNode NodeFacts.
From S2P Require Import Mqtt MqttFacts Broker HassDiscovery HassFacts Bridge BridgeLogic BridgeFacts.
From S2P Require Import BridgeCommands BridgeSnapshot.
Import Bridge.

Section settled.
Context `{E : Environment} `{L : !Lawful E} `{S : !Serializing}.

(** ** Publications that settle the broker *)

(** The metadata of a node carries the time of its last status, and is published again when the
    metadata changes; every other topic of the mirror follows the state at once. *)
Definition live (x : Topic.t) : bool := if x is Topic.NodeInfo _ then false else true.

(** After the publications [ps], every live topic retains what the mirror says. *)
Definition settled (b : Bridge.t) (ps : list MqttPublication.t) : Prop :=
  ∀ store x payload, Topic.wf x → live x = true → mirror b x = Some payload →
    Broker.deliver_all store ps !! Topic.render (topics b) x = Broker.stored payload.

Definition mirrored (s : St.t) : Prop :=
  mqtt_connected (St.bridge s) = true → settled (St.bridge s) (delivered (St.history s)).

(** The payloads a bridge's state calls for *)
Lemma mirror_same b b' x :
  has_gateway b' = has_gateway b → cache b' = cache b → groups b' = groups b → mirror b' x = mirror b x.
Proof. intros Hg Hc Hgs. unfold mirror, mirror_online, controllable. by rewrite Hg, Hc, Hgs. Qed.

Lemma settled_same b b' ps :
  topics b' = topics b → (∀ x, mirror b' x = mirror b x) → settled b ps → settled b' ps.
Proof. intros Ht Hm Hs store x payload ? ?. rewrite Hm, Ht. by apply Hs. Qed.

Lemma settled_update b b' ps qs :
  settled b ps → topics b' = topics b → Forall (allowed b') qs →
  (∀ x, live x = true → mirror b' x = mirror b x ∨ ∀ p, required b' x p → p ∈ qs) →
  settled b' (ps ++ qs).
Proof.
  intros Hs Ht Hqs Hcover store x payload Hx Hl Hm. rewrite Broker.deliver_all_app.
  apply mirrored_publications; [done..|]. destruct (Hcover x Hl) as [Heq|HR].
  - right. rewrite Ht. apply Hs; [done..|]. by rewrite <- Heq.
  - left. apply HR. by exists payload.
Qed.

(** ** Transitions that keep the mirror *)
Definition mirrors (s s' : St.t) : Prop :=
  ∃ t, St.history s' = St.history s ++ t ∧ (accepted_all t → mirrored s → mirrored s').

Global Instance mirrors_preorder : PreOrder mirrors.
Proof.
  split; [intros s; exists []; by rewrite app_nil_r|].
  intros s s' s'' (t & Ht & Hm) (t' & Ht' & Hm'). exists (t ++ t').
  rewrite app_assoc, <- Ht. split; [done|]. intros [? ?]%Forall_app. auto.
Qed.

(** A transition that neither publishes nor changes what the mirror looks at. *)
Definition silent (s s' : St.t) : Prop :=
  ∃ ids t, St.bridge s' = set_session_ids ids (St.bridge s) ∧ St.history s' = St.history s ++ t
           ∧ delivered t = [].

Lemma silent_refl s : silent s s.
Proof.
  exists (session_ids (St.bridge s)), []. rewrite app_nil_r. split_and!; [|done..].
  by destruct (St.bridge s).
Qed.

Lemma waited_silent s : silent s (waited s).
Proof.
  exists (session_ids (St.bridge s)), [Action.Wait]. split_and!; [|done..].
  cbn. by destruct (St.bridge s).
Qed.

Lemma silent_mirrored s s' : silent s s' → mirrored s → mirrored s'.
Proof.
  intros (ids & t & Hb & Hh & Ht) Hm. unfold mirrored in *.
  rewrite Hb, Hh, delivered_app, Ht, app_nil_r. intros Hc.
  by apply (settled_same (St.bridge s)); [|intros x; by apply mirror_same|apply Hm].
Qed.

Lemma silent_mirrors s s' : silent s s' → mirrors s s'.
Proof.
  intros Hs. pose proof Hs as (_ & t & _ & Hh & _). exists t. split; [done|]. intros _.
  by apply silent_mirrored.
Qed.

Lemma refused_silent s g q result : refused s g q result → silent s result.1.
Proof. intros (_&_&Hb&Hh). by eexists _, [Action.Send g q]. Qed.

(** An update followed by publications that cover it; actions of the gateway may come before. *)
Lemma mirrors_update {A} (b : Bridge.t) t R (m : M A) s :
  topics b = topics (St.bridge s) → mqtt_connected b = mqtt_connected (St.bridge s) →
  delivered t = [] → emits b R m →
  (∀ x, live x = true → mirror b x = mirror (St.bridge s) x ∨ ∀ p, required b x p → R p) →
  mirrors s (m (St.mk b (St.history s ++ t))).1.
Proof.
  intros Ht Hc Hd Hm HR. destruct (Hm (St.mk b (St.history s ++ t))) as (Hb & t' & Hh & Hps); [done|].
  exists (t ++ t'). rewrite app_assoc. split; [done|]. intros [_ Ha]%Forall_app Hs Hc'.
  destruct (Hps Ha) as (a & ps & _ & -> & Hall & Hin).
  cbn [St.history] in Hh. rewrite Hh, !delivered_app, delivered_handed, Hd, app_nil_r.
  apply (settled_same b); [by rewrite Hb|intros x; by apply mirror_same; rewrite Hb|].
  apply (settled_update (St.bridge s)); [|done..|].
  - apply Hs. by rewrite <- Hc, <- Hc', Hb.
  - intros x Hl. destruct (HR x Hl); auto.
Qed.

(** Without a broker nothing is claimed. *)
Lemma mirrors_offline s s' t :
  mqtt_connected (St.bridge s') = false → St.history s' = St.history s ++ t → mirrors s s'.
Proof. intros Hc Hh. exists t. split; [done|]. intros _ _ Hc'. congruence. Qed.

(** ** Handlers that keep the mirror *)
Definition online (s : St.t) : Prop := holds_data s ∧ has_gateway (St.bridge s) = true.

Lemma mirrors_commands {A} (m : M A) :
  tame holds_data commanding m → (∀ s, online s → mirrors s (m s).1) → tame online mirrors m.
Proof.
  intros Hm Hs s [Hd Hg]. destruct (Hm s Hd) as (Hd'&[Hl _]&Hp). split_and!; [|by apply Hs|done].
  split; [done|]. unfold has_gateway in *. unfold link in Hl. injection Hl as _ _ -> _ _ _ _ _. done.
Qed.

Lemma online_gateway s : online s → ∃ g, gateway (St.bridge s) = Some g.
Proof. unfold online, has_gateway. destruct (gateway _) as [g|]; [by exists g|by intros []]. Qed.

Lemma sent_silent s g q ids : silent s (sent s g q ids).
Proof. by exists ids, [Action.Send g q]. Qed.

Lemma request_status_silent s id : online s → silent s (request_status id s).1.
Proof.
  intros Hs. destruct (online_gateway s Hs) as [g Hg]. destruct Hs as [(_&_&Hse) _].
  pose proof (request_status_cases s g id Hse Hg) as Hc. cbv zeta in Hc.
  destruct (SessionIdAllocator.allocate _) as [ids [sid|e|]].
  2,3: rewrite Hc; apply silent_refl.
  destruct (accepts_status _); [rewrite Hc; apply sent_silent|by eapply refused_silent].
Qed.

Lemma group_command_silent s gid action : online s → silent s (execute_group_command gid action s).1.
Proof.
  intros Hs. destruct (online_gateway s Hs) as [g Hg]. destruct Hs as [(_&_&Hse) _].
  destruct (groups (St.bridge s) !! gid) as [group|] eqn:Hn.
  2: { unfold execute_group_command, mbind, M_bind, gets. rewrite Hn. apply silent_refl. }
  pose proof (product_group_cases s g gid action group Hse Hg Hn) as Hc. cbv zeta in Hc.
  destruct (SessionIdAllocator.allocate _) as [ids [sid|e|]].
  2,3: rewrite Hc; apply silent_refl.
  destruct (accepts_group _ _); [rewrite Hc; apply sent_silent|by eapply refused_silent].
Qed.

Lemma mirrors_refresh : tame online mirrors refresh_stationary_nodes.
Proof.
  unfold refresh_stationary_nodes. apply tame_bind; [apply _|apply tame_gets, _|intros c].
  apply tame_for_each; [apply _|intros id]. apply tame_logged, mirrors_commands.
  - apply commands_request_status.
  - intros s Hs. by apply silent_mirrors, request_status_silent.
Qed.

(** *** One node changes *)

(** The mirror after one node changed *)
Lemma mirror_node b c' id x :
  let b' := set_cache c' b in
  (∀ other, other ≠ id → c' !! other = cache b !! other) →
  (x = Topic.Nodes → dom c' = dom (cache b)) →
  x ∉ Topic.NodeInfo id :: status_topics id → mirror b' x = mirror b x.
Proof.
  intros b' Hother Hdom Hx. unfold mirror, mirror_online, controllable, b'. cbn.
  unfold has_gateway. cbn. destruct (gateway b); [|done].
  destruct x as [| | | |i|i|i|i|i|i|i|i]; try done.
  1: by rewrite (sorted_keys_dom _ _ (Hdom eq_refl)).
  all: rewrite Hother; [done|]; intros ->; apply Hx; unfold status_topics; set_solver.
Qed.

(** What publishing the status of a node covers *)
Lemma status_covers b c' id :
  let b' := set_cache c' b in
  (∀ other, other ≠ id → c' !! other = cache b !! other) → dom c' = dom (cache b) →
  ∀ x, live x = true →
    mirror b' x = mirror b x ∨ ∀ p, required b' x p → ∃ y, y ∈ status_topics id ∧ required b' y p.
Proof.
  intros b' Hother Hdom x Hl. destruct (decide (x ∈ status_topics id)) as [Hx|Hx].
  - right. intros p Hp. by exists x.
  - left. apply (mirror_node b c' id); [done..|]. intros [->|?]%elem_of_cons; done.
Qed.

Lemma emits_node_status b id node :
  data_wf b → has_gateway b = true → mqtt_connected b = true →
  cache b !! id = Some node → VeluxNode.is_controllable node = true →
  emits b (λ p, ∃ x, x ∈ status_topics id ∧ required b x p) (publish_node_status id).
Proof.
  intros Hd Hg Hc Hn Hctl. apply emits_gets_bind. intros b' ->. cbn. rewrite Hc, Hn. cbn.
  exact (emits_status b Hd Hg id node Hn Hctl).
Qed.

Lemma answered_keeps node sid e r :
  keeps node (answered node sid e r)
  ∧ VeluxNode.is_controllable (answered node sid e r) = VeluxNode.is_controllable node.
Proof.
  unfold answered. destruct r as [[]| |]; try (split; [apply keeps_refl|done]).
  case_decide; [|split; [apply keeps_refl|done]]. split; [apply mark_command_accepted_keeps|done].
Qed.

Lemma mirrors_cover_command s id action :
  online s → mirrors s (execute_cover_command id action s).1.
Proof.
  intros Hs. destruct (online_gateway s Hs) as [g Hg].
  destruct Hs as [(Hcache&Hgroups&Hse) Hon].
  destruct (cache (St.bridge s) !! id) as [node|] eqn:Hn.
  2: { apply silent_mirrors. unfold execute_cover_command, mbind, M_bind, gets. rewrite Hn.
       apply silent_refl. }
  destruct (VeluxNode.resolve_action node action) as [e|err|] eqn:Hr.
  - pose proof (cover_command_unsupported s id action node e Hse Hn Hr) as Hun.
    destruct (VeluxNode.is_controllable node) eqn:Hctl.
    2: { apply silent_mirrors. destruct (execute_cover_command id action s) as [s' r].
         destruct (Hun eq_refl) as (_&Hh&_&Hb). eexists _, []. rewrite app_nil_r. by split_and!. }
    clear Hun. pose proof (cover_command_cases s g id action node e Hse Hg Hn Hr Hctl) as Hc.
    cbv zeta in Hc. destruct (SessionIdAllocator.allocate _) as [ids [sid|err|]] eqn:Ha.
    2,3: rewrite Hc; apply silent_mirrors, silent_refl.
    destruct (accepts_command _); [|by eapply silent_mirrors, refused_silent].
    rewrite Hc. clear Hc. set (node' := answered _ _ _ _).
    destruct (answered_keeps node sid e
      (send_result (St.history s) g (drive_request node sid e))) as [[Hid Hwf] Hctl'].
    fold node' in Hid, Hwf, Hctl'. destruct (Hcache _ _ Hn) as [Hid0 Hwf0].
    destruct (mqtt_connected (St.bridge s)) eqn:Hm.
    2: { match goal with |- mirrors _ (publish_node_status id ?s1).1 =>
           pose proof (publish_node_status_spec id s1) as Hp end.
         destruct (publish_node_status _ _) as [s' r]. destruct Hp as (_&_&Hp).
         destruct (Hp Hm) as [-> _]. by eapply mirrors_offline. }
    eapply mirrors_update; [done|done|done| |].
    + apply (emits_node_status _ _ node'); try done; [|apply lookup_insert_eq|congruence].
      split_and!; [|done|].
      * cbn. rewrite <- Hid0, <- Hid. apply cache_insert_wf; [done|]. auto.
      * pose proof (SessionIdAllocatorFacts.allocate_wf _ Hse) as Hw. by rewrite Ha in Hw.
    + apply (status_covers (set_session_ids ids (St.bridge s))).
      * intros other Hne. by rewrite lookup_insert_ne.
      * apply dom_insert_lookup_L. by eexists.
  - destruct (resolve_action_err _ _ _ Hr) as [-> ->].
    rewrite (cover_command_unknown s id node) by done.
    pose proof (request_status_silent s id) as Hq. destruct (request_status id s) as [s' r].
    apply silent_mirrors, Hq. by split.
  - by destruct (resolve_action_total node action).
Qed.

(** *** One group changes *)
Lemma mirror_group b gs' gid x :
  let b' := set_groups gs' b in
  (∀ other, other ≠ gid → gs' !! other = groups b !! other) →
  x ≠ Topic.Groups → x ≠ Topic.GroupInfo gid → mirror b' x = mirror b x.
Proof.
  intros b' Hother Hx Hx'. unfold mirror, mirror_online, controllable, b'. cbn.
  unfold has_gateway. cbn. destruct (gateway b); [|done].
  destruct x; try done. rewrite Hother; [done|]. by intros ->.
Qed.

(** Publishing the inventory and what is left of the group covers the change. *)
Lemma group_covers b gs' gid :
  let b' := set_groups gs' b in
  (∀ other, other ≠ gid → gs' !! other = groups b !! other) →
  ∀ x, mirror b' x = mirror b x
       ∨ ∀ p, required b' x p → required b' Topic.Groups p ∨ required b' (Topic.GroupInfo gid) p.
Proof.
  intros b' Hother x. destruct (decide (x = Topic.Groups)) as [->|Hx]; [right; by left|].
  destruct (decide (x = Topic.GroupInfo gid)) as [->|Hx']; [right; by right|].
  left. by apply (mirror_group b gs' gid).
Qed.

Lemma emits_clear_group b group :
  is_u8 (GroupId.get (GroupInformation.group_id group)) →
  groups b !! GroupInformation.group_id group = None →
  emits b (λ _, False) (clear_removed_groups [group]).
Proof.
  intros Hu Hn. eapply emits_weaken; [apply (emits_for_each b _ (λ _ _, False))|by intros p []].
  intros g ->%list_elem_of_singleton. apply emits_gets_bind. intros b' Hb'.
  apply emits_then.
  - eapply emits_weaken; [apply emits_all|by intros p []]. apply Forall_singleton. left.
    exists (Topic.GroupInfo (GroupInformation.group_id group)). split; [done|].
    split; [by rewrite Hb'|]. unfold mirror. destruct (has_gateway b); [|done]. cbn. by rewrite Hn.
  - intros _. destruct (discovery _) as [d|]; [|apply emits_ret].
    eapply emits_weaken; [apply emits_publish|by intros p []]. right. apply config_topic_last.
Qed.

Lemma group_update_removes gs r gid : group_update gs r = Some (inr gid) → is_Some (gs !! gid).
Proof.
  unfold group_update. destruct r; try discriminate.
  - destruct (GroupChange.change_type c =? 1); [by destruct (GroupChange.information c)|].
    destruct (_ =? 0); [|done]. destruct (gs !! GroupChange.group_id c) eqn:Hg; [|done].
    intros [= <-]. by eexists.
  - destruct (gs !! _) eqn:Hg; [|done]. intros [= <-]. by eexists.
Qed.

Lemma mirrors_group_response s r :
  online s → response_wf r → mirrors s (apply_group_response r s).1.
Proof.
  intros [(Hc&Hgs&Hse) Hon] Hr. unfold apply_group_response.
  change ((gets id ≫= ?k) s) with (k (St.bridge s) s). cbv beta.
  pose proof (group_update_wf (groups (St.bridge s)) r Hr) as Hu.
  destruct (group_update (groups (St.bridge s)) r) as [[g|gid]|] eqn:Heq; [| |done].
  - change ((modify ?f ≫= ?k) s) with (k tt (St.mk (f (St.bridge s)) (St.history s))). cbv beta.
    set (b' := set_groups _ _).
    assert (data_wf b') as Hd' by (split_and!; [done| |done]; by apply map_Forall_insert_2).
    destruct (mqtt_connected (St.bridge s)) eqn:Hm.
    2: { eapply (mirrors_offline _ _ []); [done|]. by rewrite app_nil_r. }
    rewrite <- (app_nil_r (St.history s)). eapply (mirrors_update b'); [done..| |].
    + apply emits_bind; [by apply emits_group_inventory|intros _]. apply emits_bind.
      * apply (emits_group_info b' Hd' Hon (GroupInformation.group_id g)). apply lookup_insert_eq.
      * intros _. apply emits_hass_discovery.
    + intros x _. destruct (group_covers (St.bridge s) (<[GroupInformation.group_id g:=g]>
        (groups (St.bridge s))) (GroupInformation.group_id g)) with x as [?|HR]; [|by left|].
      * intros other Hne. by rewrite lookup_insert_ne.
      * right. intros p Hp. destruct (HR p Hp); tauto.
  - change ((modify ?f ≫= ?k) s) with (k tt (St.mk (f (St.bridge s)) (St.history s))). cbv beta.
    set (b' := set_groups _ _).
    assert (data_wf b') as Hd' by (split_and!; [done| |done]; by apply map_Forall_delete).
    destruct (group_update_removes _ _ _ Heq) as [group Hgroup]. rewrite Hgroup.
    destruct (mqtt_connected (St.bridge s)) eqn:Hm.
    2: { eapply (mirrors_offline _ _ []); [done|]. by rewrite app_nil_r. }
    destruct (Hgs _ _ Hgroup) as [Hid Hwf].
    rewrite <- (app_nil_r (St.history s)). eapply (mirrors_update b'); [done..| |].
    + apply emits_bind; [by apply emits_group_inventory|intros _]. apply emits_bind.
      * apply emits_clear_group; [destruct group; apply Hwf|]. rewrite Hid. apply lookup_delete_eq.
      * intros _. apply emits_hass_discovery.
    + intros x _. destruct (group_covers (St.bridge s) (delete gid
        (groups (St.bridge s))) gid) with x as [?|HR]; [|by left|].
      * intros other Hne. by rewrite lookup_delete_ne.
      * right. intros p Hp. destruct (HR p Hp) as [?|(payload&Hmir&_)]; [by left|].
        rewrite mirror_eq in Hmir by done. cbn in Hmir. by rewrite lookup_delete_eq in Hmir.
Qed.

(** *** Responses *)

Definition node_added (before : gmap NodeId.t VeluxNode.t) (response : Response.t) : bool :=
  match response with
  | Response.NodeInformation i => bool_decide (before !! NodeInformation.node_id i = None)
  | _ => false
  end.

Definition metadata_changed (response : Response.t) : bool :=
  match response with
  | Response.NodeInformation _ | Response.NodeInformationChanged _ => true
  | _ => false
  end.

Definition publish_update (added metadata : bool) (id : NodeId.t) : M unit :=
  connected ← gets mqtt_connected;
  _ ← (if added && connected : bool then logged publish_node_inventory else mret tt);
  _ ← (if metadata then logged (publish_node_info id) else mret tt);
  _ ← (if metadata then logged publish_hass_discovery else mret tt);
  cache ← gets cache;
  if (match cache !! id with Some node => VeluxNode.is_controllable node | None => false end)
  then logged (publish_node_status id) else mret tt.

(** What [handle_response] does once sessions and groups are up to date *)
Definition update_node (response : Response.t) : M unit :=
  before ← gets cache;
  let (cache', changed) := VeluxNodeCache.apply_response before response in
  _ ← modify (set_cache cache');
  match changed with
  | None => mret tt
  | Some id => publish_update (node_added before response) (metadata_changed response) id
  end.

Lemma handle_response_parts r :
  handle_response r
  = (_ ← match r with Response.SessionFinished id => release_session id | _ => mret tt end;
     _ ← logged (apply_group_response r); update_node r).
Proof. reflexivity. Qed.

Lemma emits_update b added metadata id node :
  data_wf b → has_gateway b = true → mqtt_connected b = true → cache b !! id = Some node →
  emits b (λ p, (added = true ∧ required b Topic.Nodes p)
                ∨ ∃ x, x ∈ status_topics id ∧ required b x p) (publish_update added metadata id).
Proof.
  intros Hd Hg Hm Hn. apply emits_gets_bind. intros b' ->. cbn. rewrite Hm, andb_true_r.
  apply emits_bind.
  - destruct added; [|by eapply emits_weaken; [apply emits_ret|intros p []]].
    eapply emits_weaken; [by apply emits_logged, emits_node_inventory|by intros p []].
  - intros _. apply emits_then.
    + destruct metadata; [|apply emits_ret]. apply emits_logged.
      apply emits_gets_bind. intros b2 ->. cbn. rewrite Hm, Hn.
      eapply emits_weaken; [exact (emits_info b Hd Hg id node Hn)|by intros p []].
    + intros _. apply emits_then.
      * destruct metadata; [apply emits_logged, emits_hass_discovery|apply emits_ret].
      * intros _. apply emits_gets_bind. intros b2 ->. cbn. rewrite Hn.
        destruct (VeluxNode.is_controllable node) eqn:Hc; [by eapply emits_logged, emits_node_status|].
        eapply emits_weaken; [apply emits_ret|]. intros p (x & Hx & Hp).
        destruct (status_required b Hg id x p Hx Hp) as [n [Hn' Hc']%controllable_Some]. congruence.
Qed.

Lemma publishes_update added metadata id : tame always publishing (publish_update added metadata id).
Proof. unfold publish_update. destruct metadata; tame_split. Qed.

Lemma mirrors_update_node s r : online s → response_wf r → mirrors s (update_node r s).1.
Proof.
  intros [(Hc&Hgs&Hse) Hon] Hr. set (b := St.bridge s).
  pose proof (apply_response_reports _ r Hc Hr) as [Hnone Hsome].
  pose proof (apply_response_wf _ r Hc Hr) as Hc'. pose proof (apply_response_dom (cache b) r) as Hdom.
  fold b in Hc', Hnone, Hsome.
  unfold update_node. change ((gets cache ≫= ?k) s) with (k (cache b) s). cbv beta.
  assert (node_added (cache b) r = false →
    dom (VeluxNodeCache.apply_response (cache b) r).1 = dom (cache b)) as Hadd.
  { destruct r; try (intros _; exact Hdom). intros Hin%bool_decide_eq_false.
    rewrite Hdom. apply not_eq_None_Some in Hin. apply elem_of_dom in Hin. set_solver. }
  clear Hdom. revert Hadd. generalize (node_added (cache b) r) (metadata_changed r).
  intros added metadata Hadd.
  destruct (VeluxNodeCache.apply_response (cache b) r) as [c' [id|]]; cbn [fst snd] in *.
  2: { apply silent_mirrors. assert (c' = cache b) as -> by (by apply Hnone).
       exists (session_ids b), []. rewrite app_nil_r. cbn. by destruct s as [[]]. }
  destruct (Hsome id eq_refl) as [[node Hn] Hother].
  change ((modify (set_cache c') ≫= ?k) s)
    with (publish_update added metadata id (St.mk (set_cache c' b) (St.history s))).
  destruct (mqtt_connected b) eqn:Hm.
  2: { destruct (publishes_update added metadata id (St.mk (set_cache c' b) (St.history s)) I)
         as (_&[Hb (t&Hh&_)]&_). apply (mirrors_offline _ _ t); [by rewrite Hb|exact Hh]. }
  rewrite <- (app_nil_r (St.history s)). eapply mirrors_update; [done..| |].
  - apply (emits_update (set_cache c' b) added metadata id node); done.
  - intros x Hl. destruct (decide (x ∈ status_topics id)) as [Hx|Hx].
    { right. intros p Hp. right. by exists x. }
    assert (x ∉ Topic.NodeInfo id :: status_topics id) by (by intros [->|?]%elem_of_cons).
    destruct added; [destruct (decide (x = Topic.Nodes)) as [->|Hne]; [right; by left|]|].
    all: left; apply (mirror_node b c' id); auto; by intros ->.
Qed.

Lemma commands_update_node r : response_wf r → tame holds_data commanding (update_node r).
Proof.
  intros Hr. apply (tame_gets_bind _ _ cache_wf); [by intros s (?&_)|intros c Hc].
  pose proof (apply_response_wf c r Hc Hr) as Hc'.
  destruct (VeluxNodeCache.apply_response c r) as [c' changed].
  apply tame_bind; [apply _| |intros _; destruct changed].
  - apply commands_modify; [|done]. intros b (?&?&?). by split_and!.
  - apply commands_publishes, publishes_update.
  - apply tame_ret, _.
Qed.

Lemma mirrors_response r : response_wf r → tame online mirrors (handle_response r).
Proof.
  intros Hr. rewrite handle_response_parts.
  assert (∀ id, tame online mirrors (release_session id)) as Hrelease.
  { intros id. apply mirrors_commands; [apply commands_release|]. intros s _. apply silent_mirrors.
    eexists _, []. by rewrite app_nil_r. }
  apply tame_bind; [apply _|destruct r; first [apply Hrelease|apply tame_ret, _]|intros _].
  apply tame_bind; [apply _| |intros _].
  - apply tame_logged, mirrors_commands; [by apply commands_apply_group|].
    intros s Hs. by apply mirrors_group_response.
  - apply mirrors_commands; [by apply commands_update_node|]. intros s Hs. by apply mirrors_update_node.
Qed.

(** ** The loop *)

(** A snapshot settles the broker whatever was published before. *)
Lemma snapshot_settles s :
  data_wf (St.bridge s) → has_gateway (St.bridge s) = true →
  let s' := (logged publish_complete_snapshot s).1 in
  accepted_all (St.history s') → settled (St.bridge s') (delivered (St.history s')).
Proof.
  intros Hd Hg. pose proof (snapshot_publishes s Hd Hg) as Hsnap. unfold logged.
  destruct (publish_complete_snapshot s) as [s' r]. cbv zeta in *.
  destruct Hsnap as (Hb & t & Hh & Ht). cbn [fst]. rewrite Hh. intros [_ Ha]%Forall_app.
  destruct (Ht Ha) as (_ & ps & -> & Hall & HR).
  apply (settled_same (St.bridge s)); [by rewrite Hb|intros x; by apply mirror_same; rewrite Hb|].
  intros store x payload Hx _ Hm. rewrite delivered_app.
  change (handed ?p :: ?l) with ([handed p] ++ l).
  rewrite !delivered_app, delivered_handed, !Broker.deliver_all_app.
  rewrite <- Broker.deliver_all_app. apply mirrored_publications; [done..|].
  left. apply (HR x). by exists payload.
Qed.

(** Without a gateway the announcement is all there is. *)
Lemma announced_settles c l s :
  inv c l s → gateway (St.bridge s) = None → accepted_all (St.history s) → mirrored s.
Proof.
  intros Hs Hg Ha Hc store x payload Hx _ Hm.
  destruct (inv_announced _ _ _ Hs Hc Hg) as (h & acc & t & Hh & Ht).
  unfold mirror, has_gateway in Hm. rewrite Hg in Hm. destruct x; try done. injection Hm as <-.
  rewrite Hh, <- app_assoc in Ha. apply Forall_app in Ha as [_ Ha]. inversion Ha as [|? ? Hacc _].
  destruct acc; [|done]. rewrite Hh, !delivered_app, (delivered_setup t), app_nil_r by done.
  change (delivered [_]) with [TopicLayout.availability_publication l false].
  rewrite <- (inv_topics _ _ _ Hs), Broker.deliver_all_snoc. apply Broker.deliver_retain.
Qed.

Lemma tame_mirrored (m : M unit) s s' r :
  tame online mirrors m → online s → m s = (s', r) →
  accepted_all (St.history s') → mirrored s → mirrored s'.
Proof.
  intros Hm Hs Hrun Ha. destruct (Hm s Hs) as (_&(t&Hh&Ht)&_). rewrite Hrun in *. cbn [fst] in *.
  rewrite Hh in Ha. apply Forall_app in Ha as [_ Ha]. auto.
Qed.

Lemma mirrors_message s m s' c l :
  inv c l s → clock_fits c → handle_mqtt_message m s = (s', Ok tt) →
  has_gateway (St.bridge s') = true → accepted_all (St.history s') → mirrored s → mirrored s'.
Proof.
  intros Hs Hc Hh Hg' Ha. unfold handle_mqtt_message in Hh.
  change ((gets id ≫= ?k) s) with (k (St.bridge s) s) in Hh. cbv beta in Hh.
  destruct (TopicLayout.parse_command _ m) as [cmd|e|]; [|by injection Hh as <-|done].
  destruct (gateway (St.bridge s)) as [g|] eqn:Hg; [|by injection Hh as <-].
  assert (online s) as Hon.
  { split; [apply (inv_data _ _ _ Hs)|]. unfold has_gateway. by rewrite Hg. }
  destruct cmd as [cmd|cmd|].
  - eapply tame_mirrored; [|done..]. apply tame_logged, mirrors_commands; [apply commands_cover_command|].
    intros. by apply mirrors_cover_command.
  - eapply tame_mirrored; [|done..]. apply tame_logged, mirrors_commands; [apply commands_group_command|].
    intros. by apply silent_mirrors, group_command_silent.
  - exfalso. unfold logged in Hh. rewrite (execute_gateway_reboot_eq c l s g) in Hh by done.
    injection Hh as <- _. by cbn in Hg'.
Qed.

Lemma gateway_failed_no_mirror c l reason s s' :
  inv c l s → clock_fits c → gateway (St.bridge s) ≠ None →
  gateway_failed reason s = (s', Ok tt) → has_gateway (St.bridge s') = false.
Proof.
  intros Hs Hc Hg. rewrite (gateway_failed_eq c l reason s Hs Hc Hg). intros [= <-].
  unfold failed_state. by destruct (drawn_delay s).
Qed.

Lemma mirrors_heartbeat c l s s' :
  inv c l s → clock_fits c → online s → heartbeat s = (s', Ok tt) →
  has_gateway (St.bridge s') = true → mirrored s → mirrored s'.
Proof.
  intros Hs Hc Hon Hh Hg' Hm. destruct (online_gateway s Hon) as [g Hg].
  unfold heartbeat, mbind, M_bind, gets, gateway_state in Hh. rewrite Hg in Hh.
  set (s1 := St.mk _ _) in Hh. assert (silent s s1) as H1.
  { exists (session_ids (St.bridge s)), [Action.GatewayState g]. by destruct s as [[]]. }
  destruct (state_result _ _) as [x|e|]; [|exfalso|done].
  - injection Hh as <-. by apply (silent_mirrored s).
  - assert (inv c l s1) as Hs1.
    { eapply inv_online; [exact Hs|congruence|done|apply (inv_data _ _ _ Hs)]. }
    assert (gateway (St.bridge s1) ≠ None) as Hg1 by (cbn; congruence).
    pose proof (gateway_failed_no_mirror c l _ _ _ Hs1 Hc Hg1 Hh). congruence.
Qed.

Lemma mirrors_connected s s' c l :
  inv c l s → handle_mqtt_result (Ok MqttEvent.Connected) s = (s', Ok tt) →
  has_gateway (St.bridge s') = true → accepted_all (St.history s') → mirrored s'.
Proof.
  intros Hs Hh Hg' Ha. cbn [handle_mqtt_result] in Hh.
  change ((modify ?f ≫= ?k) s) with (k tt (St.mk (f (St.bridge s)) (St.history s))) in Hh. cbv beta in Hh.
  set (s1 := St.mk _ _) in Hh. change ((gets gateway ≫= ?k) s1) with (k (gateway (St.bridge s)) s1) in Hh.
  cbv beta in Hh. destruct (gateway (St.bridge s)) as [g|] eqn:Hg.
  - pose proof (snapshot_settles s1 (inv_data _ _ _ Hs)) as Hsnap. rewrite Hh in Hsnap.
    intros _. apply Hsnap; [|done]. unfold has_gateway. cbn. by rewrite Hg.
  - rewrite publish_availability_eq in Hh. injection Hh as <-. unfold has_gateway in Hg'. cbn in Hg'.
    by rewrite Hg in Hg'.
Qed.

Lemma mirrors_setup result s s' c l :
  inv c l s → setup (St.bridge s) = true → event_wf (BridgeEvent.SetupFinished result) →
  handle_setup_result result s = (s', Ok tt) → has_gateway (St.bridge s') = true →
  accepted_all (St.history s') → mirrored s'.
Proof.
  intros Hs Hset Hw Hh Hg' Ha. unfold handle_setup_result in Hh.
  change ((modify ?f ≫= ?k) s) with (k tt (St.mk (f (St.bridge s)) (St.history s))) in Hh. cbv beta in Hh.
  set (s1 := St.mk _ _) in Hh. destruct result as [p|e|]; [| |done].
  - change ((gets id ≫= ?k) s1) with (k (St.bridge s1) s1) in Hh. cbv beta zeta in Hh.
    change ((modify ?f ≫= ?k) s1) with (k tt (St.mk (f (St.bridge s1)) (St.history s1))) in Hh.
    cbv beta in Hh. set (s2 := St.mk _ _) in Hh. change (mqtt_connected (St.bridge s1)) with (mqtt_connected (St.bridge s2)) in Hh.
    destruct (mqtt_connected (St.bridge s2)) eqn:Hm.
    2: { injection Hh as <-. intros Hm'. congruence. }
    clear Hset Hs Hg'. unfold mbind, M_bind in Hh.
    destruct (tame_logged always publishing _ (publishes_clear_nodes
      (removed_nodes (cache (St.bridge s1)) (PreparedGateway.cache p))) s2 I) as (_&[Hb3 _]&_).
    destruct (logged (clear_removed_nodes _) s2) as [s3 [[]|e|]]; [|done..]. cbn [fst] in Hb3.
    destruct (tame_logged always publishing _ (publishes_clear_groups
      (removed_groups (groups (St.bridge s1)) (PreparedGateway.groups p))) s3 I) as (_&[Hb4 _]&_).
    destruct (logged (clear_removed_groups _) s3) as [s4 [[]|e|]]; [|done..]. cbn [fst] in Hb4.
    assert (same_bridge (St.bridge s2) (St.bridge s4)) as Hb by by transitivity (St.bridge s3).
    intros _. pose proof (snapshot_settles s4) as Hsnap. rewrite Hh in Hsnap. apply Hsnap; [|by rewrite Hb|done].
    rewrite Hb. destruct Hw as (?&?&?). by split_and!.
  - exfalso. revert Hg'. unfold mbind, M_bind at 1 in Hh. unfold next_delay at 1 in Hh.
    destruct (ReconnectBackoff.next_delay _ _) as [backoff delay]. unfold M_bind at 1 in Hh.
    unfold instant_after in Hh. destruct (_ <=? _); [|done]. unfold M_bind, modify in Hh.
    rewrite publish_availability_eq in Hh. injection Hh as <-. unfold has_gateway. cbn.
    by rewrite (inv_setup _ _ _ Hs Hset).
Qed.

Lemma step_mirrors c l s event s' :
  inv c l s → clock_fits c → step s event s' → event_wf event → has_gateway (St.bridge s') = true →
  accepted_all (St.history s') → mirrored s → mirrored s'.
Proof.
  intros Hs Hc Hstep Hw Hg' Ha Hm. inversion Hstep as [? ? ? He Hh]; subst.
  assert (has_gateway (St.bridge s) = true → online s) as Hon.
  { intros Hg. split; [apply (inv_data _ _ _ Hs)|done]. }
  destruct event as [result|result|event| | |]; cbn [handle enabled] in *.
  - destruct result as [[|m]|e|]; [by eapply mirrors_connected|by eapply mirrors_message| |done].
    injection Hh as <-. by intros [=].
  - by eapply mirrors_setup.
  - rewrite (inv_events _ _ _ Hs) in He. pose proof (Hon He) as Ho.
    assert (∀ reason, gateway_failed reason s = (s', Ok tt) → mirrored s') as Hfail.
    { intros reason Hf. exfalso. destruct (online_gateway s Ho) as [g Hg].
      pose proof (gateway_failed_no_mirror c l reason s s' Hs Hc). rewrite Hg in *. naive_solver congruence. }
    destruct event as [[r|r|id|m|m]| |]; cbn in Hh; try (by eapply Hfail); try (by injection Hh as <-).
    by eapply tame_mirrored; [by apply mirrors_response|..].
  - exfalso. injection Hh as <-. apply andb_true_iff in He as [He _]. cbn in Hg'.
    unfold has_gateway in *. cbn in *. by destruct (gateway _).
  - by eapply mirrors_heartbeat; auto.
  - eapply tame_mirrored; [apply mirrors_refresh|by apply Hon|done..].
Qed.

(** ** Histories grow *)
Definition grows {A} (m : M A) : Prop := ∀ s, ∃ t, St.history (m s).1 = St.history s ++ t.

Lemma grows_same {A} (m : M A) : (∀ s, St.history (m s).1 = St.history s) → grows m.
Proof. intros Hm s. exists []. by rewrite app_nil_r. Qed.

Lemma grows_bind {A B} (m : M A) (f : A → M B) : grows m → (∀ a, grows (f a)) → grows (m ≫= f).
Proof.
  intros Hm Hf s. destruct (Hm s) as [t Ht]. unfold mbind, M_bind.
  destruct (m s) as [s' [a|e|]]; cbn [fst] in *; [|by exists t..].
  destruct (Hf a s') as [t' ->]. exists (t ++ t'). by rewrite Ht, app_assoc.
Qed.

Lemma grows_logged m : grows m → grows (logged m).
Proof. intros Hm s. destruct (Hm s) as [t Ht]. exists t. unfold logged. by destruct (m s). Qed.

Lemma grows_for_each {A} (l : list A) f : (∀ a, grows (f a)) → grows (for_each l f).
Proof.
  intros Hf. induction l; cbn; [by apply grows_same|]. apply grows_bind; [done|by intros _].
Qed.

Lemma grows_snoc {A} (m : M A) : (∀ s, ∃ a, St.history (m s).1 = St.history s ++ [a]) → grows m.
Proof. intros Hm s. destruct (Hm s) as [a ->]. by eexists. Qed.

Lemma grows_publish p : grows (mqtt_publish p).
Proof. apply grows_snoc. intros s. by eexists. Qed.

Lemma grows_publishing {A} (m : M A) : tame always publishing m → grows m.
Proof. intros Hm s. destruct (Hm s I) as (_&[_ (t&->&_)]&_). by eexists. Qed.

Ltac grows_step :=
  first
    [ progress cbv zeta
    | apply grows_publishing; solve [eauto 2 with bridge]
    | apply grows_bind; [|intros ?]
    | apply grows_logged
    | apply grows_for_each; intros ?
    | apply grows_publish
    | apply grows_same; intros ?; reflexivity
    | apply grows_snoc; intros ?; by eexists
    | case_match ].
Ltac grows_split := repeat grows_step.

Lemma grows_next_delay : grows next_delay.
Proof. apply grows_same. intros s. unfold next_delay. by destruct (ReconnectBackoff.next_delay _ _). Qed.

Lemma grows_failed reason : grows (gateway_failed reason).
Proof. unfold gateway_failed, update_cache. repeat first [apply grows_next_delay|grows_step]. Qed.

Lemma grows_setup_result result : grows (handle_setup_result result).
Proof. unfold handle_setup_result. repeat first [apply grows_next_delay|grows_step]. Qed.

Lemma grows_heartbeat : grows heartbeat.
Proof. unfold heartbeat. repeat first [apply grows_failed|grows_step]. Qed.

Lemma grows_reboot : grows execute_gateway_reboot.
Proof. unfold execute_gateway_reboot, gateway_handle, ok_or_fail, update_cache. grows_split. Qed.

Lemma grows_connected : grows (handle_mqtt_result (Ok MqttEvent.Connected)).
Proof. cbn [handle_mqtt_result]. grows_split. Qed.

Lemma commands_grow {A} (m : M A) s :
  tame holds_data commanding m → holds_data s → ∃ t, St.history (m s).1 = St.history s ++ t.
Proof. intros Hm Hs. destruct (Hm s Hs) as (_&[_ (t&->&_)]&_). by exists t. Qed.

Lemma message_grows m s : holds_data s → ∃ t, St.history (handle_mqtt_message m s).1 = St.history s ++ t.
Proof.
  intros Hd. assert (∀ m', tame holds_data commanding m' →
    ∃ t, St.history (logged m' s).1 = St.history s ++ t) as Hm'.
  { intros m' ?. apply commands_grow; [by apply tame_logged|done]. }
  assert (∃ t, St.history s = St.history s ++ t) as Hsame by (exists []; by rewrite app_nil_r).
  unfold handle_mqtt_message. change ((gets id ≫= ?k) s) with (k (St.bridge s) s). cbv beta.
  destruct (TopicLayout.parse_command (topics (St.bridge s)) m) as [cmd|e|]; [|done..].
  destruct (gateway (St.bridge s)); [|done]. destruct cmd as [cmd|cmd|].
  - apply Hm', commands_cover_command.
  - apply Hm', commands_group_command.
  - apply grows_logged, grows_reboot.
Qed.

Lemma step_grows c l s event s' :
  inv c l s → step s event s' → event_wf event → ∃ t, St.history s' = St.history s ++ t.
Proof.
  intros Hs Hstep Hw. inversion Hstep as [? ? ? _ Hh]; subst.
  replace s' with (handle event s).1 by (by rewrite Hh). clear Hstep Hh.
  pose proof (inv_data _ _ _ Hs) as Hd.
  assert (∃ t, St.history s = St.history s ++ t) as Hsame by (exists []; by rewrite app_nil_r).
  destruct event as [result|result|event| | |]; cbn [handle].
  - destruct result as [[|m]|e|]; [|by apply message_grows|done..].
    apply grows_connected.
  - apply grows_setup_result.
  - destruct event as [[r|r|id|m|m]| |]; cbn; try apply grows_failed; try done.
    apply commands_grow; [by apply commands_response|done].
  - by eexists.
  - apply grows_heartbeat.
  - apply commands_grow; [apply commands_refresh|done].
Qed.

Lemma bridge_new_offline read start config b options mqtt_topics :
  Bridge.new read start config = Ok (b, options, mqtt_topics) → gateway b = None.
Proof.
  unfold Bridge.new. destruct (VeluxMqttBridgeConfig.validate config) as [c v].
  intros ([]&_&H)%outcome_bind_Ok. destruct (TopicLayout.new _); [|done..].
  destruct (MqttConnection.new _ _) as [[o t]| |]; [|done..]. by injection H as <- <- <-.
Qed.

Lemma reachable_mirrored c l start s :
  inv c l start → clock_fits c → gateway (St.bridge start) = None →
  reachable event_wf start s → accepted_all (St.history s) → mirrored s.
Proof.
  intros Hstart Hc Hg. induction 1 as [|s Hr IH|s event s' Hr IH Hw Hstep]; intros Ha.
  { by eapply announced_settles. }
  { apply (silent_mirrored s); [apply waited_silent|]. apply IH. by apply Forall_app in Ha as [? _]. }
  pose proof (inv_reachable _ _ _ _ Hstart Hc Hr) as Hs.
  assert (reachable event_wf start s') as Hr' by by eapply reachable_step.
  pose proof (inv_reachable _ _ _ _ Hstart Hc Hr') as Hs'.
  destruct (has_gateway (St.bridge s')) eqn:Hg'.
  - destruct (step_grows _ _ _ _ _ Hs Hstep Hw) as [t Ht].
    assert (mirrored s) as Hm by (apply IH; rewrite Ht in Ha; by apply Forall_app in Ha as [? _]).
    exact (step_mirrors c l s event s' Hs Hc Hstep Hw Hg' Ha Hm).
  - refine (announced_settles c l s' Hs' _ Ha). revert Hg'. unfold has_gateway.
    by destruct (gateway (St.bridge s')).
Qed.

Lemma running_mirrored (config : VeluxMqttBridgeConfig.t) (s : St.t) :
  running config s → accepted_all (St.history s) → mirrored s.
Proof.
  intros (Hd & Hc & read & start & b & o & t & Hnew & Hreach) Ha.
  destruct (bridge_new_inv _ _ _ _ _ _ Hnew Hd) as [_ Hinv].
  rewrite (new_config _ _ _ _ _ _ Hnew) in Hinv.
  apply (reachable_mirrored _ _ _ _ Hinv Hc); [|done..]. by eapply bridge_new_offline.
Qed.

(** C2: the bridge refines its mirror: in every state of the loop in which the broker is connected
    and has refused no publication, it retains on every live topic exactly what the mirror of the
    current state says, whatever it retained before. With a gateway these are "online", the
    inventories of nodes and groups, the status, state, position and target of every controllable
    node and the metadata of every group; without one, "offline". So no handler changes the state
    and forgets to publish, or publishes something stale. *)
Theorem broker_mirrors_bridge (config : VeluxMqttBridgeConfig.t) (s : St.t)
    (store : Broker.store) (x : Topic.t) (payload : list Z) :
  running config s → accepted_all (St.history s) → mqtt_connected (St.bridge s) = true →
  Topic.wf x → live x = true → mirror (St.bridge s) x = Some payload →
  Broker.deliver_all store (delivered (St.history s)) !! Topic.render (topics (St.bridge s)) x
  = Broker.stored payload.
Proof. intros Hrun Ha Hm. exact (running_mirrored config s Hrun Ha Hm store x payload). Qed.
End settled.

(** The sample bridge after a drive of its cover was accepted *)
Definition sample_drive : list BridgeEvent.t :=
  sample_events ++ [BridgeEvent.Mqtt (Ok (MqttEvent.Message
    (IncomingMessage.mk "home/velux/velux_node_4/cmnd/control" "OPEN" false)))].

Lemma broker_mirrors_bridge_witness :
  let s := sample_state sample_drive in
  Broker.deliver_all ∅ (delivered (St.history s)) !! "home/velux/velux_node_4/state"
  = Some (bytes_of "opening").
Proof.
  cbv zeta. assert (@running quiet sample_bridge_config (sample_state sample_drive)) as Hrun.
  { apply (sample_running sample_drive); [|vm_compute; reflexivity].
    apply Forall_app. split; [apply sample_events_wf|by repeat constructor]. }
  assert (topics (St.bridge (sample_state sample_drive)) = TopicLayout.mk "home/velux") as Htopics
    by (vm_compute; reflexivity).
  pose proof (@broker_mirrors_bridge quiet quiet_lawful quiet_serializing sample_bridge_config
    (sample_state sample_drive) ∅ (Topic.NodeState (NodeId.new 4)) (bytes_of "opening") Hrun
    ltac:(apply accepted_all_forallb; vm_compute; reflexivity) ltac:(vm_compute; reflexivity)
    ltac:(by apply (bool_decide_unpack _)) eq_refl ltac:(vm_compute; reflexivity)) as H.
  rewrite Htopics in H. exact H.
Defined.
