(* ===== verification/BridgeQueue.v ===== *)
(** * How much a handler publishes, and whether the channel holds it

    A handler hands its publications to the bounded channel of [MqttQueue], and nothing empties
    that channel before the handler returns: the event loop is polled by the same task. So what a
    handler publishes at most decides whether it can wait forever. *)

From stdpp Require Import sorting.
From S2P Require Import Prelude RustStd CommandIds Error Types Frame Command CommandLayout.
From S2P Require Import ResponseTypes ResponseFacts Connection Client Tls VeluxNode NodeFacts.
From S2P Require Import Mqtt MqttFacts Broker MqttQueue HassDiscovery HassFacts.
From S2P Require Import Bridge BridgeLogic BridgeFacts BridgeSnapshot.
Import Bridge.

(** ** What was handed to the broker, accepted or not *)
Definition publications (h : list Action.t) : list MqttPublication.t :=
  omap (λ a, if a is Action.Publish p _ then Some p else None) h.

Lemma publications_app h h' : publications (h ++ h') = publications h ++ publications h'.
Proof. apply omap_app. Qed.

(** ** Counting publications *)

(** [m], started with [P], ends with [Q] and publishes at most [k] times. *)
Definition costs {A} (P : Bridge.t → Prop) (k : nat) (Q : Bridge.t → Prop) (m : M A) : Prop :=
  ∀ s, P (St.bridge s) →
    Q (St.bridge (m s).1)
    ∧ ∃ t, St.history (m s).1 = St.history s ++ t ∧ (length (publications t) ≤ k)%nat.

Section costs.
Context (P Q : Bridge.t → Prop).

(** What publishes nothing and leaves the state alone *)
Lemma costs_pure {A} k (m : M A) : (∀ s, (m s).1 = s) → costs P k P m.
Proof.
  intros Hm s Hs. rewrite Hm. split; [done|]. exists []. rewrite app_nil_r. split; [done|cbn; lia].
Qed.

Lemma costs_modify f : (∀ b, P b → Q (f b)) → costs P 0 Q (modify f).
Proof. intros Hf s Hs. split; [by apply Hf|]. exists []. by rewrite app_nil_r. Qed.

Lemma costs_publish `{E : Environment} p : costs P 1 P (mqtt_publish p).
Proof. intros s Hs. split; [done|]. by eexists [_]. Qed.

Lemma costs_action {A} a (r : St.t → outcome BridgeError.t A) :
  publications [a] = [] → costs P 0 P (λ s, (St.mk (St.bridge s) (St.history s ++ [a]), r s)).
Proof. intros Ha s Hs. split; [done|]. exists [a]. by rewrite Ha. Qed.
End costs.

Lemma costs_weaken {A} P (Q Q' : Bridge.t → Prop) k k' (m : M A) :
  costs P k Q m → (k ≤ k')%nat → (∀ b, Q b → Q' b) → costs P k' Q' m.
Proof.
  intros Hm Hk HQ s Hs. destruct (Hm s Hs) as (HQs & t & Ht & Hlen).
  split; [by apply HQ|]. exists t. split; [done|lia].
Qed.

Lemma costs_le {A} P Q k k' (m : M A) : costs P k Q m → (k ≤ k')%nat → costs P k' Q m.
Proof. intros Hm Hk. by eapply costs_weaken. Qed.

Lemma costs_bind {A B} P (Q R : Bridge.t → Prop) k1 k2 (m : M A) (f : A → M B) :
  (∀ b, Q b → R b) → costs P k1 Q m → (∀ a, costs Q k2 R (f a)) → costs P (k1 + k2) R (m ≫= f).
Proof.
  intros HQ Hm Hf s Hs. destruct (Hm s Hs) as (HQs & t & Ht & Hlen). unfold mbind, M_bind.
  destruct (m s) as [s1 r]. cbn [fst] in *. destruct r as [a|e|].
  2,3: split; [by apply HQ|]; exists t; split; [done|lia].
  destruct (Hf a s1 HQs) as (HRs & t' & Ht' & Hlen'). split; [done|].
  exists (t ++ t'). rewrite Ht', Ht, publications_app, length_app, app_assoc. split; [done|lia].
Qed.

Lemma costs_then {A B} P k k1 k2 (m : M A) (f : A → M B) :
  costs P k1 P m → (∀ a, costs P k2 P (f a)) → (k1 + k2 ≤ k)%nat → costs P k P (m ≫= f).
Proof. intros Hm Hf Hk. eapply costs_le, Hk. by apply (costs_bind P P P). Qed.

Lemma costs_gets_bind {A B} (X : A → Prop) P Q k (f : Bridge.t → A) (kont : A → M B) :
  (∀ b, P b → X (f b)) → (∀ a, X a → costs P k Q (kont a)) → costs P k Q (gets f ≫= kont).
Proof. intros HX Hk s Hs. exact (Hk _ (HX _ Hs) s Hs). Qed.

Lemma costs_lift_bind {E' A B} (X : A → Prop) P k (wrap : E' → BridgeError.t) (r : outcome E' A)
    (kont : A → M B) :
  (∀ a, r = Ok a → X a) → (∀ a, X a → costs P k P (kont a)) → costs P k P (lift wrap r ≫= kont).
Proof.
  intros HX Hk s Hs. unfold lift, mbind, M_bind.
  destruct r as [a|e|]; [by apply (Hk a (HX a eq_refl))|..];
    (split; [done|]; exists []; rewrite app_nil_r; split; [done|cbn; lia]).
Qed.

Lemma costs_logged P k Q m : costs P k Q m → costs P k Q (logged m).
Proof. intros Hm s Hs. specialize (Hm s Hs). unfold logged. by destruct (m s). Qed.

Lemma costs_for_each {A} P k (l : list A) (f : A → M unit) :
  (∀ a, costs P k P (f a)) → costs P (k * length l) P (for_each l f).
Proof.
  intros Hf. induction l as [|a l IH].
  { by apply costs_pure. }
  apply (costs_then _ _ k (k * length l)); [apply Hf|done|cbn; lia].
Qed.

Lemma costs_publish_all `{E : Environment} P ps : costs P (length ps) P (mqtt_publish_all ps).
Proof. eapply costs_le; [apply (costs_for_each _ 1), costs_publish|lia]. Qed.

(** Publishing one serialized value *)
Lemma costs_publish_lift `{E : Environment} {E'} P (wrap : E' → BridgeError.t) r :
  costs P 1 P (p ← lift wrap r; mqtt_publish p).
Proof. apply (costs_lift_bind (λ _, True)); [done|]. intros p _. apply costs_publish. Qed.

Create HintDb costs discriminated.
#[export] Hint Resolve costs_publish costs_publish_all costs_logged costs_publish_lift : costs.
#[export] Hint Extern 1 (costs _ _ _ (mret _)) => by apply costs_pure : costs.
#[export] Hint Extern 1 (costs _ _ _ (fail _)) => by apply costs_pure : costs.

(** ** The publications of each kind *)

(** At most this many nodes and groups are known. *)
Definition sized (N G : nat) (b : Bridge.t) : Prop := (size (cache b) ≤ N ∧ size (groups b) ≤ G)%nat.

Lemma omap_lookup_keys `{Countable K} {V} (m : gmap K V) :
  omap (λ k, m !! k) (map_to_list m).*1 = (map_to_list m).*2.
Proof.
  assert (∀ l, Forall (λ x, m !! x.1 = Some x.2) l → omap (λ k, m !! k) l.*1 = l.*2) as Hl.
  { induction 1 as [|[k v] l Hk _ IH]; [done|]. cbn in *. rewrite Hk. by f_equal. }
  apply Hl, Forall_forall. by intros [k v] ?%elem_of_map_to_list.
Qed.

Lemma nodes_of_Permutation nodes : nodes_of nodes ≡ₚ (map_to_list nodes).*2.
Proof. unfold nodes_of, sorted_keys. by rewrite merge_sort_Permutation, omap_lookup_keys. Qed.

Lemma groups_of_Permutation gs : groups_of gs ≡ₚ (map_to_list gs).*2.
Proof. unfold groups_of. by rewrite merge_sort_Permutation, omap_lookup_keys. Qed.

Lemma nodes_of_length nodes : length (nodes_of nodes) = size nodes.
Proof. by rewrite nodes_of_Permutation, length_fmap, length_map_to_list. Qed.

Lemma groups_of_length gs : length (groups_of gs) = size gs.
Proof. by rewrite groups_of_Permutation, length_fmap, length_map_to_list. Qed.

(** Every component costs a migration and a clearing of its old topic; the device's configuration
    is published once or, with a removal, twice. *)
Lemma components_size d ts nodes gs :
  (size (HomeAssistantDiscovery.components d ts nodes gs) ≤ length nodes + length gs)%nat.
Proof.
  assert (∀ {A} (key : A → string) (value : A → CoverDiscovery.t) l (m : gmap string _),
    (size (foldl (λ m a, <[key a := value a]> m) m l) ≤ size m + length l)%nat) as Hfold.
  { intros A key value l. induction l as [|a l IH]; intros m; cbn; [lia|].
    specialize (IH (<[key a := value a]> m)).
    assert (size (<[key a := value a]> m) ≤ S (size m))%nat; [|lia].
    rewrite map_size_insert. by destruct (m !! key a); cbn; lia. }
  unfold HomeAssistantDiscovery.components. etransitivity; [apply Hfold|].
  etransitivity; [apply Nat.add_le_mono_r, Hfold|]. rewrite map_size_empty.
  pose proof (List.filter_length_le VeluxNode.is_controllable nodes). lia.
Qed.

Definition discovery_size (N G : nat) : nat := 2 * (N + G) + 2.

Lemma discovery_length `{E : Environment} d d' ts nodes gs ps :
  HomeAssistantDiscovery.publications to_vec to_value value_to_string package d ts nodes gs
    = (d', Ok ps) →
  (length ps ≤ discovery_size (length nodes) (length gs))%nat.
Proof.
  pose proof (components_size d ts nodes gs) as Hsize.
  unfold HomeAssistantDiscovery.publications.
  set (cmps := HomeAssistantDiscovery.components _ _ _ _) in *. set (r := _ ≫= _).
  intros Hr. assert (r = Ok ps) as Hps by (by destruct r; simplify_eq). clear Hr. subst r.
  apply outcome_bind_Ok in Hps as (payload & _ & (removal & Hrem & [= <-])%outcome_bind_Ok).
  assert (length removal ≤ 1)%nat as Hone.
  { destruct (_ && _); [|by simplify_eq/=; lia].
    apply outcome_bind_Ok in Hrem as (? & _ & [= <-]). cbn. lia. }
  assert (∀ X : gset string, length (sorted_strings X) = size X) as Hsorted.
  { intros X. unfold sorted_strings. by rewrite merge_sort_Permutation. }
  unfold discovery_size. rewrite !length_app, !length_fmap, Hsorted, size_dom.
  cbn [length]. rewrite !length_fmap, Hsorted, size_dom. lia.
Qed.

(** ** What each handler publishes at most *)

(** The two announcements and inventories and the device; for a node its metadata, four status
    topics and two discovery topics; for a group its metadata and two discovery topics *)
Definition snapshot_size (N G : nat) : nat := 6 + 7 * N + 3 * G.

(** A response: an inventory, metadata and a status, and the discovery *)
Definition response_size (N G : nat) : nat := 6 + discovery_size N G.

Definition clearing_size (N G : nat) : nat := 6 * N + 2 * G.

(** The bound for an event, by the sizes of the two maps *)
Definition burst (b : Bridge.t) (event : BridgeEvent.t) : nat :=
  let N := size (cache b) in
  let G := size (groups b) in
  match event with
  | BridgeEvent.Mqtt _ => snapshot_size N G
  | BridgeEvent.SetupFinished (Ok p) =>
      clearing_size N G
      + snapshot_size (size (PreparedGateway.cache p)) (size (PreparedGateway.groups p))
  | BridgeEvent.SetupFinished _ => 1
  | BridgeEvent.GatewayEvent _ => response_size (S N) (S G)
  | BridgeEvent.ReconnectTimer => 0
  | BridgeEvent.HeartbeatTick => 1
  | BridgeEvent.RefreshTick => 0
  end.

Section handlers.
Context `{E : Environment} (N G : nat).

Local Abbreviation bounded k m := (costs (sized N G) k (sized N G) m) (only parsing).

(** A read that the bound does not depend on *)
Lemma bounded_gets {A B} k (f : Bridge.t → A) (kont : A → M B) :
  (∀ a, bounded k (kont a)) → bounded k (gets f ≫= kont).
Proof. intros Hk. by apply (costs_gets_bind (λ _, True)). Qed.

Lemma bounded_id {B} k (kont : Bridge.t → M B) :
  (∀ b, sized N G b → bounded k (kont b)) → bounded k (gets id ≫= kont).
Proof. intros Hk. by apply (costs_gets_bind (sized N G)). Qed.

Lemma bounded_availability online : bounded 1 (publish_availability online).
Proof.
  apply bounded_gets. intros connected. apply bounded_gets. intros l.
  destruct connected; [auto with costs|]. by apply costs_pure.
Qed.

Lemma bounded_group_inventory : bounded 1 publish_group_inventory.
Proof. apply bounded_gets. auto with costs. Qed.

Lemma bounded_node_inventory : bounded 1 publish_node_inventory.
Proof. apply bounded_gets. auto with costs. Qed.

Lemma bounded_group_info g : bounded 1 (publish_group_info g).
Proof. apply bounded_gets. auto with costs. Qed.

Lemma bounded_info n : bounded 1 (publish_info n).
Proof. apply bounded_gets. auto with costs. Qed.

Lemma bounded_status n : bounded 4 (publish_status n).
Proof.
  apply bounded_gets. intros l. apply (costs_lift_bind (λ ps, length ps = 4%nat)).
  - unfold TopicLayout.status_publications. intros ps (? & _ & [= <-])%outcome_bind_Ok. done.
  - intros ps <-. apply costs_publish_all.
Qed.

Lemma bounded_hass_discovery : bounded (discovery_size N G) publish_hass_discovery.
Proof.
  apply bounded_id. intros b [HN HG].
  destruct (mqtt_connected b), (discovery b) as [d|];
    try (by apply costs_pure).
  pose proof (discovery_length d) as Hlen. specialize (λ d', Hlen d' (topics b) (nodes_of (cache b))).
  specialize (λ d', Hlen d' (groups_of (groups b))).
  destruct (HomeAssistantDiscovery.publications _ _ _ _ _ _ _ _) as [d' r].
  apply (costs_lift_bind (λ ps, length ps ≤ discovery_size N G)%nat).
  - intros ps ->. rewrite (Hlen d' ps eq_refl). rewrite nodes_of_length, groups_of_length.
    unfold discovery_size. lia.
  - intros ps Hps. eapply costs_then; [apply costs_publish_all| |rewrite Nat.add_0_r; exact Hps].
    intros _. by apply costs_modify.
Qed.
Hint Resolve bounded_availability bounded_group_inventory bounded_node_inventory
  bounded_group_info bounded_info bounded_status bounded_hass_discovery : costs.

Lemma bounded_nodes (f : VeluxNode.t → M unit) k :
  (∀ n, bounded k (f n)) →
  bounded (k * N) (nodes ← gets (λ b, nodes_of (cache b)); for_each nodes f).
Proof.
  intros Hf. apply (costs_gets_bind (λ l, length l ≤ N)%nat).
  - intros b [HN _]. by rewrite nodes_of_length.
  - intros l Hl. eapply costs_le; [by apply costs_for_each|nia].
Qed.

Lemma bounded_groups (f : GroupInformation.t → M unit) k :
  (∀ g, bounded k (f g)) →
  bounded (k * G) (groups ← gets (λ b, groups_of (groups b)); for_each groups f).
Proof.
  intros Hf. apply (costs_gets_bind (λ l, length l ≤ G)%nat).
  - intros b [_ HG]. by rewrite groups_of_length.
  - intros l Hl. eapply costs_le; [by apply costs_for_each|nia].
Qed.

Lemma costs_ext {A} P k Q (m m' : M A) : (∀ s, m s = m' s) → costs P k Q m' → costs P k Q m.
Proof. intros He Hm s Hs. rewrite He. by apply Hm. Qed.

Lemma bounded_node (n : VeluxNode.t) :
  bounded 5 (_ ← publish_info n; if VeluxNode.is_controllable n then publish_status n else mret tt).
Proof.
  apply (costs_then _ _ 1 4); [auto with costs| |done]. intros _.
  destruct (VeluxNode.is_controllable n); [auto with costs|]. by apply costs_pure.
Qed.

Lemma bounded_snapshot_data : bounded (2 + 5 * N + G + discovery_size N G) snapshot_data.
Proof.
  apply (costs_then _ _ 1 (1 + 5 * N + G + discovery_size N G)); [auto with costs|intros _|lia].
  apply (costs_then _ _ 1 (5 * N + G + discovery_size N G)); [auto with costs|intros _|lia].
  eapply costs_ext; [intros s; symmetry; apply bind_assoc|].
  apply (costs_then _ _ (5 * N) (G + discovery_size N G));
    [apply (bounded_nodes _ 5), bounded_node|intros _|lia].
  eapply costs_ext; [intros s; symmetry; apply bind_assoc|].
  apply (costs_then _ _ (1 * G) (discovery_size N G));
    [apply (bounded_groups _ 1); auto with costs|auto with costs|lia].
Qed.

Lemma bounded_snapshot : bounded (snapshot_size N G) publish_complete_snapshot.
Proof.
  intros s Hs. rewrite (snapshot_eq (St.bridge s)) by done. revert s Hs.
  assert (∀ b0, bounded (snapshot_size N G) (_ ← announce b0 false; _ ← snapshot_data; announce b0 true))
    as Hb; [|intros s Hs; by apply Hb].
  intros b0. unfold announce.
  apply (costs_then _ _ 1 (5 + 7 * N + 3 * G)); [auto with costs|intros _|unfold snapshot_size; lia].
  apply (costs_then _ _ (2 + 5 * N + G + discovery_size N G) 1);
    [apply bounded_snapshot_data|auto with costs|unfold discovery_size; lia].
Qed.

Lemma bounded_node_info id : bounded 1 (publish_node_info id).
Proof.
  apply bounded_gets. intros b. destruct (negb _); [by apply costs_pure|].
  destruct (cache b !! id); [apply bounded_info|]. by apply costs_pure.
Qed.

Lemma bounded_node_status id : bounded 4 (publish_node_status id).
Proof.
  apply bounded_gets. intros b. destruct (negb _); [by apply costs_pure|].
  destruct (cache b !! id); [apply bounded_status|]. by apply costs_pure.
Qed.

Lemma bounded_clear_nodes l : bounded (6 * length l) (clear_removed_nodes l).
Proof.
  apply costs_for_each. intros node. apply bounded_gets. intros b.
  apply (costs_then _ _ 5 1); [apply costs_publish_all|intros _|done].
  destruct (discovery b ≫= _); [auto with costs|]. by apply costs_pure.
Qed.

Lemma bounded_clear_groups l : bounded (2 * length l) (clear_removed_groups l).
Proof.
  apply costs_for_each. intros group. apply bounded_gets. intros b.
  apply (costs_then _ _ 1 1); [apply costs_publish_all|intros _|done].
  destruct (discovery b); [auto with costs|]. by apply costs_pure.
Qed.

(** *** Commands *)
Ltac free_step :=
  lazymatch goal with
  | |- costs _ _ _ (gets _ ≫= _) => apply bounded_gets; intros ?
  | |- costs _ _ _ (_ ≫= _) => apply (costs_then _ _ 0 0); [|intros ?|done]
  | |- costs _ _ _ (match _ with _ => _ end) => case_match
  | |- costs _ _ _ (logged _) => apply costs_logged
  | |- costs _ _ _ (modify _) => by apply costs_modify
  | |- costs _ _ _ (mret _) => by apply costs_pure
  | |- costs _ _ _ (fail _) => by apply costs_pure
  | |- _ => first [solve [eauto 2 with costs]|by apply costs_pure|by apply costs_action]
  end.
Ltac free_split := repeat free_step.

Lemma bounded_allocate : bounded 0 allocate_session.
Proof.
  intros s Hs. unfold allocate_session. destruct (SessionIdAllocator.allocate _) as [ids r].
  split; [done|]. exists []. by rewrite app_nil_r.
Qed.

Lemma bounded_release id : bounded 0 (release_session id).
Proof. by apply costs_modify. Qed.

Lemma bounded_lift {E' A} k (wrap : E' → BridgeError.t) (r : outcome E' A) : bounded k (lift wrap r).
Proof. by apply costs_pure. Qed.

Lemma bounded_ok_or_fail {A} k (o : option A) e : bounded k (ok_or_fail o e).
Proof. apply costs_pure. by destruct o. Qed.
Hint Resolve bounded_allocate bounded_release bounded_lift bounded_ok_or_fail : costs.

Lemma bounded_request_status id : bounded 0 (request_status id).
Proof. unfold request_status, gateway_handle. free_split. Qed.

Lemma bounded_group_command id a : bounded 0 (execute_group_command id a).
Proof. unfold execute_group_command. free_split. Qed.

Lemma bounded_refresh : bounded 0 refresh_stationary_nodes.
Proof.
  apply bounded_gets. intros c.
  eapply costs_le; [apply (costs_for_each _ 0)|lia]. intros id. apply costs_logged, bounded_request_status.
Qed.

Lemma bounded_start : bounded 0 start_gateway_setup.
Proof. unfold start_gateway_setup, perform. free_split. Qed.
Hint Resolve bounded_request_status bounded_node_status bounded_availability : costs.

(** The same for a handler that only publishes at its end *)
Ltac last_step k :=
  lazymatch goal with
  | |- costs _ _ _ (gets _ ≫= _) => apply bounded_gets; intros ?
  | |- costs _ _ _ (_ ≫= _) => apply (costs_then _ _ 0 k); [solve [free_split]|intros ?|done]
  | |- costs _ _ _ (match _ with _ => _ end) => case_match
  | |- costs _ _ _ (mret _) => by apply costs_pure
  | |- costs _ _ _ (fail _) => by apply costs_pure
  | |- _ => first [solve [eauto 2 with costs]|by apply costs_pure]
  end.
Ltac last_split k := repeat last_step k.

Lemma confirmation_size (c : gmap NodeId.t VeluxNode.t) id r sid e :
  size (match c !! id with
        | Some n => <[id := (VeluxNode.apply_command_confirmation n r sid e).1]> c
        | None => c
        end) = size c.
Proof.
  destruct (c !! id) eqn:Hn; [|done]. rewrite map_size_insert_Some; [done|by eexists].
Qed.

Lemma bounded_confirmation id r sid e :
  bounded 0 (update_cache (λ cache,
    match cache !! id with
    | Some n => <[id := (VeluxNode.apply_command_confirmation n r sid e).1]> cache
    | None => cache
    end)).
Proof. apply costs_modify. intros b [HN HG]. split; [|done]. cbn. by rewrite confirmation_size. Qed.
Hint Resolve bounded_confirmation : costs.

Lemma bounded_cover_command id a : bounded 4 (execute_cover_command id a).
Proof. unfold execute_cover_command. last_split 4%nat. Qed.

Lemma set_all_available_size nodes available :
  size (VeluxNodeCache.set_all_available nodes available).1 = size nodes.
Proof. apply map_size_fmap. Qed.

Lemma bounded_all_unavailable :
  bounded 0 (update_cache (λ cache, (VeluxNodeCache.set_all_available cache false).1)).
Proof. apply costs_modify. intros b [HN HG]. split; [|done]. cbn. by rewrite map_size_fmap. Qed.

Lemma bounded_next_delay : bounded 0 next_delay.
Proof.
  intros s Hs. unfold next_delay. destruct (ReconnectBackoff.next_delay _ _) as [r d].
  split; [done|]. exists []. by rewrite app_nil_r.
Qed.

Lemma bounded_instant k d : bounded k (instant_after d).
Proof. by apply costs_pure. Qed.
Hint Resolve bounded_all_unavailable bounded_next_delay bounded_instant : costs.

Lemma bounded_reboot : bounded 1 execute_gateway_reboot.
Proof.
  unfold execute_gateway_reboot, gateway_handle, gateway_shutdown.
  repeat (apply (costs_then _ _ 0 1); [solve [free_split]|intros ?|done]).
  apply (costs_then _ _ 1 0); [auto with costs|auto with costs|done].
Qed.

Lemma bounded_failed reason : bounded 1 (gateway_failed reason).
Proof. unfold gateway_failed. last_split 1%nat. Qed.

Lemma bounded_heartbeat : bounded 1 heartbeat.
Proof.
  unfold heartbeat, gateway_state. apply bounded_gets. intros [g|]; [|by apply costs_pure].
  apply (costs_then _ _ 0 1); [by apply costs_action|intros r|done].
  destruct r; [by apply costs_pure|apply bounded_failed|by apply costs_pure].
Qed.
End handlers.

#[export] Hint Resolve bounded_availability bounded_group_inventory bounded_node_inventory
  bounded_group_info bounded_info bounded_status bounded_hass_discovery bounded_release
  bounded_node_info bounded_node_status : costs.

(** *** Responses *)
Lemma size_insert_le `{Countable K} {V} (m : gmap K V) k v : (size (<[k := v]> m) ≤ S (size m))%nat.
Proof. rewrite map_size_insert. by destruct (m !! k); cbn; lia. Qed.

Lemma apply_response_size nodes r :
  (size (VeluxNodeCache.apply_response nodes r).1 ≤ S (size nodes))%nat.
Proof.
  assert (∀ id f, size (VeluxNodeCache.update nodes id f).1 = size nodes) as Hu.
  { intros id f. unfold VeluxNodeCache.update. destruct (nodes !! id) as [n|] eqn:Hn; [|done].
    destruct (f n). cbn. by rewrite map_size_insert_Some by by eexists. }
  destruct r; cbn; try lia; try (rewrite Hu; lia). apply size_insert_le.
Qed.

(** Responses that are about groups; the cache of nodes ignores them, and the groups the others. *)
Definition is_group (r : Response.t) : bool :=
  match r with
  | Response.GroupInformation _ | Response.GroupChange _ | Response.GroupDeleted _ => true
  | _ => false
  end.

Lemma group_response_nodes nodes r :
  is_group r = true → VeluxNodeCache.apply_response nodes r = (nodes, None).
Proof. by destruct r. Qed.

Lemma node_response_groups gs r : is_group r = false → group_update gs r = None.
Proof. by destruct r. Qed.

Section events.
Context `{E : Environment} (N G : nat).

Lemma costs_apply_group r :
  costs (sized N G) (if is_group r then 3 + discovery_size N (S G) else 0) (sized N (S G))
    (apply_group_response r).
Proof.
  assert (∀ b, sized N G b → sized N (S G) b) as Hup by (unfold sized; lia).
  destruct (is_group r) eqn:Hr.
  2: { intros s Hs. unfold apply_group_response.
       change ((gets id ≫= ?k) s) with (k (St.bridge s) s). cbv beta.
       rewrite node_response_groups by done. split; [by apply Hup|]. exists []. by rewrite app_nil_r. }
  apply (costs_gets_bind (λ _, True)); [done|]. intros b _.
  assert (∀ f : gmap GroupId.t GroupInformation.t → gmap GroupId.t GroupInformation.t,
    (∀ gs, size (f gs) ≤ S (size gs))%nat →
    costs (sized N G) 0 (sized N (S G)) (modify (λ b, set_groups (f (groups b)) b))) as Hmod.
  { intros f Hf. apply costs_modify. intros b' [HN HG]. split; [done|]. cbn.
    rewrite Hf. lia. }
  destruct (group_update (groups b) r) as [[g|id]|].
  - apply (costs_bind _ (sized N (S G)) _ 0 (3 + discovery_size N (S G))); [done| |intros _].
    { apply (Hmod (λ gs, <[GroupInformation.group_id g := g]> gs)). intros. apply size_insert_le. }
    destruct (mqtt_connected b); [|by apply costs_pure].
    apply (costs_then _ _ 1 (1 + discovery_size N (S G))); [auto with costs|intros _|lia].
    apply (costs_then _ _ 1 (discovery_size N (S G))); auto with costs.
  - apply (costs_bind _ (sized N (S G)) _ 0 (3 + discovery_size N (S G))); [done| |intros _].
    { apply (Hmod (λ gs, delete id gs)). intros. rewrite map_size_delete. destruct (gs !! id); cbn; lia. }
    destruct (groups b !! id) as [g|]; [|by apply costs_pure].
    destruct (mqtt_connected b); [|by apply costs_pure].
    apply (costs_then _ _ 1 (2 + discovery_size N (S G))); [auto with costs|intros _|lia].
    apply (costs_then _ _ (2 * 1) (discovery_size N (S G))); [|auto with costs|done].
    apply (bounded_clear_groups _ _ [g]).
  - eapply costs_weaken; [by apply (costs_pure _ 0)|lia|done].
Qed.

Lemma costs_response r :
  costs (sized N G) (response_size (S N) (S G)) (sized (S N) (S G)) (handle_response r).
Proof.
  assert (∀ b, sized N (S G) b → sized (S N) (S G) b) as Hup by (unfold sized; lia).
  assert (∀ b, sized N G b → sized N (S G) b) as Hup' by (unfold sized; lia).
  set (group := if is_group r then (3 + discovery_size N (S G))%nat else 0%nat).
  set (node := if is_group r then 0%nat else response_size (S N) (S G)).
  apply (costs_le _ _ (0 + (group + node))).
  2: { subst group node. unfold response_size, discovery_size. destruct (is_group r); lia. }
  apply (costs_bind _ (sized N G) _ 0); [by intros; apply Hup, Hup'| |intros _].
  { destruct r; first [by apply costs_pure|by apply bounded_release]. }
  apply (costs_bind _ (sized N (S G)) _ group node); [done|apply costs_logged, costs_apply_group|].
  intros _. apply (costs_gets_bind (λ c, size c ≤ N)%nat); [by intros b []|]. intros c Hc. cbv zeta.
  set (added := match r with Response.NodeInformation _ => _ | _ => false end). clearbody added.
  set (metadata := match r with Response.NodeInformation _ => true | _ => _ end). clearbody metadata.
  pose proof (apply_response_size c r) as Hsize. pose proof (group_response_nodes c r) as Hnone.
  destruct (VeluxNodeCache.apply_response c r) as [c' changed]. cbn [fst] in Hsize.
  apply (costs_bind _ (sized (S N) (S G)) _ 0 node); [done| |intros _].
  { apply costs_modify. intros b [_ HG]. split; [cbn; lia|done]. }
  destruct changed as [id|]; [|by apply costs_pure].
  assert (node = response_size (S N) (S G)) as ->.
  { subst node. destruct (is_group r); [|done]. by specialize (Hnone eq_refl). }
  unfold response_size. apply bounded_gets. intros connected.
  assert (∀ (cond : bool) k m, costs (sized (S N) (S G)) k (sized (S N) (S G)) m →
    costs (sized (S N) (S G)) k (sized (S N) (S G)) (if cond then logged m else mret tt)) as Hif.
  { intros [] k m Hm; [by apply costs_logged|by apply costs_pure]. }
  apply (costs_then _ _ 1 (5 + discovery_size (S N) (S G))); [auto with costs|intros _|lia].
  apply (costs_then _ _ 1 (4 + discovery_size (S N) (S G))); [auto with costs|intros _|lia].
  apply (costs_then _ _ (discovery_size (S N) (S G)) 4); [auto with costs|intros _|lia].
  apply bounded_gets. intros c1. apply Hif. auto with costs.
Qed.

Lemma costs_gateway_event event :
  costs (sized N G) (response_size (S N) (S G)) (sized (S N) (S G)) (handle_gateway_event event).
Proof.
  assert (∀ m : M unit, costs (sized N G) 1 (sized N G) m →
    costs (sized N G) (response_size (S N) (S G)) (sized (S N) (S G)) m) as Hone.
  { intros m Hm. eapply costs_weaken; [exact Hm|unfold response_size; lia|unfold sized; lia]. }
  destruct event as [[r|r|id|m|m]| |]; cbn [handle_gateway_event];
    [apply costs_response|apply Hone..]; 
    first [apply bounded_failed|by apply costs_pure|idtac].
  eapply costs_le; [apply bounded_release|lia].
Qed.

Lemma bounded_message m : costs (sized N G) 4 (sized N G) (handle_mqtt_message m).
Proof.
  apply bounded_gets. intros b.
  destruct (TopicLayout.parse_command _ m) as [cmd|e|]; [|by apply costs_pure..].
  destruct (gateway b); [|by apply costs_pure]. destruct cmd as [cmd|cmd|]; apply costs_logged.
  - apply bounded_cover_command.
  - eapply costs_le; [apply bounded_group_command|lia].
  - eapply costs_le; [apply bounded_reboot|lia].
Qed.

Lemma bounded_mqtt_result result :
  costs (sized N G) (snapshot_size N G) (sized N G) (handle_mqtt_result result).
Proof.
  destruct result as [[|m]|e|]; cbn [handle_mqtt_result].
  - apply (costs_then _ _ 0 (snapshot_size N G)); [by apply costs_modify|intros _|done].
    apply bounded_gets. intros [g|]; [apply costs_logged, bounded_snapshot|].
    eapply costs_le; [apply bounded_availability|unfold snapshot_size; lia].
  - eapply costs_le; [apply bounded_message|unfold snapshot_size; lia].
  - eapply costs_le; [by apply costs_modify|lia].
  - by apply costs_pure.
Qed.
End events.

(** *** The end of a set-up *)
Section setup.
Context `{E : Environment}.

Local Abbreviation anything := (λ _ : Bridge.t, True) (only parsing).

Lemma removed_lengths (b : Bridge.t) nodes gs :
  (length (removed_nodes (cache b) nodes) ≤ size (cache b)
   ∧ length (removed_groups (groups b) gs) ≤ size (groups b))%nat.
Proof.
  unfold removed_nodes, removed_groups. split; (etransitivity; [apply List.filter_length_le|]).
  - by rewrite nodes_of_length.
  - by rewrite groups_of_length.
Qed.

Lemma costs_setup_result N G result :
  costs (sized N G)
    (match result with
     | Ok p => clearing_size N G
               + snapshot_size (size (PreparedGateway.cache p)) (size (PreparedGateway.groups p))
     | _ => 1
     end)%nat anything (handle_setup_result result).
Proof.
  apply (costs_bind _ (sized N G) _ 0); [done|by apply costs_modify|intros _].
  destruct result as [p|e|].
  - set (N' := size (PreparedGateway.cache p)). set (G' := size (PreparedGateway.groups p)).
    apply (costs_gets_bind (sized N G)); [done|]. intros b [HN HG]. cbv zeta.
    destruct (removed_lengths b (PreparedGateway.cache p) (PreparedGateway.groups p)) as [Hn Hg].
    apply (costs_bind _ (sized N' G') _ 0 (clearing_size N G + snapshot_size N' G'));
      [done| |intros _].
    { apply costs_modify. by intros b' _. }
    eapply costs_weaken; [|reflexivity|done].
    destruct (mqtt_connected b); [|by apply costs_pure].
    eapply costs_then; [apply costs_logged, bounded_clear_nodes|intros _|].
    + eapply costs_then; [apply costs_logged, bounded_clear_groups|intros _|reflexivity].
      apply costs_logged, bounded_snapshot.
    + unfold clearing_size. lia.
  - eapply costs_weaken; [|reflexivity|done].
    apply (costs_then _ _ 0 1); [apply bounded_next_delay|intros delay|done].
    apply (costs_then _ _ 0 1); [apply bounded_instant|intros instant|done].
    apply (costs_then _ _ 0 1); [by apply costs_modify|intros _|done]. apply bounded_availability.
  - eapply costs_weaken; [by apply (costs_pure _ 0)|lia|done].
Qed.

Lemma handle_costs event s :
  ∃ t, St.history (handle event s).1 = St.history s ++ t
       ∧ (length (publications t) ≤ burst (St.bridge s) event)%nat.
Proof.
  set (N := size (cache (St.bridge s))). set (G := size (groups (St.bridge s))).
  assert (sized N G (St.bridge s)) as Hs by done.
  destruct event as [result|result|event| | |].
  - exact (proj2 (bounded_mqtt_result N G result s Hs)).
  - destruct (costs_setup_result N G result s Hs) as [_ Ht]. destruct result; exact Ht.
  - exact (proj2 (costs_gateway_event N G event s Hs)).
  - exact (proj2 (bounded_start N G s Hs)).
  - exact (proj2 (bounded_heartbeat N G s Hs)).
  - exact (proj2 (bounded_refresh N G s Hs)).
Qed.

(** ** The handlers on the channel *)

(** What a handler, going from one history to another, does to the channel: it sends its
    publications one after the other, and waits where the channel is full. *)
Definition hand_over `{RequestChannel Q} (q : Q) (h h' : list Action.t)
    : Q * option (MqttResult unit) :=
  MqttQueue.publish_all q (publications (drop (length h) h')).

(** C10: no handler waits for its own event loop as long as the channel has room for the burst of
    its event: at most 6 publications and 7 per node and 3 per group for a connection of the
    broker or a completed set-up (and 6 and 2 more for what the set-up may clear), at most 12 and
    2 per node and group for a response, 1 for a loss of the gateway. Then all of its publications are queued behind what is pending,
    in the order of its history, and each call returns. *)
Theorem handlers_never_wait `{BoundedChannel Q} (event : BridgeEvent.t) (s : St.t) (q : Q) :
  closed q = false → (burst (St.bridge s) event ≤ MqttQueue.room q)%nat →
  let h' := St.history (handle event s).1 in
  ∃ t, h' = St.history s ++ t
       ∧ (length (publications t) ≤ burst (St.bridge s) event)%nat
       ∧ let (q', r) := hand_over q (St.history s) h' in
         r = Some (Ok tt) ∧ pending q' = pending q ++ (MqttQueue.request <$> publications t).
Proof.
  intros Hq Hroom. cbv zeta. destruct (handle_costs event s) as (t & Ht & Hlen).
  exists t. split_and!; [done..|]. unfold hand_over. rewrite Ht, drop_app_length.
  pose proof (MqttQueue.publish_all_open q (publications t) Hq) as Hp.
  destruct (MqttQueue.publish_all q _) as [q' r]. destruct Hp as (-> & _ & _ & ->).
  rewrite bool_decide_true, take_ge by (rewrite ?length_fmap; lia). done.
Qed.
End setup.

Lemma handlers_never_wait_witness :
  let s := sample_state (take 2 sample_events) in
  let h' := St.history (@handle quiet (BridgeEvent.Mqtt (Ok MqttEvent.Connected)) s).1 in
  let (q, r) := hand_over (ListChannel.new sample_config) (St.history s) h' in r = Some (Ok tt).
Proof.
  cbv zeta.
  destruct (@handlers_never_wait quiet ListChannel.t ListChannel.channel ListChannel.bounded
    (BridgeEvent.Mqtt (Ok MqttEvent.Connected)) (sample_state (take 2 sample_events))
    (ListChannel.new sample_config) eq_refl) as (t & Ht & _ & Hr).
  - apply (bool_decide_unpack _). vm_compute. exact I.
  - destruct (hand_over _ _ _) as [q r]. exact (proj1 Hr).
Defined.

(** ** A snapshot that does not fit *)

(** The channel is open: no publication is refused. *)
Class Accepting (E : Environment) : Prop := { publish_accepted h p : publish_result h p = Ok tt }.

(** What a snapshot publishes at least *)
Definition node_least (node : VeluxNode.t) : nat := if VeluxNode.is_controllable node then 5 else 1.
Definition snapshot_least (b : Bridge.t) : nat :=
  4 + size (cache b) + 4 * length (List.filter VeluxNode.is_controllable (nodes_of (cache b)))
  + size (groups b).

Section overflow.
Context `{E : Environment} `{Ser : !Serializing} `{Acc : !Accepting E} (b0 : Bridge.t).

(** [m] returns and publishes at least [k] times. *)
Definition yields {A} (k : nat) (m : M A) : Prop :=
  ∀ s, same_bridge b0 (St.bridge s) →
    same_bridge b0 (St.bridge (m s).1) ∧ (∃ a, (m s).2 = Ok a)
    ∧ ∃ t, St.history (m s).1 = St.history s ++ t ∧ (k ≤ length (publications t))%nat.

Lemma yields_ret {A} (a : A) : yields 0 (mret a).
Proof.
  intros s Hs. split_and!; [done|by exists a|]. exists []. rewrite app_nil_r. split; [done|cbn; lia].
Qed.

Lemma yields_bind {A B} k1 k2 (m : M A) (f : A → M B) :
  yields k1 m → (∀ a, yields k2 (f a)) → yields (k1 + k2) (m ≫= f).
Proof.
  intros Hm Hf s Hs. destruct (Hm s Hs) as (Hs1 & (a & Ha) & t & Ht & Hk). unfold mbind, M_bind.
  destruct (m s) as [s1 r]. cbn [fst snd] in *. subst r.
  destruct (Hf a s1 Hs1) as (Hs2 & Hb & t' & Ht' & Hk'). split_and!; [done..|].
  exists (t ++ t'). rewrite Ht', Ht, publications_app, length_app, app_assoc. split; [done|lia].
Qed.

Lemma yields_then {A B} k k1 k2 (m : M A) (f : A → M B) :
  yields k1 m → (∀ a, yields k2 (f a)) → (k ≤ k1 + k2)%nat → yields k (m ≫= f).
Proof.
  intros Hm Hf Hk s Hs. destruct (yields_bind k1 k2 m f Hm Hf s Hs) as (?&?&t&?&?).
  split_and!; [done..|]. exists t. split; [done|lia].
Qed.

Lemma yields_gets_bind {A B} k (f : Bridge.t → A) (kont : A → M B) :
  (∀ b, same_bridge b0 b → yields k (kont (f b))) → yields k (gets f ≫= kont).
Proof. intros Hk s Hs. exact (Hk _ Hs s Hs). Qed.

Lemma yields_lift_bind {E' A B} k (wrap : E' → BridgeError.t) a (kont : A → M B) :
  yields k (kont a) → yields k (lift wrap (Ok a) ≫= kont).
Proof. done. Qed.

Lemma yields_publish p : yields 1 (mqtt_publish p).
Proof.
  intros s Hs. unfold mqtt_publish. rewrite publish_accepted. split_and!; [done|by exists tt|].
  by eexists [_].
Qed.

Lemma yields_for_each {A} (cost : A → nat) l (f : A → M unit) :
  (∀ a, yields (cost a) (f a)) → yields (sum_list (cost <$> l)) (for_each l f).
Proof.
  intros Hf. induction l as [|a l IH]; [apply yields_ret|]. by apply yields_bind; [apply Hf|intros _].
Qed.

Lemma yields_publish_all ps : yields (length ps) (mqtt_publish_all ps).
Proof.
  pose proof (yields_for_each (λ _, 1%nat) ps mqtt_publish yields_publish) as Hps.
  replace (length ps) with (sum_list ((λ _ : MqttPublication.t, 1%nat) <$> ps)); [exact Hps|].
  clear Hps. induction ps; cbn; [done|lia].
Qed.

Lemma yields_json {A} k j (f : list Z → A) (kont : A → M unit) :
  (∀ payload, yields k (kont (f payload))) →
  yields k (lift BridgeError.Mqtt (p ← TopicLayout.serialize_json to_vec j; Ok (f p)) ≫= kont).
Proof.
  intros Hk s Hs. unfold lift, mbind, M_bind. unfold TopicLayout.serialize_json.
  destruct (vec_serialized j) as [payload ->]. by apply (Hk payload).
Qed.

Lemma yields_hass_discovery : yields 0 publish_hass_discovery.
Proof.
  apply yields_gets_bind. intros b Hb. change (Datatypes.id b) with b.
  destruct (mqtt_connected b); [|apply yields_ret].
  destruct (discovery b) as [d|]; [|apply yields_ret].
  destruct (discovery_serialized d (topics b) (nodes_of (cache b)) (groups_of (groups b))) as [ps Hps].
  destruct (HomeAssistantDiscovery.publications _ _ _ _ _ _ _ _) as [d' r]. cbn [snd] in Hps. subst r.
  apply yields_lift_bind.
  apply (yields_then _ (length ps) 0); [apply yields_publish_all|intros _|lia].
  intros s Hs. split_and!; [|by exists tt|exists []; rewrite app_nil_r; split; [done|cbn; lia]].
  etransitivity; [exact Hs|]. by destruct s as [[]].
Qed.

Lemma yields_node (node : VeluxNode.t) :
  yields (node_least node)
    (_ ← publish_info node; if VeluxNode.is_controllable node then publish_status node else mret tt).
Proof.
  unfold node_least. apply (yields_then _ 1 (if VeluxNode.is_controllable node then 4 else 0)).
  - apply yields_gets_bind. intros b _. apply yields_json. intros payload. apply yields_publish.
  - intros _. destruct (VeluxNode.is_controllable node); [|apply yields_ret].
    apply yields_gets_bind. intros b _. apply yields_json. intros payload. apply yields_publish_all.
  - by destruct (VeluxNode.is_controllable node).
Qed.

Lemma nodes_least l :
  sum_list (node_least <$> l) = (length l + 4 * length (List.filter VeluxNode.is_controllable l))%nat.
Proof.
  induction l as [|n l IH]; [done|]. cbn. rewrite IH. unfold node_least.
  destruct (VeluxNode.is_controllable n); cbn; lia.
Qed.

Lemma yields_snapshot : yields (snapshot_least b0) publish_complete_snapshot.
Proof.
  set (controllable := length (List.filter VeluxNode.is_controllable (nodes_of (cache b0)))).
  assert (yields (2 + size (cache b0) + 4 * controllable + size (groups b0)) snapshot_data) as Hdata.
  { apply (yields_then _ 1 (1 + size (cache b0) + 4 * controllable + size (groups b0))).
    { apply yields_gets_bind. intros b _. apply yields_json. intros. apply yields_publish. }
    2: lia. intros _. apply (yields_then _ 1 (size (cache b0) + 4 * controllable + size (groups b0))).
    { apply yields_gets_bind. intros b _. apply yields_json. intros. apply yields_publish. }
    2: lia. intros _. apply yields_gets_bind. intros b Hb.
    assert (cache b = cache b0 ∧ groups b = groups b0) as [-> _] by by rewrite Hb.
    apply (yields_then _ (sum_list (node_least <$> nodes_of (cache b0))) (size (groups b0))).
    { apply yields_for_each, yields_node. }
    2: rewrite nodes_least, nodes_of_length; fold controllable; lia.
    intros _. apply yields_gets_bind. intros b' Hb'.
    assert (groups b' = groups b0) as -> by by rewrite Hb'.
    apply (yields_then _ (sum_list ((λ _, 1%nat) <$> groups_of (groups b0))) 0).
    { apply yields_for_each. intros g. apply yields_gets_bind. intros b1 _. apply yields_json.
      intros. apply yields_publish. }
    { intros _. apply yields_hass_discovery. }
    rewrite <- (groups_of_length (groups b0)). clear. induction (groups_of _); cbn; lia. }
  intros s Hs. rewrite (snapshot_eq b0) by by rewrite Hs.
  assert (yields (snapshot_least b0) (_ ← announce b0 false; _ ← snapshot_data; announce b0 true)) as Hy.
  { apply (yields_then _ 1 (3 + size (cache b0) + 4 * controllable + size (groups b0)));
      [apply yields_publish|intros _|unfold snapshot_least; fold controllable; lia].
    eapply yields_then; [exact Hdata|intros _; apply yields_publish|lia]. }
  by apply Hy.
Qed.
End overflow.

Section stall.
Context `{E : Environment} `{Ser : !Serializing} `{Acc : !Accepting E} `{B : BoundedChannel Q}.

(** C9: a connection of the broker while a gateway is there stops the bridge for good if the
    snapshot does not fit the channel: it publishes at least 4 times, once per node and group and
    4 times more per cover, and when the channel has room for fewer the handler fills it and
    then waits for room, which only polling the event loop makes, which only the loop the handler
    keeps waiting does. *)
Theorem snapshot_overflows (s : St.t) (g : GatewayHandle) (q : Q) :
  gateway (St.bridge s) = Some g → closed q = false →
  (MqttQueue.room q < snapshot_least (St.bridge s))%nat →
  let h' := St.history (handle (BridgeEvent.Mqtt (Ok MqttEvent.Connected)) s).1 in
  let (q', r) := hand_over q (St.history s) h' in
  r = None
  ∧ ∃ t, h' = St.history s ++ t
         ∧ pending q' = pending q ++ take (MqttQueue.room q) (MqttQueue.request <$> publications t).
Proof.
  intros Hg Hq Hroom. cbv zeta. set (s1 := St.mk (set_mqtt_connected true (St.bridge s)) (St.history s)).
  assert ((handle (BridgeEvent.Mqtt (Ok MqttEvent.Connected)) s).1 = (publish_complete_snapshot s1).1)
    as ->.
  { cbn [handle handle_mqtt_result].
    change ((modify ?f ≫= ?k) s) with (k tt (St.mk (f (St.bridge s)) (St.history s))). cbv beta.
    fold s1. change ((gets gateway ≫= ?k) s1) with (k (gateway (St.bridge s)) s1). cbv beta.
    rewrite Hg. unfold logged. by destruct (publish_complete_snapshot s1). }
  destruct (yields_snapshot (St.bridge s1) s1) as (_ & _ & t & Ht & Hlen); [by reflexivity|].
  change (snapshot_least (St.bridge s1)) with (snapshot_least (St.bridge s)) in Hlen.
  unfold hand_over. rewrite Ht. change (St.history s1) with (St.history s). rewrite drop_app_length.
  pose proof (MqttQueue.publish_all_open q (publications t) Hq) as Hp.
  destruct (MqttQueue.publish_all q _) as [q' r]. destruct Hp as (Hp & _ & _ & ->).
  rewrite bool_decide_false by lia. split; [done|]. by exists t.
Qed.
End stall.

(** ** The default capacity: 52 covers are too many *)
Definition sample_cover (id : Z) : VeluxNode.t :=
  VeluxNode.mk (NodeId.new id) "Cover" 0 0 (replicate 8 0) 128 ActuatorType.RollerShutter 0 0 0
    0 0 0 0 (Some CoverStrategy.MainParameter) Availability.Available OperatingState.Done
    (Some Percentage.FULLY_CLOSED) (Some Percentage.FULLY_CLOSED) None None.

Definition covers (n : Z) : gmap NodeId.t VeluxNode.t :=
  list_to_map ((λ id, (NodeId.new id, sample_cover id)) <$> seqZ 0 n).

(** A set-up that finds [n] covers *)
Definition cover_events (n : Z) : list BridgeEvent.t :=
  [BridgeEvent.ReconnectTimer;
   BridgeEvent.SetupFinished (Ok (PreparedGateway.mk 0%nat (covers n) ∅ SessionIdAllocator.new))].

Definition many_events : list BridgeEvent.t := cover_events 52.

Lemma covers_wf n : n ≤ 256 → cache_wf (covers n).
Proof.
  intros Hmax k c Hn%elem_of_list_to_map_2.
  apply list_elem_of_fmap in Hn as (id & [= -> ->] & Hid%elem_of_seqZ).
  split; [done|]. unfold velux_node_wf, node_wf, position_wf, remaining_wf, ParameterFacts.percentage_wf.
  split_and!; try exact I; try (by apply (bool_decide_unpack _); vm_compute). cbn. unfold is_u8. lia.
Qed.

Lemma covers_running n s :
  n ≤ 256 → @after quiet (cover_events n) (St.mk sample_bridge []) = Some s →
  @running quiet sample_bridge_config s.
Proof.
  intros Hn Hs. apply (sample_running (cover_events n)); [|done].
  apply Forall_cons. split; [done|]. apply Forall_singleton. split; [by apply covers_wf|].
  split; [apply map_Forall_empty|]. split; [cbn; lia|set_solver].
Qed.

Lemma many_running : @running quiet sample_bridge_config (sample_state many_events).
Proof. apply (covers_running 52); [done|]. vm_compute. reflexivity. Qed.

Lemma quiet_accepting : Accepting quiet.
Proof. by split. Qed.

Lemma snapshot_overflows_witness :
  let s := sample_state many_events in
  @running quiet sample_bridge_config s
  ∧ capacity (ListChannel.new (VeluxMqttBridgeConfig.mqtt sample_bridge_config)) = 256%nat
  ∧ let h' := St.history (@handle quiet (BridgeEvent.Mqtt (Ok MqttEvent.Connected)) s).1 in
    let (q, r) := hand_over (ListChannel.new sample_config) (St.history s) h' in r = None.
Proof.
  cbv zeta. split; [exact many_running|]. split; [reflexivity|].
  pose proof (@snapshot_overflows quiet quiet_serializing quiet_accepting ListChannel.t
    ListChannel.channel ListChannel.bounded (sample_state many_events) 0%nat
    (ListChannel.new sample_config) ltac:(vm_compute; reflexivity) eq_refl
    ltac:(apply (bool_decide_unpack _); vm_compute; exact I)) as H.
  cbv zeta in H. destruct (hand_over _ _ _) as [q r]. exact (proj1 H).
Defined.
