(* ===== verification/BridgeRun.v ===== *)
(** * A run of the bridge: the loop until the shutdown signal, and the shutdown *)

From S2P Require Import Prelude RustStd CommandIds Error Types Frame Command CommandLayout.
From S2P Require Import ResponseTypes ResponseFacts Connection Client VeluxNode NodeFacts.
From S2P Require Import Mqtt MqttFacts Broker HassDiscovery Bridge BridgeLogic BridgeFacts BridgeQueue.
Import Bridge.

Local Ltac handler_cbn :=
  unfold mret, mbind, M_ret, M_bind, gets, modify, lift, id;
  cbn -[publish_availability].

Section run.
Context `{E : Environment} `{L : !Lawful E}.

(** ** The shutdown *)
Lemma shutdown_effects (config : VeluxMqttBridgeConfig.t) (s : St.t) (cancelled : option GatewayHandle) :
  running config s →
  let (s', r) := shutdown cancelled s in
  let b := St.bridge s in
  let reboot := VeluxMqttBridgeConfig.reboot_on_shutdown (Bridge.config b) in
  let h1 := St.history s ++ (if setup b then if cancelled is Some g then [Action.GatewayShutdown g reboot]
                                             else []
                             else []) in
  let h2 := h1 ++ announcement (St.mk b h1) false in
  let h3 := h2 ++ (if gateway b is Some g then [Action.GatewayShutdown g reboot] else []) in
  let h4 := h3 ++ (if mqtt_connected b then [Action.MqttDisconnect] else []) in
  St.history s' = h4
  ∧ gateway (St.bridge s') = None ∧ setup (St.bridge s') = false
  ∧ match (if mqtt_connected b then disconnect_result h3 else Ok tt) with
    | Ok _ => r = Ok tt
    | Err e => r = Err (BridgeError.Mqtt e)
    | Panic => False
    end.
Proof.
  intros (l & Hs & _)%running_inv. pose proof (inv_setup _ _ _ Hs) as Hset.
  destruct s as [b h]. cbn [St.bridge St.history] in *. unfold shutdown. handler_cbn.
  assert (∀ h, disconnect_result h ≠ Panic) as Hd by apply disconnect_total.
  destruct (setup b) eqn:Hsetup.
  - specialize (Hset eq_refl). destruct cancelled as [g|]; handler_cbn;
      rewrite publish_availability_eq; handler_cbn; rewrite Hset; handler_cbn;
      destruct (mqtt_connected b) eqn:Hm; handler_cbn; rewrite ?app_nil_r;
      unfold announcement; cbn -[TopicLayout.availability_publication]; rewrite ?Hm;
      split_and!; try done;
      match goal with |- context [disconnect_result ?h] => specialize (Hd h) end;
      by destruct (disconnect_result _).
  - handler_cbn. rewrite publish_availability_eq. handler_cbn. destruct (gateway b) as [g|] eqn:Hg;
      handler_cbn; rewrite ?Hg;
      destruct (mqtt_connected b) eqn:Hm; handler_cbn; rewrite ?app_nil_r;
      split_and!; try done;
      match goal with |- context [disconnect_result ?h] => specialize (Hd h) end;
      by destruct (disconnect_result _).
Qed.

(** The shutdown first closes the gateway of a setup that completed while it was cancelled;
    then announces "offline" if the broker is connected; then closes the connected gateway, once,
    asking for a reboot exactly if configured; then disconnects a connected broker. Afterwards no
    gateway and no setup is left. Errors of the gateways do not stop it: it fails only if the
    disconnection of the broker does. *)
Theorem shutdown_spec (config : VeluxMqttBridgeConfig.t) (s : St.t) (cancelled : option GatewayHandle) :
  running config s →
  let (s', r) := shutdown cancelled s in
  let b := St.bridge s in
  let reboot := VeluxMqttBridgeConfig.reboot_on_shutdown (Bridge.config b) in
  let h1 := St.history s ++ (if setup b then if cancelled is Some g then [Action.GatewayShutdown g reboot]
                                             else []
                             else []) in
  let h2 := h1 ++ announcement (St.mk b h1) false in
  let h3 := h2 ++ (if gateway b is Some g then [Action.GatewayShutdown g reboot] else []) in
  let h4 := h3 ++ (if mqtt_connected b then [Action.MqttDisconnect] else []) in
  St.history s' = h4
  ∧ gateway (St.bridge s') = None ∧ setup (St.bridge s') = false
  ∧ match (if mqtt_connected b then disconnect_result h3 else Ok tt) with
    | Ok _ => r = Ok tt
    | Err e => r = Err (BridgeError.Mqtt e)
    | Panic => False
    end.
Proof. apply shutdown_effects. Qed.

(** ** The loop *)

(** The first ticks of the two intervals fit the clock: the loop starts. *)
Definition intervals_fit (s : St.t) : Prop :=
  let c := Bridge.config (St.bridge s) in
  now (St.history s) + VeluxMqttBridgeConfig.heartbeat_interval c ≤ instant_max
  ∧ now (St.history s) + VeluxMqttBridgeConfig.status_refresh_interval c ≤ instant_max.

Lemma run_until_serves signal cancelled events s :
  intervals_fit s → run_until signal cancelled events s = serve signal cancelled events s.
Proof.
  intros [Hh Hr]. unfold run_until, configured_interval, instant_after. handler_cbn.
  rewrite (proj2 (Z.leb_le _ _) Hh). cbn. by rewrite (proj2 (Z.leb_le _ _) Hr).
Qed.

(** *** Calls that do not return *)

(** A handler stalls in its first call that does not return. *)
Lemma stall_Some h t h' call :
  stall h t = Some (h', call) →
  call_returns h' call = false ∧ ∃ u v, h' = h ++ u ∧ t = u ++ call :: v ∧ stall h u = None.
Proof.
  revert h. induction t as [|a t IH]; intros h; cbn [stall]; [done|].
  destruct (call_returns h a) eqn:Ha.
  - intros (Hr & u & v & -> & -> & Hu)%IH. split; [done|]. exists (a :: u), v.
    cbn [stall]. rewrite Ha. by rewrite <- app_assoc.
  - intros [= <- <-]. split; [done|]. exists [], t. by rewrite app_nil_r.
Qed.

Lemma awaited_cases (m : M unit) s :
  (∃ t, St.history (m s).1 = St.history s ++ t) →
  match awaited m s with
  | Ended.Returned s' result => m s = (s', result)
  | Ended.Waiting h call =>
      call_returns h call = false
      ∧ ∃ u v, h = St.history s ++ u ∧ St.history (m s).1 = h ++ call :: v
               ∧ stall (St.history s) u = None
  end.
Proof.
  intros [t Ht]. unfold awaited. destruct (m s) as [s' result]. cbn [fst] in *.
  rewrite Ht, drop_app_length. destruct (stall _ t) as [[h call]|] eqn:Hs; [|done].
  apply stall_Some in Hs as (Hr & u & v & -> & -> & Hu). split; [done|]. exists u, v.
  by rewrite <- app_assoc.
Qed.

(** What the loop runs once the events before [rest] are handled *)
Definition next (signal : outcome BridgeError.t unit) (cancelled : option GatewayHandle)
    (rest : list BridgeEvent.t) : M unit :=
  match rest with
  | [] => _ ← lift id signal; shutdown cancelled
  | event :: _ => handle event
  end.

(** The loop handled some of the events, and what it runs next makes a call that does not return,
    after calls that do. *)
Definition stalled (signal : outcome BridgeError.t unit) (cancelled : option GatewayHandle)
    (events : list BridgeEvent.t) (s : St.t) (h : list Action.t) (call : Action.t) : Prop :=
  call_returns h call = false
  ∧ ∃ before rest s' u v,
      events = before ++ rest ∧ after before s = Some s'
      ∧ (∀ event, head rest = Some event → enabled (St.bridge s') event = true)
      ∧ h = St.history s' ++ u ∧ St.history (next signal cancelled rest s').1 = h ++ call :: v
      ∧ stall (St.history s') u = None.

Lemma next_grows config signal cancelled rest s :
  running config s → ∃ t, St.history (next signal cancelled rest s).1 = St.history s ++ t.
Proof.
  intros Hs. destruct rest as [|event rest].
  - cbn [next]. destruct signal as [[]|e|]; [|by exists []; rewrite app_nil_r..].
    change ((lift id (Ok tt) ≫= λ _ : (), shutdown cancelled) s) with (shutdown cancelled s).
    pose proof (shutdown_effects config s cancelled Hs) as H. destruct (shutdown cancelled s).
    destruct H as (Hh & _). cbn [fst]. rewrite Hh, <- !app_assoc. by eexists.
  - destruct (handle_costs event s) as (t & Ht & _). by exists t.
Qed.

(** The preconditions rule an event out; or all events are handled, and the signal and the shutdown
    end the run; or a call does not return. *)
Lemma serve_cases config signal cancelled events s :
  running config s → Forall event_wf events →
  match serve signal cancelled events s with
  | None => ∃ before event rest s',
      events = before ++ event :: rest ∧ after before s = Some s'
      ∧ enabled (St.bridge s') event = false
  | Some (Ended.Returned ended result) => ∃ s', after events s = Some s' ∧ running config s'
      ∧ (ended, result) = (_ ← lift id signal; shutdown cancelled) s'
  | Some (Ended.Waiting h call) => stalled signal cancelled events s h call
  end.
Proof.
  intros Hs Hw. revert s Hs. induction Hw as [|event events Hw _ IH]; intros s Hs.
  { pose proof (awaited_cases _ s (next_grows config signal cancelled [] s Hs)) as H. cbn [next] in H.
    cbn [serve]. destruct (awaited _ s) as [ended result|h call]; [by exists s|].
    destruct H as (Hr & u & v & Hh & Ht & Hu). split; [done|]. by exists [], [], s, u, v. }
  cbn [serve]. destruct (enabled (St.bridge s) event) eqn:He; [|by exists [], event, events, s].
  destruct (running_step config s event Hs He Hw) as (s1 & Hstep & Hs1).
  assert (handle event s = (s1, Ok tt)) as Hh by (by inversion Hstep).
  pose proof (awaited_cases _ s (next_grows config signal cancelled (event :: events) s Hs)) as H.
  cbn [next] in H. destruct (awaited (handle event) s) as [s2 result|h call].
  - rewrite Hh in H. injection H as <- <-. specialize (IH s1 Hs1).
    destruct (serve signal cancelled events s1) as [[ended result|h call]|].
    + destruct IH as (s' & Ha & ?). exists s'. cbn [after]. by rewrite He, Hh.
    + destruct IH as (Hr & before & rest & s' & u & v & -> & Ha & ?). split; [done|].
      exists (event :: before), rest, s', u, v. cbn [after app]. by rewrite He, Hh.
    + destruct IH as (before & e & rest & s' & -> & Ha & ?). exists (event :: before), e, rest, s'.
      cbn [after app]. by rewrite He, Hh.
  - destruct H as (Hr & u & v & Hu & Ht & Hs'). split; [done|].
    exists [], (event :: events), s, u, v. split_and!; try done. by intros ? [= <-].
Qed.

(** C6: a run of the bridge ends by its shutdown signal, and then in order, or never. From a state the
    loop reaches, with intervals the clock can represent, whatever events are handed to it and
    whatever they make the gateway and the broker answer, one of three things happens. Some event
    cannot be delivered there. Or the handler of an event, or the shutdown, makes a call that
    never returns, such as a publication for which the broker's client has no room, and there it
    waits for ever, deaf to the signal; so this does not happen if every call returns. Or every
    event is handled and the run returns: if the signal could not be awaited it returns that
    error at once; otherwise it holds no gateway and no setup any more, a gateway it held and the
    gateway of a cancelled setup have been shut down, and the result is that of the broker's
    disconnection, or success if the broker was not connected. *)
Theorem run_until_returns (config : VeluxMqttBridgeConfig.t) (s : St.t)
    (signal : outcome BridgeError.t unit) (cancelled : option GatewayHandle)
    (events : list BridgeEvent.t) :
  running config s → intervals_fit s → Forall event_wf events → signal ≠ Panic →
  match run_until signal cancelled events s with
  | None => ∃ before event rest s',
      events = before ++ event :: rest ∧ after before s = Some s'
      ∧ enabled (St.bridge s') event = false
  | Some (Ended.Waiting h call) => stalled signal cancelled events s h call
  | Some (Ended.Returned ended result) => ∃ s', after events s = Some s' ∧
      match signal with
      | Err e => ended = s' ∧ result = Err e
      | _ =>
          let b := St.bridge s' in
          let reboot := VeluxMqttBridgeConfig.reboot_on_shutdown (Bridge.config b) in
          gateway (St.bridge ended) = None ∧ setup (St.bridge ended) = false
          ∧ (∀ g, gateway b = Some g ∨ setup b = true ∧ cancelled = Some g →
             Action.GatewayShutdown g reboot ∈ drop (length (St.history s')) (St.history ended))
          ∧ (mqtt_connected b = false → result = Ok tt)
          ∧ (mqtt_connected b = true → ∃ h, St.history ended = h ++ [Action.MqttDisconnect]
             ∧ match disconnect_result h with
               | Ok _ => result = Ok tt
               | Err e => result = Err (BridgeError.Mqtt e)
               | Panic => False
               end)
      end
  end.
Proof.
  intros Hs Hfit Hw Hsig. rewrite run_until_serves by done.
  pose proof (serve_cases config signal cancelled events s Hs Hw) as H.
  destruct (serve signal cancelled events s) as [[ended result|h call]|]; [|done..].
  destruct H as (s' & Ha & Hs' & Hended). exists s'. split; [done|].
  destruct signal as [[]|e|]; [|by injection Hended|done].
  pose proof (shutdown_effects config s' cancelled Hs') as Hd. revert Hended Hd. handler_cbn.
  destruct (shutdown cancelled s') as [s2 r]. intros [= -> ->]. cbn.
  intros (Hh & Hg & Hset & Hr). rewrite Hh. split_and!; [done..| | |].
  - intros g Hgs. rewrite <- !app_assoc, drop_app_length. rewrite !elem_of_app.
    destruct Hgs as [->|[-> ->]]; set_solver.
  - intros Hm. by rewrite Hm in Hr.
  - intros Hm. rewrite Hm in *. eexists. split; [done|exact Hr].
Qed.
End run.

Lemma shutdown_spec_witness :
  gateway (St.bridge (@shutdown quiet None (sample_state sample_events)).1) = None.
Proof.
  pose proof (@shutdown_spec quiet quiet_lawful sample_bridge_config _ None sample_online) as H.
  destruct (@shutdown quiet None (sample_state sample_events)) as [s' r].
  exact (proj1 (proj2 H)).
Defined.


Lemma run_until_returns_witness :
  match @run_until quiet (Ok tt) None sample_events (St.mk sample_bridge []) with
  | Some (Ended.Returned ended _) => gateway (St.bridge ended) = None
  | _ => False
  end.
Proof.
  pose proof (@run_until_returns quiet quiet_lawful sample_bridge_config (St.mk sample_bridge [])
    (Ok tt) None sample_events) as H.
  destruct (@run_until quiet (Ok tt) None sample_events (St.mk sample_bridge [])) as [[ended result|h call]|]
    eqn:Hr; [|vm_compute in Hr; discriminate Hr..].
  destruct H as (s' & _ & Hg & _).
  - apply (sample_running []); [constructor|vm_compute; reflexivity].
  - split; apply Z.leb_le; vm_compute; reflexivity.
  - apply sample_events_wf.
  - done.
  - exact Hg.
Defined.

(** With a broker's client that takes no publication, the same run waits in its first one: the
    announcement of the snapshot. *)
Definition blocking : Environment := {|
  call_returns _ a := if a is Action.Publish _ _ then false else true;
  publish_result := @publish_result quiet;
  disconnect_result := @disconnect_result quiet;
  send_result := @send_result quiet;
  state_result := @state_result quiet;
  shutdown_result := @shutdown_result quiet;
  now := @now quiet;
  instant_max := @instant_max quiet;
  random := @random quiet;
  to_vec := @to_vec quiet;
  to_value := @to_value quiet;
  value_to_string := @value_to_string quiet;
  package := @package quiet
|}.

Example blocked_run :
  @run_until blocking (Ok tt) None sample_events (St.mk sample_bridge [])
  = Some (Ended.Waiting [Action.StartSetup]
      (Action.Publish (TopicLayout.availability_publication (TopicLayout.mk "home/velux") false) true)).
Proof. vm_compute. reflexivity. Qed.
