(* ===== verification/BridgeEvents.v ===== *)
(** * The refresh and the events it causes

    While a handler runs, the bridge receives nothing: what the actor of its connection broadcasts
    meanwhile waits in the buffer of the bridge's receiver. The refresh sends a status request for
    every cover that is not moving, one after the other, and each of them makes the gateway
    notify. Here the handler, the actor and the broadcast channel are put together. *)

From S2P Require Import Prelude RustStd CommandIds Error Types Frame Command CommandLayout.
From S2P Require Import ResponseTypes ResponseFacts Connection ConnectionFacts Client Broadcast Tls.
From S2P Require Import VeluxNode NodeFacts Mqtt MqttFacts Broker HassDiscovery.
From S2P Require Import Bridge BridgeLogic BridgeFacts BridgeCommands BridgeQueue.
Import Bridge.

(** ** What the refresh asks *)

(** The covers that are not moving, in the order of their identifiers *)
Definition stationary_nodes (b : Bridge.t) : list NodeId.t :=
  List.filter (λ id, if cache b !! id is Some node then stationary node else false)
    (sorted_keys (cache b)).

Definition status_requests (g : GatewayHandle) (sids : list SessionId.t) (ids : list NodeId.t)
    : list Action.t :=
  zip_with (λ sid id, Action.Send g (status_request sid id)) sids ids.

(** From [h] to [h'], each of [ids] was asked for its status, once and in this order, under
    sessions that were free. *)
Definition asked (b : Bridge.t) (g : GatewayHandle) (ids : list NodeId.t) (h h' : list Action.t) : Prop :=
  ∃ sids, length sids = length ids
          ∧ Forall (λ sid, SessionIdAllocator.is_active (session_ids b) sid = false) sids
          ∧ h' = h ++ status_requests g sids ids.

Section asking.
Context `{E : Environment} `{L : !Lawful E}.

Lemma request_status_asks s g id :
  holds_data s → gateway (St.bridge s) = Some g →
  Z.of_nat (size (SessionIdAllocator.active (session_ids (St.bridge s)))) < 65535 →
  let (s', r) := logged (request_status id) s in
  let ids := session_ids (St.bridge s) in
  let ids' := session_ids (St.bridge s') in
  r = Ok tt ∧ holds_data s' ∧ St.bridge s' = set_session_ids ids' (St.bridge s)
  ∧ SessionIdAllocator.active ids ⊆ SessionIdAllocator.active ids'
  ∧ (size (SessionIdAllocator.active ids') ≤ S (size (SessionIdAllocator.active ids)))%nat
  ∧ ∃ sid, SessionIdAllocator.is_active ids sid = false
           ∧ St.history s' = St.history s ++ [Action.Send g (status_request sid id)].
Proof.
  intros Hs Hg Hsize. pose proof (commands_request_status id s Hs) as (Hdata & _ & Hp).
  destruct Hs as (_ & _ & Hwf). rewrite logged_returns by done.
  pose proof (request_status_spec s g id Hwf Hg) as Hspec.
  destruct (SessionIdAllocatorFacts.allocate_free _ Hwf Hsize) as (ids' & sid & Ha).
  pose proof (SessionIdAllocatorFacts.allocate_total _ Hwf) as Ht. rewrite Ha in Ht.
  destruct (request_status id s) as [s' r]. cbn [fst snd] in *. cbv zeta in *. rewrite Ha in Hspec.
  destruct Hspec as (Hb & Hh & Hact & _). rewrite Hact.
  split_and!; [done|done|done|set_solver| |].
  - rewrite size_union_alt. apply (Nat.add_le_mono _ 1); [|apply subseteq_size; set_solver].
    destruct (accepts_status _); [by rewrite size_singleton|rewrite size_empty; lia].
  - exists sid. split; [apply Ht|done].
Qed.

Lemma statuses_asked ids s g :
  holds_data s → gateway (St.bridge s) = Some g →
  Z.of_nat (size (SessionIdAllocator.active (session_ids (St.bridge s))) + length ids) ≤ 65535 →
  let (s', r) := for_each ids (λ id, logged (request_status id)) s in
  r = Ok tt ∧ St.bridge s' = set_session_ids (session_ids (St.bridge s')) (St.bridge s)
  ∧ asked (St.bridge s) g ids (St.history s) (St.history s').
Proof.
  revert s. induction ids as [|id ids IH]; intros s Hs Hg Hsize.
  { cbn. split_and!; [done|by destruct s as [[]]|]. exists []. by rewrite app_nil_r. }
  cbn [for_each length] in *. unfold mbind, M_bind.
  pose proof (request_status_asks s g id Hs Hg ltac:(lia)) as H1.
  destruct (logged (request_status id) s) as [s1 r1]. cbv zeta in H1.
  destruct H1 as (-> & Hs1 & Hb1 & Hsub & Hsize1 & sid & Hfree & Hh1).
  specialize (IH s1 Hs1). rewrite Hb1 in IH at 1. specialize (IH Hg ltac:(lia)).
  destruct (for_each ids _ s1) as [s' r]. destruct IH as (-> & Hb & sids & Hlen & Hsids & Hh).
  split_and!; [done|rewrite Hb, Hb1; by destruct (St.bridge s)|].
  exists (sid :: sids). cbn. split_and!; [lia| |by rewrite Hh, Hh1, <- app_assoc].
  constructor; [done|]. eapply Forall_impl; [exact Hsids|]. cbn. intros sid' Hsid'.
  unfold SessionIdAllocator.is_active in *. rewrite bool_decide_eq_false in *. set_solver.
Qed.

(** The refresh always returns, and asks exactly the covers that are not moving. *)
Lemma refresh_asks config s g :
  running config s → gateway (St.bridge s) = Some g →
  Z.of_nat (size (SessionIdAllocator.active (session_ids (St.bridge s)))
            + length (stationary_nodes (St.bridge s))) ≤ 65535 →
  let (s', r) := handle BridgeEvent.RefreshTick s in
  r = Ok tt ∧ running config s'
  ∧ St.bridge s' = set_session_ids (session_ids (St.bridge s')) (St.bridge s)
  ∧ asked (St.bridge s) g (stationary_nodes (St.bridge s)) (St.history s) (St.history s').
Proof.
  intros Hrun Hg Hsize. destruct (running_inv _ _ Hrun) as (l & Hs & _).
  pose proof (statuses_asked (stationary_nodes (St.bridge s)) s g (inv_data _ _ _ Hs) Hg Hsize) as H.
  destruct (running_step config s BridgeEvent.RefreshTick Hrun) as (s1 & Hstep & Hrun1);
    [cbn; unfold has_gateway; by rewrite Hg|done|].
  inversion Hstep as [? ? ? _ Hh]; subst. rewrite Hh.
  change (handle BridgeEvent.RefreshTick s)
    with (for_each (stationary_nodes (St.bridge s)) (λ id, logged (request_status id)) s) in Hh.
  rewrite Hh in H. destruct H as (_ & Hb & Ha). by split_and!.
Qed.

(** A lag after the refresh costs the gateway. *)
Lemma lag_drops config s s' ids g lag :
  running config s' → St.bridge s' = set_session_ids ids (St.bridge s) →
  gateway (St.bridge s) = Some g →
  let (s'', r) := handle (BridgeEvent.GatewayEvent (Recv.Lagged lag)) s' in
  r = Ok tt ∧ dropped (St.bridge s) (St.bridge s'')
  ∧ St.history s'' = St.history s' ++ announcement s' false.
Proof.
  intros (l & Hs & Hc)%running_inv Hb Hg. cbn [handle handle_gateway_event].
  rewrite (gateway_failed_eq _ _ _ s' Hs Hc) by (rewrite Hb; cbn; congruence).
  unfold failed_state. destruct (drawn_delay s') as [r delay]. split; [done|]. split.
  - cbn [St.bridge]. rewrite Hb. exact (dropped_drop (set_session_ids ids (St.bridge s)) _ _).
  - done.
Qed.
End asking.

(** ** What it hears meanwhile

    [turns] are the turns the actor makes while the bridge awaits an action, after a history: what
    the scheduler, the clock and the gateway do. *)
Section overhearing.
Context `{E : Environment} `{L : !Lawful E} `{B : BroadcastChannel Q}.
Context (settings : ConnectionSettings.t) (turns : list Action.t → Action.t → list Turn.t).

Fixpoint meanwhile (h actions : list Action.t) : list Turn.t :=
  match actions with
  | [] => []
  | a :: actions => turns h a ++ meanwhile (h ++ [a]) actions
  end.

(** The actor and the receiver of its events after the actions that extend [h] to [h'] *)
Definition overhear (actor : Actor.t) (q : Q) (h h' : list Action.t)
    : option (Actor.t * Q * option Exit.t) :=
  '(actor, effects, exit) ← Connection.run settings actor (meanwhile h (drop (length h) h'));
  Some (actor, send_all q (emitted effects), exit).

Definition arriving (p : Input.t → bool) (h : list Action.t) (a : Action.t) : nat :=
  count p (Turn.input <$> turns h a).

Lemma meanwhile_at_most p m h actions :
  (∀ h a, arriving p h a ≤ m)%nat →
  (count p (Turn.input <$> meanwhile h actions) ≤ m * length actions)%nat.
Proof.
  intros Hm. revert h. induction actions as [|a actions IH]; intros h; cbn [meanwhile length]; [cbn; lia|].
  rewrite fmap_app, count_app. specialize (IH (h ++ [a])). specialize (Hm h a).
  unfold arriving in Hm. lia.
Qed.

Lemma meanwhile_at_least p m g sids ids h :
  (∀ h sid id, m ≤ arriving p h (Action.Send g (status_request sid id)))%nat →
  length sids = length ids →
  (m * length ids ≤ count p (Turn.input <$> meanwhile h (status_requests g sids ids)))%nat.
Proof.
  intros Hm. revert ids h. induction sids as [|sid sids IH]; intros [|id ids] h Hlen; try done.
  { cbn. lia. }
  cbn [status_requests zip_with meanwhile length]. rewrite fmap_app, count_app. specialize (IH ids (h ++ [Action.Send g (status_request sid id)])).
  specialize (Hm h sid id). unfold arriving in Hm. cbn in Hlen. specialize (IH ltac:(lia)).
  unfold status_requests in *. lia.
Qed.

Lemma status_requests_length g sids ids :
  length sids = length ids → length (status_requests g sids ids) = length ids.
Proof. intros Hlen. unfold status_requests. rewrite length_zip_with. lia. Qed.

(** C12: the refresh asks the gateway for the status of exactly the covers that are not moving, each
    once, in the order of their identifiers and under sessions that were free, and returns. If at
    most [m] items arrive per request and the buffer of the bridge's receiver has room for [m] of
    them per cover, besides what is unread and the sessions the actor may expire, then nothing the
    actor broadcasts meanwhile is lost: the bridge then receives all of it, one by one, in order. *)
Theorem refresh_keeps_up (config : VeluxMqttBridgeConfig.t) (s : St.t) (g : GatewayHandle)
    (actor actor' : Actor.t) (q q' : Q) (exit : option Exit.t) (m : nat) :
  let covers := length (stationary_nodes (St.bridge s)) in
  running config s → gateway (St.bridge s) = Some g →
  Z.of_nat (size (SessionIdAllocator.active (session_ids (St.bridge s))) + covers) ≤ 65535 →
  (∀ h a, arriving is_received h a ≤ m)%nat →
  (length (unread q) + size (Actor.sessions actor) + m * covers ≤ buffer q)%nat → missed q = 0%nat →
  let (s', r) := handle BridgeEvent.RefreshTick s in
  overhear actor q (St.history s) (St.history s') = Some (actor', q', exit) →
  r = Ok tt ∧ asked (St.bridge s) g (stationary_nodes (St.bridge s)) (St.history s) (St.history s')
  ∧ ∃ events, unread q' = unread q ++ events
              ∧ received (length (unread q')) q' = Recv.Event <$> unread q ++ events.
Proof.
  intros covers Hrun Hg Hsize Hm Hroom Hmissed. subst covers.
  pose proof (refresh_asks config s g Hrun Hg Hsize) as H.
  destruct (handle BridgeEvent.RefreshTick s) as [s' r]. destruct H as (-> & _ & _ & Hasked).
  intros Hover. split; [done|]. split; [done|]. destruct Hasked as (sids & Hlen & _ & Hh).
  apply bind_Some in Hover as ([[a e] x] & Hr & [= -> <- ->]).
  apply run_emits in Hr as Hcount. rewrite Hh, drop_app_length in Hcount.
  pose proof (count_prefix is_received _ _ (consumed_prefix settings
    (meanwhile (St.history s) (status_requests g sids (stationary_nodes (St.bridge s)))) actor)) as Hc.
  pose proof (meanwhile_at_most is_received m (St.history s)
    (status_requests g sids (stationary_nodes (St.bridge s))) Hm) as Hbound.
  rewrite status_requests_length in Hbound by done.
  destruct (send_all_spec q (emitted e)) as (Hu & Hmiss & _); [lia|].
  assert (excess q (emitted e) = 0%nat) as Hx by (unfold excess; lia). rewrite Hx in Hu, Hmiss.
  exists (emitted e). split; [done|]. rewrite received_all by lia. by rewrite Hu.
Qed.

(** C11: a refresh of too many covers costs the bridge its gateway. If the gateway notifies at least
    [m] times for each status request, as long as the connection is up, and the buffer of the
    bridge's receiver has not room for [m] notifications per cover besides what is unread, then
    the next thing the bridge receives is that it lagged; and on that it drops the gateway with
    its events and sessions, marks every node unavailable and, if the broker is connected,
    announces "offline" and says nothing else. The connection was up, and it is dropped without a
    request to disable the house monitor: all the gateway was asked for since is the status of
    its covers. *)
Theorem refresh_overruns (config : VeluxMqttBridgeConfig.t) (s : St.t) (g : GatewayHandle)
    (actor actor' : Actor.t) (q q' : Q) (m : nat) :
  let covers := length (stationary_nodes (St.bridge s)) in
  running config s → gateway (St.bridge s) = Some g →
  Z.of_nat (size (SessionIdAllocator.active (session_ids (St.bridge s))) + covers) ≤ 65535 →
  (∀ h sid id, m ≤ arriving is_notification h (Action.Send g (status_request sid id)))%nat →
  awaits (Actor.pending actor) →
  (length (unread q) ≤ buffer q < length (unread q) + m * covers)%nat →
  let (s', r) := handle BridgeEvent.RefreshTick s in
  overhear actor q (St.history s) (St.history s') = Some (actor', q', None) →
  r = Ok tt ∧ asked (St.bridge s) g (stationary_nodes (St.bridge s)) (St.history s) (St.history s')
  ∧ ∃ lag q'', recv q' = Some (Recv.Lagged lag, q'') ∧ (0 < lag)%nat
    ∧ let (s'', r') := handle (BridgeEvent.GatewayEvent (Recv.Lagged lag)) s' in
      r' = Ok tt ∧ dropped (St.bridge s) (St.bridge s'')
      ∧ if mqtt_connected (St.bridge s) then
          ∃ accepted, St.history s''
            = St.history s' ++ [Action.Publish
                (TopicLayout.availability_publication (topics (St.bridge s)) false) accepted]
        else St.history s'' = St.history s'.
Proof.
  intros covers Hrun Hg Hsize Hm Hawaits [Hfit Hroom]. subst covers.
  pose proof (refresh_asks config s g Hrun Hg Hsize) as H.
  destruct (handle BridgeEvent.RefreshTick s) as [s' r]. destruct H as (-> & Hrun' & Hb & Hasked).
  intros Hover. split; [done|]. split; [done|]. destruct Hasked as (sids & Hlen & _ & Hh).
  apply bind_Some in Hover as ([[a e] x] & Hr & [= -> <- ->]).
  apply run_notifies in Hr as Hcount; [|done]. rewrite (run_through _ _ _ _ _ Hr) in Hcount.
  rewrite Hh, drop_app_length in Hcount.
  pose proof (meanwhile_at_least is_notification m g sids _ (St.history s) Hm Hlen) as Hbound.
  destruct (send_all_spec q (emitted e) Hfit) as (_ & Hmiss & _). unfold excess in Hmiss.
  destruct (recv_lagged (send_all q (emitted e))) as (q'' & Hrecv & _); [lia|].
  eexists _, q''. split; [exact Hrecv|]. split; [lia|].
  pose proof (lag_drops config _ _ _ g (missed (send_all q (emitted e))) Hrun' Hb Hg) as Hlag.
  destruct (handle _ s') as [s'' r']. destruct Hlag as (-> & Hd & Hh'). split_and!; [done..|].
  rewrite Hh'. unfold announcement. rewrite Hb.
  change (mqtt_connected (set_session_ids _ ?b)) with (mqtt_connected b).
  destruct (mqtt_connected (St.bridge s)); [by eexists|apply app_nil_r].
Qed.
End overhearing.

(** ** Witnesses: a gateway that answers every status request at once, with a confirmation, the
    status and the end of the session; the buffer of the default settings, 64 *)
Definition arrival (command : CommandId) (payload : list Z) : Turn.t :=
  Turn.mk None 0 (Input.Received (Some (Incoming.IncomingFrame (Frame.new command payload)))) 0.

Definition prompt (h : list Action.t) (a : Action.t) : list Turn.t :=
  match a with
  | Action.Send _ (Request.StatusRequest sid target _ as request) =>
      let session := u16_to_be_bytes (SessionId.get sid) in
      let node := NodeId.get <$> CommandTarget.nodes target in
      [Turn.mk None 0 (Input.Command (Some (ActorCommand.Send request 1%nat))) 0;
       arrival GW_STATUS_REQUEST_CFM (session ++ [1]);
       arrival GW_STATUS_REQUEST_NTF
         (session ++ [1] ++ node ++ [0; 1; 3; 0xC8; 0; 0xC8; 0; 0; 0; 0; 0; 0; 0; 1]);
       arrival GW_SESSION_FINISHED_NTF session]
  | _ => []
  end.

Lemma prompt_received h a : (arriving prompt is_received h a ≤ 3)%nat.
Proof. destruct a as [| |g []| | | |]; cbn; lia. Qed.

(** The bridge after a set-up with so many covers, and what its receiver heard of a refresh *)
Definition covers_state (n : Z) : St.t := sample_state (cover_events n).

Definition refreshed (n : Z) : St.t := (@handle quiet BridgeEvent.RefreshTick (covers_state n)).1.

Definition overheard (n : Z) : option (Actor.t * Ring.t * option Exit.t) :=
  overhear ConnectionSettings.default prompt Actor.init (Ring.new ConnectionSettings.default)
    (St.history (covers_state n)) (St.history (refreshed n)).

Definition heard (n : Z) : Actor.t * Ring.t * option Exit.t :=
  default (Actor.init, Ring.new ConnectionSettings.default, None) (overheard n).

Lemma heard_eq n : is_Some (overheard n) → overheard n = Some ((heard n).1.1, (heard n).1.2, (heard n).2).
Proof. unfold heard. intros [[[a q] x] ->]. done. Qed.

Definition notification (item : Recv.t) : option CommandId :=
  match item with
  | Recv.Event (ConnectionEvent.Notification r) => Some (response_command r)
  | _ => None
  end.

Example heard_of_two :
  omap notification (received 9 (heard 2).1.2)
  = [GW_STATUS_REQUEST_NTF; GW_SESSION_FINISHED_NTF; GW_STATUS_REQUEST_NTF; GW_SESSION_FINISHED_NTF].
Proof. vm_compute. reflexivity. Qed.

(** 32 covers still fit the buffer, one more does not. *)
Example heard_of_33 :
  missed (heard 32).1.2 = 0%nat
  ∧ (fst <$> recv (heard 33).1.2) = Some (Recv.Lagged 2) ∧ (heard 33).2 = None.
Proof. vm_compute. split_and!; reflexivity. Qed.

Lemma covers_gateway n : gateway (St.bridge (covers_state n)) = Some 0%nat.
Proof. reflexivity. Qed.

Lemma refresh_keeps_up_witness :
  let q := (heard 20).1.2 in
  @running quiet sample_bridge_config (covers_state 20)
  ∧ length (stationary_nodes (St.bridge (covers_state 20))) = 20%nat
  ∧ ∃ events, unread q = events ∧ received (length events) q = Recv.Event <$> events.
Proof.
  cbv zeta.
  assert (@running quiet sample_bridge_config (covers_state 20)) as Hrun
    by (apply (covers_running 20); [lia|vm_compute; reflexivity]).
  assert (length (stationary_nodes (St.bridge (covers_state 20))) = 20%nat) as Hlen
    by (vm_compute; reflexivity).
  split; [exact Hrun|]. split; [exact Hlen|].
  pose proof (@refresh_keeps_up quiet quiet_lawful Ring.t Ring.receiver Ring.broadcast
    ConnectionSettings.default prompt sample_bridge_config (covers_state 20) 0%nat Actor.init
    (heard 20).1.1 (Ring.new ConnectionSettings.default) (heard 20).1.2 (heard 20).2 3 Hrun
    (covers_gateway 20) ltac:(apply (bool_decide_unpack _); vm_compute; exact I) prompt_received
    ltac:(rewrite Hlen; apply (bool_decide_unpack _); vm_compute; exact I) eq_refl) as H.
  pose proof (heard_eq 20 ltac:(apply (bool_decide_unpack _); vm_compute; exact I)) as Hheard.
  unfold overheard, refreshed in Hheard.
  destruct (@handle quiet BridgeEvent.RefreshTick (covers_state 20)) as [s' r].
  destruct (H Hheard) as (_ & _ & events & Hu & Hr). exists (unread (heard 20).1.2).
  split; [reflexivity|]. rewrite Hr, Hu. reflexivity.
Defined.

Lemma refresh_overruns_witness :
  @running quiet sample_bridge_config (covers_state 52)
  ∧ ∃ lag, fst <$> recv (heard 52).1.2 = Some (Recv.Lagged lag)
           ∧ gateway (St.bridge (@handle quiet (BridgeEvent.GatewayEvent (Recv.Lagged lag))
                                   (refreshed 52)).1) = None.
Proof.
  split; [exact many_running|].
  assert (∀ h sid id, 2 ≤ arriving prompt is_notification h (Action.Send 0 (status_request sid id)))%nat
    as Hm by (intros; vm_compute; lia).
  pose proof (@refresh_overruns quiet quiet_lawful Ring.t Ring.receiver Ring.broadcast
    ConnectionSettings.default prompt sample_bridge_config (covers_state 52) 0%nat Actor.init
    (heard 52).1.1 (Ring.new ConnectionSettings.default) (heard 52).1.2 2 many_running
    (covers_gateway 52) ltac:(apply (bool_decide_unpack _); vm_compute; exact I) Hm
    ltac:(intros ? [=]) ltac:(apply (bool_decide_unpack _); vm_compute; exact I)) as H.
  pose proof (heard_eq 52 ltac:(apply (bool_decide_unpack _); vm_compute; exact I)) as Hheard.
  assert ((heard 52).2 = None) as Hup by (vm_compute; reflexivity). rewrite Hup in Hheard.
  unfold overheard, refreshed in *.
  destruct (@handle quiet BridgeEvent.RefreshTick (covers_state 52)) as [s' r].
  destruct (H Hheard) as (_ & _ & lag & q'' & Hq & _ & Hdrop). exists lag. rewrite Hq.
  split; [reflexivity|]. cbn [fst].
  destruct (@handle quiet (BridgeEvent.GatewayEvent (Recv.Lagged lag)) s') as [s'' r'].
  exact (proj1 (proj1 (proj2 Hdrop))).
Defined.
