(* ===== verification/Setup.v ===== *)
(** * Setting up a gateway (bridge.rs, [prepare_gateway] and the [Gateway] trait)

    The task the bridge spawns to connect a gateway: it logs in, disables a stale monitor,
    discovers nodes and groups, queries the status of every cover and enables the monitor. Every
    [await] can be the point where the task is cancelled. What the gateway answers is an
    interface, a function of what was asked before; the client of [Client] implements it. *)

From stdpp Require Import sorting.
From S2P Require Import Prelude RustStd CommandIds Error Types Frame Command.
From S2P Require Import ResponseTypes Connection Client VeluxNode Mqtt Bridge.

(** What the task does, in order *)
Module SetupAction.
Inductive t :=
| Connect
| Login (password : string)
| Version
| ProtocolVersion
| Send (request : Request.t)
| DiscoverNodes
| DiscoverGroups
| NodeInformation (node_id : NodeId.t)
| Subscribe
| AwaitStatus (session_id : SessionId.t)
| Shutdown (reboot : bool).
Global Instance eq_dec : EqDecision t.
Proof. solve_decision. Defined.
End SetupAction.

Abbreviation Trace := (list SetupAction.t) (only parsing).

(** The connector and the gateway it connects. An answer is [None] when the task is cancelled
    before it arrives. [status_events] is what the receiver yields until the wait ends, and
    whether it ends because the task is cancelled rather than by the timeout. *)
Class Gateway := {
  connect_answer : Trace → option (KlfResult GatewayHandle);
  login_answer : Trace → string → option (KlfResult unit);
  version_answer : Trace → option (KlfResult Version.t);
  protocol_version_answer : Trace → option (KlfResult ProtocolVersion.t);
  discover_nodes_answer : Trace → option (KlfResult (list NodeInformation.t));
  node_information_answer : Trace → NodeId.t → option (KlfResult NodeInformation.t);
  discover_groups_answer : Trace → option (KlfResult (list GroupInformation.t));
  send_answer : Trace → Request.t → option (KlfResult Response.t);
  status_events : Trace → list Recv.t * bool;
  shutdown_answer : Trace → bool → KlfResult unit
}.

(** How a part of the task ends *)
Inductive ended (A : Type) : Type :=
| Done (a : A)
| Failed (e : BridgeError.t)
| Cancelled
| Panicked.
Arguments Done {A} a.
Arguments Failed {A} e.
Arguments Cancelled {A}.
Arguments Panicked {A}.

Definition SetupM (A : Type) : Type := Trace → Trace * ended A.

Global Instance SetupM_ret : MRet SetupM := λ A a h, (h, Done a).
Global Instance SetupM_bind : MBind SetupM := λ A B f m h,
  let (h, r) := m h in
  match r with
  | Done a => f a h
  | Failed e => (h, Failed e)
  | Cancelled => (h, Cancelled)
  | Panicked => (h, Panicked)
  end.

(** An [await], its result for a [match] *)
Definition await {A} (action : SetupAction.t) (answer : Trace → option (KlfResult A))
    : SetupM (KlfResult A) := λ h,
  (h ++ [action],
   match answer h with
   | Some Panic => Panicked
   | Some r => Done r
   | None => Cancelled
   end).

(** [?] on such a result; the context is not kept *)
Definition try {A} (r : KlfResult A) : SetupM A := λ h,
  (h, match r with
      | Ok a => Done a
      | Err e => Failed (BridgeError.Klf e)
      | Panic => Panicked
      end).

Module InitializedGateway.
Record t := mk {
  cache : gmap NodeId.t VeluxNode.t;
  groups : gmap GroupId.t GroupInformation.t;
  session_ids : SessionIdAllocator.t
}.
End InitializedGateway.

Section setup.
Context `{Gateway}.

(** ** The initial status of a node *)

(** The cache and the sessions a query works on *)
Definition Queried : Type := (gmap NodeId.t VeluxNode.t * SessionIdAllocator.t)%type.

Definition release (ids : SessionIdAllocator.t) (session_id : SessionId.t) : SessionIdAllocator.t :=
  (SessionIdAllocator.release ids session_id).1.

(** [matches!(.., Response::StatusNotification(status) if ..)] *)
Definition completes (session_id : SessionId.t) (node_id : NodeId.t) (response : Response.t) : bool :=
  match response with
  | Response.StatusNotification status =>
      bool_decide (StatusNotification.session_id status = session_id)
      && bool_decide (StatusNotification.node_id status = node_id)
  | _ => false
  end.

(** The receive loop; [None] when the wait ends first *)
Fixpoint receive_status (session_id : SessionId.t) (node_id : NodeId.t) (events : list Recv.t)
    (q : Queried) : Queried * option (outcome BridgeError.t unit) :=
  let (cache, ids) := q in
  match events with
  | [] => (q, None)
  | Recv.Event (ConnectionEvent.Notification response) :: events =>
      let ids := match response with
                 | Response.SessionFinished finished => release ids finished
                 | _ => ids
                 end in
      let cache := (VeluxNodeCache.apply_response cache response).1 in
      if completes session_id node_id response then ((cache, ids), Some (Ok tt))
      else receive_status session_id node_id events (cache, ids)
  | Recv.Event (ConnectionEvent.SessionTimedOut expired) :: events =>
      let ids := release ids expired in
      if bool_decide (expired = session_id)
      then ((cache, ids), Some (Err (BridgeError.SessionTimedOut session_id)))
      else receive_status session_id node_id events (cache, ids)
  | Recv.Event (ConnectionEvent.Disconnected message) :: _ =>
      (q, Some (Err (BridgeError.Disconnected message)))
  | Recv.Event _ :: events => receive_status session_id node_id events q
  | (Recv.Closed | Recv.Lagged _) as item :: _ => (q, Some (Err (BridgeError.Receive item)))
  end.

Definition await_status (session_id : SessionId.t) (node_id : NodeId.t) (q : Queried)
    : SetupM (Queried * outcome BridgeError.t unit) := λ h,
  let (events, cancelled) := status_events h in
  let (q, result) := receive_status session_id node_id events q in
  (h ++ [SetupAction.AwaitStatus session_id],
   match result with
   | Some result => Done (q, result)
   | None => if cancelled then Cancelled else Done (q, Err (BridgeError.StatusTimedOut node_id))
   end).

Definition status_query (session_id : SessionId.t) (target : CommandTarget.t) : Request.t :=
  Request.StatusRequest session_id target StatusRequestType.MainInformation.

Definition query_initial_status (node_id : NodeId.t) (q : Queried)
    : SetupM (Queried * outcome BridgeError.t unit) :=
  let (cache, ids) := q in
  let (ids, allocated) := SessionIdAllocator.allocate ids in
  match allocated with
  | Err error => mret ((cache, ids), Err (BridgeError.Klf error))
  | Panic => λ h, (h, Panicked)
  | Ok session_id =>
      match CommandTarget.new [node_id] with
      | Err error => mret ((cache, ids), Err (BridgeError.Klf error))
      | Panic => λ h, (h, Panicked)
      | Ok target =>
          let request := status_query session_id target in
          answer ← await (SetupAction.Send request) (λ h, send_answer h request);
          match answer with
          | Ok (Response.StatusAccepted _ status) =>
              if status =? 1 then await_status session_id node_id (cache, ids)
              else mret ((cache, release ids session_id), Err (BridgeError.Rejected session_id status))
          | Ok response =>
              mret ((cache, release ids session_id), Err (BridgeError.Unexpected response))
          | Err error => mret ((cache, release ids session_id), Err (BridgeError.Klf error))
          | Panic => λ h, (h, Panicked)
          end
      end
  end.

(** One iteration of the loop over the controllable nodes: a failed query is only logged. *)
Definition query_node (node_id : NodeId.t) (q : Queried) : SetupM Queried :=
  let (cache, ids) := q in
  let cache := match cache !! node_id with
               | Some node => <[node_id := (VeluxNode.mark_status_unknown node).1]> cache
               | None => cache
               end in
  answer ← query_initial_status node_id (cache, ids);
  mret answer.1.

Fixpoint query_nodes (node_ids : list NodeId.t) (q : Queried) : SetupM Queried :=
  match node_ids with
  | [] => mret q
  | node_id :: node_ids => q ← query_node node_id q; query_nodes node_ids q
  end.

(** ** Discovery *)

(** [.map(|group| (group.group_id, group)).collect::<BTreeMap<_, _>>()] *)
Definition groups_by_id (groups : list GroupInformation.t) : gmap GroupId.t GroupInformation.t :=
  foldl (λ m group, <[GroupInformation.group_id group := group]> m) ∅ groups.

(** The members of all groups that are node identifiers, in ascending order *)
Definition group_members (groups : gmap GroupId.t GroupInformation.t) : list NodeId.t :=
  merge_sort node_id_le
    (elements (list_to_set (groups_of groups ≫= λ group,
       omap (λ index : nat, then_some (index <? 256)%nat (NodeId.new (Z.of_nat index)))
         (ActuatorSet.iter (GroupInformation.actuators group))) : gset NodeId.t)).

Fixpoint recover_members (node_ids : list NodeId.t) (cache : gmap NodeId.t VeluxNode.t)
    : SetupM (gmap NodeId.t VeluxNode.t) :=
  match node_ids with
  | [] => mret cache
  | node_id :: node_ids =>
      match cache !! node_id with
      | Some _ => recover_members node_ids cache
      | None =>
          answer ← await (SetupAction.NodeInformation node_id)
                     (λ h, node_information_answer h node_id);
          recover_members node_ids
            (match answer with
             | Ok information =>
                 (VeluxNodeCache.apply_response cache (Response.NodeInformation information)).1
             | _ => cache
             end)
      end
  end.

Definition controllable_nodes (cache : gmap NodeId.t VeluxNode.t) : list NodeId.t :=
  List.filter
    (λ id, if cache !! id is Some node then VeluxNode.is_controllable node else false)
    (sorted_keys cache).

Definition await_ok {A} (action : SetupAction.t) (answer : Trace → option (KlfResult A)) : SetupM A :=
  result ← await action answer; try result.

Definition send_ok (request : Request.t) : SetupM Response.t :=
  await_ok (SetupAction.Send request) (λ h, send_answer h request).

Definition perform (action : SetupAction.t) : SetupM unit := λ h, (h ++ [action], Done tt).

Definition initialize_gateway (password : string) : SetupM InitializedGateway.t :=
  _ ← await_ok (SetupAction.Login password) (λ h, login_answer h password);
  _ ← await_ok SetupAction.Version version_answer;
  _ ← await_ok SetupAction.ProtocolVersion protocol_version_answer;
  _ ← send_ok Request.HouseStatusMonitorDisable;
  information ← await_ok SetupAction.DiscoverNodes discover_nodes_answer;
  let cache := (VeluxNodeCache.reconcile VeluxNodeCache.new information).1 in
  groups ← await_ok SetupAction.DiscoverGroups discover_groups_answer;
  let groups := groups_by_id groups in
  cache ← recover_members (group_members groups) cache;
  _ ← perform SetupAction.Subscribe;
  q ← query_nodes (controllable_nodes cache) (cache, SessionIdAllocator.new);
  _ ← send_ok Request.HouseStatusMonitorEnable;
  mret (InitializedGateway.mk q.1 groups q.2).

(** [prepare_gateway]: the cancellation ends the branch of the [select!] it interrupts. *)
Definition prepare_gateway (password : string) : SetupM PreparedGateway.t := λ h,
  let (h, connected) := await SetupAction.Connect connect_answer h in
  match connected with
  | Done (Ok gateway) =>
      let (h, setup_result) := initialize_gateway password h in
      let close error := (h ++ [SetupAction.Shutdown false], Failed error) in
      match setup_result with
      | Done initialized =>
          (h, Done (PreparedGateway.mk gateway (InitializedGateway.cache initialized)
                      (InitializedGateway.groups initialized)
                      (InitializedGateway.session_ids initialized)))
      | Failed error => close error
      | Cancelled => close (BridgeError.Bail "KLF setup cancelled")
      | Panicked => (h, Panicked)
      end
  | Done (Err error) => (h, Failed (BridgeError.Klf error))
  | Done Panic | Panicked => (h, Panicked)
  | Failed error => (h, Failed error)
  | Cancelled => (h, Failed (BridgeError.Bail "KLF setup cancelled before connecting"))
  end.
End setup.

(** ** The task as the bridge sees it *)

(** [wait_for_setup]: a task that panicked is an error of the join. *)
Definition setup_result (result : ended PreparedGateway.t) : outcome BridgeError.t PreparedGateway.t :=
  match result with
  | Done prepared => Ok prepared
  | Failed error => Err error
  | Cancelled | Panicked => Err (BridgeError.Bail "KLF setup task failed")
  end.

(** [GatewaySetup::cancel]: the gateway of a setup that completed nevertheless. *)
Definition cancel_setup (result : ended PreparedGateway.t) : option GatewayHandle :=
  match result with
  | Done prepared => Some (PreparedGateway.gateway prepared)
  | _ => None
  end.

(** ** The client as a gateway (impl Gateway for Klf200Client)

    The actor's reply to each request, what the client's receiver yields, and the channel a
    shutdown is answered on; [replies] is [None] when the task is cancelled meanwhile. *)
Record ClientWorld := {
  connects : Trace → option (KlfResult GatewayHandle);
  replies : Trace → option (Request.t → KlfResult Response.t);
  receives : Trace → list Recv.t;
  waits : Trace → list Recv.t * bool;
  closing : Trace → Request.t → KlfResult Response.t;
  channel : Trace → ShutdownChannel.t
}.

Definition client_gateway (w : ClientWorld) : Gateway := {|
  connect_answer := connects w;
  login_answer h password := (λ send, Client.login send password) <$> replies w h;
  version_answer h := Client.version <$> replies w h;
  protocol_version_answer h := Client.protocol_version <$> replies w h;
  discover_nodes_answer h := (λ send, Client.discover_nodes send (receives w h)) <$> replies w h;
  node_information_answer h node_id :=
    (λ send, Client.node_information send node_id (receives w h)) <$> replies w h;
  discover_groups_answer h := (λ send, Client.discover_groups send (receives w h)) <$> replies w h;
  send_answer h request := (λ send, send request) <$> replies w h;
  status_events := waits w;
  shutdown_answer h reboot :=
    (if reboot then Client.shutdown_and_reboot (closing w h) (channel w h)
     else Client.shutdown (closing w h) (channel w h)).2
|}.
