(* ===== verification/SetupFacts.v ===== *)
(** * What the setup of a gateway guarantees

    The rules for the task's steps; the exact sequence of a completed setup; that a gateway is
    handed over or closed, never lost; that what is handed over is well formed; what the query of
    a node's status does; and the client as an implementation of the gateway's interface. *)

From stdpp Require Import sorting.
From S2P Require Import Prelude RustStd CommandIds Error Types Frame Command CommandLayout.
From S2P Require Import ResponseTypes ResponseFacts Connection Client VeluxNode NodeFacts.
From S2P Require Import Mqtt Bridge BridgeLogic BridgeFacts BridgeCommands Setup.

(** ** What a gateway promises *)
Definition recv_wf (item : Recv.t) : Prop :=
  match item with
  | Recv.Event (ConnectionEvent.Notification r) => response_wf r
  | _ => True
  end.

(** No answer panics, and what is answered was decoded. *)
Class LawfulGateway (G : Gateway) : Prop := {
  connect_total h : connect_answer h ≠ Some Panic;
  login_total h p : login_answer h p ≠ Some Panic;
  version_total h : version_answer h ≠ Some Panic;
  protocol_version_total h : protocol_version_answer h ≠ Some Panic;
  discover_nodes_total h : discover_nodes_answer h ≠ Some Panic;
  node_information_total h id : node_information_answer h id ≠ Some Panic;
  discover_groups_total h : discover_groups_answer h ≠ Some Panic;
  answer_total h r : send_answer h r ≠ Some Panic;
  discovered_nodes h l : discover_nodes_answer h = Some (Ok l) → Forall node_information_wf l;
  discovered_groups h l : discover_groups_answer h = Some (Ok l) → Forall group_wf l;
  informed_node h id i :
    node_information_answer h id = Some (Ok i) → node_information_wf i ∧ NodeInformation.node_id i = id;
  notified h : Forall recv_wf (status_events h).1
}.

(** ** Rules

    [wp m ok Q h]: from the trace [h], the part [m] does only what is [ok], does not panic, and
    reaches [Q] if it completes. *)
Definition wp {A} (m : SetupM A) (ok : SetupAction.t → Prop) (Q : A → Trace → Prop) (h : Trace)
    : Prop :=
  let (h', r) := m h in
  extends ok h h' ∧ match r with Done a => Q a h' | Panicked => False | _ => True end.

Section rules.
Context (ok : SetupAction.t → Prop).

Lemma wp_ret {A} (a : A) Q h : Q a h → wp (mret a) ok Q h.
Proof. intros HQ. by split. Qed.

Lemma wp_bind {A B} (m : SetupM A) (f : A → SetupM B) Q h :
  wp m ok (λ a h1, wp (f a) ok Q h1) h → wp (m ≫= f) ok Q h.
Proof.
  unfold wp, mbind, SetupM_bind. destruct (m h) as [h1 [a|e| |]]; intros [Hh Hf]; try by split.
  destruct (f a h1) as [h2 r]. destruct Hf as [Hh' Hr]. split; [by etransitivity|done].
Qed.

Lemma wp_mono {A} (m : SetupM A) (Q Q' : A → Trace → Prop) h :
  wp m ok Q h → (∀ a h', Q a h' → Q' a h') → wp m ok Q' h.
Proof. unfold wp. destruct (m h) as [h' []]; intros [? ?] HQ; split; auto. Qed.

Lemma wp_perform a Q h : ok a → Q tt (h ++ [a]) → wp (perform a) ok Q h.
Proof. intros. split; [by apply extends_snoc|done]. Qed.

Lemma wp_await {A} a (answer : Trace → option (KlfResult A)) Q h :
  ok a → answer h ≠ Some Panic →
  (∀ r, answer h = Some r → Q r (h ++ [a])) → wp (await a answer) ok Q h.
Proof.
  intros Ha Hp HQ. unfold wp, await. split; [by apply extends_snoc|].
  destruct (answer h) as [[x|e|]|]; auto.
Qed.

Lemma wp_await_ok {A} a (answer : Trace → option (KlfResult A)) Q h :
  ok a → answer h ≠ Some Panic →
  (∀ x, answer h = Some (Ok x) → Q x (h ++ [a])) → wp (await_ok a answer) ok Q h.
Proof.
  intros Ha Hp HQ. apply wp_bind, wp_await; [done..|]. intros r Hr.
  unfold wp, try. split; [done|]. destruct r; [auto|done|congruence].
Qed.
End rules.

(** ** The query of one node *)
Section query.
Context `{G : Gateway} `{L : !LawfulGateway G}.

Local Abbreviation active := SessionIdAllocator.active (only parsing).

Definition queried_wf (q : Queried) : Prop := cache_wf q.1 ∧ SessionIdAllocatorFacts.wf q.2.

Local Abbreviation next := SessionIdAllocator.next (only parsing).

(** The nodes stay, new ones may have been notified; sessions are only given back. *)
Definition progressed (q q' : Queried) : Prop :=
  dom q.1 ⊆ dom q'.1 ∧ active q'.2 ⊆ active q.2 ∧ next q'.2 = next q.2.

Lemma apply_response_grows nodes r : dom nodes ⊆ dom (VeluxNodeCache.apply_response nodes r).1.
Proof. pose proof (apply_response_dom nodes r) as H. destruct r; rewrite H; set_solver. Qed.

Lemma receive_status_wf sid id events q :
  Forall recv_wf events → queried_wf q →
  let (q', r) := receive_status sid id events q in
  queried_wf q' ∧ progressed q q' ∧ r ≠ Some Panic.
Proof.
  intros Hevents. revert q. induction Hevents as [|item events Hitem _ IH]; intros [c ids] [Hc Hi].
  { by split_and!. }
  assert (∀ q, queried_wf q → progressed (c, ids) q →
    let (q', r) := receive_status sid id events q in
    queried_wf q' ∧ progressed (c, ids) q' ∧ r ≠ Some Panic) as Hstep.
  { intros q Hq (Hdom & Hact & Hnext). specialize (IH q Hq). destruct (receive_status _ _ _ q) as [q' r].
    destruct IH as (?&(?&?&?)&?). split_and!; [done| |done]. split_and!; [by etransitivity..|congruence]. }
  destruct item as [[r|r|expired|m|m]| |]; cbn [receive_status]; try by split_and!.
  - set (ids' := match r with Response.SessionFinished _ => _ | _ => _ end).
    assert (SessionIdAllocatorFacts.wf ids' ∧ active ids' ⊆ active ids ∧ next ids' = next ids) as (Hi' & Ha').
    { subst ids'. destruct r; try done. split; [by apply SessionIdAllocatorFacts.release_wf|].
      simpl. split; [set_solver|done]. }
    clearbody ids'. set (c' := (VeluxNodeCache.apply_response c r).1).
    assert (queried_wf (c', ids')) as Hq by (split; [by apply apply_response_wf|done]).
    assert (progressed (c, ids) (c', ids')) as Hp by (split; [apply apply_response_grows|done]).
    destruct (completes sid id r); [by split_and!|by apply Hstep].
  - apply Hstep; by split_and!.
  - assert (queried_wf (c, release ids expired)) as Hq.
    { split; [done|]. by apply SessionIdAllocatorFacts.release_wf. }
    assert (progressed (c, ids) (c, release ids expired)) as Hp by (split_and!; [done|simpl; set_solver|done]).
    case_bool_decide; [by split_and!|by apply Hstep].
  - apply Hstep; by split_and!.
Qed.

(** What the setup does between the connection and its end: it reads, toggles the monitor and asks
    for the status of single nodes. *)
Definition harmless (a : SetupAction.t) : Prop :=
  match a with
  | SetupAction.Connect | SetupAction.Shutdown _ => False
  | SetupAction.Send r =>
      r = Request.HouseStatusMonitorDisable ∨ r = Request.HouseStatusMonitorEnable
      ∨ ∃ sid id, r = status_query sid (CommandTarget.mk [id])
  | _ => True
  end.

(** What a query adds to the trace *)
Definition query_trace (sid : SessionId.t) (id : NodeId.t) (t : Trace) : Prop :=
  t = [SetupAction.Send (status_query sid (CommandTarget.mk [id]))]
  ∨ t = [SetupAction.Send (status_query sid (CommandTarget.mk [id])); SetupAction.AwaitStatus sid].

(** Sessions are handed out by counting. *)
Definition counting (q : Queried) : Prop :=
  SessionIdAllocatorFacts.counted q.2 ∧ next q.2 < 65535.

(** The state after a query: it was under the next session, which, if it is still in use, is the
    only new one. *)
Definition query_post (id : NodeId.t) (q : Queried) (h : Trace) (q' : Queried) (h' : Trace) : Prop :=
  queried_wf q' ∧ dom q.1 ⊆ dom q'.1
  ∧ active q'.2 ⊆ {[next q.2]} ∪ active q.2 ∧ next q'.2 = next q.2 + 1
  ∧ ∃ t, h' = h ++ t ∧ query_trace (SessionId.mk (next q.2)) id t.

Lemma wp_await_status sid id q h :
  queried_wf q →
  wp (await_status sid id q) harmless
    (λ r h', queried_wf r.1 ∧ progressed q r.1 ∧ r.2 ≠ Panic ∧ h' = h ++ [SetupAction.AwaitStatus sid]) h.
Proof.
  intros Hq. pose proof (notified h) as Hn. unfold wp, await_status.
  destruct (status_events h) as [events cancelled]. cbn [fst] in Hn.
  pose proof (receive_status_wf sid id events q Hn Hq) as Hr.
  destruct (receive_status sid id events q) as [q' r]. destruct Hr as (?&?&?).
  split; [by apply extends_snoc|]. destruct r as [r|]; [|destruct cancelled; [done|]].
  - split_and!; [done..| |done]. cbn. congruence.
  - by split_and!.
Qed.

Lemma wp_query_initial_status id q h :
  queried_wf q → counting q →
  wp (query_initial_status id q) harmless (λ r h', r.2 ≠ Panic ∧ query_post id q h r.1 h') h.
Proof.
  destruct q as [c ids]. intros [Hc Hi] [Hcount Hnext]. cbn [fst snd] in *.
  pose proof (SessionIdAllocatorFacts.allocate_counted ids Hcount Hnext) as Ha.
  pose proof (SessionIdAllocatorFacts.allocate_wf ids Hi) as Hi'.
  set (sid := SessionId.mk (next ids)) in *.
  pose proof (SessionIdAllocatorFacts.release_allocated ids _ sid Hi Ha) as Hrel.
  unfold query_initial_status. rewrite Ha in *. cbn [fst] in Hi'. set (ids' := SessionIdAllocator.mk _ _) in *.
  change (CommandTarget.new [id]) with (Ok (E := KlfError.t) (CommandTarget.mk [id])).
  apply wp_bind, wp_await; [simpl; eauto|apply answer_total|]. intros r Hr.
  set (q := status_query sid _) in *.
  assert (∀ e, wp (mret ((c, release ids' sid), Err e) : SetupM (Queried * outcome BridgeError.t unit)) harmless
    (λ r h', r.2 ≠ Panic ∧ query_post id (c, ids) h r.1 h') (h ++ [SetupAction.Send q])) as Hrefused.
  { intros e. apply wp_ret. split; [done|]. split_and!; [|done|..|eexists; split; [done|by left]].
    - split; [done|]. by apply SessionIdAllocatorFacts.release_wf.
    - unfold release. cbn [snd fst]. rewrite Hrel. set_solver.
    - reflexivity. }
  destruct r as [r|e|]; [|by apply Hrefused|by destruct (answer_total h q)].
  destruct r; try (by apply Hrefused). destruct (status =? 1); [|by apply Hrefused].
  eapply wp_mono; [by apply wp_await_status|]. intros [q' r] h' (Hq'&(Hdom&Hact'&Hn)&Hr'&->).
  split; [done|]. cbn [fst] in *. split_and!; [done..|].
  exists [SetupAction.Send q; SetupAction.AwaitStatus sid]. by split; [rewrite <- app_assoc|right].
Qed.

Lemma wp_query_node id q h :
  queried_wf q → counting q →
  wp (query_node id q) harmless (λ q' h', query_post id q h q' h') h.
Proof.
  destruct q as [c ids]. intros [Hc Hi] Hsize. cbn [fst snd] in *. unfold query_node.
  set (c' := match c !! id with Some _ => _ | None => _ end).
  assert (cache_wf c' ∧ dom c' = dom c) as [Hc' Hdom].
  { subst c'. destruct (c !! id) as [n|] eqn:Hn; [|done]. destruct (Hc _ _ Hn) as [Hid Hwf].
    destruct (mark_status_unknown_keeps n) as [Hid' Hwf']. split.
    - rewrite <- Hid at 1. rewrite <- Hid'. by apply cache_insert_wf, Hwf'.
    - apply dom_insert_lookup_L. by eexists. }
  apply wp_bind. eapply wp_mono; [by apply wp_query_initial_status|].
  intros [q' r] h' [_ (Hq'&Hd&Hpost)]. apply wp_ret. cbn [fst] in *. rewrite Hdom in Hd.
  split; [done|]. by split.
Qed.

Definition sent_requests (t : Trace) : list Request.t :=
  omap (λ a, if a is SetupAction.Send r then Some r else None) t.

Lemma sent_requests_app t t' : sent_requests (t ++ t') = sent_requests t ++ sent_requests t'.
Proof. apply omap_app. Qed.

Definition status_queries (sids : list SessionId.t) (ids : list NodeId.t) : list Request.t :=
  zip_with (λ sid id, status_query sid (CommandTarget.mk [id])) sids ids.

(** The [n] sessions from [first] on *)
Definition sessions_from (first : Z) (n : nat) : list SessionId.t :=
  SessionId.mk <$> seqZ first (Z.of_nat n).

Lemma wp_query_nodes ids q h :
  queried_wf q → SessionIdAllocatorFacts.counted q.2 → next q.2 + Z.of_nat (length ids) ≤ 65535 →
  wp (query_nodes ids q) harmless
    (λ q' h', queried_wf q' ∧ dom q.1 ⊆ dom q'.1
       ∧ ∃ t, h' = h ++ t
              ∧ sent_requests t = status_queries (sessions_from (next q.2) (length ids)) ids) h.
Proof.
  revert q h. induction ids as [|id ids IH]; intros q h Hq Hc Hsize; cbn [query_nodes].
  { apply wp_ret. split_and!; [done..|]. exists []. by rewrite app_nil_r. }
  cbn [length] in Hsize. apply wp_bind. eapply wp_mono; [apply wp_query_node; [done|split; [done|lia]]|].
  intros q1 h1 (Hq1&Hdom&Hact&Hnext&t&->&Ht).
  assert (SessionIdAllocatorFacts.counted q1.2) as Hc1.
  { intros i Hi%Hact. rewrite Hnext. apply elem_of_union in Hi as [->%elem_of_singleton|Hi%Hc]; lia. }
  eapply wp_mono; [apply IH; [done|done|lia]|]. intros q2 h2 (Hq2&Hdom2&t2&->&Ht2).
  split_and!; [done|set_solver|]. exists (t ++ t2). rewrite app_assoc. split; [done|].
  rewrite sent_requests_app, Ht2, Hnext. unfold sessions_from. cbn [length].
  rewrite Nat2Z.inj_succ, (seqZ_cons (next q.2)), Z.pred_succ by lia. cbn [fmap list_fmap].
  destruct Ht as [->| ->]; cbn; by rewrite Z.add_1_r.
Qed.

(** ** Discovery *)
Lemma wp_recover_members ids c h :
  cache_wf c → NoDup ids →
  wp (recover_members ids c) harmless
    (λ c' h', cache_wf c'
       ∧ (∀ id n, c !! id = Some n → c' !! id = Some n)
       ∧ (∀ id, is_Some (c' !! id) → is_Some (c !! id) ∨ id ∈ ids)
       ∧ h' = h ++ (SetupAction.NodeInformation
                    <$> List.filter (λ id, bool_decide (c !! id = None)) ids)) h.
Proof.
  revert c h. induction ids as [|id ids IH]; intros c h Hc Hnd; cbn [recover_members].
  { apply wp_ret. rewrite app_nil_r. split_and!; auto. }
  apply NoDup_cons in Hnd as [Hid Hnd]. cbn [List.filter].
  destruct (c !! id) as [n|] eqn:Hn.
  { rewrite bool_decide_false by done. eapply wp_mono; [by apply IH|].
    intros c' h' (?&?&Hsub&->). split_and!; [done..| |done]. intros i Hi.
    destruct (Hsub i Hi); [by left|right; by right]. }
  rewrite bool_decide_true by done. apply wp_bind, wp_await; [done|apply node_information_total|].
  intros r Hr. set (c1 := match r with Ok _ => _ | _ => _ end).
  assert (cache_wf c1 ∧ ∀ i, i ≠ id → c1 !! i = c !! i) as [Hc1 Hother].
  { subst c1. destruct r as [i|e|]; [|done..]. destruct (informed_node h id i Hr) as [Hi <-].
    split; [by apply apply_response_wf|]. intros j Hj. by apply lookup_insert_ne. }
  eapply wp_mono; [by apply IH|]. intros c' h' (?&Hkeep&Hsub&->). split_and!; [done|..].
  - intros i n Hi. apply Hkeep. rewrite Hother; [done|congruence].
  - intros i Hi. destruct (decide (i = id)) as [->|Hne]; [right; by left|].
    destruct (Hsub i Hi) as [Hc1i|?]; [left; by rewrite <- Hother|right; by right].
  - rewrite <- app_assoc. do 2 f_equal. cbn. f_equal. f_equal. apply List.filter_ext_in.
    intros i Hi%list_elem_of_In. rewrite Hother; [done|]. by intros ->.
Qed.

Lemma groups_by_id_wf gs : Forall group_wf gs → groups_wf (groups_by_id gs).
Proof.
  intros Hgs. unfold groups_by_id. assert (groups_wf ∅) as H0 by apply map_Forall_empty.
  revert H0. generalize (∅ : gmap GroupId.t GroupInformation.t).
  induction Hgs as [|g gs Hg _ IH]; intros m Hm; [done|]. cbn. apply IH.
  by apply map_Forall_insert_2.
Qed.

Lemma reconcile_wf information :
  Forall node_information_wf information →
  cache_wf (VeluxNodeCache.reconcile VeluxNodeCache.new information).1.
Proof.
  intros Hinfo id n Hn. rewrite reconcile_lookup in Hn.
  destruct (latest id information) as [i|] eqn:Hl; [|done]. injection Hn as <-.
  rewrite Forall_forall in Hinfo. clear -Hinfo Hl.
  induction information as [|j l IH]; [done|]. simpl in Hl.
  destruct (latest id l) as [k|] eqn:Hk.
  - injection Hl as <-. apply IH; [|done]. intros x Hx. apply Hinfo. by right.
  - case_decide as Hid; [|done]. injection Hl as <-. split; [done|].
    apply from_information_wf, Hinfo. by left.
Qed.

Lemma group_members_NoDup gs : NoDup (group_members gs).
Proof. unfold group_members. rewrite merge_sort_Permutation. apply NoDup_elements. Qed.

(** Node identifiers are bytes, so there are at most 256 of them. *)
Lemma controllable_bound c : cache_wf c → (length (controllable_nodes c) ≤ 256)%nat.
Proof.
  intros Hc. unfold controllable_nodes.
  transitivity (length (sorted_keys c)).
  { generalize (sorted_keys c). intros l. induction l; simpl; [lia|]. case_match; simpl; lia. }
  transitivity (length (NodeId.new <$> seqZ 0 256)); [|by rewrite length_fmap, length_seqZ].
  apply submseteq_length, NoDup_submseteq; [apply NoDup_sorted_keys|].
  intros id [n Hn]%elem_of_sorted_keys. destruct (Hc _ _ Hn) as [<- Hwf].
  destruct Hwf as (Hid&_). apply list_elem_of_fmap. exists (NodeId.get (VeluxNode.id n)).
  split; [by destruct (VeluxNode.id n)|]. apply elem_of_seqZ. unfold node_wf, is_u8 in Hid. lia.
Qed.

(** ** The whole initialization *)
Definition opening (password : string) : Trace :=
  [SetupAction.Login password; SetupAction.Version; SetupAction.ProtocolVersion;
   SetupAction.Send Request.HouseStatusMonitorDisable].

Definition missing (cache : gmap NodeId.t VeluxNode.t) (groups : gmap GroupId.t GroupInformation.t)
    : list NodeId.t :=
  List.filter (λ id, bool_decide (cache !! id = None)) (group_members groups).

(** A completed initialization from the trace [h] to [h'] *)
Definition initialized (password : string) (h : Trace) (i : InitializedGateway.t) (h' : Trace) : Prop :=
  let h0 := h ++ opening password in
  ∃ information groups cache queries,
    discover_nodes_answer h0 = Some (Ok information)
    ∧ discover_groups_answer (h0 ++ [SetupAction.DiscoverNodes]) = Some (Ok groups)
    ∧ InitializedGateway.groups i = groups_by_id groups
    ∧ (let discovered := (VeluxNodeCache.reconcile VeluxNodeCache.new information).1 in
       (∀ id n, discovered !! id = Some n → cache !! id = Some n)
       ∧ (∀ id, is_Some (cache !! id) →
            is_Some (discovered !! id) ∨ id ∈ missing discovered (InitializedGateway.groups i))
       ∧ h' = h0 ++ [SetupAction.DiscoverNodes; SetupAction.DiscoverGroups]
              ++ (SetupAction.NodeInformation <$> missing discovered (InitializedGateway.groups i))
              ++ SetupAction.Subscribe :: queries
              ++ [SetupAction.Send Request.HouseStatusMonitorEnable])
    ∧ sent_requests queries
      = status_queries (sessions_from 1 (length (controllable_nodes cache))) (controllable_nodes cache)
    ∧ dom cache ⊆ dom (InitializedGateway.cache i).

Definition initialized_wf (i : InitializedGateway.t) : Prop :=
  cache_wf (InitializedGateway.cache i) ∧ groups_wf (InitializedGateway.groups i)
  ∧ SessionIdAllocatorFacts.wf (InitializedGateway.session_ids i).

Lemma wp_initialize password h :
  wp (initialize_gateway password) harmless
    (λ i h', initialized_wf i ∧ initialized password h i h') h.
Proof.
  unfold initialize_gateway, send_ok.
  apply wp_bind, wp_await_ok; [done|apply login_total|intros _ _].
  apply wp_bind, wp_await_ok; [done|apply version_total|intros _ _].
  apply wp_bind, wp_await_ok; [done|apply protocol_version_total|intros _ _].
  apply wp_bind, wp_await_ok; [by left|apply answer_total|intros _ _].
  rewrite <- !app_assoc. cbn [app]. fold (opening password). set (h0 := h ++ opening password).
  apply wp_bind, wp_await_ok; [done|apply discover_nodes_total|intros information Hinfo].
  apply wp_bind, wp_await_ok; [done|apply discover_groups_total|intros gs Hgs].
  set (discovered := (VeluxNodeCache.reconcile _ _).1).
  pose proof (reconcile_wf information (discovered_nodes _ _ Hinfo)) as Hdwf. fold discovered in Hdwf.
  apply wp_bind. eapply wp_mono; [apply wp_recover_members; [done|apply group_members_NoDup]|].
  intros cache h1 (Hc & Hkeep & Hsub & ->). apply wp_bind, wp_perform; [done|].
  apply wp_bind. eapply wp_mono; [apply wp_query_nodes|].
  { split; [done|]. split; [simpl; lia|set_solver]. }
  { intros i Hi. by apply elem_of_empty in Hi. }
  { cbn [snd]. pose proof (controllable_bound cache Hc).
    change (next SessionIdAllocator.new) with 1. lia. }
  intros q h2 ([Hqc Hqs] & Hdom & t & -> & Ht).
  apply wp_bind, wp_await_ok; [right; by left|apply answer_total|intros _ _]. apply wp_ret.
  split; [by split_and!; [|apply groups_by_id_wf, (discovered_groups _ _ Hgs)|]|].
  exists information, gs, cache, t. fold h0 discovered. cbv zeta.
  split_and!; try done.
  - intros id Hid. destruct (Hsub id Hid) as [?|Hm]; [by left|]. destruct (discovered !! id) eqn:Hd; [by left|].
    right. unfold missing. rewrite elem_of_filter_bool, bool_decide_eq_true. done.
  - rewrite <- !app_assoc. done.
Qed.

(** A setup either connected and initialized, or stopped; the gateway it connected is handed over
    or closed. *)
Lemma prepare_gateway_cases password :
  let (h, r) := prepare_gateway password [] in
  match r with
  | Done p =>
      connect_answer [] = Some (Ok (PreparedGateway.gateway p))
      ∧ ∃ i, p = PreparedGateway.mk (PreparedGateway.gateway p) (InitializedGateway.cache i)
                   (InitializedGateway.groups i) (InitializedGateway.session_ids i)
             ∧ initialized_wf i ∧ initialized password [SetupAction.Connect] i h
             ∧ extends harmless [SetupAction.Connect] h
  | Failed _ =>
      if connect_answer [] is Some (Ok _) then
        ∃ t, h = SetupAction.Connect :: t ++ [SetupAction.Shutdown false] ∧ Forall harmless t
      else h = [SetupAction.Connect]
  | _ => False
  end.
Proof.
  unfold prepare_gateway, await. pose proof (connect_total (G := G) []) as Hp. cbn [app].
  destruct (connect_answer []) as [[g|e|]|]; [|done..].
  pose proof (wp_initialize password [SetupAction.Connect]) as Hi. unfold wp in Hi.
  destruct (initialize_gateway password [SetupAction.Connect]) as [h [i|e| |]].
  - destruct Hi as (Hext & Hwf & Hi). split; [done|]. by exists i.
  - destruct Hi as [(t&->&Ht) _]. by exists t.
  - destruct Hi as [(t&->&Ht) _]. by exists t.
  - by destruct Hi.
Qed.

(** C8: a gateway is never lost: however the gateway answers and wherever the setup is cancelled, a
    gateway that was connected is either handed over, and then it was never closed, or closed as
    the last thing the setup does, without a reboot; in between the setup only reads, toggles the
    monitor and asks for the status of single nodes. If no gateway was connected nothing else
    happens. The setup does not panic. *)
Theorem setup_keeps_or_closes_gateway (password : string) :
  let (h, r) := prepare_gateway password [] in
  match r, connect_answer [] with
  | Done p, Some (Ok g) =>
      PreparedGateway.gateway p = g ∧ ∃ t, h = SetupAction.Connect :: t ∧ Forall harmless t
  | Failed _, Some (Ok g) =>
      ∃ t, h = SetupAction.Connect :: t ++ [SetupAction.Shutdown false] ∧ Forall harmless t
  | Failed _, _ => h = [SetupAction.Connect]
  | _, _ => False
  end.
Proof.
  pose proof (prepare_gateway_cases password) as Hc. destruct (prepare_gateway password []) as [h r].
  destruct r as [p|e| |]; [|by destruct (connect_answer []) as [[]|]|done..].
  destruct Hc as (-> & i & _ & _ & _ & t & -> & Ht). split; [done|]. by exists t.
Qed.

(** C19: a completed setup did exactly this, in this order: connect, log in, read the versions,
    disable a stale monitor, discover nodes and groups, ask directly for every group member the
    discovery left out, subscribe, query the status of every controllable node once, in ascending
    order, the first under session 1 and each other one under the session after the one before,
    and enable the monitor. What it hands over
    holds every discovered node and exactly the discovered groups. *)
Theorem setup_sequence (password : string) (h : Trace) (p : PreparedGateway.t) :
  prepare_gateway password [] = (h, Done p) →
  connect_answer [] = Some (Ok (PreparedGateway.gateway p))
  ∧ initialized password [SetupAction.Connect]
      (InitializedGateway.mk (PreparedGateway.cache p) (PreparedGateway.groups p)
         (PreparedGateway.session_ids p)) h.
Proof.
  intros Hrun. pose proof (prepare_gateway_cases password) as Hc. rewrite Hrun in Hc.
  destruct Hc as (Hg & i & -> & _ & Hi & _). split; [done|]. by destruct i.
Qed.

Lemma prepared_wf password : event_wf (BridgeEvent.SetupFinished (setup_result (prepare_gateway password []).2)).
Proof.
  pose proof (prepare_gateway_cases password) as Hc. destruct (prepare_gateway password []) as [h r].
  destruct r as [p|e| |]; try done. destruct Hc as (_ & i & -> & Hwf & _). exact Hwf.
Qed.

(** What the loop makes of the result of a setup: it adopts what was prepared and publishes; or
    keeps its data, announces that it is offline, and schedules the next attempt. *)
Definition taken_over `{Environment} (result : outcome BridgeError.t PreparedGateway.t) (s s' : St.t) : Prop :=
  let b := St.bridge s in
  let b' := St.bridge s' in
  let base := ReconnectBackoff.current (Bridge.reconnect b) in
  Bridge.setup b' = false ∧ Bridge.mqtt_connected b' = Bridge.mqtt_connected b
  ∧ match result with
    | Ok p =>
        Bridge.gateway b' = Some (PreparedGateway.gateway p) ∧ Bridge.cache b' = PreparedGateway.cache p
        ∧ Bridge.groups b' = PreparedGateway.groups p ∧ Bridge.session_ids b' = PreparedGateway.session_ids p
        ∧ ReconnectBackoff.current (Bridge.reconnect b') = ReconnectBackoff.minimum (Bridge.reconnect b)
        ∧ extends is_publish (St.history s) (St.history s')
    | Err _ =>
        Bridge.gateway b' = None ∧ Bridge.cache b' = Bridge.cache b ∧ Bridge.groups b' = Bridge.groups b
        ∧ now (St.history s) + base ≤ Bridge.next_reconnect b' ≤ now (St.history s) + base + base / 4
        ∧ ReconnectBackoff.current (Bridge.reconnect b')
          = Z.min (2 * base) (ReconnectBackoff.maximum (Bridge.reconnect b))
        ∧ St.history s' = St.history s ++ announcement s false
    | Panic => False
    end.

Lemma setup_taken_over `{Environment, !Lawful _} c l result s s' :
  inv c l s → clock_fits c → Bridge.setup (St.bridge s) = true →
  handle_setup_result result s = (s', Ok tt) → taken_over result s s'.
Proof.
  intros Hs Hc Hset. unfold handle_setup_result.
  change ((modify ?f ≫= ?k) s) with (k tt (St.mk (f (St.bridge s)) (St.history s))). cbv beta.
  set (s1 := St.mk (Bridge.set_setup false (St.bridge s)) (St.history s)). destruct result as [p|e|]; [| |done].
  - change ((gets id ≫= ?k) s1) with (k (St.bridge s1) s1). cbv beta zeta.
    change ((modify ?f ≫= ?k) s1) with (k tt (St.mk (f (St.bridge s1)) (St.history s1))). cbv beta.
    set (s2 := St.mk (install p (St.bridge s1)) (St.history s1)). intros Heq.
    assert (publishing s2 s') as [Hb Hh].
    { match type of Heq with ?m _ = _ => assert (tame always publishing m) as Hm by tame_split end.
      destruct (Hm s2 I) as (_ & HR & _). by rewrite Heq in HR. }
    unfold taken_over. rewrite Hb. by split_and!.
  - assert (inv c l s1) as Hs1 by (by destruct Hs). pose proof (next_delay_ok c l s1 Hs1) as Hd.
    pose proof (inv_backoff _ _ _ Hs) as Hwf.
    pose proof (BackoffFacts.next_delay_spec _ _ Hwf
      (random_range (St.history s) _ (BackoffFacts.jitter_limit_nonneg _ Hwf))) as Hspec.
    unfold drawn_delay in Hd. unfold mbind, M_bind, next_delay.
    change (Bridge.reconnect (St.bridge s1)) with (Bridge.reconnect (St.bridge s)) in *.
    change (St.history s1) with (St.history s) in *.
    destruct (ReconnectBackoff.next_delay _ _) as [backoff delay].
    destruct Hd as (_ & Hd & _), Hspec as (_ & _ & _ & Hcur & Hdelay).
    rewrite (instant_after_eq c delay _ Hc Hd). unfold modify. rewrite publish_availability_eq.
    intros [= <-]. pose proof (inv_setup _ _ _ Hs Hset) as Hg. unfold taken_over. cbn in *.
    split_and!; try done; lia.
Qed.

(** C20: the setup and the loop compose: whatever a setup through a lawful gateway results in, the
    loop that awaits it takes it over without getting stuck, and its invariant holds again. It
    adopts the gateway, nodes, groups and sessions of a setup that completed, and starts the
    backoff afresh; of one that failed or was cancelled it adopts nothing, and it schedules
    another after the backoff, which doubles. *)
Theorem setup_composes `{Environment, !Lawful _} (config : VeluxMqttBridgeConfig.t)
    (password : string) (s : St.t) :
  running config s → Bridge.setup (St.bridge s) = true →
  let result := setup_result (prepare_gateway password []).2 in
  ∃ s', step s (BridgeEvent.SetupFinished result) s' ∧ running config s' ∧ taken_over result s s'.
Proof.
  intros Hr Hs result.
  destruct (running_step config s (BridgeEvent.SetupFinished result) Hr Hs (prepared_wf _))
    as (s' & Hstep & Hr').
  exists s'. split; [done|]. split; [done|]. destruct (running_inv _ _ Hr) as (l & Hinv & Hc).
  inversion Hstep as [? ? ? _ Hh]; subst. by eapply setup_taken_over.
Qed.

(** ** The query of a status, exactly *)

(** Items that neither complete the wait nor end it *)
Definition waiting (sid : SessionId.t) (id : NodeId.t) (item : Recv.t) : bool :=
  match item with
  | Recv.Event (ConnectionEvent.Notification r) => negb (completes sid id r)
  | Recv.Event (ConnectionEvent.SessionTimedOut expired) => negb (bool_decide (expired = sid))
  | Recv.Event (ConnectionEvent.Disconnected _) | Recv.Closed | Recv.Lagged _ => false
  | Recv.Event _ => true
  end.

(** What the notifications among the items do to the cache *)
Definition observed (cache : gmap NodeId.t VeluxNode.t) (items : list Recv.t)
    : gmap NodeId.t VeluxNode.t :=
  foldl (λ cache item,
    match item with
    | Recv.Event (ConnectionEvent.Notification r) => (VeluxNodeCache.apply_response cache r).1
    | _ => cache
    end) cache items.

(** The sessions that are over according to the items *)
Definition ended_sessions (items : list Recv.t) : gset Z :=
  list_to_set (omap (λ item,
    match item with
    | Recv.Event (ConnectionEvent.Notification (Response.SessionFinished sid))
    | Recv.Event (ConnectionEvent.SessionTimedOut sid) => Some (SessionId.get sid)
    | _ => None
    end) items).

Lemma receive_waiting sid id items rest q :
  forallb (waiting sid id) items = true →
  ∃ ids, receive_status sid id (items ++ rest) q
         = receive_status sid id rest (observed q.1 items, ids)
         ∧ active ids = active q.2 ∖ ended_sessions items.
Proof.
  revert q. induction items as [|item items IH]; intros [c ids] Hw.
  { exists ids. split; [done|]. unfold ended_sessions. simpl. set_solver. }
  cbn [forallb] in Hw. apply andb_true_iff in Hw as [Hitem Hw].
  assert (∀ c' ids', receive_status sid id ((item :: items) ++ rest) (c, ids)
                     = receive_status sid id (items ++ rest) (c', ids') →
    observed c (item :: items) = observed c' items →
    active ids' ∖ ended_sessions items = active ids ∖ ended_sessions (item :: items) →
    ∃ ids', receive_status sid id ((item :: items) ++ rest) (c, ids)
            = receive_status sid id rest (observed c (item :: items), ids')
            ∧ active ids' = active ids ∖ ended_sessions (item :: items)) as Hstep.
  { intros c' ids' Hrun Ho He. destruct (IH (c', ids') Hw) as (ids2 & Hrun2 & Hact).
    exists ids2. rewrite Hrun, Hrun2, Ho, Hact, <- He. done. }
  destruct item as [[r|r|expired|m|m]| |]; try discriminate Hitem; cbn in Hitem.
  - apply negb_true_iff in Hitem. eapply Hstep.
    + cbn [app receive_status]. by rewrite Hitem.
    + done.
    + unfold ended_sessions. destruct r; try done. simpl. set_solver.
  - by apply (Hstep c ids).
  - apply negb_true_iff in Hitem. eapply Hstep.
    + cbn [app receive_status]. by rewrite Hitem.
    + done.
    + unfold ended_sessions. simpl. set_solver.
  - by apply (Hstep c ids).
Qed.

Definition notification (r : Response.t) : Recv.t := Recv.Event (ConnectionEvent.Notification r).

Lemma observed_snoc cache items r :
  observed cache (items ++ [notification r]) = (VeluxNodeCache.apply_response (observed cache items) r).1.
Proof. unfold observed. by rewrite foldl_app. Qed.

(** C27: the query of a node's initial status takes a free session and sends one request. When the
    gateway does not accept it, the query fails, its session is free again and the cache is as
    before. When it does, everything notified in the meantime is applied to the cache, until the
    status of this very node under this very session arrives, which is applied too; what was
    notified after it stays for later. When the timeout comes first the query fails with what was
    observed so far; sessions that the gateway reported finished are free. *)
Theorem initial_status_query (id : NodeId.t) (q : Queried) (h : Trace) (ids : SessionIdAllocator.t)
    (sid : SessionId.t) :
  queried_wf q → SessionIdAllocator.allocate q.2 = (ids, Ok sid) →
  let request := status_query sid (CommandTarget.mk [id]) in
  let sent := h ++ [SetupAction.Send request] in
  let (h', r) := query_initial_status id q h in
  match send_answer h request with
  | None => r = Cancelled ∧ h' = sent
  | Some answer =>
      if accepts_status answer then
        h' = sent ++ [SetupAction.AwaitStatus sid]
        ∧ ∀ items, forallb (waiting sid id) items = true →
            let used := ({[SessionId.get sid]} ∪ active q.2) ∖ ended_sessions items in
            (∀ status rest cancelled,
               status_events sent = (items ++ notification status :: rest, cancelled) →
               completes sid id status = true →
               ∃ ids', r = Done ((observed q.1 (items ++ [notification status]), ids'), Ok tt)
                       ∧ active ids' = used)
            ∧ (status_events sent = (items, false) →
               ∃ ids', r = Done ((observed q.1 items, ids'), Err (BridgeError.StatusTimedOut id))
                       ∧ active ids' = used)
            ∧ (status_events sent = (items, true) → r = Cancelled)
      else
        h' = sent ∧ ∃ ids' e, r = Done ((q.1, ids'), Err e) ∧ active ids' = active q.2
  end.
Proof.
  destruct q as [c ids0]. intros [Hc Hi] Ha. cbn [fst snd] in *. cbv zeta.
  destruct (SessionIdAllocatorFacts.allocate_active ids0 ids sid Hi Ha) as (Hact&_&_).
  pose proof (SessionIdAllocatorFacts.release_allocated ids0 ids sid Hi Ha) as Hrel.
  unfold query_initial_status. rewrite Ha.
  change (CommandTarget.new [id]) with (Ok (E := KlfError.t) (CommandTarget.mk [id])).
  cbv iota beta zeta. set (request := status_query sid _). set (sent := h ++ [SetupAction.Send request]).
  unfold mbind, SetupM_bind, await. fold sent. pose proof (answer_total h request) as Hp.
  destruct (send_answer h request) as [[r|e|]|]; [| |done|by split].
  2: { split; [done|]. by exists (release ids sid), (BridgeError.Klf e). }
  assert (∀ e, let (h', r0) := (sent, Done ((c, release ids sid), Err e)) : Trace * ended (Queried * outcome BridgeError.t unit) in
    h' = sent ∧ ∃ ids' e', r0 = Done ((c, ids'), Err e') ∧ active ids' = active ids0) as Hrefused.
  { intros e. split; [done|]. by exists (release ids sid), e. }
  destruct r; try apply Hrefused. cbn [accepts_status].
  destruct (status =? 1); [|apply Hrefused]. unfold await_status.
  pose proof (λ items rest, receive_waiting sid id items rest (c, ids)) as Hwait. cbn [fst snd] in Hwait.
  rewrite Hact in Hwait. destruct (status_events sent) as [events cancelled].
  destruct (receive_status sid id events (c, ids)) as [q' result] eqn:Hrun.
  split; [done|]. intros items Hitems. split_and!.
  - intros r rest cancelled' [= -> ->] Hr. destruct (Hwait items (notification r :: rest) Hitems) as (ids1 & Heq & Ha1).
    rewrite Hrun in Heq. cbn [receive_status notification] in Heq. rewrite Hr in Heq.
    injection Heq as -> ->. rewrite observed_snoc. eexists. split; [reflexivity|].
    destruct r; try done.
  - intros [= -> ->]. destruct (Hwait items [] Hitems) as (ids1 & Heq & Ha1).
    rewrite app_nil_r, Hrun in Heq. injection Heq as -> ->. by exists ids1.
  - intros [= -> ->]. destruct (Hwait items [] Hitems) as (ids1 & Heq & Ha1).
    rewrite app_nil_r, Hrun in Heq. by injection Heq as -> ->.
Qed.
End query.

(** ** The client implements the gateway *)

(** The actor answers without panicking, and what the client receives was decoded. *)
Class LawfulWorld (w : ClientWorld) : Prop := {
  connects_total h : connects w h ≠ Some Panic;
  replies_total h send r : replies w h = Some send → send r ≠ Panic;
  receives_decoded h : Forall recv_wf (receives w h);
  waits_decoded h : Forall recv_wf (waits w h).1
}.

Section client.
Context (send : Request.t → KlfResult Response.t) (Hsend : ∀ r, send r ≠ Panic).

Lemma returns_send {A} r (f : Response.t → KlfResult A) (Q : A → Prop) :
  (∀ response, returns (f response) Q) → returns (response ← send r; f response) Q.
Proof. intros Hf. destruct (send r) eqn:Hr; [apply Hf|done|by destruct (Hsend r)]. Qed.

Lemma login_returns password : returns (Client.login send password) (λ _, True).
Proof.
  unfold Client.login. apply returns_bind with (R := λ _, True).
  - unfold Request.password_enter. rewrite encode_fixed_string_layout. by destruct (name_error _ _).
  - intros request _. apply returns_send. intros []; try done. by case_match.
Qed.

Lemma version_returns : returns (Client.version send) (λ _, True).
Proof. apply returns_send. by intros []. Qed.

Lemma protocol_version_returns : returns (Client.protocol_version send) (λ _, True).
Proof. apply returns_send. by intros []. Qed.

Lemma collect_nodes_returns events nodes :
  Forall recv_wf events → Forall node_information_wf nodes →
  returns (Client.collect_nodes events nodes) (Forall node_information_wf).
Proof.
  intros Hev. revert nodes. induction Hev as [|item events Hitem _ IH]; intros nodes Hn; [done|].
  destruct item as [[r|r|id|m|m]| |]; cbn [Client.collect_nodes]; try done; try by apply IH.
  destruct r; try (by apply IH).
  - destruct (command_eqb _ _); [done|by apply IH].
  - apply IH, Forall_app. by split; [|constructor].
Qed.

Lemma discover_nodes_returns events :
  Forall recv_wf events → returns (Client.discover_nodes send events) (Forall node_information_wf).
Proof.
  intros Hev. apply returns_send. intros []; try done. case_match; [|done].
  by apply collect_nodes_returns.
Qed.

Lemma await_node_returns events id :
  Forall recv_wf events →
  returns (Client.await_node events id) (λ i, node_information_wf i ∧ NodeInformation.node_id i = id).
Proof.
  induction 1 as [|item events Hitem _ IH]; [done|].
  destruct item as [[r|r|sid|m|m]| |]; cbn [Client.await_node]; try done.
  destruct r; try done. by case_decide.
Qed.

Lemma node_information_returns id events :
  Forall recv_wf events →
  returns (Client.node_information send id events)
    (λ i, node_information_wf i ∧ NodeInformation.node_id i = id).
Proof.
  intros Hev. apply returns_send. intros []; try done. case_match; [|done].
  case_decide; [|done]. by apply await_node_returns.
Qed.

Lemma collect_groups_returns events groups :
  Forall recv_wf events → Forall group_wf groups →
  returns (Client.collect_groups events groups) (Forall group_wf).
Proof.
  intros Hev. revert groups. induction Hev as [|item events Hitem _ IH]; intros groups Hg; [done|].
  destruct item as [[r|r|id|m|m]| |]; cbn [Client.collect_groups]; try done; try by apply IH.
  destruct r; try (by apply IH).
  - destruct (command_eqb _ _); [done|by apply IH].
  - destruct (command_eqb _ _); [|by apply IH]. apply IH, Forall_app. split; [done|].
    apply Forall_singleton. destruct n. apply Hitem.
Qed.

Lemma discover_groups_returns events :
  Forall recv_wf events → returns (Client.discover_groups send events) (Forall group_wf).
Proof.
  intros Hev. apply returns_send. intros []; try done. cbv zeta. case_match; [by apply collect_groups_returns|].
  case_match; [by constructor|done].
Qed.
End client.

Lemma client_lawful (w : ClientWorld) : LawfulWorld w → LawfulGateway (client_gateway w).
Proof.
  intros Hw. assert (∀ {A} (m : (Request.t → KlfResult Response.t) → KlfResult A) (Q : A → Prop) h r,
    (∀ send, (∀ r, send r ≠ Panic) → returns (m send) Q) →
    m <$> replies w h = Some r → returns r Q) as Hreturns.
  { intros A m Q h r Hm. destruct (replies w h) as [send|] eqn:Hr; [|done]. intros [= <-].
    apply Hm. intros q. by apply (replies_total h). }
  assert (∀ {A} (m : (Request.t → KlfResult Response.t) → KlfResult A) (Q : A → Prop) h,
    (∀ send, (∀ r, send r ≠ Panic) → returns (m send) Q) → m <$> replies w h ≠ Some Panic) as Htotal.
  { intros A m Q h Hm H. exact (Hreturns A m Q h _ Hm H). }
  pose proof (λ h, receives_decoded (w := w) h) as Hrec.
  split; cbn.
  - apply connects_total.
  - intros h p. eapply Htotal. intros. by apply login_returns.
  - intros h. eapply Htotal. intros. by apply version_returns.
  - intros h. eapply Htotal. intros. by apply protocol_version_returns.
  - intros h. eapply Htotal. intros. by apply discover_nodes_returns.
  - intros h id. eapply Htotal. intros. by apply node_information_returns.
  - intros h. eapply Htotal. intros. by apply discover_groups_returns.
  - intros h r. eapply (Htotal _ (λ send, send r) (λ _, True)). intros send Hs.
    destruct (send r) eqn:Hr; [done..|by destruct (Hs r)].
  - intros h l Hl. refine (Hreturns _ _ _ h _ _ Hl). intros. by apply discover_nodes_returns.
  - intros h l Hl. refine (Hreturns _ _ _ h _ _ Hl). intros. by apply discover_groups_returns.
  - intros h id i Hi.
    refine (Hreturns _ _ (λ i, node_information_wf i ∧ NodeInformation.node_id i = id) h _ _ Hi). intros. by apply node_information_returns.
  - apply waits_decoded.
Qed.

(** The client implements the interface the setup relies on: over an actor that answers without
    panicking and a receiver that yields decoded responses, no operation of the client panics, the
    nodes and groups it discovers are well formed, and the node it informs about is the one that
    was asked for. *)
Theorem client_implements_gateway (w : ClientWorld) : LawfulWorld w → LawfulGateway (client_gateway w).
Proof. apply client_lawful. Qed.

(** ** A concrete gateway: one roller shutter, no groups, and no status before the timeout *)
Definition sample_information : NodeInformation.t :=
  NodeInformation.mk (NodeId.new 4) 0 0 "Bedroom" 0 128 0 0 0 0 0 (replicate 8 0)
    OperatingState.NonExecuting (StandardParameter.Relative (Percentage.from_percent 30))
    (StandardParameter.Relative (Percentage.from_percent 30))
    (replicate 4 StandardParameter.Current) 0 (ProtocolTimestamp.from_unix_seconds 0) [].

Definition sample_world : ClientWorld := {|
  connects _ := Some (Ok 0%nat);
  replies _ := Some (λ r,
    match r with
    | Request.PasswordEnter _ => Ok (Response.PasswordEntered true)
    | Request.GetVersion => Ok (Response.Version (Version.mk (replicate 6 0) 1 14 3))
    | Request.GetProtocolVersion => Ok (Response.ProtocolVersion (ProtocolVersion.mk 3 18))
    | Request.GetAllNodesInformation => Ok (Response.AllNodesInformationAccepted 0 1)
    | Request.NodeGroup _ => Ok (Response.AllGroupsAccepted (AllGroupsAccepted.mk 2 0))
    | Request.StatusRequest sid _ _ => Ok (Response.StatusAccepted sid 1)
    | Request.HouseStatusMonitorDisable =>
        Ok (Response.Acknowledgement GW_HOUSE_STATUS_MONITOR_DISABLE_CFM)
    | Request.HouseStatusMonitorEnable =>
        Ok (Response.Acknowledgement GW_HOUSE_STATUS_MONITOR_ENABLE_CFM)
    | _ => Err KlfError.ConnectionClosed
    end);
  receives _ := [notification (Response.NodeInformation sample_information);
                 Client.finished_event GW_GET_ALL_NODES_INFORMATION_FINISHED_NTF];
  waits _ := ([], false);
  closing _ _ := Err KlfError.ConnectionClosed;
  channel _ := ShutdownChannel.Replied (Ok tt)
|}.

Lemma sample_information_wf : node_information_wf sample_information.
Proof.
  split_and!; try (by repeat constructor); done.
Qed.

Lemma sample_world_lawful : LawfulWorld sample_world.
Proof.
  split; [done| | |by constructor].
  - intros h send r [= <-]. by destruct r.
  - intros h. apply Forall_cons. split; [apply sample_information_wf|].
    apply Forall_singleton. apply (bool_decide_unpack _). vm_compute. exact I.
Qed.

Lemma client_implements_gateway_witness : LawfulGateway (client_gateway sample_world).
Proof. exact (client_implements_gateway sample_world sample_world_lawful). Defined.

Definition sample_gateway_env : Gateway := client_gateway sample_world.

Lemma sample_gateway_lawful : LawfulGateway sample_gateway_env.
Proof. apply client_lawful, sample_world_lawful. Qed.

(** The setup of the sample gateway completes. *)
Definition sample_setup : Trace * ended PreparedGateway.t := @prepare_gateway sample_gateway_env "secret" [].

Lemma setup_keeps_or_closes_gateway_witness :
  ∃ t, sample_setup.1 = SetupAction.Connect :: t ∧ Forall harmless t.
Proof.
  pose proof (@setup_keeps_or_closes_gateway sample_gateway_env sample_gateway_lawful "secret") as H.
  change (@prepare_gateway sample_gateway_env "secret" []) with sample_setup in H.
  destruct sample_setup as [h r] eqn:Hs.
  assert (∃ p, r = Done p) as [p ->].
  { assert (∃ p, sample_setup.2 = Done p) as [p Hp] by (eexists; vm_compute; reflexivity).
    exists p. by rewrite Hs in Hp. }
  exact (proj2 H).
Defined.

Lemma setup_sequence_witness :
  ∃ p, sample_setup.2 = Done p ∧ PreparedGateway.gateway p = 0%nat
       ∧ @initialized sample_gateway_env "secret" [SetupAction.Connect]
           (InitializedGateway.mk (PreparedGateway.cache p) (PreparedGateway.groups p)
              (PreparedGateway.session_ids p)) sample_setup.1.
Proof.
  assert (∃ p, sample_setup.2 = Done p) as [p Hp] by (eexists; vm_compute; reflexivity).
  exists p. split; [exact Hp|].
  destruct (@setup_sequence sample_gateway_env sample_gateway_lawful "secret" sample_setup.1 p) as [Hg Hi].
  - change (sample_setup = (sample_setup.1, Done p)). rewrite <- Hp. by destruct sample_setup.
  - split; [|exact Hi]. by injection Hg.
Defined.

Lemma setup_composes_witness :
  let s := sample_state [BridgeEvent.ReconnectTimer] in
  ∃ s', @step quiet s (BridgeEvent.SetupFinished (setup_result sample_setup.2)) s'
        ∧ @running quiet sample_bridge_config s'
        ∧ @taken_over quiet (setup_result sample_setup.2) s s'.
Proof.
  refine (@setup_composes sample_gateway_env sample_gateway_lawful quiet quiet_lawful
    sample_bridge_config "secret" (sample_state [BridgeEvent.ReconnectTimer]) _ _).
  - apply (sample_running [BridgeEvent.ReconnectTimer]); [by repeat constructor|vm_compute; reflexivity].
  - vm_compute. reflexivity.
Defined.

Lemma initial_status_query_witness :
  let sid := SessionId.mk 1 in
  ∃ ids, (@query_initial_status sample_gateway_env (NodeId.new 4) (sample_cache, SessionIdAllocator.new) []).2
         = Done ((sample_cache, ids), Err (BridgeError.StatusTimedOut (NodeId.new 4)))
         ∧ SessionIdAllocator.active ids = {[1]}.
Proof.
  cbv zeta. pose proof (@initial_status_query sample_gateway_env sample_gateway_lawful (NodeId.new 4)
    (sample_cache, SessionIdAllocator.new) [] (SessionIdAllocator.mk 2 {[1]}) (SessionId.mk 1)) as H.
  cbv zeta in H. destruct (@query_initial_status sample_gateway_env _ _ _) as [h' r].
  assert (SessionIdAllocatorFacts.wf SessionIdAllocator.new) as Hnew.
  { split; [simpl; lia|set_solver]. }
  destruct (H (conj sample_cache_wf Hnew) ltac:(vm_compute; reflexivity)) as [_ Hitems].
  destruct (Hitems [] eq_refl) as (_ & Htimeout & _). destruct (Htimeout eq_refl) as (ids & Hr & Hact).
  exists ids. split; [exact Hr|]. rewrite Hact. unfold ended_sessions. simpl. set_solver.
Defined.
