(* ===== verification/Link.v ===== *)
(** * The link: from the byte stream to the bridge

    The composition of the layers of the connection (klf200/connection.rs, [from_stream], [send]
    and [send_unlocked]): the reader task feeds the actor, whose replies and broadcast a client
    turns into the answers of a gateway. Whatever bytes arrive, what the set-up and the bridge
    are handed satisfies the laws they were verified against. *)

From S2P Require Import Prelude RustStd CommandIds Error Types Frame Slip Command CommandLayout.
From S2P Require Import ResponseTypes Response ResponseFacts Connection ConnectionFacts Client.
From S2P Require Import VeluxNode NodeFacts Mqtt Bridge BridgeLogic BridgeFacts Setup SetupFacts.
Import Effect.

(** ** The composition *)

(** Which branch of the actor's [select!] is taken: a command, or the closed command channel; the
    next item of the reader's channel; the timer. *)
Module Pick.
Inductive t :=
| Command (command : option ActorCommand.t)
| NextIncoming
| TimeoutTick.
End Pick.

Module Schedule.
Record t := mk {
  write_error : option KlfError.t;
  dispatched_at : Instant;
  pick : Pick.t;
  received_at : Instant
}.
End Schedule.

(** The turns of the actor: the channel of the reader is first-in first-out, and closed once the
    reader is gone. *)
Fixpoint interleave (incoming : list Incoming.t) (schedule : list Schedule.t) : list Turn.t :=
  match schedule with
  | [] => []
  | s :: schedule =>
      let turn := λ input, Turn.mk (Schedule.write_error s) (Schedule.dispatched_at s) input
                             (Schedule.received_at s) in
      match Schedule.pick s with
      | Pick.Command command => turn (Input.Command command) :: interleave incoming schedule
      | Pick.NextIncoming =>
          turn (Input.Received (head incoming)) :: interleave (tail incoming) schedule
      | Pick.TimeoutTick => turn Input.TimeoutTick :: interleave incoming schedule
      end
  end.

(** The reader and the actor that [from_stream] starts on a stream *)
Definition from_stream (settings : ConnectionSettings.t) (reads : list (KlfResult (list Z)))
    (schedule : list Schedule.t) (waiting : list ActorCommand.t) (shutdown_result : KlfResult unit)
    : option (list Effect.t) :=
  incoming ← read_frames
    (Decoder.new (Nat.max (ConnectionSettings.maximum_slip_frame_length settings) 1)) reads;
  run_actor settings (interleave incoming schedule) waiting shutdown_result.

(** [send_unlocked]: [sent] says whether the command channel took the request, with the reply
    channel [reply]; the receiver yields the reply, or an error when it is dropped. *)
Definition reply_to (reply : ReplyChannel) (effects : list Effect.t) : option (KlfResult Response.t) :=
  head (omap (λ e, match e with
                   | Replied r result => then_some (r =? reply)%nat result
                   | _ => None
                   end) effects).

Definition send_unlocked (sent : bool) (reply : ReplyChannel) (effects : list Effect.t)
    : KlfResult Response.t :=
  if sent then
    match reply_to reply effects with
    | Some result => result
    | None => Err KlfError.ConnectionClosed
    end
  else Err KlfError.ConnectionClosed.

(** ** Facts *)

(** What a read, and the SLIP decoder, yield: bytes or an error *)
Abbreviation bytes_wf := (λ r : KlfResult (list Z), returns r (Forall is_u8)) (only parsing).

Lemma push_decoded_u8 d b d' out :
  Decoder.push_decoded d b = (d', out) → is_u8 b → Forall is_u8 (Decoder.buffer d) →
  Forall is_u8 (Decoder.buffer d') ∧ Forall bytes_wf out.
Proof.
  unfold Decoder.push_decoded. intros H Hb Hd. case_match; simplify_eq; cbn.
  - split; [constructor|by repeat constructor].
  - split; [|constructor]. apply Forall_app. by split; [|constructor].
Qed.

Lemma push_end_u8 d d' out :
  Decoder.push_end d = (d', out) → Forall is_u8 (Decoder.buffer d) →
  Forall is_u8 (Decoder.buffer d') ∧ Forall bytes_wf out.
Proof.
  unfold Decoder.push_end. intros H Hd. simplify_eq. cbn. split; [constructor|].
  repeat case_match; by repeat constructor.
Qed.

Lemma push_byte_u8 d x d' out :
  Decoder.push_byte d x = (d', out) → is_u8 x → Forall is_u8 (Decoder.buffer d) →
  Forall is_u8 (Decoder.buffer d') ∧ Forall bytes_wf out.
Proof.
  unfold Decoder.push_byte. intros H Hx Hd. repeat case_match; simplify_eq; cbn.
  - by eapply push_end_u8.
  - by split; [|constructor].
  - by eapply push_decoded_u8; [done|unfold is_u8, END; lia|].
  - by eapply push_decoded_u8; [done|unfold is_u8, ESC; lia|].
  - split; [constructor|by repeat constructor].
  - by split; [|constructor].
  - by eapply push_decoded_u8.
Qed.

Lemma push_u8 d input :
  Forall is_u8 input → Forall is_u8 (Decoder.buffer d) →
  Forall is_u8 (Decoder.buffer (Decoder.push d input).1) ∧ Forall bytes_wf (Decoder.push d input).2.
Proof.
  intros Hi. revert d. induction Hi as [|x input Hx _ IH]; intros d Hd; cbn [Decoder.push].
  { by split; [|constructor]. }
  destruct (Decoder.push_byte d x) as [d1 out1] eqn:H1.
  apply push_byte_u8 in H1 as [Hd1 Ho1]; [|done..]. specialize (IH d1 Hd1).
  destruct (Decoder.push d1 input) as [d2 out2]. destruct IH as [? ?]. split; [done|].
  cbn. by apply Forall_app.
Qed.

Definition incoming_wf (i : Incoming.t) : Prop := input_wf (Input.Received (Some i)).

Lemma incoming_of_wf r : bytes_wf r → ∃ i, incoming_of r = Some i ∧ incoming_wf i.
Proof.
  intros Hr. unfold incoming_of. destruct r as [bytes|e|]; cbn; [|by eexists; split|done].
  pose proof (Frame.FrameFacts.decode_no_panic bytes).
  destruct (Frame.decode bytes) as [f|e|] eqn:Hd; [|by eexists; split|done].
  apply Frame.FrameFacts.decode_wf in Hd as [Hf _]; [|done]. by eexists; split.
Qed.

(** The reader never panics, and what it sends the actor is well formed. *)
Lemma read_frames_wf decoder reads :
  Forall bytes_wf reads → Forall is_u8 (Decoder.buffer decoder) →
  ∃ incoming, read_frames decoder reads = Some incoming ∧ Forall incoming_wf incoming.
Proof.
  intros Hr. revert decoder. induction Hr as [|r reads Hr Hreads IH]; intros d Hd; cbn [read_frames].
  { by exists []. }
  destruct r as [bytes|e|]; [|by eexists; split; [done|repeat constructor]|done].
  destruct bytes as [|x bytes]; [by eexists; split; [done|repeat constructor]|].
  pose proof (push_u8 d (x :: bytes) Hr Hd) as [Hd1 Ho].
  destruct (Decoder.push d (x :: bytes)) as [d1 out]. cbn [fst snd] in *.
  destruct (IH d1 Hd1) as (rest & -> & Hrest).
  assert (∃ l, mapM incoming_of out = Some l ∧ Forall incoming_wf l) as (l & -> & Hl).
  { clear -Ho. induction Ho as [|r out Hr _ IH]; [by exists []|].
    destruct (incoming_of_wf r Hr) as (i & Hi & Hiw). destruct IH as (l & Hl & Hlw).
    exists (i :: l). cbn [mapM]. rewrite Hi, Hl. split; [done|by constructor]. }
  eexists. split; [done|]. by apply Forall_app.
Qed.

Definition schedule_wf (s : Schedule.t) : Prop :=
  match Schedule.pick s with Pick.Command (Some c) => command_wf c | _ => True end.

(** The deadlines computed at these moments are instants. *)
Definition schedule_fits (settings : ConnectionSettings.t) (s : Schedule.t) : Prop :=
  Schedule.dispatched_at s + ConnectionSettings.request_timeout settings ≤ INSTANT_MAX
  ∧ Schedule.received_at s + ConnectionSettings.session_timeout settings ≤ INSTANT_MAX.
Global Instance schedule_fits_dec settings s : Decision (schedule_fits settings s) :=
  ltac:(unfold schedule_fits; apply _).

Lemma interleave_fits settings incoming schedule :
  Forall (schedule_fits settings) schedule →
  Forall (turn_fits settings) (interleave incoming schedule).
Proof.
  intros Hs. revert incoming. induction Hs as [|s schedule Hs _ IH]; intros incoming;
    cbn [interleave]; [constructor|]. destruct (Schedule.pick s); by constructor.
Qed.

Lemma interleave_wf incoming schedule :
  Forall incoming_wf incoming → Forall schedule_wf schedule →
  Forall turn_wf (interleave incoming schedule).
Proof.
  intros Hi Hs. revert incoming Hi. induction Hs as [|s schedule Hs _ IH]; intros incoming Hi;
    cbn [interleave]; [constructor|]. unfold schedule_wf in Hs.
  destruct (Schedule.pick s) as [[c|]| |]; (constructor; [|apply IH]); try done.
  - by destruct Hi.
  - by destruct Hi.
Qed.

(** *** What the actor passes on was decoded *)
Definition event_decoded (event : ConnectionEvent.t) : Prop := recv_wf (Recv.Event event).

Definition effect_wf (e : Effect.t) : Prop :=
  match e with
  | Replied _ result => returns result response_wf
  | Emitted event => event_decoded event
  | _ => True
  end.

Lemma dispatch_wf settings s w now s' effects outcome :
  dispatch settings s w now = (s', effects, outcome) → Forall effect_wf effects.
Proof.
  unfold dispatch. destruct s as [reqs p sess]. destruct p; [intros [= <- <- <-]; constructor|].
  destruct (dispatch_next _ _ _ _ _) as [[[rest p] effs] out] eqn:Hd. intros [= <- <- <-].
  revert rest p effs out Hd. cbn. induction reqs as [|q reqs IH]; intros rest p effs out; cbn [dispatch_next].
  { intros [= <- <- <- <-]. constructor. }
  destruct (dispatch_next reqs sess w now _) as [[[rest' p'] effs'] out'].
  specialize (IH _ _ _ _ eq_refl). intros H. repeat case_match; simplify_eq; by repeat constructor.
Qed.

Lemma handle_frame_wf f p m now timeout p' m' effects :
  Frame.wf f → handle_frame f p m now timeout = Some (p', m', effects) → Forall effect_wf effects.
Proof.
  intros Hf H. pose proof (decode_returns f Hf) as Hd. unfold handle_frame in H.
  destruct (decode f) as [r|e|]; [| |done]; cbn in Hd;
    repeat case_match; simplify_eq; by repeat constructor.
Qed.

Lemma emitted_wf {A} (f : A → ConnectionEvent.t) l :
  (∀ a, event_decoded (f a)) → Forall effect_wf ((λ a, Emitted (f a)) <$> l).
Proof. intros Hf. apply Forall_fmap, Forall_true. intros a. apply Hf. Qed.

Lemma select_effects_wf settings s i now s' effects exit :
  input_wf i → select settings s i now = Some (s', effects, exit) → Forall effect_wf effects.
Proof.
  intros Hi. unfold select. destruct i as [[[request reply|reply]|]|[[f|e|e]|]|];
    try (intros [= <- <- <-]; by repeat constructor).
  - intros H. apply bind_Some in H as ([[p m] effs] & Hh & [= <- <- <-]).
    by eapply handle_frame_wf.
  - destruct (expire_request _ _ _) as [[p m] effs] eqn:He. unfold expire_sessions.
    intros [= <- <- <-]. apply Forall_app. split; [|by apply emitted_wf].
    unfold expire_request in He. repeat case_match; simplify_eq; by repeat constructor.
Qed.

Lemma finish_wf s exit waiting result : Forall effect_wf (finish s exit waiting result).
Proof.
  unfold finish, fail_outstanding. repeat (apply Forall_app; split).
  - by destruct (Actor.pending s); repeat constructor.
  - by apply Forall_fmap, Forall_true.
  - apply Forall_forall. intros e (c & _ & Hc)%list_elem_of_omap. by destruct c; simplify_eq.
  - by destruct (Exit.disconnect_reason exit); repeat constructor.
  - by destruct (Exit.shutdown_reply exit); repeat constructor.
Qed.

Lemma run_actor_wf settings turns waiting result :
  Forall turn_wf turns → Forall (turn_fits settings) turns →
  ∃ effects, run_actor settings turns waiting result = Some effects ∧ Forall effect_wf effects.
Proof.
  intros Ht Hfit. destruct (run_wf settings turns Actor.init Ht Hfit ltac:(constructor))
    as [[[s effects] exit] Hr].
  pose proof (run_relation settings input_wf (λ _ _ effects _, Forall effect_wf effects)) as H.
  assert (Forall effect_wf effects) as He.
  { apply (H ltac:(constructor) ltac:(by intros; apply Forall_app)
             ltac:(by intros; eapply dispatch_wf) ltac:(by intros; eapply select_effects_wf)
             turns Actor.init s effects exit Ht Hr). }
  unfold run_actor. rewrite Hr. cbn. destruct exit as [exit|]; [|by eauto].
  eexists. split; [done|]. apply Forall_app. split; [done|]. apply finish_wf.
Qed.

(** A client whose requests are answered on reply channels of the actor, and whose receiver
    yields what the actor broadcast *)
Class BackedBy (effects : list Effect.t) (w : ClientWorld) : Prop := {
  backed_connects h : connects w h ≠ Some Panic;
  backed_replies h send r :
    replies w h = Some send → ∃ sent reply, send r = send_unlocked sent reply effects;
  backed_receives h event : Recv.Event event ∈ receives w h → Emitted event ∈ effects;
  backed_waits h event : Recv.Event event ∈ (waits w h).1 → Emitted event ∈ effects
}.

Section backed.
Context (effects : list Effect.t) (Heffects : Forall effect_wf effects).

Lemma send_unlocked_returns sent reply : returns (send_unlocked sent reply effects) response_wf.
Proof using All.
  unfold send_unlocked, reply_to. destruct sent; [|done].
  destruct (omap _ effects) as [|result l] eqn:Ho; [done|]. cbn.
  assert (result ∈ result :: l) as Hr by constructor. rewrite <- Ho in Hr.
  apply list_elem_of_omap in Hr as (e & He & Hm). destruct e as [|r result'| |]; try done.
  unfold then_some in Hm. destruct (_ =? _)%nat; [|done]. injection Hm as ->.
  rewrite Forall_forall in Heffects. exact (Heffects _ He).
Qed.

Lemma broadcast_decoded event : Emitted event ∈ effects → event_decoded event.
Proof using All. intros He. rewrite Forall_forall in Heffects. exact (Heffects _ He). Qed.

Lemma received_decoded items :
  (∀ event, Recv.Event event ∈ items → Emitted event ∈ effects) → Forall recv_wf items.
Proof using All.
  intros H. apply Forall_forall. intros [event| |] Hi; [|done..]. by apply broadcast_decoded, H.
Qed.

Lemma backed_lawful w : BackedBy effects w → LawfulWorld w.
Proof using All.
  intros Hw. split; intros h.
  - apply backed_connects.
  - intros send r Hs. destruct (backed_replies (w := w) h send r Hs) as (sent & reply & ->).
    eapply returns_no_panic, send_unlocked_returns.
  - apply received_decoded, backed_receives.
  - apply received_decoded, backed_waits.
Qed.
End backed.

(** C16: the layers compose, from the bytes up: whatever bytes and errors the stream yields, and
    however the reader, the client and the timer are scheduled, as long as the moments and the
    timeouts of the settings add up to instants the platform represents, the reader and the actor
    never panic; every reply a client gets and every event it receives is a well-formed response that
    was decoded; so every event is one the loop of the bridge was verified for, and a client of
    this connection is a lawful gateway for the set-up. *)
Theorem stream_serves_bridge (settings : ConnectionSettings.t) (reads : list (KlfResult (list Z)))
    (schedule : list Schedule.t) (waiting : list ActorCommand.t) (shutdown_result : KlfResult unit) :
  Forall (λ r, returns r (Forall is_u8)) reads → Forall schedule_wf schedule →
  Forall (schedule_fits settings) schedule →
  ∃ effects, from_stream settings reads schedule waiting shutdown_result = Some effects
    ∧ (∀ sent reply, returns (send_unlocked sent reply effects) response_wf)
    ∧ (∀ event, Emitted event ∈ effects → event_wf (BridgeEvent.GatewayEvent (Recv.Event event)))
    ∧ (∀ w, BackedBy effects w → LawfulGateway (client_gateway w)).
Proof.
  intros Hr Hs Hfit. unfold from_stream.
  destruct (read_frames_wf (Decoder.new (Nat.max (ConnectionSettings.maximum_slip_frame_length settings) 1))
    reads Hr ltac:(constructor)) as (incoming & -> & Hi).
  destruct (run_actor_wf settings (interleave incoming schedule) waiting shutdown_result
    (interleave_wf _ _ Hi Hs) (interleave_fits _ _ _ Hfit)) as (effects & Heq & He).
  exists effects. split_and!; [done|by apply send_unlocked_returns| |].
  - intros event Hev%(broadcast_decoded effects He). by destruct event.
  - intros w Hw. by apply client_lawful, (backed_lawful effects).
Qed.

(** ** Witness: a request for the gateway's state, answered in two reads *)
Definition sample_reads : list (KlfResult (list Z)) :=
  match Frame.encode (Frame.new GW_GET_STATE_CFM [2; 0; 0; 0; 0; 0]) with
  | Ok bytes => [Ok (take 3 (Slip.encode bytes)); Ok (drop 3 (Slip.encode bytes))]
  | _ => []
  end.

Definition sample_schedule : list Schedule.t :=
  [ Schedule.mk None 0 (Pick.Command (Some (ActorCommand.Send Request.GetState 1%nat))) 1;
    Schedule.mk None 2 Pick.NextIncoming 3;
    Schedule.mk None 4 (Pick.Command None) 5 ].

Definition sample_effects : list Effect.t :=
  default [] (from_stream ConnectionSettings.default sample_reads sample_schedule [] (Ok tt)).

Definition sample_link_world : ClientWorld := {|
  connects _ := Some (Ok 0%nat);
  replies _ := Some (λ _, send_unlocked true 1 sample_effects);
  receives _ := [];
  waits _ := ([], false);
  closing _ _ := Err KlfError.ConnectionClosed;
  channel _ := ShutdownChannel.ChannelClosed
|}.

Lemma stream_serves_bridge_witness :
  (∃ state, reply_to 1 sample_effects = Some (Ok (Response.GatewayState state)))
  ∧ LawfulGateway (client_gateway sample_link_world).
Proof.
  split; [eexists; vm_compute; reflexivity|].
  destruct (stream_serves_bridge ConnectionSettings.default sample_reads sample_schedule [] (Ok tt))
    as (effects & Heq & _ & _ & Hw).
  - apply Forall_cons. split; [|apply Forall_cons; split; [|constructor]];
      cbn; apply (bool_decide_unpack _); vm_compute; exact I.
  - by repeat constructor.
  - apply (bool_decide_unpack _). vm_compute. exact I.
  - apply Hw. assert (effects = sample_effects) as -> by (unfold sample_effects; by rewrite Heq).
    split; [done| |intros ? ? []%not_elem_of_nil|intros ? ? []%not_elem_of_nil].
    intros h send r Hs. apply (inj Some) in Hs as <-. exists true, 1%nat. exact eq_refl.
Defined.
