(* ===== verification/Wire.v ===== *)
(** * What the connection puts on the wire

    The bytes the actor writes are the frames of accepted requests, whole and in order; a peer
    that reads them with the same framing, in whatever pieces they arrive, sees exactly these. *)

From S2P Require Import Prelude RustStd CommandIds Error Types Frame Slip Command CommandLayout.
From S2P Require Import ResponseTypes Response Connection ConnectionFacts.
Import Effect Actor.

(** The frame of a request is a frame: of a typed one by its layout, of a raw one as given. *)
Lemma request_frame_wf (r : Request.t) (f : Frame.t) :
  request_wf r → Request.encode r = Ok f → Frame.wf f.
Proof.
  intros Hwf He. rewrite encode_layout in He by done.
  destruct (invalid r) eqn:Hv; [done|]. injection He as <-.
  destruct (is_raw r) eqn:Hraw; [|by apply layout_fits_frame].
  split; [|by apply layout_u8]. destruct r; try done. apply Hwf.
Qed.

Module Wire.

(** What was written for whom *)
Definition sent (effects : list Effect.t) : list (ReplyChannel * list Z) :=
  omap (λ e, match e with Written reply bytes => Some (reply, bytes) | _ => None end) effects.

(** The bytes of the stream *)
Definition stream (effects : list Effect.t) : list Z := concat (sent effects).*2.

(** The bytes written for a request: its frame, encoded and delimited *)
Definition carries (request : Request.t * ReplyChannel) (w : ReplyChannel * list Z) : Prop :=
  w.1 = request.2 ∧ ∃ bytes, encode_request request.1 = Ok bytes ∧ w.2 = Slip.encode bytes.

Definition waiting (requests : list QueuedRequest.t) : list (Request.t * ReplyChannel) :=
  (λ q, (QueuedRequest.request q, QueuedRequest.reply q)) <$> requests.

Lemma sent_app a b : sent (a ++ b) = sent a ++ sent b.
Proof. apply omap_app. Qed.

Lemma dispatch_next_sent requests sessions w now timeout :
  let '(rest, pending, effects, outcome) := dispatch_next requests sessions w now timeout in
  ∃ served, Forall2 carries served (sent effects)
            ∧ served ++ waiting rest `sublist_of` waiting requests.
Proof.
  induction requests as [|q requests IH]; cbn [dispatch_next]; [by exists []|].
  destruct (dispatch_next requests sessions w now timeout) as [[[rest p] effs] out].
  destruct IH as (served & Hf & Hs). assert (∃ served' : list (Request.t * ReplyChannel),
    Forall2 carries served' [] ∧ served' ++ waiting requests `sublist_of` waiting (q :: requests)) as Hnone.
  { exists []. split; [done|]. by apply sublist_cons. }
  assert (∀ result, ∃ served',
    Forall2 carries served' (sent (Replied (QueuedRequest.reply q) result :: effs))
    ∧ served' ++ waiting rest `sublist_of` waiting (q :: requests)) as Hskip.
  { intros result. exists served. split; [done|]. by apply sublist_cons. }
  destruct (CommandId.expected_confirmation _) as [confirmation|]; [|apply Hskip].
  destruct (match Request.session_id _ with Some _ => _ | None => _ end); [apply Hskip|].
  destruct (encode_request _) as [bytes|e|] eqn:He; [|apply Hskip|exact Hnone].
  destruct w; [exact Hnone|]. destruct (instant_add now timeout);
    exists [(QueuedRequest.request q, QueuedRequest.reply q)]; (split; [|done]);
    (constructor; [|constructor]); (split; [done|]); by exists bytes.
Qed.

Lemma handle_frame_sent f p sessions now timeout p' sessions' effects :
  handle_frame f p sessions now timeout = Some (p', sessions', effects) → sent effects = [].
Proof. unfold handle_frame. intros H. by repeat case_match; simplify_eq. Qed.

Lemma select_sent settings s i now s' effects exit :
  select settings s i now = Some (s', effects, exit) →
  sent effects = [] ∧ waiting (requests s') = waiting (requests s) ++ taken i.
Proof.
  unfold select. intros H. destruct i as [[[request reply|reply]|]|[[f|e|e]|]|];
    simplify_eq; cbn; rewrite ?app_nil_r; try done.
  - split; [done|]. unfold waiting. by rewrite fmap_app.
  - apply bind_Some in H as ([[p' sess'] effs] & Hh & [= <- <- <-]). split; [|done].
    by eapply handle_frame_sent.
  - destruct (expire_request _ _ _) as [[p' sess'] effs] eqn:He.
    unfold expire_sessions in H. injection H as <- <- <-. split; [|done]. rewrite sent_app.
    assert (sent effs = []) as ->.
    { unfold expire_request in He. repeat case_match; by simplify_eq. }
    induction (omap _ _); [done|by cbn].
Qed.

Lemma run_sent settings turns s s' effects exit :
  run settings s turns = Some (s', effects, exit) →
  ∃ served, Forall2 carries served (sent effects)
    ∧ served ++ waiting (requests s')
        `sublist_of` waiting (requests s) ++ accepted (consumed settings s turns).
Proof.
  apply (run_relation settings (λ _, True) (λ s i e s', ∃ served, Forall2 carries served (sent e)
    ∧ served ++ waiting (requests s') `sublist_of` waiting (requests s) ++ accepted i)).
  - intros s0. exists []. by rewrite app_nil_r.
  - intros s1 i1 e1 s2 i2 e2 s3 (w1 & Hw1 & H1) (w2 & Hw2 & H2). exists (w1 ++ w2).
    rewrite sent_app. split; [by apply Forall2_app|]. rewrite <- app_assoc.
    etrans; [apply sublist_app; [done|exact H2]|].
    rewrite accepted_app, !app_assoc. by apply sublist_app.
  - intros s0 w now s1 e1 out Hd _. rewrite app_nil_r. unfold dispatch in Hd.
    destruct s0 as [reqs p sess]. cbn in Hd. destruct p as [p|].
    + injection Hd as <- <- <-. by exists [].
    + pose proof (dispatch_next_sent reqs sess w now (ConnectionSettings.request_timeout settings)) as Hn.
      destruct (dispatch_next _ _ _ _ _) as [[[rest p] effs] o]. by injection Hd as <- <- <-.
  - intros s0 i now s1 e1 x _ Hs. apply select_sent in Hs as [-> ->]. exists [].
    unfold accepted. cbn. by rewrite app_nil_r.
  - by apply Forall_true.
Qed.

(** Requests that were written, their frames and their bytes *)
Lemma carried_frames served entries :
  Forall (λ q, request_wf q.1) served → Forall2 carries served entries →
  ∃ frames encoded, Forall2 (λ q f, Request.encode q.1 = Ok f) served frames
    ∧ Forall Frame.wf frames ∧ mapM Frame.encode frames = Ok encoded
    ∧ entries.*2 = Slip.encode <$> encoded ∧ entries.*1 = served.*2.
Proof.
  intros Hwf H. induction H as [|q w served entries Hq _ IH]; [by exists [], []|].
  apply Forall_cons in Hwf as [Hqwf Hwf].
  destruct (IH Hwf) as (frames & encoded & Hf & Hfw & Hm & He & Hr).
  destruct Hq as (Hreply & bytes & Henc & Hw). unfold encode_request in Henc.
  apply outcome_bind_Ok in Henc as (f & Hrf & Hfb).
  exists (f :: frames), (bytes :: encoded). split_and!.
  - by constructor.
  - constructor; [by eapply request_frame_wf|done].
  - cbn [mapM]. by rewrite Hfb; cbn; rewrite Hm.
  - cbn. by rewrite Hw, He.
  - cbn. by rewrite Hreply, Hr.
Qed.

Lemma accepted_wf settings turns s :
  Forall turn_wf turns → Forall (λ q, request_wf q.1) (accepted (consumed settings s turns)).
Proof.
  intros Ht. revert s. induction Ht as [|t turns Ht _ IH]; intros s; cbn [consumed]; [constructor|].
  destruct (dispatch settings s _ _) as [[s1 e] out]. destruct out as [u|e'|]; [|constructor..].
  unfold accepted. cbn [fmap list_fmap concat]. apply Forall_app. split.
  - unfold turn_wf, input_wf in Ht. destruct (Turn.input t) as [[[r c|c]|]| |]; try constructor; done || constructor.
  - destruct (select _ _ _ _) as [[[s2 e2] [x|]]|]; [constructor|apply IH|constructor].
Qed.

(** C18: from requests to the peer: in every run of the actor, the bytes written to the stream,
    cut into any non-empty pieces and read by a peer with the same framing, are exactly the
    frames of some of the requests taken from the command channel, in the order in which these
    were submitted, each whole and at most once; and they are the frames of the requests for
    which the run records a write. *)
Theorem peer_reads_requests (settings : ConnectionSettings.t) (turns : list Turn.t)
    (s : Actor.t) (effects : list Effect.t) (exit : option Exit.t)
    (maximum : nat) (chunks : list (list Z)) :
  Forall turn_wf turns → run settings init turns = Some (s, effects, exit) →
  (257 ≤ maximum)%nat → Forall (λ c, c ≠ []) chunks → concat chunks = stream effects →
  ∃ served frames,
    served `sublist_of` accepted (consumed settings init turns)
    ∧ served.*2 = written effects
    ∧ Forall2 (λ q f, Request.encode q.1 = Ok f) served frames
    ∧ read_frames (Decoder.new maximum) (Ok <$> chunks) = Some (Incoming.IncomingFrame <$> frames).
Proof.
  intros Ht Hr Hmax Hne Hcat. destruct (run_sent _ _ _ _ _ _ Hr) as (served & Hc & Hsub).
  cbn in Hsub. assert (served `sublist_of` accepted (consumed settings init turns)) as Hsub'.
  { etrans; [|exact Hsub]. by apply sublist_inserts_r. }
  assert (Forall (λ q, request_wf q.1) served) as Hwf.
  { apply Forall_forall. intros q Hq. pose proof (accepted_wf settings turns init Ht) as Hall.
    rewrite Forall_forall in Hall. apply Hall. by apply (elem_of_submseteq served), sublist_submseteq. }
  destruct (carried_frames _ _ Hwf Hc) as (frames & encoded & Hf & Hfw & Hm & He & Hreply).
  exists served, frames. split_and!; [done| |done|].
  - rewrite <- Hreply. clear. unfold sent, written. induction effects as [|e effects IH]; [done|].
    destruct e; cbn; by rewrite ?IH.
  - apply (read_encoded_frames maximum [] frames encoded chunks); [done..| |done|done|].
    + by intros ?%not_elem_of_nil.
    + by rewrite Hcat; unfold stream; rewrite He.
Qed.
End Wire.

Lemma peer_reads_requests_witness :
  ∃ s effects exit, run ConnectionSettings.default init sample_turns = Some (s, effects, exit)
    ∧ ∃ served frames, served.*2 = [1; 3]%nat
      ∧ Forall2 (λ q f, Request.encode q.1 = Ok f) served frames
      ∧ read_frames (Decoder.new 257) (Ok <$> [Wire.stream effects])
        = Some (Incoming.IncomingFrame <$> frames).
Proof.
  do 3 eexists. split; [vm_compute; reflexivity|].
  edestruct (λ s effects exit, Wire.peer_reads_requests ConnectionSettings.default sample_turns
    s effects exit 257 [Wire.stream effects])
    as (served & frames & _ & Hw & Hf & Hr).
  - exact sample_turns_wf.
  - vm_compute. reflexivity.
  - lia.
  - apply Forall_singleton. vm_compute. discriminate.
  - apply app_nil_r.
  - exists served, frames. split; [rewrite Hw; vm_compute; reflexivity|]. split; [exact Hf|exact Hr].
Defined.
