(* ===== verification/EndToEnd.v ===== *)
(** * From the wire to the broker

    The layers a notification crosses, put together: the bytes of the stream, the reader and the
    actor of the connection, the broadcast channel, the handlers of the bridge, the retained
    messages of the broker. *)

From S2P Require Import Prelude RustStd CommandIds Error Types Frame Slip Command CommandLayout.
From S2P Require Import ResponseTypes Response ResponseFacts Connection ConnectionFacts Client Broadcast.
From S2P Require Import Tls VeluxNode NodeFacts Mqtt MqttFacts Broker HassDiscovery HassFacts.
From S2P Require Import Bridge BridgeLogic BridgeFacts BridgeSnapshot BridgeMirror.
Import Bridge.

(** ** What a notification does to the data of the bridge *)
Abbreviation data := (gmap NodeId.t VeluxNode.t * gmap GroupId.t GroupInformation.t)%type (only parsing).

Definition absorb_group (gs : gmap GroupId.t GroupInformation.t) (r : Response.t)
    : gmap GroupId.t GroupInformation.t :=
  match group_update gs r with
  | Some (inl group) => <[GroupInformation.group_id group := group]> gs
  | Some (inr group_id) => delete group_id gs
  | None => gs
  end.

Definition absorb (d : data) (r : Response.t) : data :=
  ((VeluxNodeCache.apply_response d.1 r).1, absorb_group d.2 r).

Definition data_of (b : Bridge.t) : data := (cache b, groups b).

Section handling.
Context `{E : Environment} `{L : !Lawful E}.

(** [m] makes [d'] of the data, whatever it publishes. *)
Definition makes {A} (m : M A) (s : St.t) (d : data) : Prop := data_of (St.bridge (m s).1) = d.

Lemma makes_publishes {A} (m : M A) s :
  tame always publishing m → makes m s (data_of (St.bridge s)).
Proof. intros Hm. destruct (Hm s I) as (_ & [Hb _] & _). unfold makes. by rewrite Hb. Qed.

Lemma makes_logged m s d : makes m s d → makes (logged m) s d.
Proof. unfold makes, logged. by destruct (m s). Qed.

Lemma makes_group r s :
  makes (apply_group_response r) s (cache (St.bridge s), absorb_group (groups (St.bridge s)) r).
Proof.
  unfold apply_group_response, absorb_group, makes. destruct s as [b h]. cbn [St.bridge].
  change ((gets id ≫= ?k) (St.mk b h)) with (k b (St.mk b h)). cbv beta.
  destruct (group_update (groups b) r) as [[g|id]|]; [..|done];
    change ((modify ?f ≫= ?k) ?s) with (k tt (St.mk (f (St.bridge s)) (St.history s))); cbv beta;
    apply (makes_publishes _ (St.mk (set_groups _ b) h)); tame_split.
Qed.

Lemma makes_update r s :
  makes (update_node r) s ((VeluxNodeCache.apply_response (cache (St.bridge s)) r).1, groups (St.bridge s)).
Proof.
  unfold update_node, makes. destruct s as [b h]. cbn [St.bridge].
  change ((gets cache ≫= ?k) (St.mk b h)) with (k (cache b) (St.mk b h)). cbv beta.
  destruct (VeluxNodeCache.apply_response (cache b) r) as [c [id|]]; [|done].
  change ((modify ?f ≫= ?k) ?s) with (k tt (St.mk (f (St.bridge s)) (St.history s))). cbv beta.
  apply (makes_publishes _ (St.mk (set_cache c b) h)), publishes_update.
Qed.

(** Handling a response absorbs it, and leaves the link as it was. *)
Lemma handle_response_absorbs r s :
  holds_data s → response_wf r →
  data_of (St.bridge (handle_response r s).1) = absorb (data_of (St.bridge s)) r
  ∧ link (St.bridge (handle_response r s).1) = link (St.bridge s).
Proof.
  intros Hs Hr. split; [|by apply (commands_response r Hr s Hs)]. rewrite handle_response_parts.
  set (m := match r with Response.SessionFinished id => release_session id | _ => mret tt end).
  assert (tame holds_data commanding m) as Hm.
  { destruct r; first [apply commands_release|apply tame_ret, _]. }
  assert (∃ ids, m s = (St.mk (set_session_ids ids (St.bridge s)) (St.history s), Ok tt)) as [ids Heq].
  { destruct s as [b h]. destruct r; by first [eexists; reflexivity|exists (session_ids b); by destruct b]. }
  clearbody m. destruct (Hm s Hs) as (Hs1 & _ & _). rewrite Heq in Hs1. cbn [fst] in Hs1.
  set (s1 := St.mk _ _) in *. unfold mbind, M_bind at 1. rewrite Heq.
  destruct (commands_apply_group r Hr s1 Hs1) as (_ & _ & Hp).
  unfold M_bind at 1. rewrite (logged_returns _ s1 Hp).
  pose proof (makes_group r s1) as Hgroup. unfold makes in Hgroup.
  rewrite (makes_update r). injection Hgroup as -> ->. done.
Qed.
End handling.

(** ** A series of notifications *)

(** The frames notify, and decode to these responses. *)
Definition notifies (f : Frame.t) (r : Response.t) : Prop :=
  CommandId.kind (Frame.command f) = CommandKind.Notification ∧ decode f = Ok r.

(** The actor broadcasts them, one by one. *)
Lemma run_broadcasts settings turns s s' effects frames rs :
  Turn.input <$> turns = (λ f, Input.Received (Some (Incoming.IncomingFrame f))) <$> frames →
  Forall2 notifies frames rs → awaits (Actor.pending s) →
  Connection.run settings s turns = Some (s', effects, None) →
  emitted effects = ConnectionEvent.Notification <$> rs.
Proof.
  intros Hin Hf. revert turns s s' effects Hin.
  induction Hf as [|f r frames rs [Hk Hd] _ IH]; intros [|t turns] s s' effects Hin Ha Hr; try done.
  { by injection Hr as <- <-. }
  injection Hin as Ht Hin. cbn [Connection.run] in Hr.
  apply bind_Some in Hr as ([[s1 e1] x1] & Hturn & Hr). unfold turn in Hturn.
  destruct (dispatch settings s _ _) as [[s0 e0] out] eqn:Hdisp. destruct out as [[]|e|]; [| |done].
  2: { injection Hturn as <- <- <-. done. }
  apply bind_Some in Hturn as ([[s2 e2] x2] & Hs & [= <- <- <-]). destruct x2; [done|].
  apply bind_Some in Hr as ([[s3 e3] x3] & Hr & [= <- <- ->]).
  pose proof (dispatch_awaits _ _ _ _ _ _ _ Hdisp Ha) as Ha0.
  destruct (dispatch_emits _ _ _ _ _ _ _ Hdisp) as [He0 _].
  destruct (select_notifies _ _ _ _ _ _ _ Hs Ha0) as [Ha2 _].
  rewrite Ht in Hs. apply bind_Some in Hs as ([[p m] e] & Hh & [= <- <-]).
  destruct (handle_frame_broadcasts _ _ _ _ _ _ _ _ Hh Ha0 Hk) as (event & He & Hevent).
  rewrite !emitted_app, He0, He, (Hevent r Hd), (IH _ _ _ _ Hin Ha2 Hr). done.
Qed.

(** The bridge handles them, one by one. *)
Section series.
Context `{E : Environment} `{L : !Lawful E}.

Definition delivery (r : Response.t) : BridgeEvent.t :=
  BridgeEvent.GatewayEvent (Recv.Event (ConnectionEvent.Notification r)).

Lemma after_notified config s rs :
  running config s → gateway (St.bridge s) ≠ None → Forall response_wf rs →
  ∃ s', after (delivery <$> rs) s = Some s' ∧ running config s'
        ∧ data_of (St.bridge s') = foldl absorb (data_of (St.bridge s)) rs
        ∧ link (St.bridge s') = link (St.bridge s).
Proof.
  intros Hrun Hg Hrs. revert s Hrun Hg.
  induction Hrs as [|r rs Hr _ IH]; intros s Hrun Hg; [by exists s|].
  destruct (running_inv _ _ Hrun) as (l & Hs & _).
  destruct (running_step config s (delivery r) Hrun) as (s1 & Hstep & Hrun1); [|done|].
  { cbn. rewrite (inv_events _ _ _ Hs). unfold has_gateway. by destruct (gateway _). }
  inversion Hstep as [? ? ? He Hh]; subst. cbn [delivery handle handle_gateway_event] in Hh.
  destruct (handle_response_absorbs r s (inv_data _ _ _ Hs) Hr) as [Hd Hl]. rewrite Hh in Hd, Hl.
  cbn [fst] in Hd, Hl.
  assert (gateway (St.bridge s1) = gateway (St.bridge s)) as Hg1 by (unfold link in Hl; congruence).
  destruct (IH s1 Hrun1) as (s' & Ha & Hrun' & Hd' & Hl'); [by rewrite Hg1|].
  exists s'. cbn [fmap list_fmap after foldl]. rewrite He. cbn [delivery handle handle_gateway_event].
  rewrite Hh, Hd', Hd, Hl', Hl. done.
Qed.
End series.

(** ** End to end *)
Section broker.
Context `{E : Environment} `{L : !Lawful E} `{S : !Serializing} `{B : BroadcastChannel Q}.

(** What the broker retains as the state of a cover of the bridge *)
Lemma state_retained config s id node store :
  running config s → accepted_all (St.history s) → mqtt_connected (St.bridge s) = true →
  gateway (St.bridge s) ≠ None →
  cache (St.bridge s) !! id = Some node → VeluxNode.is_controllable node = true →
  Broker.deliver_all store (delivered (St.history s)) !! TopicLayout.node_state (topics (St.bridge s)) id
  = Some (bytes_of (cover_state_label (VeluxNode.state node))).
Proof.
  intros Hrun Hacc Hm Hg Hn Hc. pose proof (running_mirrored config s Hrun Hacc Hm) as Hmirror.
  destruct (running_inv _ _ Hrun) as (l & Hs & _). destruct (inv_data _ _ _ Hs) as (Hcache & _).
  destruct (Hcache _ _ Hn) as [<- Hw].
  refine (eq_trans (Hmirror store (Topic.NodeState (VeluxNode.id node))
    (bytes_of (cover_state_label (VeluxNode.state node))) _ eq_refl _) _).
  - by apply Hw.
  - unfold mirror, mirror_online, controllable, has_gateway. rewrite Hn.
    destruct (gateway _); [|done]. cbn. by rewrite Hc.
  - by destruct (VeluxNode.state node).
Qed.

(** C3: what the gateway notifies on the wire reaches the broker. Notifications, encoded and cut into
    any non-empty pieces, are read as they were sent; the actor broadcasts what they say, whatever
    else it has to do; a receiver with room for them yields it in order; and the bridge, which
    handles it without fail, ends with the nodes and groups that absorbing these responses one
    after the other gives. If the broker is connected and refused nothing, it then retains as the
    state of every supported cover the one these nodes have. *)
Theorem notifications_reach_broker (config : VeluxMqttBridgeConfig.t) (s : St.t)
    (frames : list Frame.t) (rs : list Response.t) (encoded chunks : list (list Z)) (maximum : nat)
    (incoming : list Incoming.t) (settings : ConnectionSettings.t) (turns : list Turn.t)
    (actor actor' : Actor.t) (effects : list Effect.t) (q : Q) :
  running config s → gateway (St.bridge s) ≠ None →
  Forall Frame.wf frames → Forall2 notifies frames rs → mapM Frame.encode frames = Ok encoded →
  (257 ≤ maximum)%nat → Forall (λ c, c ≠ []) chunks → concat chunks = concat (Slip.encode <$> encoded) →
  read_frames (Decoder.new maximum) (Ok <$> chunks) = Some incoming →
  Turn.input <$> turns = (λ i, Input.Received (Some i)) <$> incoming → awaits (Actor.pending actor) →
  Connection.run settings actor turns = Some (actor', effects, None) →
  missed q = 0%nat → unread q = [] → (length frames ≤ buffer q)%nat →
  ∃ s', after (BridgeEvent.GatewayEvent <$> received (length frames) (send_all q (emitted effects))) s
        = Some s'
    ∧ running config s'
    ∧ (cache (St.bridge s'), groups (St.bridge s'))
      = foldl absorb (cache (St.bridge s), groups (St.bridge s)) rs
    ∧ (mqtt_connected (St.bridge s) = true → accepted_all (St.history s') →
       ∀ store id node,
         (foldl absorb (cache (St.bridge s), groups (St.bridge s)) rs).1 !! id = Some node →
         VeluxNode.is_controllable node = true →
         Broker.deliver_all store (delivered (St.history s'))
           !! TopicLayout.node_state (topics (St.bridge s)) id
         = Some (bytes_of (cover_state_label (VeluxNode.state node)))).
Proof.
  intros Hrun Hg Hwf Hrs Henc Hmax Hne Hcat Hread Hturns Ha Hactor Hmissed Hunread Hroom.
  rewrite (read_encoded_frames maximum [] frames encoded chunks) in Hread;
    [|done|done|by intros ?%not_elem_of_nil|done..].
  injection Hread as <-. rewrite <- list_fmap_compose in Hturns.
  pose proof (run_broadcasts _ _ _ _ _ _ _ Hturns Hrs Ha Hactor) as Hevents.
  pose proof (Forall2_length _ _ _ Hrs) as Hlen.
  destruct (send_all_spec q (emitted effects)) as (Hu & Hmiss & _); [rewrite Hunread; cbn; lia|].
  assert (excess q (emitted effects) = 0%nat) as Hx.
  { unfold excess. rewrite Hunread, Hevents, length_fmap. cbn. lia. }
  rewrite Hx, Hunread, drop_0, app_nil_l in Hu.
  assert (length (unread (send_all q (emitted effects))) = length frames) as Hl.
  { by rewrite Hu, Hevents, length_fmap. }
  rewrite <- Hl, received_all by lia. rewrite Hu, Hevents, <- !list_fmap_compose.
  destruct (after_notified config s rs Hrun Hg) as (s' & Hafter & Hrun' & Hd & Hlink).
  { apply Forall_forall. intros r Hr. apply list_elem_of_lookup in Hr as [i Hi].
    destruct (Forall2_lookup_r _ _ _ _ _ Hrs Hi) as (f & Hf & _ & Hdec).
    rewrite Forall_lookup in Hwf. pose proof (decode_returns f (Hwf _ _ Hf)) as Hret.
    by rewrite Hdec in Hret. }
  exists s'. split; [exact Hafter|]. split; [done|]. split; [exact Hd|].
  intros Hm Hacc store id node Hn Hc.
  change (cache (St.bridge s), groups (St.bridge s)) with (data_of (St.bridge s)) in Hn.
  rewrite <- Hd in Hn.
  unfold link in Hlink. injection Hlink as _ Htopics Hg' _ _ Hm' _ _. rewrite <- Htopics.
  apply (state_retained config); try done; congruence.
Qed.
End broker.

(** Node 4 of the sample bridge reports that it opens, then that it is open; the stream comes in
    three pieces that do not respect the frames. *)
Definition sample_position (state : Z) (position : list Z) : Frame.t :=
  Frame.new GW_NODE_STATE_POSITION_CHANGED_NTF ([4; state] ++ position ++ replicate 16 0).

Definition sample_frames : list Frame.t := [sample_position 4 [200; 0]; sample_position 5 [0; 0]].

Definition sample_encoded : list (list Z) :=
  [[0; 23; 2; 17; 4; 4; 200; 0] ++ replicate 16 0 ++ [204];
   [0; 23; 2; 17; 4; 5] ++ replicate 18 0 ++ [5]].

Definition sample_chunks : list (list Z) :=
  let stream := concat (Slip.encode <$> sample_encoded) in
  [take 3 stream; take 30 (drop 3 stream); drop 33 stream].

Definition sample_responses : list Response.t :=
  omap (λ f, if decode f is Ok r then Some r else None) sample_frames.

Definition sample_turns : list Turn.t :=
  (λ f, Turn.mk None 0 (Input.Received (Some (Incoming.IncomingFrame f))) 0) <$> sample_frames.

Definition sample_effects : list Effect.t :=
  (λ r, Effect.Emitted (ConnectionEvent.Notification r)) <$> sample_responses.

Definition sample_heard : Ring.t :=
  send_all (Ring.new ConnectionSettings.default) (emitted sample_effects).

Lemma notifications_reach_broker_witness :
  ∃ s', @after quiet (BridgeEvent.GatewayEvent <$> received 2 sample_heard) (sample_state sample_events)
        = Some s'
    ∧ Broker.deliver_all ∅ (delivered (St.history s')) !! "home/velux/velux_node_4/state"
      = Some (bytes_of "open").
Proof.
  assert (Connection.run ConnectionSettings.default Actor.init sample_turns
    = Some (Actor.init, sample_effects, None)) as Hactor by (vm_compute; reflexivity).
  destruct (@notifications_reach_broker quiet quiet_lawful quiet_serializing Ring.t Ring.receiver
    Ring.broadcast sample_bridge_config (sample_state sample_events) sample_frames sample_responses
    sample_encoded sample_chunks 257 (Incoming.IncomingFrame <$> sample_frames)
    ConnectionSettings.default sample_turns Actor.init Actor.init sample_effects
    (Ring.new ConnectionSettings.default) sample_online)
    as (s' & Ha & _ & _ & Hstate); [..|exact Hactor| | | |].
  - vm_compute. discriminate.
  - repeat constructor; apply (bool_decide_unpack _); vm_compute; exact I.
  - repeat constructor.
  - vm_compute. reflexivity.
  - lia.
  - repeat constructor; vm_compute; discriminate.
  - vm_compute. reflexivity.
  - vm_compute. reflexivity.
  - reflexivity.
  - intros p Hp. discriminate Hp.
  - reflexivity.
  - reflexivity.
  - vm_compute. lia.
  - exists s'. split; [exact Ha|].
    assert (accepted_all (St.history s')) as Hacc
      by (apply accepted_all_forallb; revert Ha; vm_compute; intros [= <-]; reflexivity).
    destruct ((foldl absorb (data_of (St.bridge (sample_state sample_events))) sample_responses).1
              !! NodeId.new 4) as [node|] eqn:Hn; [|vm_compute in Hn; discriminate].
    pose proof (Hstate ltac:(vm_compute; reflexivity) Hacc ∅ (NodeId.new 4) node Hn) as H.
    vm_compute in Hn. injection Hn as <-.
    exact (H eq_refl).
Defined.
