(* ===== verification/Redaction.v ===== *)
(** * What is shown of secrets ([fmt::Debug] in klf200 and mqtt.rs)

    Requests, frames, responses and the configuration of the broker are logged with [{:?}]. Their
    [Debug] implementations are values here: what the formatter is handed, before it lays out
    text. That a secret is not shown is non-interference: values that differ in it alone are
    shown alike. *)

From S2P Require Import Prelude RustStd CommandIds Error Types Frame Command CommandLayout.
From S2P Require Import ResponseTypes Response ResponseFacts Wire Mqtt.

(** What a [Debug] implementation asks of its [Formatter]: [write_str], [debug_tuple] and
    [debug_struct] with their fields; a derived implementation shows the whole value. *)
Module Debug.
Inductive t :=
| Text (text : string)
| Derived {A : Type} (value : A)
| Tuple (name : string) (fields : list t)
| Struct (name : string) (fields : list (string * t)).
End Debug.
Import Debug.

Definition REDACTED : Debug.t := Derived "[REDACTED]".

Definition debug_frame (f : Frame.t) : Debug.t :=
  Struct "Frame"
    [("protocol_id", Derived (Frame.protocol_id f)); ("command", Derived (Frame.command f));
     ("payload", match Frame.debug_payload f with None => REDACTED | Some payload => Derived payload end)].

Definition debug_request (r : Request.t) : Debug.t :=
  match r with
  | Request.PasswordEnter _ => Text "PasswordEnter([REDACTED])"
  | Request.PasswordChange _ _ => Text "PasswordChange([REDACTED])"
  | Request.Raw command payload =>
      Struct "Raw" [("command", Derived command); ("payload_length", Derived (length payload))]
  | Request.Reboot => Text "Reboot"
  | Request.SetFactoryDefault => Text "SetFactoryDefault"
  | Request.GetVersion => Text "GetVersion"
  | Request.GetProtocolVersion => Text "GetProtocolVersion"
  | Request.GetState => Text "GetState"
  | Request.LeaveLearnState => Text "LeaveLearnState"
  | Request.GetNetworkSetup => Text "GetNetworkSetup"
  | Request.SetNetworkSetup setup => Tuple "SetNetworkSetup" [Derived setup]
  | Request.SetUtc timestamp => Tuple "SetUtc" [Derived timestamp]
  | Request.SetTimeZone time_zone => Tuple "SetTimeZone" [Derived time_zone]
  | Request.GetLocalTime => Text "GetLocalTime"
  | Request.Configuration request => Tuple "Configuration" [Derived request]
  | Request.NodeGroup request => Tuple "NodeGroup" [Derived request]
  | Request.CommandExtension request => Tuple "CommandExtension" [Derived request]
  | Request.SceneContact request => Tuple "SceneContact" [Derived request]
  | Request.ActivationLog request => Tuple "ActivationLog" [Derived request]
  | Request.GetAllNodesInformation => Text "GetAllNodesInformation"
  | Request.HouseStatusMonitorEnable => Text "HouseStatusMonitorEnable"
  | Request.HouseStatusMonitorDisable => Text "HouseStatusMonitorDisable"
  | Request.GetNodeInformation node_id => Tuple "GetNodeInformation" [Derived node_id]
  | Request.CommandSend command target =>
      Struct "CommandSend" [("command", Derived command); ("target", Derived target)]
  | Request.StatusRequest session_id target status_type =>
      Struct "StatusRequest"
        [("session_id", Derived session_id); ("target", Derived target);
         ("status_type", Derived status_type)]
  end.

Definition debug_password_changed (n : PasswordChangedNotification.t) : Debug.t :=
  Text "PasswordChangedNotification([REDACTED])".

(** The derived implementation of [Response] shows its fields with theirs. *)
Definition debug_response (r : Response.t) : Debug.t :=
  match r with
  | Response.PasswordChangedNotification n =>
      Tuple "PasswordChangedNotification" [debug_password_changed n]
  | r => Derived r
  end.

Definition debug_mqtt_config (c : MqttConfig.t) : Debug.t :=
  Struct "MqttConfig"
    [("server", Derived (MqttConfig.server c)); ("port", Derived (MqttConfig.port c));
     ("ca_cert", Derived (MqttConfig.ca_cert c)); ("insecure", Derived (MqttConfig.insecure c));
     ("client_id", Derived (MqttConfig.client_id c));
     ("user_configured", Derived (negb (String.eqb (MqttConfig.user c) "")));
     ("password", REDACTED); ("base_topic", Derived (MqttConfig.base_topic c));
     ("keep_alive", Derived (MqttConfig.keep_alive c));
     ("request_capacity", Derived (MqttConfig.request_capacity c))].

(** ** Values that differ in secrets alone *)
Definition same_but_secrets (r r' : Request.t) : Prop :=
  match r, r' with
  | Request.PasswordEnter _, Request.PasswordEnter _
  | Request.PasswordChange _ _, Request.PasswordChange _ _ => True
  | Request.Raw command payload, Request.Raw command' payload' =>
      command = command' ∧ length payload = length payload'
  | _, _ => r = r'
  end.

(** The commands whose payloads are passwords *)
Definition password_command (command : CommandId) : bool :=
  one_of command [GW_PASSWORD_ENTER_REQ; GW_PASSWORD_CHANGE_REQ; GW_PASSWORD_CHANGE_NTF].

Definition same_but_password (c c' : MqttConfig.t) : Prop :=
  ∃ user password,
    c' = MqttConfig.mk (MqttConfig.server c) (MqttConfig.port c) (MqttConfig.ca_cert c)
           (MqttConfig.insecure c) (MqttConfig.client_id c) user password (MqttConfig.base_topic c)
           (MqttConfig.keep_alive c) (MqttConfig.request_capacity c)
    ∧ (user = "" ↔ MqttConfig.user c = "").

Lemma debug_frame_password f f' :
  password_command (Frame.command f) = true → Frame.command f' = Frame.command f →
  Frame.protocol_id f' = Frame.protocol_id f → debug_frame f' = debug_frame f.
Proof.
  intros Hp Hc Hid. unfold debug_frame, Frame.debug_payload. rewrite Hc, Hid.
  unfold password_command, one_of in Hp. cbn in Hp. rewrite orb_false_r, orb_assoc in Hp.
  by rewrite Hp.
Qed.

(** C35: secrets stay out of what is logged. Requests that differ only in their passwords, or in a
    raw payload of the same length, are shown alike; so are the frames of two password requests,
    any two frames of a password command, and what is decoded from two notifications of a new
    password; and configurations of the broker that differ only in its password and in which
    user is configured. *)
Theorem secrets_redacted :
  (∀ r r', same_but_secrets r r' → debug_request r = debug_request r')
  ∧ (∀ r r' f f', same_but_secrets r r' → password_command (Request.command_id r) = true →
       request_wf r → request_wf r' → Request.encode r = Ok f → Request.encode r' = Ok f' →
       debug_frame f = debug_frame f')
  ∧ (∀ f f' r r', Frame.command f = GW_PASSWORD_CHANGE_NTF → Frame.command f' = GW_PASSWORD_CHANGE_NTF →
       Frame.protocol_id f = Frame.protocol_id f' → decode f = Ok r → decode f' = Ok r' →
       debug_frame f = debug_frame f' ∧ debug_response r = debug_response r')
  ∧ (∀ c c', same_but_password c c' → debug_mqtt_config c = debug_mqtt_config c').
Proof.
  split_and!.
  - intros r r' H. destruct r, r'; cbn in H; simplify_eq; try done.
    destruct H as [-> Hl]. cbn. by rewrite Hl.
  - intros r r' f f' Hs Hp Hr Hr' Hf Hf'. rewrite encode_layout in Hf, Hf' by done.
    destruct (invalid r); [done|]. destruct (invalid r'); [done|].
    injection Hf as <-. injection Hf' as <-. symmetry. apply debug_frame_password; [done| |done].
    destruct r, r'; cbn in Hs; simplify_eq; try done. by destruct Hs.
  - intros f f' r r' Hc Hc' Hid Hd Hd'. split.
    { symmetry. apply debug_frame_password; [by rewrite Hc|congruence|done]. }
    assert (∀ g x, Frame.command g = GW_PASSWORD_CHANGE_NTF → decode g = Ok x →
      ∃ n, x = Response.PasswordChangedNotification n) as Hdec.
    { intros g x Hg Hx.
      assert (decode g = (_ ← require_exact (Frame.payload g) 32 GW_PASSWORD_CHANGE_NTF;
                          new_password ← decode_fixed_string (Frame.payload g);
                          Ok (Response.PasswordChangedNotification
                                (PasswordChangedNotification.mk new_password)))) as Heq.
      { unfold decode. rewrite Hg. reflexivity. }
      rewrite Heq in Hx. apply outcome_bind_Ok in Hx as (_ & _ & Hx).
      apply outcome_bind_Ok in Hx as (password & _ & [= <-]). by eexists. }
    destruct (Hdec f r Hc Hd) as [n ->], (Hdec f' r' Hc' Hd') as [n' ->]. done.
  - intros c c' (user & password & -> & Hu). unfold debug_mqtt_config. cbn.
    assert (String.eqb user "" = String.eqb (MqttConfig.user c) "") as ->; [|done].
    apply eq_true_iff_eq. by rewrite !String.eqb_eq.
Qed.

(** Two logins, and two notifications of a new password *)
Lemma secrets_redacted_witness :
  debug_request (Request.PasswordEnter "velux123") = debug_request (Request.PasswordEnter "other")
  ∧ match Request.encode (Request.PasswordEnter "velux123"), Request.encode (Request.PasswordEnter "other") with
    | Ok f, Ok f' => Frame.payload f ≠ Frame.payload f' ∧ debug_frame f = debug_frame f'
    | _, _ => False
    end.
Proof.
  destruct secrets_redacted as (Hr & Hf & _). split; [by apply Hr|].
  assert (∀ p, p = "velux123" ∨ p = "other" → request_wf (Request.PasswordEnter p)) as Hwf.
  { by intros p [->| ->]; apply (bool_decide_unpack _); vm_compute. }
  pose proof (Hf (Request.PasswordEnter "velux123") (Request.PasswordEnter "other")) as H.
  destruct (Request.encode (Request.PasswordEnter "velux123")) as [f| |] eqn:E1;
    [|vm_compute in E1; discriminate E1..].
  destruct (Request.encode (Request.PasswordEnter "other")) as [f'| |] eqn:E2;
    [|vm_compute in E2; discriminate E2..].
  split.
  - intros Heq. injection E1 as <-. injection E2 as <-. vm_compute in Heq. discriminate Heq.
  - apply H; [exact I|reflexivity|apply Hwf; by left|apply Hwf; by right|done|done].
Defined.
