(* ===== verification/Testing.v ===== *)
(** * What the source's unit tests are written with

    Assertions as booleans, and the byte vectors of the tests. A test of the source is a
    conjunction of its assertions; [failing] names those a model does not pass. *)

From S2P Require Import Prelude RustStd Error Types.

(** The [PartialEq] of results *)
Global Instance outcome_eq_dec {E A} `{EqDecision E} `{EqDecision A} : EqDecision (outcome E A).
Proof. solve_decision. Defined.

(** [assert_eq!(left, right)] *)
Definition assert_eq {A} `{EqDecision A} (left right : A) : bool := bool_decide (left = right).

(** [matches!(result, Err(KlfError::StringTooLong { .. }))] and the like *)
Definition is_string_too_long {A} (result : KlfResult A) : bool :=
  match result with Err (KlfError.StringTooLong _ _) => true | _ => false end.
Definition is_invalid_request {A} (result : KlfResult A) : bool :=
  match result with Err (KlfError.InvalidRequest _) => true | _ => false end.
Definition is_truncated {A} (result : KlfResult A) : bool :=
  match result with Err (KlfError.TruncatedPayload _ _ _) => true | _ => false end.
Definition is_invalid_length {A} (result : KlfResult A) : bool :=
  match result with Err (KlfError.InvalidPayloadLength _ _ _) => true | _ => false end.
Definition is_err {A} (result : KlfResult A) : bool :=
  match result with Err _ => true | _ => false end.

(** [payload[at..at + len].copy_from_slice(bytes)] on a vector of zeros *)
Definition written_at (at_ : nat) (bytes payload : list Z) : list Z :=
  take at_ payload ++ bytes ++ drop (at_ + length bytes) payload.
Definition zeros (n : nat) : list Z := replicate n 0.

Definition repeated (s : string) (n : nat) : string := String.concat "" (replicate n s).

Definition session : SessionId.t := SessionId.mk 0x1234.
Definition failing (tests : list (string * bool)) : list string :=
  (λ '(name, _), name) <$> List.filter (negb ∘ snd) tests.
