(* ===== verification/Fakes.v ===== *)
(** * What the tests of the bridge run against (bridge.rs, [mod tests])

    [FakeGateway], the gateway the tests script, as an instance of both interfaces to a gateway;
    JSON text, as serde_json writes it compactly, for the parameters of the serializer; what the
    tests read off the publications; and a driver that delivers what the fakes answer. *)

From Stdlib Require Import Ascii.
From S2P Require Import Prelude RustStd RustText CommandIds Error Types Frame Command.
From S2P Require Import ResponseTypes Connection Client VeluxNode Mqtt HassDiscovery Bridge Setup.
From S2P Require Import Testing.
Import Bridge.

(** ** JSON text, without white space and escapes but those of the quote and the backslash *)
Module JsonText.
Definition quote : ascii := ascii_of_nat 34.
Definition backslash : ascii := ascii_of_nat 92.

Fixpoint escaped (s : string) : string :=
  match s with
  | EmptyString => EmptyString
  | String c s =>
      if Ascii.eqb c quote || Ascii.eqb c backslash then String backslash (String c (escaped s))
      else String c (escaped s)
  end.
Definition quoted (s : string) : string := String quote (escaped s +:+ String quote EmptyString).

Fixpoint print (j : Json.t) : string :=
  match j with
  | Json.Null => "null"
  | Json.Bool b => if b then "true" else "false"
  | Json.Number n => pretty n
  | Json.String s => quoted s
  | Json.Array items => "[" +:+ String.concat "," (print <$> items) +:+ "]"
  | Json.Object fields =>
      "{" +:+ String.concat "," ((λ '(name, value), quoted name +:+ ":" +:+ print value) <$> fields)
      +:+ "}"
  end.

(** The rest of a string after its opening quote *)
Fixpoint read_string (s : string) : option (string * string) :=
  match s with
  | EmptyString => None
  | String c s =>
      if Ascii.eqb c quote then Some (EmptyString, s)
      else if Ascii.eqb c backslash then
        match s with
        | EmptyString => None
        | String c s => '(value, rest) ← read_string s; Some (String c value, rest)
        end
      else '(value, rest) ← read_string s; Some (String c value, rest)
  end.

Definition digit (c : ascii) : option Z :=
  let d := Z.of_nat (nat_of_ascii c) - 48 in then_some ((0 <=? d) && (d <=? 9)) d.

Fixpoint read_digits (n : Z) (s : string) : Z * string :=
  match s with
  | EmptyString => (n, EmptyString)
  | String c rest =>
      match digit c with Some d => read_digits (10 * n + d) rest | None => (n, s) end
  end.

(** [s] after a prefix *)
Fixpoint expect (prefix s : string) : option string :=
  match prefix, s with
  | EmptyString, s => Some s
  | String p prefix, String c s => if Ascii.eqb p c then expect prefix s else None
  | _, EmptyString => None
  end.

(** The items up to the closing bracket, separated by commas *)
Fixpoint read_items {A} (fuel : nat) (item : string → option (A * string)) (close s : string)
    : option (list A * string) :=
  match fuel with
  | O => None
  | S fuel =>
      match expect close s with
      | Some rest => Some ([], rest)
      | None =>
          '(a, rest) ← item (default s (expect "," s));
          '(items, rest) ← read_items fuel item close rest;
          Some (a :: items, rest)
      end
  end.

Fixpoint read (fuel : nat) (s : string) : option (Json.t * string) :=
  match fuel with
  | O => None
  | S fuel =>
      let field s :=
        rest ← expect (String quote EmptyString) s;
        '(name, rest) ← read_string rest;
        rest ← expect ":" rest;
        '(value, rest) ← read fuel rest;
        Some ((name, value), rest) in
      match s with
      | EmptyString => None
      | String c rest =>
          if Ascii.eqb c quote then '(value, rest) ← read_string rest; Some (Json.String value, rest)
          else if Ascii.eqb c "[" then
            '(items, rest) ← read_items fuel (read fuel) "]" rest; Some (Json.Array items, rest)
          else if Ascii.eqb c "{" then
            '(fields, rest) ← read_items fuel field "}" rest; Some (Json.Object fields, rest)
          else if Ascii.eqb c "n" then rest ← expect "null" s; Some (Json.Null, rest)
          else if Ascii.eqb c "t" then rest ← expect "true" s; Some (Json.Bool true, rest)
          else if Ascii.eqb c "f" then rest ← expect "false" s; Some (Json.Bool false, rest)
          else if Ascii.eqb c "-" then
            let (n, rest) := read_digits 0 rest in Some (Json.Number (- n), rest)
          else
            _ ← digit c; let (n, rest) := read_digits 0 s in Some (Json.Number n, rest)
      end
  end.

(** [serde_json::from_slice] *)
Definition from_slice (payload : list Z) : option Json.t :=
  '(value, rest) ← read (S (length payload)) (string_of payload);
  if String.eqb rest EmptyString then Some value else None.

(** [value[name]], [value.get(name)] and their like *)
Definition get (name : string) (value : Json.t) : option Json.t :=
  match value with
  | Json.Object fields =>
      snd <$> List.find (λ '(field, _), String.eqb field name) fields
  | _ => None
  end.
End JsonText.

(** ** [FakeGateway]: what is scripted of it; what it logs is read off the history *)
Module FakeGateway.
Record t := mk {
  nodes : list NodeInformation.t;
  groups : list GroupInformation.t;
  publish_status : bool;
  block_discovery : bool;
  empty_node_discovery : bool
}.

Definition with_status_and_groups (nodes : list NodeInformation.t)
    (groups : list GroupInformation.t) (publish_status : bool) : t :=
  mk nodes groups publish_status false false.
Definition with_groups (nodes : list NodeInformation.t) (groups : list GroupInformation.t) : t :=
  with_status_and_groups nodes groups true.
Definition new (nodes : list NodeInformation.t) : t := with_groups nodes [].
Definition with_empty_node_discovery (nodes : list NodeInformation.t)
    (groups : list GroupInformation.t) : t :=
  let gateway := with_status_and_groups nodes groups true in
  mk (FakeGateway.nodes gateway) (FakeGateway.groups gateway) (publish_status gateway)
    (block_discovery gateway) true.
Definition without_status (nodes : list NodeInformation.t) : t :=
  with_status_and_groups nodes [] false.
Definition blocking_discovery : t :=
  let gateway := with_status_and_groups [] [] true in
  mk (nodes gateway) (groups gateway) (publish_status gateway) true (empty_node_discovery gateway).

Definition version : Version.t := Version.mk [1; 2; 3; 4; 5; 6] 1 2 3.
Definition protocol_version : ProtocolVersion.t := ProtocolVersion.mk 3 18.
Definition gateway_state : GatewayState.t := GatewayState.mk 0 0 [0; 0; 0; 0].

Definition node_information (gateway : t) (node_id : NodeId.t) : KlfResult NodeInformation.t :=
  ok_or (List.find (λ information, bool_decide (NodeInformation.node_id information = node_id))
           (nodes gateway))
    (KlfError.InvalidRequest "test node is not present").

(** [send]: the answer, and the notifications sent before it *)
Definition send (gateway : t) (request : Request.t) : KlfResult Response.t * list Response.t :=
  match request with
  | Request.HouseStatusMonitorEnable | Request.HouseStatusMonitorDisable =>
      (Ok (Response.Acknowledgement GW_HOUSE_STATUS_MONITOR_ENABLE_CFM), [])
  | Request.StatusRequest session_id target _ =>
      let accepted := Ok (Response.StatusAccepted session_id 1) in
      if publish_status gateway then
        match CommandTarget.nodes target with
        | [] => (Panic, [])
        | node_id :: _ =>
            match List.find (λ node, bool_decide (NodeInformation.node_id node = node_id))
                    (nodes gateway) with
            | None => (Panic, [])
            | Some node =>
                (accepted,
                 [Response.StatusNotification
                    (StatusNotification.mk session_id 1 node_id RunStatus.Completed 0
                       (StatusNotificationDetail.Main (NodeInformation.target_position node)
                          (NodeInformation.current_position node)
                          (NodeInformation.remaining_time node) 0 1));
                  Response.SessionFinished session_id])
            end
        end
      else (accepted, [])
  | Request.CommandSend command _ =>
      (Ok (Response.CommandAccepted (CommandRequest.session_id command) 1),
       [Response.SessionFinished (CommandRequest.session_id command)])
  | Request.SceneContact (SceneContactRequest.ActivateProductGroup request) =>
      (Ok (Response.ProductGroupResult
             (ProductGroupResult.mk (ProductGroupActivationRequest.session_id request) 0)),
       [Response.SessionFinished (ProductGroupActivationRequest.session_id request)])
  | Request.Reboot => (Ok (Response.Acknowledgement GW_REBOOT_CFM), [])
  | request => (Err (KlfError.UnsupportedRequest (Request.command_id request)), [])
  end.

(** *** Its logs *)
Section logs.
Context (handle : GatewayHandle) (history : list Action.t).

Definition sent : list Request.t :=
  omap (λ action, match action with
                  | Action.Send gateway request =>
                      then_some (bool_decide (gateway = handle)) request
                  | _ => None
                  end) history.

Definition command_parameters : list Z :=
  omap (λ request, match request with
                   | Request.CommandSend command _ =>
                       Some (RawPosition.get
                               (StandardParameter.to_raw (CommandRequest.main_parameter command)))
                   | _ => None
                   end) sent.

Definition status_nodes : list NodeId.t :=
  mjoin ((λ request, match request with
                     | Request.StatusRequest _ target _ => CommandTarget.nodes target
                     | _ => []
                     end) <$> sent).

Definition group_commands : list (GroupId.t * Z) :=
  omap (λ request, match request with
                   | Request.SceneContact (SceneContactRequest.ActivateProductGroup request) =>
                       Some (GroupId.new (ProductGroupActivationRequest.product_group_id request),
                             RawPosition.get (StandardParameter.to_raw
                               (ProductGroupActivationRequest.position request)))
                   | _ => None
                   end) sent.

(** The arguments [shutdown] was called with: [shutdown] and [rebooted] are whether there is one,
    and the last one; [reboot_requests] counts those that reboot, and the requests to. *)
Definition shutdowns : list bool :=
  omap (λ action, match action with
                  | Action.GatewayShutdown gateway reboot =>
                      then_some (bool_decide (gateway = handle)) reboot
                  | _ => None
                  end) history.
Definition shutdown : bool := negb (bool_decide (shutdowns = [])).
Definition rebooted : bool := default false (last shutdowns).
Definition reboot_requests : nat :=
  length (List.filter id shutdowns)
  + length (List.filter (λ request, bool_decide (request = Request.Reboot)) sent).
End logs.

(** *** The set-up's view: the receiver holds what was sent since it was subscribed. *)
Fixpoint after_status (session_id : SessionId.t) (queue : list Response.t) : list Response.t :=
  match queue with
  | [] => []
  | Response.StatusNotification status :: queue =>
      if bool_decide (StatusNotification.session_id status = session_id) then queue
      else after_status session_id queue
  | _ :: queue => after_status session_id queue
  end.

Definition received (gateway : t) (trace : list SetupAction.t) : list Response.t :=
  default [] (foldl (λ receiver action,
    match action with
    | SetupAction.Subscribe => Some []
    | SetupAction.Send request => (λ queue, queue ++ (send gateway request).2) <$> receiver
    | SetupAction.AwaitStatus session_id => after_status session_id <$> receiver
    | _ => receiver
    end) None trace).

Definition notified (responses : list Response.t) : list Recv.t :=
  (λ response, Recv.Event (ConnectionEvent.Notification response)) <$> responses.

Definition scripted (handle : GatewayHandle) (gateway : t) : Gateway := {|
  connect_answer _ := Some (Ok handle);
  login_answer _ _ := Some (Ok tt);
  version_answer _ := Some (Ok version);
  protocol_version_answer _ := Some (Ok protocol_version);
  discover_nodes_answer _ :=
    if block_discovery gateway then None
    else Some (Ok (if empty_node_discovery gateway then [] else nodes gateway));
  node_information_answer _ node_id := Some (node_information gateway node_id);
  discover_groups_answer _ := Some (Ok (groups gateway));
  send_answer _ request := Some (send gateway request).1;
  status_events trace := (notified (received gateway trace), false);
  shutdown_answer _ _ := Ok tt
|}.
End FakeGateway.

(** ** The world of a test: its gateways, a broker that takes everything, and a clock *)
Definition fake_environment (gateways : list FakeGateway.t) : Environment := {|
  call_returns _ _ := true;
  publish_result _ _ := Ok tt;
  disconnect_result _ := Ok tt;
  send_result _ handle request :=
    match gateways !! handle with
    | Some gateway => (FakeGateway.send gateway request).1
    | None => Err KlfError.ConnectionClosed
    end;
  state_result _ _ := Ok FakeGateway.gateway_state;
  shutdown_result _ _ _ := Ok tt;
  now history := from_millis (Z.of_nat (length history));
  instant_max := from_secs 9223372036854775807;
  random _ _ := 0;
  to_vec value := Ok (bytes_of (JsonText.print value));
  to_value value := Ok value;
  value_to_string := JsonText.print;
  package := Origin.mk "velux2mqtt" "0.1.0" "https://github.com/dirkvdb/velux2mqtt"
|}.

(** ** What the tests read off the publications *)
Section publications.
Context (history : list Action.t).

Definition published : list MqttPublication.t :=
  omap (λ action, if action is Action.Publish publication _ then Some publication else None) history.

Definition on_topic (topic : string) (publication : MqttPublication.t) : bool :=
  String.eqb (MqttPublication.topic publication) topic.
Definition is_empty (publication : MqttPublication.t) : bool :=
  bool_decide (MqttPublication.payload publication = []).

Definition has_topic (topic : string) : bool :=
  existsb (λ publication, on_topic topic publication && negb (is_empty publication)) published.
Definition has_empty_topic (topic : string) : bool :=
  existsb (λ publication, on_topic topic publication && is_empty publication) published.
Definition payload_count (topic payload : string) : nat :=
  length (List.filter (λ publication, on_topic topic publication
            && bool_decide (MqttPublication.payload publication = bytes_of payload)) published).
Definition latest_payload (topic : string) : option (list Z) :=
  MqttPublication.payload <$> List.find (on_topic topic) (rev published).
Definition latest_json (topic : string) : option Json.t :=
  latest_payload topic ≫= JsonText.from_slice.

Definition disconnected : bool :=
  existsb (λ action, if action is Action.MqttDisconnect then true else false) history.
End publications.

(** ** The driver

    The loop over a schedule of the test: after each event, what the gateway notified meanwhile
    is delivered. [receiver] is the queue of the broadcast channel the bridge listens to. *)
Module Driver.
Record t := mk { state : St.t; receiver : list Recv.t }.

Section driver.
Context (gateways : list FakeGateway.t).
Local Instance world : Environment := fake_environment gateways.

Definition history (d : t) : list Action.t := St.history (state d).

(** What the requests of some actions made the bridge's gateway notify *)
Definition notifications (actions : list Action.t) : list Response.t :=
  mjoin ((λ action, match action with
                    | Action.Send handle request =>
                        match gateways !! handle with
                        | Some gateway => (FakeGateway.send gateway request).2
                        | None => []
                        end
                    | _ => []
                    end) <$> actions).

(** One iteration of the loop; [None] when the event cannot occur or the loop ends. *)
Definition handled (event : BridgeEvent.t) (d : t) : option t :=
  if enabled (St.bridge (state d)) event then
    match handle event (state d) with
    | (s, Ok _) =>
        Some (mk s (receiver d ++ FakeGateway.notified
                      (notifications (drop (length (history d)) (St.history s)))))
    | _ => None
    end
  else None.

(** The capacity of the channel bounds what is delivered at once. *)
Fixpoint settle (capacity : nat) (d : t) : option t :=
  match receiver d, capacity with
  | [], _ => Some d
  | event :: receiver, S capacity =>
      d ← handled (BridgeEvent.GatewayEvent event) (mk (state d) receiver); settle capacity d
  | _ :: _, O => None
  end.

Definition settled (event : BridgeEvent.t) (d : t) : option t := handled event d ≫= settle 64.

Definition connected : t → option t := settled (BridgeEvent.Mqtt (Ok MqttEvent.Connected)).
Definition outage : t → option t :=
  settled (BridgeEvent.Mqtt (Err (MqttError.Connection "test broker outage"))).
Definition message (m : IncomingMessage.t) : t → option t :=
  settled (BridgeEvent.Mqtt (Ok (MqttEvent.Message m))).

(** [gateway.notify] and [gateway.disconnect] *)
Definition notify (response : Response.t) (d : t) : option t :=
  settle 64 (mk (state d) (receiver d ++ FakeGateway.notified [response])).
Definition disconnect (reason : string) (d : t) : option t :=
  settle 64 (mk (state d) (receiver d ++ [Recv.Event (ConnectionEvent.Disconnected reason)])).

(** The timer fires, and the task that sets a gateway up completes; what its receiver still
    holds is the bridge's to receive. *)
Definition prepared (handle : GatewayHandle) (gateway : FakeGateway.t)
    : list SetupAction.t * ended PreparedGateway.t :=
  @prepare_gateway (FakeGateway.scripted handle gateway) "password" [].

Definition set_up (handle : GatewayHandle) (d : t) : option t :=
  gateway ← gateways !! handle;
  d ← handled BridgeEvent.ReconnectTimer d;
  let (trace, result) := prepared handle gateway in
  d ← handled (BridgeEvent.SetupFinished (setup_result result)) d;
  settle 64 (mk (state d) (FakeGateway.notified (FakeGateway.received gateway trace) ++ receiver d)).

(** The shutdown signal; the task joins. *)
Definition stop (cancelled : option GatewayHandle) (d : t) : option (list Action.t) :=
  match serve (Ok tt) cancelled [] (state d) with
  | Some (Ended.Returned s (Ok _)) => Some (St.history s)
  | _ => None
  end.
End driver.
End Driver.
