(* ===== verification/BridgeTests.v ===== *)
(** * The unit tests of the connection to the broker and of the bridge

    The [mod tests] of mqtt.rs and bridge.rs, asked of the model. A test of the bridge runs its
    loop on a schedule that its [wait_until]s admit, against the fakes of [Fakes]; the smoke test
    runs with a broker of its own. *)

From S2P Require Import Prelude RustStd RustText CommandIds Error Types Frame Command.
From S2P Require Import ResponseTypes Tls Connection Client VeluxNode Mqtt HassDiscovery Bridge Setup.
From S2P Require Import Testing Fakes.
Import Bridge.

(** ** mqtt.rs *)
Module MqttTests.
(** [std::fs::read] of a path that does not exist *)
Definition missing (path : string) : outcome string (list Z) := Err "No such file or directory".

Definition with_ca_cert (path : string) (insecure : bool) (c : MqttConfig.t) : MqttConfig.t :=
  MqttConfig.mk (MqttConfig.server c) (MqttConfig.port c) (Some path) insecure
    (MqttConfig.client_id c) (MqttConfig.user c) (MqttConfig.password c) (MqttConfig.base_topic c)
    (MqttConfig.keep_alive c) (MqttConfig.request_capacity c).

Definition conflicting_tls_options_fail_at_startup : bool :=
  match MqttConnection.new missing (with_ca_cert "ca.pem" true (MqttConfig.new "localhost")) with
  | Err error =>
      assert_eq error (MqttError.InvalidConfiguration
        "MQTT CA certificate and insecure TLS options are mutually exclusive")
  | _ => false
  end.

Definition unreadable_ca_certificate_fails_at_startup : bool :=
  let path := "tests/missing-mqtt-ca.pem" in
  match MqttConnection.new missing (with_ca_cert path false (MqttConfig.new "localhost")) with
  | Err (MqttError.CertificateRead actual _) => String.eqb actual path
  | _ => false
  end.

Definition configures_v5_last_will_and_clean_session : bool :=
  match MqttConnection.new missing (MqttConfig.new "localhost") with
  | Ok (options, _) =>
      MqttOptions.clean_start options
      && (MqttOptions.keep_alive options =? 60000)
      && (let will := MqttOptions.last_will options in
          String.eqb (LastWill.topic will) "velux/state"
          && String.eqb (LastWill.payload will) "offline"
          && LastWill.retained will)
  | _ => false
  end.

Definition tests : list (string * bool) :=
  [("conflicting_tls_options_fail_at_startup", conflicting_tls_options_fail_at_startup);
   ("unreadable_ca_certificate_fails_at_startup", unreadable_ca_certificate_fails_at_startup);
   ("configures_v5_last_will_and_clean_session", configures_v5_last_will_and_clean_session)].

Lemma mqtt_tests_pass : failing tests = [].
Proof. vm_compute. reflexivity. Qed.
End MqttTests.

(** ** bridge.rs: the fixtures *)
Module BridgeTests.
Definition node_information (node_id : Z) (name : string) (actuator_code : Z) : NodeInformation.t :=
  NodeInformation.mk (NodeId.new node_id) node_id 1 name 0 (Z.shiftl actuator_code 6) 1 2 0 0 1
    [0; 1; 2; 3; 4; 5; 6; node_id] OperatingState.Done
    (StandardParameter.Relative (Percentage.from_percent 25))
    (StandardParameter.Relative (Percentage.from_percent 25))
    (replicate 4 StandardParameter.NoFeedback) 0 (ProtocolTimestamp.from_unix_seconds 100)
    [Alias.mk 1 2].

Definition group_information (group_id : Z) (name : string) (node_ids : list nat) : GroupInformation.t :=
  GroupInformation.mk (GroupId.new group_id) group_id 1 name 0 0 0 (Z.of_nat (length node_ids))
    (foldl (λ actuators node_id, (ActuatorSet.insert actuators node_id).1) ActuatorSet.new node_ids) 1.

Definition test_config (mqtt_config : MqttConfig.t) (hass_discovery : bool) : VeluxMqttBridgeConfig.t :=
  let config := VeluxMqttBridgeConfig.new (Klf200Config.new "unused") "password" mqtt_config in
  (VeluxMqttBridgeConfig.validate
     (VeluxMqttBridgeConfig.mk (VeluxMqttBridgeConfig.klf config)
        (VeluxMqttBridgeConfig.klf_password config) (VeluxMqttBridgeConfig.mqtt config)
        hass_discovery (VeluxMqttBridgeConfig.reboot_on_shutdown config)
        (from_millis 5) (from_secs 60) (from_secs 60) (from_millis 10) (from_millis 1)
        (from_millis 2))).1.

Definition with_reboot_on_shutdown (c : VeluxMqttBridgeConfig.t) : VeluxMqttBridgeConfig.t :=
  VeluxMqttBridgeConfig.mk (VeluxMqttBridgeConfig.klf c) (VeluxMqttBridgeConfig.klf_password c)
    (VeluxMqttBridgeConfig.mqtt c) (VeluxMqttBridgeConfig.hass_discovery c) true
    (VeluxMqttBridgeConfig.reboot_reconnect_delay c) (VeluxMqttBridgeConfig.heartbeat_interval c)
    (VeluxMqttBridgeConfig.status_refresh_interval c)
    (VeluxMqttBridgeConfig.status_response_timeout c)
    (VeluxMqttBridgeConfig.reconnect_min_delay c) (VeluxMqttBridgeConfig.reconnect_max_delay c).

(** A bridge that has done nothing, and nothing to receive *)
Definition test_bridge_with_config (config : VeluxMqttBridgeConfig.t) : option Driver.t :=
  match TopicLayout.new (MqttConfig.base_topic (VeluxMqttBridgeConfig.mqtt config)) with
  | Ok topics =>
      Some (Driver.mk
        (St.mk
           (Bridge.mk config topics
              (then_some (VeluxMqttBridgeConfig.hass_discovery config)
                 (HomeAssistantDiscovery.new
                    (MqttConfig.client_id (VeluxMqttBridgeConfig.mqtt config))))
              None false false ∅ ∅ SessionIdAllocator.new false 0
              (ReconnectBackoff.new (VeluxMqttBridgeConfig.reconnect_min_delay config)
                 (VeluxMqttBridgeConfig.reconnect_max_delay config))) []) [])
  | _ => None
  end.

Definition test_bridge (hass_discovery : bool) : option Driver.t :=
  let c := MqttConfig.new "unused" in
  let mqtt_config :=
    MqttConfig.mk (MqttConfig.server c) (MqttConfig.port c) (MqttConfig.ca_cert c)
      (MqttConfig.insecure c) "test-bridge" (MqttConfig.user c) (MqttConfig.password c)
      (MqttConfig.base_topic c) (MqttConfig.keep_alive c) (MqttConfig.request_capacity c) in
  test_bridge_with_config (test_config mqtt_config hass_discovery).

Definition command_message (node_id : Z) (payload : string) (retained : bool) : IncomingMessage.t :=
  IncomingMessage.mk ("velux/velux_node_" +:+ pretty node_id +:+ "/cmnd/control") payload retained.
Definition group_command_message (group_id : Z) (payload : string) (retained : bool)
    : IncomingMessage.t :=
  IncomingMessage.mk ("velux/velux_group_" +:+ pretty group_id +:+ "/cmnd/control") payload retained.
Definition reboot_message (retained : bool) : IncomingMessage.t :=
  IncomingMessage.mk "velux/cmnd/reboot" "REBOOT" retained.

(** ** Assertions along a run *)
Definition check (assertion : list Action.t → bool) (d : Driver.t) : option Driver.t :=
  then_some (assertion (Driver.history d)) d.
Definition passes {A} (test : option A) : bool := if test is Some _ then true else false.

Definition discovery_topic : string := "homeassistant/device/test_bridge_gateway/config".

(** [value["a"]["b"]], which is null where there is no such field *)
Definition at_path (path : list string) (value : option Json.t) : option Json.t :=
  foldl (λ value name, value ≫= JsonText.get name) value path.
Definition has_value (value : option Json.t) (expected : Json.t) : bool :=
  match value with
  | Some value => String.eqb (JsonText.print value) (JsonText.print expected)
  | None => false
  end.
Definition is_null (value : option Json.t) : bool :=
  match value with None | Some Json.Null => true | _ => false end.
Definition ids (l : list Z) : Json.t := Json.Array (Json.Number <$> l).

(** ** bridge.rs: the tests *)
Definition rejects_zero_reboot_reconnect_delay : bool :=
  let config := VeluxMqttBridgeConfig.new (Klf200Config.new "unused") "password"
                  (MqttConfig.new "unused") in
  let config :=
    VeluxMqttBridgeConfig.mk (VeluxMqttBridgeConfig.klf config)
      (VeluxMqttBridgeConfig.klf_password config) (VeluxMqttBridgeConfig.mqtt config)
      (VeluxMqttBridgeConfig.hass_discovery config)
      (VeluxMqttBridgeConfig.reboot_on_shutdown config) 0
      (VeluxMqttBridgeConfig.heartbeat_interval config)
      (VeluxMqttBridgeConfig.status_refresh_interval config)
      (VeluxMqttBridgeConfig.status_response_timeout config)
      (VeluxMqttBridgeConfig.reconnect_min_delay config)
      (VeluxMqttBridgeConfig.reconnect_max_delay config) in
  if (VeluxMqttBridgeConfig.validate config).2 is Err _ then true else false.

Definition exercise_group_support (gateways : list FakeGateway.t) (d : Driver.t) : option Driver.t :=
  d ← check (λ h,
        has_value (latest_json h "velux/groups") (ids [4])
        && has_topic h "velux/velux_group_4/info"
        && has_value (at_path ["cmps"; "test_bridge_group_4"; "name"] (latest_json h discovery_topic))
             (Json.String "Upstairs")) d;
  d ← foldl (λ d '(payload, retained),
               d ≫= Driver.message gateways (group_command_message 4 payload retained))
        (Some d) [("OPEN", true); ("TOGGLE", false); ("OPEN", false); ("CLOSE", false)];
  d ← check (λ h, assert_eq (FakeGateway.group_commands 0 h)
        [(GroupId.new 4, Percentage.raw Percentage.FULLY_OPEN);
         (GroupId.new 4, Percentage.raw Percentage.FULLY_CLOSED)]) d;
  let temporary_group := group_information 5 "Temporary" [7%nat] in
  d ← Driver.notify gateways (Response.GroupChange
        (GroupChange.mk 1 (GroupInformation.group_id temporary_group) (Some temporary_group))) d;
  d ← check (λ h,
        has_topic h "velux/velux_group_5/info"
        && passes (at_path ["cmps"; "test_bridge_group_5"] (latest_json h discovery_topic))
        && has_value (latest_json h "velux/groups") (ids [4; 5])) d;
  d ← Driver.notify gateways (Response.GroupDeleted (GroupId.new 5)) d;
  check (λ h,
    has_empty_topic h "velux/velux_group_5/info"
    && negb (passes (at_path ["cmps"; "test_bridge_group_5"] (latest_json h discovery_topic)))
    && has_value (latest_json h "velux/groups") (ids [4])) d.

Definition publishes_initial_state_handles_commands_and_reconnects : bool :=
  let first := FakeGateway.with_empty_node_discovery
                 [node_information 7 "Office" 2; node_information 8 "Lamp" 6]
                 [group_information 4 "Upstairs" [7%nat; 8%nat]] in
  let second := FakeGateway.new [node_information 9 "Bedroom" 2] in
  let gateways := [first; second] in
  let command d payload retained := d ≫= Driver.message gateways (command_message 7 payload retained) in
  passes (
    d ← test_bridge true;
    d ← Driver.connected gateways d;
    d ← Driver.set_up gateways 0 d;
    d ← check (λ h,
          (1 <=? payload_count h "velux/state" "online")%nat
          && has_topic h "velux/nodes"
          && has_value (latest_json h "velux/nodes") (ids [7; 8])
          && has_topic h "velux/velux_node_7/info" && has_topic h "velux/velux_node_7/status"
          && (let discovery := latest_json h discovery_topic in
              has_value (at_path ["cmps"; "velux_0001020304050607"; "p"] discovery) (Json.String "cover")
              && has_value (at_path ["cmps"; "test_bridge_group_4"; "p"] discovery) (Json.String "cover")
              && negb (passes (at_path ["cmps"; "velux_0001020304050608"] discovery)))) d;
    d ← exercise_group_support gateways d;
    d ← check (λ h, negb (has_topic h "homeassistant/cover/velux_0001020304050608/config")) d;
    d ← command (Some d) "CLOSE" true;
    d ← command (Some d) "OPEN" false;
    d ← command (Some d) "CLOSE" false;
    d ← command (Some d) "TOGGLE" false;
    d ← check (λ h, assert_eq (FakeGateway.command_parameters 0 h)
          [Percentage.raw Percentage.FULLY_OPEN; Percentage.raw Percentage.FULLY_CLOSED;
           Percentage.raw Percentage.FULLY_OPEN]) d;
    d ← Driver.notify gateways (Response.NodeStatePosition
          (NodeStatePosition.mk (NodeId.new 7) OperatingState.Done
             (StandardParameter.Relative Percentage.FULLY_CLOSED)
             (StandardParameter.Relative Percentage.FULLY_CLOSED)
             (replicate 4 StandardParameter.NoFeedback) 0
             (ProtocolTimestamp.from_unix_seconds 200))) d;
    d ← check (λ h, (1 <=? payload_count h "velux/velux_node_7/state" "closed")%nat) d;
    d ← Driver.outage gateways d;
    d ← Driver.connected gateways d;
    d ← check (λ h, (2 <=? payload_count h "velux/state" "online")%nat) d;
    d ← Driver.disconnect gateways "test KLF outage" d;
    d ← Driver.set_up gateways 1 d;
    d ← check (λ h,
          (3 <=? payload_count h "velux/state" "online")%nat
          && has_empty_topic h "velux/velux_node_7/status"
          && has_empty_topic h "homeassistant/cover/velux_0001020304050607/config"
          && has_empty_topic h "velux/velux_group_4/info"
          && has_empty_topic h "homeassistant/cover/test_bridge_group_4/config"
          && has_value (latest_json h "velux/nodes") (ids [9])
          && has_value (latest_json h "velux/groups") (ids [])
          && (let discovery := latest_json h discovery_topic in
              match at_path ["cmps"] discovery with
              | Some (Json.Object components) => (length components =? 1)%nat
              | _ => false
              end
              && has_value (at_path ["cmps"; "velux_0001020304050609"; "p"] discovery)
                   (Json.String "cover"))) d;
    h ← Driver.stop gateways None d;
    then_some (disconnected h && FakeGateway.shutdown 1 h
               && assert_eq (latest_payload h "velux/state") (Some (bytes_of "offline"))) h).

Definition live_node_addition_republishes_inventory : bool :=
  passes (
    d ← test_bridge true;
    let s := St.mk (set_mqtt_connected true (St.bridge (Driver.state d))) [] in
    let h := St.history (@handle_response (fake_environment [])
               (Response.NodeInformation (node_information 4 "New node" 2)) s).1 in
    then_some
      (has_value (latest_json h "velux/nodes") (ids [4])
       && has_value (at_path ["cmps"; "velux_0001020304050604"; "name"] (latest_json h discovery_topic))
            (Json.String "New node")) h).

Definition publishes_unknown_before_online_when_initial_status_times_out : bool :=
  let gateways := [FakeGateway.without_status [node_information 2 "Unknown" 2]] in
  passes (
    d ← test_bridge false;
    d ← Driver.connected gateways d;
    d ← Driver.set_up gateways 0 d;
    d ← check (λ h,
          (1 <=? payload_count h "velux/state" "online")%nat
          && assert_eq (latest_payload h "velux/velux_node_2/state") (Some (bytes_of "unknown"))
          && assert_eq (latest_payload h "velux/velux_node_2/position") (Some (bytes_of "unknown"))
          && (let status := latest_json h "velux/velux_node_2/status" in
              passes status && is_null (at_path ["position"] status)
              && is_null (at_path ["target"] status))) d;
    Driver.stop gateways None d).

Definition shutdown_cancels_incomplete_setup_through_gateway_shutdown : bool :=
  let gateway := FakeGateway.blocking_discovery in
  passes (
    d ← test_bridge false;
    d ← Driver.handled [gateway] BridgeEvent.ReconnectTimer d;
    let (trace, result) := Driver.prepared 0 gateway in
    _ ← then_some (bool_decide (SetupAction.DiscoverNodes ∈ trace)) tt;
    h ← Driver.stop [gateway] (cancel_setup result) d;
    then_some
      (bool_decide (SetupAction.Shutdown false ∈ trace)
       && negb (bool_decide (SetupAction.Shutdown true ∈ trace))
       && negb (FakeGateway.shutdown 0 h)) h).

Definition configured_reboot_is_only_used_for_completed_service_shutdown : bool :=
  let gateways := [FakeGateway.new []] in
  passes (
    d ← test_bridge_with_config
          (with_reboot_on_shutdown (test_config (MqttConfig.new "unused") false));
    d ← Driver.connected gateways d;
    d ← Driver.set_up gateways 0 d;
    d ← check (λ h, bool_decide (FakeGateway.status_nodes 0 h = [])
                    && negb (FakeGateway.shutdown 0 h)) d;
    h ← Driver.stop gateways None d;
    then_some (FakeGateway.shutdown 0 h && FakeGateway.rebooted 0 h) h).

(** A bridge whose gateway is the first, as two tests assign it *)
Definition with_gateway (d : Driver.t) : Driver.t :=
  Driver.mk (St.mk (set_gateway (Some 0%nat) false (St.bridge (Driver.state d)))
               (Driver.history d)) (Driver.receiver d).

Definition mqtt_reboot_rejects_retained_messages_and_reconnects_after_confirmation : bool :=
  let world := fake_environment [FakeGateway.new []] in
  passes (
    d ← with_gateway <$> test_bridge false;
    let s := St.mk (set_mqtt_connected true (St.bridge (Driver.state d))) (Driver.history d) in
    let (s, _) := @handle_mqtt_message world (reboot_message true) s in
    _ ← then_some (Nat.eqb (FakeGateway.reboot_requests 0 (St.history s)) 0
                   && has_gateway (St.bridge s)) tt;
    let reboot_started := @now world (St.history s) in
    let (s, _) := @handle_mqtt_message world (reboot_message false) s in
    let h := St.history s in
    then_some
      (Nat.eqb (FakeGateway.reboot_requests 0 h) 1
       && FakeGateway.shutdown 0 h && FakeGateway.rebooted 0 h && negb (has_gateway (St.bridge s))
       && assert_eq (latest_payload h "velux/state") (Some (bytes_of "offline"))
       && (reboot_started
           + VeluxMqttBridgeConfig.reboot_reconnect_delay (config (St.bridge s))
           <=? next_reconnect (St.bridge s))) h).

Definition refreshes_stationary_nodes_without_polling_moving_covers : bool :=
  let stationary := node_information 1 "Stationary" 2 in
  let i := node_information 2 "Moving" 2 in
  let moving :=
    NodeInformation.mk (NodeInformation.node_id i) (NodeInformation.order i)
      (NodeInformation.placement i) (NodeInformation.name i) (NodeInformation.velocity i)
      (NodeInformation.node_type_sub_type i) (NodeInformation.product_group i)
      (NodeInformation.product_type i) (NodeInformation.variation i) (NodeInformation.power_mode i)
      (NodeInformation.build_number i) (NodeInformation.serial_number i) OperatingState.Executing
      (NodeInformation.current_position i) (StandardParameter.Relative Percentage.FULLY_CLOSED)
      (NodeInformation.functional_positions i) (NodeInformation.remaining_time i)
      (NodeInformation.timestamp i) (NodeInformation.aliases i) in
  let world := fake_environment [FakeGateway.new [stationary; moving]] in
  passes (
    d ← with_gateway <$> test_bridge false;
    let b := St.bridge (Driver.state d) in
    let s := St.mk (set_cache (VeluxNodeCache.reconcile (cache b) [stationary; moving]).1 b) [] in
    let h := St.history (@refresh_stationary_nodes world s).1 in
    then_some (assert_eq (FakeGateway.status_nodes 0 h) [NodeId.new 1]) h).

(** *** The smoke test, with a local broker

    The broker hands a client what matches its subscriptions; the bridge's connection polls what it
    is handed. [seen] is how many publications the observer has consumed. *)
Fixpoint topic_matches (filter topic : list string) : bool :=
  match filter, topic with
  | [], [] => true
  | level :: filter, [] => false
  | [], _ :: _ => false
  | level :: filter, name :: topic =>
      if String.eqb level "#" then true
      else (String.eqb level "+" || String.eqb level name) && topic_matches filter topic
  end.

Definition subscribed (filters : list string) (topic : string) : bool :=
  existsb (λ filter, topic_matches (split slash filter) (split slash topic)) filters.

(** What the bridge's connection polls, and the subscriptions it makes *)
Definition polled (d : Driver.t) (event : LoopEvent.t) : list string * option (MqttResult MqttEvent.t) :=
  MqttConnection.poll (topics (St.bridge (Driver.state d))) (λ _, Ok tt) [Ok event].

Definition accepted : LoopEvent.t := LoopEvent.ConnAck true "Success".

(** [observer.publish(topic, QoS::AtLeastOnce, false, payload)] *)
Definition observer_publishes (gateways : list FakeGateway.t) (topic payload : string) (d : Driver.t)
    : option Driver.t :=
  if subscribed (polled d accepted).1 topic then
    event ← (polled d (LoopEvent.Publish (bytes_of topic) (bytes_of payload) false)).2;
    Driver.settled gateways (BridgeEvent.Mqtt event) d
  else Some d.

Definition wait_for_observer_payload (base_topic topic payload : string) (d : Driver.t) (seen : nat)
    : option nat :=
  let delivered publication :=
    subscribed [base_topic +:+ "/#"] (MqttPublication.topic publication)
    && String.eqb (MqttPublication.topic publication) topic
    && bool_decide (MqttPublication.payload publication = bytes_of payload) in
  (λ '(i, _), S (seen + i)) <$> list_find delivered (drop seen (published (Driver.history d))).

Definition full_bridge_smoke_with_local_mqtt_broker : bool :=
  let base_topic := "velux2mqtt_test_1" in
  let c := MqttConfig.new "127.0.0.1" in
  let mqtt_config :=
    MqttConfig.mk (MqttConfig.server c) (MqttConfig.port c) (MqttConfig.ca_cert c)
      (MqttConfig.insecure c) "velux2mqtt-test-1" (MqttConfig.user c) (MqttConfig.password c)
      base_topic (MqttConfig.keep_alive c) (MqttConfig.request_capacity c) in
  let gateway := FakeGateway.with_groups [node_information 3 "Broker test" 2]
                   [group_information 6 "Broker group" [3%nat]] in
  let gateways := [gateway; gateway] in
  let state_topic := base_topic +:+ "/state" in
  let wait payload d seen := wait_for_observer_payload base_topic state_topic payload d seen in
  passes (
    d ← test_bridge_with_config (test_config mqtt_config false);
    event ← (polled d accepted).2;
    d ← Driver.settled gateways (BridgeEvent.Mqtt event) d;
    d ← Driver.set_up gateways 0 d;
    seen ← wait "online" d 0%nat;
    d ← observer_publishes gateways (base_topic +:+ "/velux_node_3/cmnd/control") "OPEN" d;
    d ← check (λ h, assert_eq (FakeGateway.command_parameters 0 h)
                      [Percentage.raw Percentage.FULLY_OPEN]) d;
    d ← observer_publishes gateways (base_topic +:+ "/velux_group_6/cmnd/control") "CLOSE" d;
    d ← check (λ h, assert_eq (FakeGateway.group_commands 0 h)
                      [(GroupId.new 6, Percentage.raw Percentage.FULLY_CLOSED)]) d;
    d ← observer_publishes gateways (base_topic +:+ "/cmnd/reboot") "REBOOT" d;
    d ← check (λ h, Nat.eqb (FakeGateway.reboot_requests 0 h) 1) d;
    seen ← wait "offline" d seen;
    d ← Driver.set_up gateways 1 d;
    seen ← wait "online" d seen;
    h ← Driver.stop gateways None d;
    _ ← wait "offline" (Driver.mk (St.mk (St.bridge (Driver.state d)) h) []) seen;
    then_some (FakeGateway.shutdown 1 h) h).

Definition tests : list (string * bool) :=
  [("rejects_zero_reboot_reconnect_delay", rejects_zero_reboot_reconnect_delay);
   ("publishes_initial_state_handles_commands_and_reconnects",
    publishes_initial_state_handles_commands_and_reconnects);
   ("live_node_addition_republishes_inventory", live_node_addition_republishes_inventory);
   ("publishes_unknown_before_online_when_initial_status_times_out",
    publishes_unknown_before_online_when_initial_status_times_out);
   ("shutdown_cancels_incomplete_setup_through_gateway_shutdown",
    shutdown_cancels_incomplete_setup_through_gateway_shutdown);
   ("configured_reboot_is_only_used_for_completed_service_shutdown",
    configured_reboot_is_only_used_for_completed_service_shutdown);
   ("mqtt_reboot_rejects_retained_messages_and_reconnects_after_confirmation",
    mqtt_reboot_rejects_retained_messages_and_reconnects_after_confirmation);
   ("refreshes_stationary_nodes_without_polling_moving_covers",
    refreshes_stationary_nodes_without_polling_moving_covers);
   ("full_bridge_smoke_with_local_mqtt_broker", full_bridge_smoke_with_local_mqtt_broker)].

Lemma bridge_tests_pass : failing tests = [].
Proof. vm_compute. reflexivity. Qed.
End BridgeTests.
