(* ===== verification/ContractTests.v ===== *)
(** * The integration tests of the values, the topics and the wire

    The files tests/veluxnode.rs, tests/wire_protocol.rs and tests/mqtt_contract.rs, asked of the
    model. JSON text is that of [Fakes.JsonText]. *)

From S2P Require Import Prelude RustStd RustText CommandIds Error Types Frame Slip Command.
From S2P Require Import ResponseTypes Response VeluxNode Mqtt HassDiscovery Redaction Bridge.
From S2P Require Import Testing Fakes BridgeTests.

(** ** tests/veluxnode.rs *)
Module NodeTests.
Definition node_information (node_id : Z) (name : string) (actuator_code : Z)
    (current_position target_position : StandardParameter.t) (operating_state : OperatingState.t)
    : NodeInformation.t :=
  NodeInformation.mk (NodeId.new node_id) node_id 1 name 0 (Z.shiftl actuator_code 6) 1 2 0 0 1
    [0; 1; 2; 3; 4; 5; 6; node_id] operating_state current_position target_position
    (replicate 4 StandardParameter.NoFeedback) 12 (ProtocolTimestamp.from_unix_seconds 100)
    [Alias.mk 1 2].

Definition at_percent (percent : Z) : StandardParameter.t :=
  StandardParameter.Relative (Percentage.from_percent percent).
Definition fully_open : StandardParameter.t := StandardParameter.Relative Percentage.FULLY_OPEN.
Definition fully_closed : StandardParameter.t := StandardParameter.Relative Percentage.FULLY_CLOSED.

Definition builds_cover_metadata_and_mqtt_snapshot : bool :=
  let node := VeluxNode.from_information
    (node_information 7 "Office" 2 (at_percent 25) fully_closed OperatingState.Executing) in
  assert_eq (VeluxNode.actuator_type node) ActuatorType.RollerShutter
  && assert_eq (VeluxNode.actuator_subtype node) 0
  && assert_eq (VeluxNode.serial_number_hex node) "0001020304050607"
  && VeluxNode.is_controllable node
  && assert_eq (VeluxNode.state node) CoverState.Closing
  && assert_eq (JsonText.print (snapshot_to_json (VeluxNode.snapshot node)))
       (JsonText.print (Json.Object
          [("state", Json.String "closing"); ("position", Json.Number 75); ("target", Json.Number 0);
           ("operating_state", Json.String "executing"); ("remaining_time", Json.Number 12)])).

Definition derives_stationary_partial_and_unknown_states : bool :=
  let percent p := Some (Percentage.from_percent p) in
  assert_eq (derive_cover_state OperatingState.Done (Some Percentage.FULLY_CLOSED)
               (Some Percentage.FULLY_CLOSED)) CoverState.Closed
  && assert_eq (derive_cover_state OperatingState.Done (percent 60) (percent 60)) CoverState.Open
  && assert_eq (derive_cover_state OperatingState.Executing (percent 75) (percent 25))
       CoverState.Opening
  && assert_eq (derive_cover_state OperatingState.ExecutionError (Some Percentage.FULLY_OPEN) None)
       CoverState.Unknown
  && assert_eq (derive_cover_state OperatingState.Done None None) CoverState.Unknown.

(** The fields the tests assign *)
Definition with_status (operating_state : OperatingState.t) (current target : option Percentage.t)
    (n : VeluxNode.t) : VeluxNode.t :=
  VeluxNode.set_status n (VeluxNode.availability n) operating_state current target
    (VeluxNode.remaining_time n)
    (default (StatusFreshness.mk StatusSource.Discovery None) (VeluxNode.freshness n)).

Definition toggle_uses_direction_endpoints_and_stationary_threshold : bool :=
  let percent p := Some (Percentage.from_percent p) in
  let toggle node := VeluxNode.resolve_action node CoverAction.Toggle in
  let node := VeluxNode.from_information
    (node_information 2 "Blind" 2 (at_percent 49) (at_percent 49) OperatingState.Done) in
  let done current target := with_status OperatingState.Done current target node in
  let moving current target := with_status OperatingState.Executing current target node in
  assert_eq (toggle node) (Ok CoverEndpoint.Closed)
  && assert_eq (toggle (done (percent 50) (VeluxNode.target_position node))) (Ok CoverEndpoint.Open)
  && assert_eq (toggle (moving (percent 20) (Some Percentage.FULLY_CLOSED))) (Ok CoverEndpoint.Open)
  && assert_eq (toggle (moving (percent 80) (Some Percentage.FULLY_OPEN))) (Ok CoverEndpoint.Closed)
  && assert_eq (toggle (done None None)) (Err (NodeError.PositionUnknown (NodeId.new 2))).

Definition only_implemented_actuator_strategies_emit_commands : bool :=
  let session_id := SessionId.mk 12 in
  let roller := VeluxNode.from_information
    (node_information 1 "Roller" 2 fully_open fully_open OperatingState.Done) in
  let dual := VeluxNode.from_information
    (node_information 3 "Dual" 13 fully_open fully_open OperatingState.Done) in
  let unknown := VeluxNode.from_information
    (node_information 4 "Future" 63 StandardParameter.NoFeedback StandardParameter.NoFeedback
       (OperatingState.Unknown 0xFE)) in
  match VeluxNode.command_request roller session_id CoverAction.Close with
  | Ok command =>
      match Request.encode command with
      | Ok frame =>
          assert_eq (Frame.command frame) GW_COMMAND_SEND_REQ
          && assert_eq (take 2 (Frame.payload frame)) (u16_to_be_bytes 12)
          && assert_eq (take 2 (drop 7 (Frame.payload frame))) (u16_to_be_bytes 0xC800)
      | _ => false
      end
  | _ => false
  end
  && assert_eq (VeluxNode.actuator_type dual) ActuatorType.DualShutter
  && negb (VeluxNode.is_controllable dual)
  && match VeluxNode.command_request dual session_id CoverAction.Open with
     | Err error => assert_eq error (NodeError.UnsupportedActuator (NodeId.new 3))
     | _ => false
     end
  && assert_eq (VeluxNode.actuator_type unknown) (ActuatorType.Unknown 63)
  && assert_eq (CoverStatusSnapshot.position (VeluxNode.snapshot unknown)) None.

Definition rejected_commands_do_not_mutate_state_and_failed_runs_are_visible : bool :=
  let node := VeluxNode.from_information
    (node_information 5 "Bedroom" 2 (at_percent 30) (at_percent 30) OperatingState.Done) in
  let session_id := SessionId.mk 20 in
  let confirmed status :=
    VeluxNode.apply_command_confirmation node (Response.CommandAccepted session_id status) session_id
      CoverEndpoint.Closed in
  let (rejected, mutated) := confirmed 0 in
  let (accepted, changed) := confirmed 1 in
  let failed := CommandRunStatus.mk session_id 1 (VeluxNode.id node) 0 (at_percent 35)
                  RunStatus.Failed 8 0 in
  let (stopped, visible) := VeluxNode.apply_run_status accepted failed in
  negb mutated && assert_eq rejected node
  && changed && assert_eq (VeluxNode.state accepted) CoverState.Closing
  && visible && assert_eq (VeluxNode.operating_state stopped) OperatingState.ExecutionError
  && assert_eq (VeluxNode.state stopped) CoverState.Unknown.

Definition state_updates_are_change_detected_and_cache_reconciles_removed_nodes : bool :=
  let first := node_information 1 "One" 2 fully_open fully_open OperatingState.Done in
  let second := node_information 2 "Two" 6 StandardParameter.NoFeedback StandardParameter.NoFeedback
                  OperatingState.Done in
  let (cache, initial) := VeluxNodeCache.reconcile VeluxNodeCache.new [first; second] in
  let (cache, reconciled) := VeluxNodeCache.reconcile cache [first] in
  let state := Response.NodeStatePosition
    (NodeStatePosition.mk (NodeId.new 1) OperatingState.Executing (at_percent 10) fully_closed
       (replicate 4 StandardParameter.NoFeedback) 9 (ProtocolTimestamp.from_unix_seconds 101)) in
  let (moved, applied) := VeluxNodeCache.apply_response cache state in
  let (moved, again) := VeluxNodeCache.apply_response moved state in
  let (lost, unavailable) := VeluxNodeCache.set_all_available moved false in
  let (lost, unavailable_again) := VeluxNodeCache.set_all_available lost false in
  let (renamed, changed) := VeluxNodeCache.apply_response lost
    (Response.NodeInformationChanged (NodeInformationChanged.mk (NodeId.new 1) "Renamed" 4 3 2)) in
  assert_eq (ReconcileResult.added initial) [NodeId.new 1; NodeId.new 2]
  && assert_eq (ReconcileResult.removed initial) []
  && assert_eq (ReconcileResult.removed reconciled) [NodeId.new 2]
  && assert_eq (size cache) 1%nat
  && assert_eq applied (Some (NodeId.new 1))
  && assert_eq (VeluxNode.availability <$> VeluxNodeCache.get moved (NodeId.new 1))
       (Some Availability.Available)
  && assert_eq again None
  && assert_eq unavailable [NodeId.new 1] && assert_eq unavailable_again []
  && assert_eq changed (Some (NodeId.new 1))
  && assert_eq (VeluxNode.name <$> VeluxNodeCache.get renamed (NodeId.new 1)) (Some "Renamed").

Definition unknown_run_status_and_response_types_remain_safe : bool :=
  match decode (Frame.new (CommandId_new 0xDEAD) [1; 2]) with
  | Ok (Response.Unknown _ _) => true
  | _ => false
  end
  && assert_eq (derive_cover_state (OperatingState.Unknown 0xA5) None None) CoverState.Unknown.

Definition tests : list (string * bool) :=
  [("builds_cover_metadata_and_mqtt_snapshot", builds_cover_metadata_and_mqtt_snapshot);
   ("derives_stationary_partial_and_unknown_states", derives_stationary_partial_and_unknown_states);
   ("toggle_uses_direction_endpoints_and_stationary_threshold",
    toggle_uses_direction_endpoints_and_stationary_threshold);
   ("only_implemented_actuator_strategies_emit_commands",
    only_implemented_actuator_strategies_emit_commands);
   ("rejected_commands_do_not_mutate_state_and_failed_runs_are_visible",
    rejected_commands_do_not_mutate_state_and_failed_runs_are_visible);
   ("state_updates_are_change_detected_and_cache_reconciles_removed_nodes",
    state_updates_are_change_detected_and_cache_reconciles_removed_nodes);
   ("unknown_run_status_and_response_types_remain_safe",
    unknown_run_status_and_response_types_remain_safe)].

Lemma node_tests_pass : failing tests = [].
Proof. vm_compute. reflexivity. Qed.
End NodeTests.

(** ** tests/wire_protocol.rs *)
Module WireTests.
(** The frames of [SlipDecoder::push] over the chunks of a stream *)
Definition decoded_chunks (chunks : list (list Z)) : list (KlfResult (list Z)) :=
  (foldl (λ '(decoder, frames) chunk,
            let (decoder, more) := Decoder.push decoder chunk in (decoder, frames ++ more))
     (Decoder.default, []) chunks).2.

Definition request_survives_fragmented_stream_round_trip : bool :=
  match Request.encode Request.GetVersion with
  | Ok frame =>
      match Frame.encode frame with
      | Ok bytes =>
          match decoded_chunks ((λ byte, [byte]) <$> Slip.encode bytes) with
          | [Ok unescaped] => assert_eq (Frame.decode unescaped) (Ok frame)
          | _ => false
          end
      | _ => false
      end
  | _ => false
  end.

Definition typed (frame : KlfResult (list Z)) : KlfResult Response.t :=
  frame ← frame; frame ← Frame.decode frame; decode frame.

Definition coalesced_response_frames_decode_independently : bool :=
  let version := Frame.new GW_GET_VERSION_CFM [0; 2; 0; 0; 71; 0; 6; 14; 3] in
  let protocol := Frame.new GW_GET_PROTOCOL_VERSION_CFM [0; 3; 0; 18] in
  match Frame.encode version, Frame.encode protocol with
  | Ok version, Ok protocol =>
      match typed <$> decoded_chunks [Slip.encode version ++ Slip.encode protocol] with
      | [Ok (Response.Version version); Ok (Response.ProtocolVersion protocol)] =>
          assert_eq version (Version.mk [0; 2; 0; 0; 71; 0] 6 14 3)
          && assert_eq protocol (ProtocolVersion.mk 3 18)
      | _ => false
      end
  | _, _ => false
  end.

Definition tests : list (string * bool) :=
  [("request_survives_fragmented_stream_round_trip", request_survives_fragmented_stream_round_trip);
   ("coalesced_response_frames_decode_independently",
    coalesced_response_frames_decode_independently)].

Lemma wire_tests_pass : failing tests = [].
Proof. vm_compute. reflexivity. Qed.
End WireTests.

(** ** tests/mqtt_contract.rs *)
Module MqttContractTests.
Definition parsed (base topic payload : string) (retained : bool) : MqttResult MqttCommand.t :=
  topics ← TopicLayout.new base;
  TopicLayout.parse_command topics (IncomingMessage.mk topic payload retained).

Definition is_retained_command {A} (result : MqttResult A) : bool :=
  match result with Err MqttError.RetainedCommand => true | _ => false end.
Definition is_invalid_payload {A} (result : MqttResult A) : bool :=
  match result with Err (MqttError.InvalidCommandPayload _) => true | _ => false end.

Definition parses_only_exact_non_retained_cover_commands : bool :=
  let control := "velux/home/velux_node_7/cmnd/control" in
  match parsed "velux/home" control ("  tOgGlE" +:+ string_of [10]) false with
  | Ok (MqttCommand.Node command) =>
      assert_eq (NodeCommand.node_id command) (NodeId.new 7)
      && assert_eq (NodeCommand.action command) CoverAction.Toggle
  | _ => false
  end
  && is_retained_command (parsed "velux/home" control "OPEN" true)
  && match parsed "velux/home" "velux/home/velux_node_999/cmnd/control" "OPEN" false with
     | Err (MqttError.InvalidNodeId _) => true
     | _ => false
     end
  && match parsed "velux/home" "velux/home/velux_node_7/cmnd/position" "20" false with
     | Err (MqttError.UnexpectedCommandTopic _) => true
     | _ => false
     end
  && is_invalid_payload (parsed "velux/home" control "STOP" false).

Definition parses_only_explicit_non_retained_gateway_reboots : bool :=
  let reboot := "velux/home/cmnd/reboot" in
  match TopicLayout.new "velux/home" with
  | Ok topics => String.eqb (TopicLayout.gateway_reboot_command topics) reboot
  | _ => false
  end
  && match parsed "velux/home" reboot ("  rEbOoT" +:+ string_of [10]) false with
     | Ok MqttCommand.GatewayReboot => true
     | _ => false
     end
  && is_retained_command (parsed "velux/home" reboot "REBOOT" true)
  && is_invalid_payload (parsed "velux/home" reboot "ON" false).

Definition parses_only_open_and_close_for_non_retained_groups : bool :=
  let control := "velux/home/velux_group_7/cmnd/control" in
  match TopicLayout.new "velux/home" with
  | Ok topics => String.eqb (TopicLayout.group_command topics (GroupId.new 7)) control
  | _ => false
  end
  && match parsed "velux/home" control " close " false with
     | Ok (MqttCommand.Group command) =>
         assert_eq (GroupCommand.group_id command) (GroupId.new 7)
         && assert_eq (GroupCommand.action command) GroupAction.Close
     | _ => false
     end
  && is_invalid_payload (parsed "velux/home" control "TOGGLE" false)
  && is_retained_command (parsed "velux/home" control "OPEN" true)
  && match parsed "velux/home" "velux/home/velux_group_999/cmnd/control" "OPEN" false with
     | Err (MqttError.InvalidGroupId _) => true
     | _ => false
     end.

(** What [Debug] shows of a field; its last assertions are about that, below. *)
Definition shown (value : Debug.t) (name : string) : option Debug.t :=
  match value with
  | Debug.Struct _ fields => snd <$> List.find (λ '(field, _), String.eqb field name) fields
  | _ => None
  end.

Definition validates_topics_and_redacts_mqtt_passwords : bool :=
  let accepts base := match TopicLayout.new base with Ok _ => true | _ => false end in
  let c := MqttConfig.new " broker.local " in
  let config :=
    MqttConfig.mk (MqttConfig.server c) (MqttConfig.port c) (MqttConfig.ca_cert c)
      (MqttConfig.insecure c) (MqttConfig.client_id c) (MqttConfig.user c) "mqtt-secret"
      "/velux/home/" (MqttConfig.keep_alive c) (MqttConfig.request_capacity c) in
  let (config, verdict) := validate config in
  accepts "/velux/" && negb (accepts "velux/+/bridge") && negb (accepts "velux//bridge")
  && match verdict with Ok _ => true | _ => false end
  && String.eqb (MqttConfig.server config) "broker.local"
  && String.eqb (MqttConfig.base_topic config) "velux/home".

(** *** Publications *)
Definition to_vec (value : Json.t) : outcome string (list Z) := Ok (bytes_of (JsonText.print value)).

Definition node_information (node_id : Z) (name : string) (actuator_code : Z) : NodeInformation.t :=
  NodeTests.node_information node_id name actuator_code (NodeTests.at_percent 25)
    NodeTests.fully_closed OperatingState.Executing.
Definition group_information : Z → string → list nat → GroupInformation.t :=
  BridgeTests.group_information.
Definition node (node_id : Z) (name : string) (actuator_code : Z) : VeluxNode.t :=
  VeluxNode.from_information (node_information node_id name actuator_code).

Definition json_payload (p : MqttPublication.t) : option Json.t :=
  JsonText.from_slice (MqttPublication.payload p).
Definition is_json (p : MqttPublication.t) (expected : Json.t) : bool :=
  BridgeTests.has_value (json_payload p) expected.
Definition is_text (p : MqttPublication.t) (text : string) : bool :=
  bool_decide (MqttPublication.payload p = bytes_of text).
Definition is_cleared (p : MqttPublication.t) : bool :=
  bool_decide (MqttPublication.payload p = []).

Definition creates_retained_inventory_metadata_and_status_topics : bool :=
  let office := node 7 "Office" 2 in
  let cache := (VeluxNodeCache.reconcile VeluxNodeCache.new
                  [node_information 7 "Office" 2; node_information 8 "Light" 6]).1 in
  match TopicLayout.new "velux" with
  | Ok topics =>
      match TopicLayout.inventory_publication to_vec topics cache,
            TopicLayout.info_publication to_vec topics office,
            TopicLayout.status_publications to_vec topics office with
      | Ok inventory, Ok metadata, Ok [status; state; position; target] =>
          String.eqb (MqttPublication.topic inventory) "velux/nodes"
          && MqttPublication.retained inventory
          && is_json inventory (BridgeTests.ids [7; 8])
          && String.eqb (MqttPublication.topic metadata) "velux/velux_node_7/info"
          && is_json metadata (Json.Object
               [("id", Json.Number 7); ("name", Json.String "Office");
                ("serial_number", Json.String "0001020304050607");
                ("actuator_type", Json.String "roller_shutter"); ("actuator_subtype", Json.Number 0);
                ("product_group", Json.Number 1); ("product_type", Json.Number 2);
                ("controllable", Json.Bool true); ("order", Json.Number 7);
                ("placement", Json.Number 1); ("build_number", Json.Number 1);
                ("status_timestamp", Json.Number 100)])
          && is_json status (snapshot_to_json (VeluxNode.snapshot office))
          && is_text state "closing" && is_text position "75" && is_text target "0"
          && forallb MqttPublication.retained [status; state; position; target]
      | _, _, _ => false
      end
      && (let cleared := TopicLayout.clear_node_publications topics (NodeId.new 7) in
          assert_eq (length cleared) 5%nat && forallb is_cleared cleared)
  | _ => false
  end.

Definition creates_retained_group_inventory_and_metadata : bool :=
  let group := group_information 7 "Awning blind" [3%nat; 8%nat] in
  match TopicLayout.new "velux" with
  | Ok topics =>
      match TopicLayout.groups_publication to_vec topics [group],
            TopicLayout.group_info_publication to_vec topics group with
      | Ok inventory, Ok metadata =>
          String.eqb (MqttPublication.topic inventory) "velux/groups"
          && MqttPublication.retained inventory
          && is_json inventory (BridgeTests.ids [7])
          && String.eqb (MqttPublication.topic metadata) "velux/velux_group_7/info"
          && is_json metadata (Json.Object
               [("id", Json.Number 7); ("name", Json.String "Awning blind");
                ("group_type", Json.Number 0); ("object_count", Json.Number 2);
                ("node_ids", BridgeTests.ids [3; 8]); ("order", Json.Number 7);
                ("placement", Json.Number 1); ("velocity", Json.Number 0);
                ("node_variation", Json.Number 0); ("revision", Json.Number 1)])
      | _, _ => false
      end
      && assert_eq (TopicLayout.clear_group_publications topics (GroupId.new 7))
           [MqttPublication.clear "velux/velux_group_7/info"]
  | _ => false
  end.

Definition publishes_explicit_unknown_leaf_values : bool :=
  let (node, changed) := VeluxNode.mark_status_unknown (node 4 "Blind" 2) in
  match TopicLayout.new "velux" with
  | Ok topics =>
      match TopicLayout.status_publications to_vec topics node with
      | Ok [status; state; position; target] =>
          is_json status (Json.Object
            [("state", Json.String "unknown"); ("position", Json.Null); ("target", Json.Null);
             ("operating_state", Json.String "unknown"); ("remaining_time", Json.Null)])
          && forallb (λ p, is_text p "unknown") [state; position; target]
      | _ => false
      end
  | _ => false
  end
  && changed.

(** *** Discovery *)
Definition published (discovery : HomeAssistantDiscovery.t) (topics : TopicLayout.t)
    (nodes : list VeluxNode.t) (groups : list GroupInformation.t)
    : HomeAssistantDiscovery.t * MqttResult (list MqttPublication.t) :=
  HomeAssistantDiscovery.publications to_vec (λ value, Ok value) JsonText.print
    (Origin.mk "velux2mqtt" "0.1.0" "https://github.com/dirkvdb/velux2mqtt") discovery topics
    nodes groups.

(** Asks the publications of a fresh discovery. *)
Definition first_published (base client_id : string) (nodes : list VeluxNode.t)
    (groups : list GroupInformation.t)
    (assertion : HomeAssistantDiscovery.t → list MqttPublication.t → bool) : bool :=
  match TopicLayout.new base with
  | Ok topics =>
      match published (HomeAssistantDiscovery.new client_id) topics nodes groups with
      | (discovery, Ok publications) => assertion discovery publications
      | _ => false
      end
  | _ => false
  end.

Definition on_device_topic (discovery : HomeAssistantDiscovery.t) (p : MqttPublication.t) : bool :=
  String.eqb (MqttPublication.topic p) (HomeAssistantDiscovery.device_topic discovery).

(** The assertions on a component, and the fields it has not *)
Definition has_fields (value : option Json.t) (fields : list (string * Json.t)) : bool :=
  forallb (λ '(name, expected), BridgeTests.has_value (BridgeTests.at_path [name] value) expected)
    fields.
Definition has_none (value : option Json.t) (names : list string) : bool :=
  forallb (λ name, negb (BridgeTests.passes (BridgeTests.at_path [name] value))) names.
Definition component_count (device : option Json.t) : option nat :=
  match BridgeTests.at_path ["cmps"] device with
  | Some (Json.Object components) => Some (length components)
  | _ => None
  end.

Definition creates_home_assistant_cover_without_unsupported_controls : bool :=
  first_published "velux" "Living Room Gateway" [node 7 "Office" 2; node 8 "Light" 6] []
    (λ discovery publications,
      match List.find (on_device_topic discovery) publications with
      | Some publication =>
          let device := json_payload publication in
          let payload := BridgeTests.at_path ["cmps"; "velux_0001020304050607"] device in
          String.eqb (MqttPublication.topic publication)
            "homeassistant/device/living_room_gateway_gateway/config"
          && MqttPublication.retained publication
          && has_fields device [("availability_topic", Json.String "velux/state")]
          && has_fields (BridgeTests.at_path ["device"] device)
               [("manufacturer", Json.String "VELUX"); ("model", Json.String "KLF 200")]
          && has_fields (BridgeTests.at_path ["origin"] device) [("name", Json.String "velux2mqtt")]
          && assert_eq (component_count device) (Some 1%nat)
          && has_fields payload
               [("p", Json.String "cover"); ("unique_id", Json.String "velux_0001020304050607");
                ("object_id", Json.String "velux_0001020304050607");
                ("command_topic", Json.String "velux/velux_node_7/cmnd/control");
                ("state_topic", Json.String "velux/velux_node_7/state");
                ("position_topic", Json.String "velux/velux_node_7/position");
                ("payload_open", Json.String "OPEN"); ("payload_close", Json.String "CLOSE");
                ("position_closed", Json.Number 0); ("position_open", Json.Number 100);
                ("device_class", Json.String "shutter")]
          && has_none payload ["device"; "payload_stop"; "set_position_topic"]
      | None => false
      end).

Definition creates_optimistic_home_assistant_group_with_open_and_close_only : bool :=
  first_published "velux" "Living Room Gateway" [node 3 "Office" 2]
    [group_information 7 "Awning blind" [3%nat; 8%nat]]
    (λ discovery publications,
      match List.find (on_device_topic discovery) publications with
      | Some publication =>
          let device := json_payload publication in
          let payload := BridgeTests.at_path ["cmps"; "living_room_gateway_group_7"] device in
          String.eqb (MqttPublication.topic publication)
            "homeassistant/device/living_room_gateway_gateway/config"
          && MqttPublication.retained publication
          && assert_eq (component_count device) (Some 2%nat)
          && has_fields device [("availability_topic", Json.String "velux/state")]
          && has_fields payload
               [("name", Json.String "Awning blind");
                ("command_topic", Json.String "velux/velux_group_7/cmnd/control");
                ("payload_open", Json.String "OPEN"); ("payload_close", Json.String "CLOSE");
                ("optimistic", Json.Bool true); ("p", Json.String "cover")]
          && has_none payload
               ["device"; "state_topic"; "position_topic"; "payload_stop"; "payload_toggle"]
      | None => false
      end).

Definition migrates_legacy_discovery_before_publishing_the_shared_device : bool :=
  let discovery := HomeAssistantDiscovery.with_prefix "Gateway A" "/custom/" in
  match TopicLayout.new "home/velux" with
  | Ok topics =>
      match published discovery topics [node 7 "Office" 2] [group_information 3 "Upstairs" [7%nat]] with
      | (discovery, Ok [migrate_group; migrate_node; device; clear_group; clear_node]) =>
          let migrates '(first, last, id) :=
            String.eqb (MqttPublication.topic first) ("custom/cover/" +:+ id +:+ "/config")
            && is_json first (Json.Object [("migrate_discovery", Json.Bool true)])
            && String.eqb (MqttPublication.topic last) (MqttPublication.topic first)
            && is_cleared last in
          String.eqb (MqttPublication.topic device) "custom/device/gateway_a_gateway/config"
          && BridgeTests.has_value (BridgeTests.at_path ["device"; "identifiers"] (json_payload device))
               (Json.Array [Json.String "gateway_a_gateway"])
          && has_fields (json_payload device) [("availability_topic", Json.String "home/velux/state")]
          && migrates (migrate_group, clear_group, "gateway_a_group_3")
          && migrates (migrate_node, clear_node, "velux_0001020304050607")
          && forallb MqttPublication.retained
               [migrate_group; migrate_node; device; clear_group; clear_node]
          && negb (String.eqb (HomeAssistantDiscovery.device_topic discovery)
                     (HomeAssistantDiscovery.device_topic (HomeAssistantDiscovery.new "Gateway B")))
      | _ => false
      end
  | _ => false
  end.

Definition removes_missing_components_before_publishing_the_current_inventory : bool :=
  let office := node 7 "Office" 2 in
  match TopicLayout.new "velux" with
  | Ok topics =>
      let (discovery, _) := published (HomeAssistantDiscovery.new "gateway") topics [office]
                              [group_information 3 "Upstairs" [7%nat]] in
      let (discovery, updated) := published discovery topics [office] [] in
      let (discovery, emptied) := published discovery topics [] [] in
      match updated, emptied with
      | Ok updated, Ok [cleared] =>
          match List.filter (on_device_topic discovery) updated with
          | [removal; current] =>
              BridgeTests.has_value
                (BridgeTests.at_path ["cmps"; "gateway_group_3"] (json_payload removal))
                (Json.Object [("p", Json.String "cover")])
              && has_none (BridgeTests.at_path ["cmps"] (json_payload current)) ["gateway_group_3"]
              && BridgeTests.has_value
                   (BridgeTests.at_path ["cmps"; "velux_0001020304050607"; "unique_id"]
                      (json_payload current))
                   (Json.String "velux_0001020304050607")
          | _ => false
          end
          && on_device_topic discovery cleared && MqttPublication.retained cleared
          && is_cleared cleared
      | _, _ => false
      end
  | _ => false
  end.

Definition tests : list (string * bool) :=
  [("parses_only_exact_non_retained_cover_commands", parses_only_exact_non_retained_cover_commands);
   ("parses_only_explicit_non_retained_gateway_reboots",
    parses_only_explicit_non_retained_gateway_reboots);
   ("parses_only_open_and_close_for_non_retained_groups",
    parses_only_open_and_close_for_non_retained_groups);
   ("validates_topics_and_redacts_mqtt_passwords", validates_topics_and_redacts_mqtt_passwords);
   ("creates_retained_inventory_metadata_and_status_topics",
    creates_retained_inventory_metadata_and_status_topics);
   ("creates_retained_group_inventory_and_metadata", creates_retained_group_inventory_and_metadata);
   ("publishes_explicit_unknown_leaf_values", publishes_explicit_unknown_leaf_values);
   ("creates_home_assistant_cover_without_unsupported_controls",
    creates_home_assistant_cover_without_unsupported_controls);
   ("creates_optimistic_home_assistant_group_with_open_and_close_only",
    creates_optimistic_home_assistant_group_with_open_and_close_only);
   ("migrates_legacy_discovery_before_publishing_the_shared_device",
    migrates_legacy_discovery_before_publishing_the_shared_device);
   ("removes_missing_components_before_publishing_the_current_inventory",
    removes_missing_components_before_publishing_the_current_inventory)].

(** The end of [validates_topics_and_redacts_mqtt_passwords], for every configuration *)
Lemma redacts_mqtt_passwords config : shown (debug_mqtt_config config) "password" = Some REDACTED.
Proof. reflexivity. Qed.

Lemma contract_tests_pass : failing tests = [].
Proof. vm_compute. reflexivity. Qed.
End MqttContractTests.
