(* ===== verification/ActorTests.v ===== *)
(** * The integration tests of the connection

    The file tests/connection_actor.rs, asked of the model: the actor and the reader of
    [Connection] at one end of a stream, the gateway of a test at the other, on one schedule the
    test admits. A test that awaits a client's operation applies the operation of [Client] to what
    the actor answered. *)

From S2P Require Import Prelude RustStd CommandIds Error Types Frame Slip Command.
From S2P Require Import ResponseTypes Response Connection Client Tls Testing.
Import Effect.

(** ** Both ends of the stream *)
Module Rig.
Record t := mk {
  actor : Actor.t;
  effects : list Effect.t;
  ended : option Exit.t;
  clock : Z;
  reads : list (KlfResult (list Z));
  delivered : nat;
  gateway_decoder : Decoder.t;
  requests : list Frame.t
}.

Definition start : t := mk Actor.init [] None 0 [] 0 Decoder.default [].

Section rig.
Context (settings : ConnectionSettings.t).

(** The frames of what the actor wrote, as the gateway decodes them *)
Definition arrived (decoder : Decoder.t) (effects : list Effect.t) : Decoder.t * list Frame.t :=
  foldl (λ '(decoder, frames) effect,
    match effect with
    | Written _ bytes =>
        let (decoder, decoded) := Decoder.push decoder bytes in
        (decoder, frames ++ omap (λ r, match r ≫= Frame.decode with Ok f => Some f | _ => None end) decoded)
    | _ => (decoder, frames)
    end) (decoder, []) effects.

(** One turn of the actor; none after its loop has ended *)
Definition turn (input : Input.t) (r : t) : option t :=
  match ended r with
  | Some _ => None
  | None =>
      '(a, e, exit) ← Connection.turn settings (actor r) (Turn.mk None (clock r) input (clock r));
      let e := match exit with
               | Some exit => e ++ finish a exit [] (Ok tt)
               | None => e
               end in
      let (decoder, frames) := arrived (gateway_decoder r) e in
      Some (mk a (effects r ++ e) exit (clock r) (reads r) (delivered r) decoder (requests r ++ frames))
  end.

Definition send (request : Request.t) (reply : ReplyChannel) : t → option t :=
  turn (Input.Command (Some (ActorCommand.Send request reply))).

(** Time passes, up to the next check of the timeouts. *)
Definition sleep (milliseconds : Z) (r : t) : option t :=
  turn Input.TimeoutTick
    (mk (actor r) (effects r) (ended r) (clock r + milliseconds) (reads r) (delivered r)
       (gateway_decoder r) (requests r)).

Definition read_request (r : t) : option (Frame.t * t) :=
  r ← match requests r with [] => sleep 0 r | _ => Some r end;
  match requests r with
  | [] => None
  | frame :: rest =>
      Some (frame, mk (actor r) (effects r) (ended r) (clock r) (reads r) (delivered r)
                     (gateway_decoder r) rest)
  end.

(** Reads a request of this command. *)
Definition expects (command : CommandId) (r : t) : option t :=
  '(frame, r) ← read_request r;
  then_some (bool_decide (Frame.command frame = command)) r.

(** Nothing is written for a while. *)
Definition silent (milliseconds : Z) (r : t) : option t :=
  r ← sleep milliseconds r; then_some (bool_decide (requests r = [])) r.

(** What the reader task hands over after some more reads *)
Definition arrive (more : list (KlfResult (list Z))) (r : t) : option t :=
  incoming ← read_frames Decoder.default (reads r ++ more);
  foldl (λ r item, r ≫= turn (Input.Received (Some item)))
    (Some (mk (actor r) (effects r) (ended r) (clock r) (reads r ++ more) (length incoming)
             (gateway_decoder r) (requests r)))
    (drop (delivered r) incoming).

Fixpoint chunks (fuel n : nat) (bytes : list Z) : list (list Z) :=
  match fuel, bytes with
  | S fuel, _ :: _ => take n bytes :: chunks fuel n (drop n bytes)
  | _, _ => []
  end.

Definition wire (frames : list (CommandId * list Z)) : option (list Z) :=
  mjoin <$> mapM (λ '(command, payload),
                    match Frame.encode (Frame.new command payload) with
                    | Ok bytes => Some (Slip.encode bytes)
                    | _ => None
                    end) frames.

Definition write_response (command : CommandId) (payload : list Z) (r : t) : option t :=
  bytes ← wire [(command, payload)]; arrive [Ok bytes] r.
Definition write_fragmented_frames (frames : list (CommandId * list Z)) (r : t) : option t :=
  bytes ← wire frames; arrive (Ok <$> chunks (length bytes) 3 bytes) r.

(** What a client's [send] returned on a reply channel, if it has *)
Definition reply (channel : ReplyChannel) (r : t) : option (KlfResult Response.t) :=
  head (omap (λ e, match e with
                   | Replied c result => then_some (bool_decide (c = channel)) result
                   | _ => None
                   end) (effects r)).
Definition closed (channel : ReplyChannel) (r : t) : ShutdownChannel.t :=
  match head (omap (λ e, match e with
                         | ShutdownReplied c result => then_some (bool_decide (c = channel)) result
                         | _ => None
                         end) (effects r)) with
  | Some result => ShutdownChannel.Replied result
  | None => ShutdownChannel.ReplyDropped
  end.

Definition events (r : t) : list ConnectionEvent.t :=
  omap (λ e, match e with Emitted event => Some event | _ => None end) (effects r).

(** [client.shutdown()], of a gateway that confirms *)
Definition complete_shutdown (r : t) : option t :=
  r ← send Request.HouseStatusMonitorDisable 100 r;
  r ← expects GW_HOUSE_STATUS_MONITOR_DISABLE_REQ r;
  r ← write_response GW_HOUSE_STATUS_MONITOR_DISABLE_CFM [] r;
  disabled ← reply 100 r;
  r ← turn (Input.Command (Some (ActorCommand.Shutdown 101%nat))) r;
  match Client.shutdown (λ _, disabled) (closed 101 r) with
  | (_, Ok _) => Some r
  | _ => None
  end.
End rig.
End Rig.

(** ** The tests *)
Module ActorTests.
Definition with_timeouts (request_timeout session_timeout : Z) : ConnectionSettings.t :=
  let d := ConnectionSettings.default in
  ConnectionSettings.mk request_timeout session_timeout (ConnectionSettings.command_buffer d)
    (ConnectionSettings.event_buffer d) (ConnectionSettings.incoming_buffer d)
    (ConnectionSettings.read_buffer_size d) (ConnectionSettings.maximum_slip_frame_length d) 5.
Definition test_settings : ConnectionSettings.t := with_timeouts 100 100.

Definition passes {A} (test : option A) : bool := if test is Some _ then true else false.
Definition check (assertion : bool) : option unit := then_some assertion tt.

Definition VERSION : list Z := [0; 2; 0; 0; 71; 0; 6; 14; 3].

Definition session_id (id : Z) : SessionId.t := SessionId.mk id.

Definition cover_command (session_id : SessionId.t) : Request.t :=
  Request.CommandSend
    (CommandRequest.new session_id (StandardParameter.Relative Percentage.FULLY_CLOSED))
    (CommandTarget.mk [NodeId.new 4]).

(** The status and the session of an answer to a cover command *)
Definition command_answer (result : option (KlfResult Response.t)) : option (Z * SessionId.t) :=
  match result with
  | Some (Ok (Response.CommandAccepted session_id status)) => Some (status, session_id)
  | _ => None
  end.

Definition finished_session (event : ConnectionEvent.t) : option SessionId.t :=
  match event with
  | ConnectionEvent.Notification (Response.SessionFinished session_id) => Some session_id
  | _ => None
  end.

Definition node_information_payload (node_id : Z) (name : string) : list Z :=
  let half := u16_to_be_bytes (Percentage.raw (Percentage.from_percent 50)) in
  let no_feedback := u16_to_be_bytes 0xF7FF in
  foldl (λ payload '(at_, bytes), written_at at_ bytes payload) (zeros 124)
    [(0%nat, [node_id]); (4%nat, bytes_of name); (69%nat, u16_to_be_bytes 0x0080); (71%nat, [1]);
     (72%nat, [2]); (76%nat, [0; 1; 2; 3; 4; 5; 6; node_id]); (84%nat, [5]); (85%nat, half);
     (87%nat, half); (89%nat, no_feedback); (91%nat, no_feedback); (93%nat, no_feedback);
     (95%nat, no_feedback)].

Definition group_information_payload (group_id : Z) (name : string) (node_ids : list nat) : list Z :=
  let actuators := foldl (λ set id, (ActuatorSet.insert set id).1) ActuatorSet.new node_ids in
  foldl (λ payload '(at_, bytes), written_at at_ bytes payload) (zeros 99)
    [(0%nat, [group_id]); (1%nat, u16_to_be_bytes group_id); (3%nat, [1]); (4%nat, bytes_of name);
     (71%nat, [Z.of_nat (length node_ids)]); (72%nat, ActuatorSet.as_bytes actuators);
     (97%nat, u16_to_be_bytes 1)].

Import Rig.

Definition shutdown_closes_stream_and_reports_unconfirmed_monitor_disable : bool :=
  let settings := with_timeouts 20 100 in
  passes (
    r ← send settings Request.HouseStatusMonitorDisable 1 start;
    r ← expects settings GW_HOUSE_STATUS_MONITOR_DISABLE_REQ r;
    r ← sleep settings 25 r;
    disabled ← reply 1 r;
    r ← turn settings (Input.Command (Some (ActorCommand.Shutdown 2%nat))) r;
    _ ← check (assert_eq (Client.shutdown (λ _, disabled) (closed 2 r)).2
                 (Err (KlfError.RequestTimeout GW_HOUSE_STATUS_MONITOR_DISABLE_REQ)));
    ended r).

Definition configured_shutdown_reboots_after_unconfirmed_monitor_disable : bool :=
  let settings := with_timeouts 20 100 in
  passes (
    r ← send settings Request.HouseStatusMonitorDisable 1 start;
    r ← expects settings GW_HOUSE_STATUS_MONITOR_DISABLE_REQ r;
    r ← sleep settings 25 r;
    disabled ← reply 1 r;
    r ← send settings Request.Reboot 2 r;
    r ← expects settings GW_REBOOT_REQ r;
    r ← write_response settings GW_REBOOT_CFM [] r;
    rebooted ← reply 2 r;
    r ← turn settings (Input.Command (Some (ActorCommand.Shutdown 3%nat))) r;
    let answers request := match request with Request.Reboot => rebooted | _ => disabled end in
    _ ← check (is_err disabled);
    _ ← check (assert_eq (Client.shutdown_and_reboot answers (closed 3 r)).2 (Ok tt));
    ended r).

Definition serializes_requests_while_delivering_fragmented_notifications : bool :=
  let settings := test_settings in
  let position :=
    foldl (λ payload '(at_, bytes), written_at at_ bytes payload) (zeros 20)
      [(0%nat, [7; 4]);
       (2%nat, u16_to_be_bytes (Percentage.raw (Percentage.from_percent 25)));
       (4%nat, u16_to_be_bytes (Percentage.raw (Percentage.from_percent 75)))] in
  passes (
    r ← send settings Request.GetVersion 1 start;
    r ← send settings Request.GetProtocolVersion 2 r;
    r ← expects settings GW_GET_VERSION_REQ r;
    r ← silent settings 20 r;
    r ← write_fragmented_frames settings
          [(GW_NODE_STATE_POSITION_CHANGED_NTF, position); (GW_GET_VERSION_CFM, VERSION)] r;
    version ← reply 1 r;
    _ ← check (match Client.version (λ _, version) with
               | Ok version => Version.hardware version =? 6
               | _ => false
               end);
    r ← expects settings GW_GET_PROTOCOL_VERSION_REQ r;
    r ← write_response settings GW_GET_PROTOCOL_VERSION_CFM [0; 3; 0; 18] r;
    protocol ← reply 2 r;
    _ ← check (match Client.protocol_version (λ _, protocol) with
               | Ok protocol => ProtocolVersion.minor protocol =? 18
               | _ => false
               end);
    _ ← check (match events r with
               | ConnectionEvent.Notification (Response.NodeStatePosition position) :: _ =>
                   bool_decide (NodeStatePosition.node_id position = NodeId.new 7)
               | _ => false
               end);
    complete_shutdown settings r).

(** The events a client that subscribed before its request receives *)
Definition received (r : Rig.t) : list Recv.t := Recv.Event <$> events r.

Definition collects_node_discovery_until_finished_notification : bool :=
  let settings := test_settings in
  passes (
    r ← send settings Request.GetAllNodesInformation 1 start;
    r ← expects settings GW_GET_ALL_NODES_INFORMATION_REQ r;
    r ← write_response settings GW_GET_ALL_NODES_INFORMATION_CFM [0; 2] r;
    r ← write_response settings GW_GET_ALL_NODES_INFORMATION_NTF (node_information_payload 3 "Kitchen") r;
    r ← write_response settings GW_GET_ALL_NODES_INFORMATION_NTF (node_information_payload 8 "Office") r;
    r ← write_response settings GW_GET_ALL_NODES_INFORMATION_FINISHED_NTF [] r;
    accepted ← reply 1 r;
    _ ← check (match Client.discover_nodes (λ _, accepted) (received r) with
               | Ok [first; second] =>
                   String.eqb (NodeInformation.name first) "Kitchen"
                   && bool_decide (NodeInformation.node_id second = NodeId.new 8)
               | _ => false
               end);
    complete_shutdown settings r).

Definition reads_individual_node_information_notification : bool :=
  let settings := test_settings in
  passes (
    r ← send settings (Request.GetNodeInformation (NodeId.new 3)) 1 start;
    '(frame, r) ← read_request settings r;
    _ ← check (bool_decide (Frame.command frame = GW_GET_NODE_INFORMATION_REQ)
               && bool_decide (Frame.payload frame = [3]));
    r ← write_response settings GW_GET_NODE_INFORMATION_CFM [0; 3] r;
    r ← write_response settings GW_GET_NODE_INFORMATION_NTF (node_information_payload 3 "Kitchen") r;
    accepted ← reply 1 r;
    _ ← check (match Client.node_information (λ _, accepted) (NodeId.new 3) (received r) with
               | Ok information =>
                   bool_decide (NodeInformation.node_id information = NodeId.new 3)
                   && String.eqb (NodeInformation.name information) "Kitchen"
               | _ => false
               end);
    complete_shutdown settings r).

Definition collects_group_discovery_until_finished_notification : bool :=
  let settings := test_settings in
  passes (
    r ← send settings (Request.NodeGroup (NodeGroupRequest.GetAllGroups false 0)) 1 start;
    '(frame, r) ← read_request settings r;
    _ ← check (bool_decide (Frame.command frame = GW_GET_ALL_GROUPS_INFORMATION_REQ)
               && bool_decide (Frame.payload frame = [0; 0]));
    r ← write_response settings GW_GET_ALL_GROUPS_INFORMATION_CFM [0; 3] r;
    r ← write_response settings GW_GET_ALL_GROUPS_INFORMATION_NTF
          (group_information_payload 4 "Ground floor" [3%nat; 8%nat]) r;
    r ← write_response settings GW_GET_ALL_GROUPS_INFORMATION_NTF
          (group_information_payload 7 "Awning blind" [11%nat]) r;
    r ← write_response settings GW_GET_ALL_GROUPS_INFORMATION_FINISHED_NTF [] r;
    accepted ← reply 1 r;
    _ ← check (match Client.discover_groups (λ _, accepted) (received r) with
               | Ok [first; second] =>
                   String.eqb (GroupInformation.name first) "Ground floor"
                   && ActuatorSet.contains (GroupInformation.actuators first) 3
                   && ActuatorSet.contains (GroupInformation.actuators first) 8
                   && bool_decide (GroupInformation.group_id second = GroupId.new 7)
               | _ => false
               end);
    complete_shutdown settings r).

Definition treats_no_configured_groups_as_empty_discovery : bool :=
  let settings := test_settings in
  passes (
    r ← send settings (Request.NodeGroup (NodeGroupRequest.GetAllGroups false 0)) 1 start;
    r ← expects settings GW_GET_ALL_GROUPS_INFORMATION_REQ r;
    r ← write_response settings GW_GET_ALL_GROUPS_INFORMATION_CFM [2; 0] r;
    accepted ← reply 1 r;
    _ ← check (match Client.discover_groups (λ _, accepted) (received r) with
               | Ok [] => true
               | _ => false
               end);
    complete_shutdown settings r).

Definition recovers_after_timeout_and_routes_late_confirmation_as_unexpected : bool :=
  let settings := with_timeouts 30 100 in
  passes (
    r ← send settings Request.GetState 1 start;
    r ← expects settings GW_GET_STATE_REQ r;
    r ← sleep settings 35 r;
    state ← reply 1 r;
    _ ← check (match Client.gateway_state (λ _, state) with
               | Err error => assert_eq error (KlfError.RequestTimeout GW_GET_STATE_REQ)
               | _ => false
               end);
    r ← send settings Request.GetVersion 2 r;
    r ← expects settings GW_GET_VERSION_REQ r;
    r ← write_response settings GW_GET_STATE_CFM [2; 0; 0; 0; 0; 0] r;
    r ← write_response settings GW_GET_VERSION_CFM VERSION r;
    version ← reply 2 r;
    _ ← check (match Client.version (λ _, version) with
               | Ok version => Version.hardware version =? 6
               | _ => false
               end);
    _ ← check (match events r with
               | ConnectionEvent.UnexpectedResponse (Response.GatewayState _) :: _ => true
               | _ => false
               end);
    complete_shutdown settings r).

Definition tracks_session_ids_until_finished_and_rejects_duplicates : bool :=
  let settings := test_settings in
  let id := session_id 9 in
  passes (
    r ← send settings (cover_command id) 1 start;
    r ← expects settings GW_COMMAND_SEND_REQ r;
    r ← write_response settings GW_COMMAND_SEND_CFM [0; 9; 1] r;
    _ ← check (assert_eq (fst <$> command_answer (reply 1 r)) (Some 1));
    r ← send settings (cover_command id) 2 r;
    r ← silent settings 20 r;
    _ ← check (match reply 2 r with
               | Some (Err error) => assert_eq error (KlfError.SessionIdInUse 9)
               | _ => false
               end);
    r ← write_response settings GW_SESSION_FINISHED_NTF [0; 9] r;
    _ ← check (assert_eq (head (events r) ≫= finished_session) (Some id));
    r ← send settings (cover_command id) 3 r;
    r ← expects settings GW_COMMAND_SEND_REQ r;
    r ← write_response settings GW_COMMAND_SEND_CFM [0; 9; 0] r;
    _ ← check (assert_eq (fst <$> command_answer (reply 3 r)) (Some 0));
    complete_shutdown settings r).

Definition ignores_confirmation_with_the_wrong_session_id : bool :=
  let settings := test_settings in
  let id := session_id 9 in
  passes (
    r ← send settings (cover_command id) 1 start;
    r ← expects settings GW_COMMAND_SEND_REQ r;
    r ← write_response settings GW_COMMAND_SEND_CFM [0; 10; 1] r;
    _ ← check (match events r with
               | [ConnectionEvent.UnexpectedResponse (Response.CommandAccepted received status)] =>
                   assert_eq received (session_id 10) && (status =? 1)
               | _ => false
               end);
    r ← sleep settings 20 r;
    _ ← check (negb (passes (reply 1 r)));
    r ← write_response settings GW_COMMAND_SEND_CFM [0; 9; 1] r;
    _ ← check (assert_eq (command_answer (reply 1 r)) (Some (1, id)));
    r ← write_response settings GW_SESSION_FINISHED_NTF [0; 9] r;
    _ ← check (assert_eq (last (events r) ≫= finished_session) (Some id));
    complete_shutdown settings r).

Definition expires_sessions_that_never_finish : bool :=
  let settings := with_timeouts 100 30 in
  let id := session_id 10 in
  passes (
    r ← send settings (cover_command id) 1 start;
    r ← expects settings GW_COMMAND_SEND_REQ r;
    r ← write_response settings GW_COMMAND_SEND_CFM [0; 10; 1] r;
    _ ← check (assert_eq (fst <$> command_answer (reply 1 r)) (Some 1));
    r ← sleep settings 35 r;
    _ ← check (match events r with
               | [ConnectionEvent.SessionTimedOut expired] => assert_eq expired id
               | _ => false
               end);
    r ← send settings (cover_command id) 2 r;
    r ← expects settings GW_COMMAND_SEND_REQ r;
    r ← write_response settings GW_COMMAND_SEND_CFM [0; 10; 0] r;
    _ ← check (assert_eq (fst <$> command_answer (reply 2 r)) (Some 0));
    complete_shutdown settings r).

Definition connection_loss_fails_pending_and_queued_requests : bool :=
  let settings := test_settings in
  let is_closed result := match result with
                          | Some (Err KlfError.ConnectionClosed) => true
                          | _ => false
                          end in
  passes (
    r ← send settings Request.GetVersion 1 start;
    r ← send settings Request.GetProtocolVersion 2 r;
    r ← expects settings GW_GET_VERSION_REQ r;
    r ← arrive settings [Ok []] r;
    check (is_closed (reply 1 r) && is_closed (reply 2 r))).

Definition tests : list (string * bool) :=
  [("shutdown_closes_stream_and_reports_unconfirmed_monitor_disable",
    shutdown_closes_stream_and_reports_unconfirmed_monitor_disable);
   ("configured_shutdown_reboots_after_unconfirmed_monitor_disable",
    configured_shutdown_reboots_after_unconfirmed_monitor_disable);
   ("serializes_requests_while_delivering_fragmented_notifications",
    serializes_requests_while_delivering_fragmented_notifications);
   ("collects_node_discovery_until_finished_notification",
    collects_node_discovery_until_finished_notification);
   ("reads_individual_node_information_notification",
    reads_individual_node_information_notification);
   ("collects_group_discovery_until_finished_notification",
    collects_group_discovery_until_finished_notification);
   ("treats_no_configured_groups_as_empty_discovery",
    treats_no_configured_groups_as_empty_discovery);
   ("recovers_after_timeout_and_routes_late_confirmation_as_unexpected",
    recovers_after_timeout_and_routes_late_confirmation_as_unexpected);
   ("tracks_session_ids_until_finished_and_rejects_duplicates",
    tracks_session_ids_until_finished_and_rejects_duplicates);
   ("ignores_confirmation_with_the_wrong_session_id",
    ignores_confirmation_with_the_wrong_session_id);
   ("expires_sessions_that_never_finish", expires_sessions_that_never_finish);
   ("connection_loss_fails_pending_and_queued_requests",
    connection_loss_fails_pending_and_queued_requests)].

Lemma actor_tests_pass : failing tests = [].
Proof. vm_compute. reflexivity. Qed.
End ActorTests.

(** ** connection.rs, [mod tests]: with a certificate file that holds a certificate *)
Module TlsTests.
Definition builds_insecure_and_pinned_tls_configs : bool :=
  let builds certificate :=
    match @build_tls_config sample_network certificate with Ok _ => true | _ => false end in
  builds None && builds (Some "cert/velux-cert.pem").

Definition tests : list (string * bool) :=
  [("builds_insecure_and_pinned_tls_configs", builds_insecure_and_pinned_tls_configs)].

Lemma tls_tests_pass : failing tests = [].
Proof. vm_compute. reflexivity. Qed.
End TlsTests.
