(* ===== verification/CommandTests.v ===== *)
(** * The unit tests of the request encoding (klf200/command.rs, [mod tests])

    The source's own test vectors, asked of the model: a test is the conjunction of its
    assertions, and passes by computation. *)

From S2P Require Import Prelude RustStd CommandIds Error Types Frame Slip Command Redaction.
From S2P Require Import Testing.

Module CommandTests.

(** The body of the tables of vectors: the frame has the command and the payload. *)
Definition encodes (request : Request.t) (command : CommandId) (payload : list Z) : bool :=
  match Request.encode request with
  | Ok frame => command_eqb (Frame.command frame) command && assert_eq (Frame.payload frame) payload
  | _ => false
  end.

Definition targets : CommandTarget.t := CommandTarget.mk [NodeId.new 2; NodeId.new 9].

Definition actuator_bytes : list Z := written_at 24 [0x80] (written_at 0 [0x81] (zeros 25)).

Definition password_request_is_fixed_width_and_debug_redacted : bool :=
  match Request.password_enter "secret" with
  | Ok request =>
      (if debug_request request is Debug.Text text
       then String.eqb text "PasswordEnter([REDACTED])" else false)
      && match Request.encode request with
         | Ok frame =>
             command_eqb (Frame.command frame) GW_PASSWORD_ENTER_REQ
             && assert_eq (take 6 (Frame.payload frame)) (bytes_of "secret")
             && forallb (λ byte, byte =? 0) (drop 6 (Frame.payload frame))
             && assert_eq (Frame.debug_payload frame) None
         | _ => false
         end
  | _ => false
  end
  && assert_eq (Request.password_enter (repeated "x" 32)) (Err (KlfError.StringTooLong 32 31)).

Definition encodes_gateway_network_time_and_password_vectors : bool :=
  encodes (Request.SetNetworkSetup
             (NetworkSetup.mk [192; 168; 1; 78] [255; 255; 255; 0] [192; 168; 1; 1] true))
    GW_SET_NETWORK_SETUP_REQ [192; 168; 1; 78; 255; 255; 255; 0; 192; 168; 1; 1; 1]
  && encodes (Request.SetUtc (ProtocolTimestamp.from_unix_seconds 0x6553F100)) GW_SET_UTC_REQ
       [0x65; 0x53; 0xF1; 0x00]
  && encodes (Request.SetTimeZone ":UTC:UTC:0000") GW_RTC_SET_TIME_ZONE_REQ
       (written_at 0 (bytes_of ":UTC:UTC:0000") (zeros 64))
  && encodes Request.GetLocalTime GW_GET_LOCAL_TIME_REQ []
  && match Request.password_change "current" "replacement" ≫= Request.encode with
     | Ok password =>
         command_eqb (Frame.command password) GW_PASSWORD_CHANGE_REQ
         && assert_eq (take 7 (Frame.payload password)) (bytes_of "current")
         && assert_eq (take 11 (drop 32 (Frame.payload password))) (bytes_of "replacement")
         && assert_eq (Frame.debug_payload password) None
     | _ => false
     end.

Definition rejects_invalid_gateway_strings_without_exposing_passwords : bool :=
  assert_eq (Request.encode (Request.SetTimeZone (repeated "x" 64)))
    (Err (KlfError.StringTooLong 64 63))
  && match Request.password_change "old" "new" with
     | Ok request => if debug_request request is Debug.Text text
                     then String.eqb text "PasswordChange([REDACTED])" else false
     | _ => false
     end
  && assert_eq (Request.password_change "old" (repeated "x" 32)) (Err (KlfError.StringTooLong 32 31)).

Definition encodes_configuration_service_vectors : bool :=
  let nodes := NodeSet.new (ActuatorSet.from_bytes actuator_bytes) (BeaconSet.from_byte 5) in
  forallb (λ '(request, command, payload), encodes (Request.Configuration request) command payload)
    [(ConfigurationRequest.GetSystemTableData, GW_CS_GET_SYSTEMTABLE_DATA_REQ, []);
     (ConfigurationRequest.DiscoverNodes 2, GW_CS_DISCOVER_NODES_REQ, [2]);
     (ConfigurationRequest.RemoveNodes nodes, GW_CS_REMOVE_NODES_REQ, actuator_bytes ++ [5]);
     (ConfigurationRequest.VirginState, GW_CS_VIRGIN_STATE_REQ, []);
     (ConfigurationRequest.ControllerCopy 1, GW_CS_CONTROLLER_COPY_REQ, [1]);
     (ConfigurationRequest.ReceiveKey, GW_CS_RECEIVE_KEY_REQ, []);
     (ConfigurationRequest.GenerateNewKey, GW_CS_GENERATE_NEW_KEY_REQ, []);
     (ConfigurationRequest.RepairKey, GW_CS_REPAIR_KEY_REQ, []);
     (ConfigurationRequest.ActivateConfiguration nodes, GW_CS_ACTIVATE_CONFIGURATION_MODE_REQ,
      actuator_bytes ++ [5])].

Definition group_request_fixtures : list Z * GroupInformation.t * NewGroupInformation.t :=
  let actuators := ActuatorSet.from_bytes actuator_bytes in
  (actuator_bytes,
   GroupInformation.mk (GroupId.new 4) 0x1234 7 "West windows" 2 3 1 3 actuators 0x4567,
   NewGroupInformation.mk 0x1234 7 "West windows" 2 3 1 3 actuators).

Definition encodes_node_and_group_vectors : bool :=
  let '(actuator_bytes, group, new_group) := group_request_fixtures in
  forallb (λ '(request, command, payload), encodes (Request.NodeGroup request) command payload)
    [(NodeGroupRequest.SetNodeVariation (NodeId.new 9) 3, GW_SET_NODE_VARIATION_REQ, [9; 3]);
     (NodeGroupRequest.SetNodeName (NodeId.new 9) "Kitchen", GW_SET_NODE_NAME_REQ,
      written_at 1 (bytes_of "Kitchen") (written_at 0 [9] (zeros 65)));
     (NodeGroupRequest.SetNodeOrderAndPlacement (NodeId.new 9) 0x1234 7,
      GW_SET_NODE_ORDER_AND_PLACEMENT_REQ, [9; 0x12; 0x34; 7]);
     (NodeGroupRequest.GetGroup (GroupId.new 4), GW_GET_GROUP_INFORMATION_REQ, [4]);
     (NodeGroupRequest.SetGroup group, GW_SET_GROUP_INFORMATION_REQ,
      written_at 97 [0x45; 0x67] (written_at 72 actuator_bytes (written_at 68 [2; 3; 1; 3]
        (written_at 4 (bytes_of "West windows") (written_at 0 [4; 0x12; 0x34; 7] (zeros 99))))));
     (NodeGroupRequest.DeleteGroup (GroupId.new 4), GW_DELETE_GROUP_REQ, [4]);
     (NodeGroupRequest.NewGroup new_group, GW_NEW_GROUP_REQ,
      written_at 71 actuator_bytes (written_at 67 [2; 3; 1; 3]
        (written_at 3 (bytes_of "West windows") (written_at 0 [0x12; 0x34; 7] (zeros 96)))));
     (NodeGroupRequest.GetAllGroups true 1, GW_GET_ALL_GROUPS_INFORMATION_REQ, [1; 1])].

Definition rejects_oversized_node_and_group_names : bool :=
  assert_eq (Request.encode (Request.NodeGroup
               (NodeGroupRequest.SetNodeName (NodeId.new 1) (repeated "x" 64))))
    (Err (KlfError.StringTooLong 64 63))
  && is_string_too_long (Request.encode (Request.NodeGroup (NodeGroupRequest.NewGroup
       (NewGroupInformation.mk 0 0 (repeated "x" 64) 0 0 0 0 ActuatorSet.new)))).

Definition percent (p : Z) : StandardParameter.t := StandardParameter.Relative (Percentage.from_percent p).

Definition encodes_wink_limitation_and_mode_vectors : bool :=
  forallb (λ '(request, command, payload),
      let wrapped := Request.CommandExtension request in
      assert_eq (Request.session_id wrapped) (Some session) && encodes wrapped command payload)
    [(CommandExtensionRequest.Wink (WinkRequest.mk session 1 3 true 5 targets), GW_WINK_SEND_REQ,
      written_at 0 [0x12; 0x34; 1; 3; 1; 5; 2; 2; 9] (zeros 27));
     (CommandExtensionRequest.SetLimitation
        (SetLimitationRequest.mk session 1 3 targets 0 (percent 25) (percent 75) 253),
      GW_SET_LIMITATION_REQ,
      written_at 25 [0; 0x32; 0; 0x96; 0; 253]
        (written_at 0 [0x12; 0x34; 1; 3; 2; 2; 9] (zeros 31)));
     (CommandExtensionRequest.GetLimitationStatus (GetLimitationStatusRequest.mk session targets 4 1),
      GW_GET_LIMITATION_STATUS_REQ,
      written_at 23 [4; 1] (written_at 0 [0x12; 0x34; 2; 2; 9] (zeros 25)));
     (CommandExtensionRequest.Mode
        (ModeRequest.mk session 1 3 2 7 targets true [0; 1; 2; 3; 3; 2; 1; 0] 8),
      GW_MODE_SEND_REQ,
      written_at 27 [1; 0x1B; 0xE4; 8]
        (written_at 0 [0x12; 0x34; 1; 3; 2; 7; 2; 2; 9] (zeros 31)))].

Definition rejects_invalid_mode_priority_settings : bool :=
  assert_eq
    (target ← CommandTarget.new [NodeId.new 1];
     Request.encode (Request.CommandExtension (CommandExtensionRequest.Mode
       (ModeRequest.mk SessionId.MIN 1 3 0 0 target true [0; 1; 2; 4; 0; 1; 2; 3] 0))))
    (Err (KlfError.InvalidRequest "priority-level settings must be in the range 0..=3")).

(** The loop the two tests of scene requests share *)
Definition scene_vector (vector : SceneContactRequest.t * CommandId * list Z) : bool :=
  let '(request, command, payload) := vector in
  assert_eq (Request.session_id (Request.SceneContact request)) (SceneContactRequest.session_id request)
  && encodes (Request.SceneContact request) command payload.

Definition encodes_scene_vectors : bool :=
  forallb scene_vector
    [(SceneContactRequest.InitializeScene, GW_INITIALIZE_SCENE_REQ, []);
     (SceneContactRequest.CancelSceneInitialization, GW_INITIALIZE_SCENE_CANCEL_REQ, []);
     (SceneContactRequest.RecordScene "Evening", GW_RECORD_SCENE_REQ,
      written_at 0 (bytes_of "Evening") (zeros 64));
     (SceneContactRequest.DeleteScene 4, GW_DELETE_SCENE_REQ, [4]);
     (SceneContactRequest.RenameScene 4 "Night", GW_RENAME_SCENE_REQ,
      written_at 1 (bytes_of "Night") (written_at 0 [4] (zeros 65)));
     (SceneContactRequest.GetSceneList, GW_GET_SCENE_LIST_REQ, []);
     (SceneContactRequest.GetSceneInformation 4, GW_GET_SCENE_INFOAMATION_REQ, [4]);
     (SceneContactRequest.ActivateScene (SceneActivationRequest.mk session 1 3 4 2),
      GW_ACTIVATE_SCENE_REQ, [0x12; 0x34; 1; 3; 4; 2]);
     (SceneContactRequest.StopScene (SceneStopRequest.mk session 1 3 4), GW_STOP_SCENE_REQ,
      [0x12; 0x34; 1; 3; 4])].

Definition encodes_product_group_and_contact_vectors : bool :=
  let contact_link := ContactInputLink.mk 2 1 7 1 3 0 (percent 50) 2 1 [3; 2; 1; 0; 3] 4 5 in
  forallb scene_vector
    [(SceneContactRequest.ActivateProductGroup
        (ProductGroupActivationRequest.mk session 1 3 8 0 (percent 50) 2 true [0; 1; 2; 3; 3; 2; 1; 0] 9),
      GW_ACTIVATE_PRODUCTGROUP_REQ,
      [0x12; 0x34; 1; 3; 8; 0; 0x64; 0; 2; 1; 0x1B; 0xE4; 9]);
     (SceneContactRequest.GetContactInputLinks, GW_GET_CONTACT_INPUT_LINK_LIST_REQ, []);
     (SceneContactRequest.SetContactInputLink contact_link, GW_SET_CONTACT_INPUT_LINK_REQ,
      [2; 1; 7; 1; 3; 0; 0x64; 0; 2; 1; 3; 2; 1; 0; 3; 4; 5]);
     (SceneContactRequest.RemoveContactInputLink 2, GW_REMOVE_CONTACT_INPUT_LINK_REQ, [2])].

Definition rejects_invalid_scene_contact_fields : bool :=
  is_string_too_long
    (Request.encode (Request.SceneContact (SceneContactRequest.RecordScene (repeated "x" 64))))
  && is_invalid_request (Request.encode (Request.SceneContact (SceneContactRequest.SetContactInputLink
       (ContactInputLink.mk 0 0 0 1 3 0 StandardParameter.Default 0 0 [0; 1; 2; 3; 4] 0 0)))).

Definition encodes_activation_log_vectors : bool :=
  forallb (λ '(request, command, payload), encodes (Request.ActivationLog request) command payload)
    [(ActivationLogRequest.GetHeader, GW_GET_ACTIVATION_LOG_HEADER_REQ, []);
     (ActivationLogRequest.Clear, GW_CLEAR_ACTIVATION_LOG_REQ, []);
     (ActivationLogRequest.GetLine 0x1234, GW_GET_ACTIVATION_LOG_LINE_REQ, [0x12; 0x34]);
     (ActivationLogRequest.GetLinesSince (ProtocolTimestamp.from_unix_seconds 0x6553F100),
      GW_GET_MULTIPLE_ACTIVATION_LOG_LINES_REQ, [0x65; 0x53; 0xF1; 0])].

Definition encodes_golden_cover_command : bool :=
  match (target ← CommandTarget.new [NodeId.new 7];
         frame ← Request.encode (Request.CommandSend
                   (CommandRequest.new session (StandardParameter.Relative Percentage.FULLY_CLOSED)) target);
         bytes ← Frame.encode frame;
         Ok (frame, Slip.encode bytes)) with
  | Ok (frame, slip_frame) =>
      let payload := Frame.payload frame in
      command_eqb (Frame.command frame) GW_COMMAND_SEND_REQ
      && assert_eq (length payload) 66%nat
      && assert_eq (take 9 payload) [0x12; 0x34; 1; 3; 0; 0; 0; 0xC8; 0]
      && assert_eq (payload !! 41%nat) (Some 1) && assert_eq (payload !! 42%nat) (Some 7)
      && assert_eq (head slip_frame) (Some 0xC0) && assert_eq (last slip_frame) (Some 0xC0)
  | _ => false
  end.

Definition encodes_main_status_request : bool :=
  match (target ← CommandTarget.new [NodeId.new 2; NodeId.new 9];
         Request.encode (Request.StatusRequest (SessionId.mk 5) target
                           StatusRequestType.MainInformation)) with
  | Ok frame =>
      let payload := Frame.payload frame in
      assert_eq (length payload) 26%nat && assert_eq (take 5 payload) [0; 5; 2; 2; 9]
      && assert_eq (payload !! 23%nat) (Some 3)
  | _ => false
  end.

Definition validates_targets_and_raw_command_direction : bool :=
  is_err (CommandTarget.new []) && is_err (CommandTarget.new [NodeId.new 1; NodeId.new 1])
  && is_err (CommandTarget.new (NodeId.new <$> seqZ 0 21))
  && assert_eq (Request.encode (Request.Raw GW_GET_VERSION_CFM []))
       (Err (KlfError.UnsupportedRequest GW_GET_VERSION_CFM)).

Definition tests : list (string * bool) :=
  [("password_request_is_fixed_width_and_debug_redacted",
    password_request_is_fixed_width_and_debug_redacted);
   ("encodes_gateway_network_time_and_password_vectors",
    encodes_gateway_network_time_and_password_vectors);
   ("rejects_invalid_gateway_strings_without_exposing_passwords",
    rejects_invalid_gateway_strings_without_exposing_passwords);
   ("encodes_configuration_service_vectors", encodes_configuration_service_vectors);
   ("encodes_node_and_group_vectors", encodes_node_and_group_vectors);
   ("rejects_oversized_node_and_group_names", rejects_oversized_node_and_group_names);
   ("encodes_wink_limitation_and_mode_vectors", encodes_wink_limitation_and_mode_vectors);
   ("rejects_invalid_mode_priority_settings", rejects_invalid_mode_priority_settings);
   ("encodes_scene_vectors", encodes_scene_vectors);
   ("encodes_product_group_and_contact_vectors", encodes_product_group_and_contact_vectors);
   ("rejects_invalid_scene_contact_fields", rejects_invalid_scene_contact_fields);
   ("encodes_activation_log_vectors", encodes_activation_log_vectors);
   ("encodes_golden_cover_command", encodes_golden_cover_command);
   ("encodes_main_status_request", encodes_main_status_request);
   ("validates_targets_and_raw_command_direction", validates_targets_and_raw_command_direction)].

(** Every unit test of the encoders passes on the model. *)
Lemma command_tests_pass : failing tests = [].
Proof. vm_compute. reflexivity. Qed.
End CommandTests.
