(* ===== verification/CodecTests.v ===== *)
(** * The unit tests of the registry, the protocol values, the frames and SLIP

    The [mod tests] of klf200/command_id.rs, klf200/types.rs, klf200/frame.rs and
    klf200/slip.rs, asked of the model. Tests of fixed vectors pass by computation; the two
    properties that slip.rs samples at random hold of every frame. *)

From S2P Require Import Prelude RustStd CommandIds Error Types Frame Slip Testing.

(** ** klf200/command_id.rs *)
Module CommandIdTests.
Definition registry_contains_all_reference_commands_without_duplicates : bool :=
  assert_eq (length ALL_KNOWN_COMMANDS) 150%nat
  && (let ids := remove_dups (KnownCommand.id <$> ALL_KNOWN_COMMANDS) in
      let names := remove_dups (KnownCommand.name <$> ALL_KNOWN_COMMANDS) in
      assert_eq (length ids) (length ALL_KNOWN_COMMANDS)
      && assert_eq (length names) (length ALL_KNOWN_COMMANDS)).

Definition known_ids_round_trip_and_unknown_ids_are_preserved : bool :=
  forallb (λ command,
      assert_eq (CommandId.name (KnownCommand.id command)) (Some (KnownCommand.name command))
      && assert_eq (CommandId.known (KnownCommand.id command)) (Some command))
    ALL_KNOWN_COMMANDS
  && (let unknown := CommandId_new 0xDEAD in
      assert_eq (CommandId.name unknown) None
      && assert_eq (CommandId.kind unknown) CommandKind.Unknown
      && assert_eq (raw unknown) 0xDEAD
      && assert_eq (CommandId.display unknown) "UNKNOWN_COMMAND_0xDEAD").

Definition requests_resolve_to_their_confirmation : bool :=
  forallb (λ command,
      let confirmation := CommandId.expected_confirmation (KnownCommand.id command) in
      bool_decide (is_Some confirmation)
      && assert_eq (CommandId.kind <$> confirmation) (Some CommandKind.Confirmation))
    (List.filter (λ command, bool_decide (KnownCommand.kind command = CommandKind.Request))
       ALL_KNOWN_COMMANDS).

Definition tests : list (string * bool) :=
  [("registry_contains_all_reference_commands_without_duplicates",
    registry_contains_all_reference_commands_without_duplicates);
   ("known_ids_round_trip_and_unknown_ids_are_preserved",
    known_ids_round_trip_and_unknown_ids_are_preserved);
   ("requests_resolve_to_their_confirmation", requests_resolve_to_their_confirmation)].

Lemma command_id_tests_pass : failing tests = [].
Proof. vm_compute. reflexivity. Qed.
End CommandIdTests.

(** ** klf200/types.rs *)
Module TypesTests.
(** [first..first + count] *)
Fixpoint count_from (first : Z) (count : nat) : list Z :=
  match count with O => [] | S count => first :: count_from (first + 1) count end.

Definition standard_parameters_round_trip_every_raw_value : bool :=
  forallb (λ raw, assert_eq
      (RawPosition.get (StandardParameter.to_raw (StandardParameter.from_raw raw))) raw)
    (count_from 0 (Z.to_nat 65536)).

Definition position_boundaries_match_the_protocol : bool :=
  forallb (λ '(raw, parameter), assert_eq (StandardParameter.from_raw raw) parameter)
    [(0, StandardParameter.Relative Percentage.FULLY_OPEN);
     (0xC800, StandardParameter.Relative Percentage.FULLY_CLOSED);
     (0xC900, StandardParameter.PercentagePoint (-1000));
     (0xCCE8, StandardParameter.PercentagePoint 0);
     (0xD0D0, StandardParameter.PercentagePoint 1000);
     (0xF7FF, StandardParameter.NoFeedback)].

(** The name with an e acute, two bytes of UTF-8 *)
Definition accented : string := string_of ([0x56; 0xC3; 0xA9] ++ bytes_of "lux").

Definition fixed_strings_are_nul_terminated_and_checked : bool :=
  match encode_fixed_string 8 accented with
  | Ok encoded =>
      assert_eq (decode_fixed_string encoded) (Ok accented)
      && assert_eq (drop 6 encoded) [0; 0]
  | _ => false
  end
  && assert_eq (encode_fixed_string 4 "four") (Err (KlfError.StringTooLong 4 3))
  && assert_eq (decode_fixed_string [0xFF; 0]) (Err KlfError.InvalidUtf8).

Definition actuator_bits_use_protocol_little_endian_bit_order : bool :=
  let '(set, a) := ActuatorSet.insert ActuatorSet.new 0 in
  let '(set, b) := ActuatorSet.insert set 7 in
  let '(set, c) := ActuatorSet.insert set 8 in
  let '(set, d) := ActuatorSet.insert set 199 in
  forallb id [a; b; c; d]
  && assert_eq (ActuatorSet.as_bytes set !! 0%nat) (Some 0x81)
  && assert_eq (ActuatorSet.as_bytes set !! 1%nat) (Some 0x01)
  && assert_eq (ActuatorSet.as_bytes set !! 24%nat) (Some 0x80)
  && assert_eq (ActuatorSet.iter set) [0; 7; 8; 199]%nat
  && (let '(set, removed) := ActuatorSet.remove set 7 in
      removed && negb (ActuatorSet.contains set 7) && negb (ActuatorSet.insert set 200).2).

Definition beacon_bits_ignore_reserved_high_bits : bool :=
  let beacons := BeaconSet.from_byte 0xFF in
  assert_eq (BeaconSet.as_byte beacons) 7
  && BeaconSet.contains beacons 0 && BeaconSet.contains beacons 2
  && negb (BeaconSet.contains beacons 3)
  && (let '(beacons, changed) := BeaconSet.set beacons 1 false in
      changed && assert_eq (BeaconSet.as_byte beacons) 5 && negb (BeaconSet.set beacons 3 true).2).

Definition session_allocator_wraps_and_avoids_active_ids : bool :=
  let allocator := SessionIdAllocator.starting_at SessionId.MAX in
  let '(allocator, reserved) := SessionIdAllocator.reserve allocator SessionId.MAX in
  assert_eq reserved (Ok tt)
  && match SessionIdAllocator.allocate allocator with
     | (allocator, Ok allocated) =>
         assert_eq allocated SessionId.MIN && SessionIdAllocator.is_active allocator allocated
         && assert_eq (SessionIdAllocator.reserve allocator allocated).2
              (Err (KlfError.SessionIdInUse 1))
         && (let '(allocator, released) := SessionIdAllocator.release allocator allocated in
             released && negb (SessionIdAllocator.release allocator allocated).2)
     | _ => false
     end.

Definition tests : list (string * bool) :=
  [("standard_parameters_round_trip_every_raw_value",
    standard_parameters_round_trip_every_raw_value);
   ("position_boundaries_match_the_protocol", position_boundaries_match_the_protocol);
   ("fixed_strings_are_nul_terminated_and_checked", fixed_strings_are_nul_terminated_and_checked);
   ("actuator_bits_use_protocol_little_endian_bit_order",
    actuator_bits_use_protocol_little_endian_bit_order);
   ("beacon_bits_ignore_reserved_high_bits", beacon_bits_ignore_reserved_high_bits);
   ("session_allocator_wraps_and_avoids_active_ids", session_allocator_wraps_and_avoids_active_ids)].

Lemma types_tests_pass : failing tests = [].
Proof. vm_compute. reflexivity. Qed.
End TypesTests.

(** ** klf200/frame.rs *)
Module FrameTests.
Definition encodes_and_decodes_golden_get_version_frame : bool :=
  let frame := Frame.new GW_GET_VERSION_REQ [] in
  assert_eq (Frame.encode frame) (Ok [0x00; 0x03; 0x00; 0x08; 0x0B])
  && assert_eq (Frame.encode frame ≫= Frame.decode) (Ok frame).

Definition preserves_unknown_command_ids : bool :=
  let frame := Frame.new (CommandId_new 0xDEAD) [1; 2; 3] in
  assert_eq (Frame.encode frame ≫= Frame.decode) (Ok frame).

Definition rejects_short_length_checksum_and_protocol_errors : bool :=
  assert_eq (Frame.decode (zeros 4)) (Err (KlfError.FrameTooShort 4))
  && assert_eq (Frame.decode [1; 3; 0; 8; 10]) (Err (KlfError.InvalidProtocolId 1))
  && assert_eq (Frame.decode [0; 4; 0; 8; 11]) (Err (KlfError.InvalidFrameLength 4 3))
  && assert_eq (Frame.decode [0; 3; 0; 8; 10]) (Err (KlfError.InvalidChecksum 11 10)).

Definition enforces_one_byte_length_limit : bool :=
  negb (is_err (Frame.encode (Frame.new GW_GET_VERSION_REQ (zeros MAX_PAYLOAD_LENGTH))))
  && assert_eq (Frame.encode (Frame.new GW_GET_VERSION_REQ (zeros (MAX_PAYLOAD_LENGTH + 1))))
       (Err (KlfError.PayloadTooLarge (MAX_PAYLOAD_LENGTH + 1))).

Definition tests : list (string * bool) :=
  [("encodes_and_decodes_golden_get_version_frame", encodes_and_decodes_golden_get_version_frame);
   ("preserves_unknown_command_ids", preserves_unknown_command_ids);
   ("rejects_short_length_checksum_and_protocol_errors",
    rejects_short_length_checksum_and_protocol_errors);
   ("enforces_one_byte_length_limit", enforces_one_byte_length_limit)].

Lemma frame_tests_pass : failing tests = [].
Proof. vm_compute. reflexivity. Qed.
End FrameTests.

(** ** klf200/slip.rs *)
Module SlipTests.
Import SlipFacts.

(** [input.chunks(size)]: slices of [size] bytes, the last one shorter. The input's length is
    fuel enough, since every chunk of a positive size takes a byte. *)
Fixpoint chunks_upto (fuel size : nat) (input : list Z) : list (list Z) :=
  match fuel, input with
  | S fuel, _ :: _ => take size input :: chunks_upto fuel size (drop size input)
  | _, _ => []
  end.
Definition chunks (size : nat) (input : list Z) : list (list Z) :=
  chunks_upto (length input) size input.

Lemma concat_chunks (size : nat) (input : list Z) :
  (1 ≤ size)%nat → concat (chunks size input) = input.
Proof.
  intros Hs. unfold chunks. generalize (le_n (length input)) as Hf.
  generalize (length input) at 2 3 as fuel. intros fuel. revert input.
  induction fuel as [|fuel IH]; intros [|byte input] Hf; simpl in *; [done|lia|done|].
  destruct size as [|size]; [lia|]. simpl. f_equal.
  rewrite IH by (rewrite length_drop; lia). apply take_drop.
Qed.

(** The two samples that [proptest] draws *)
Definition arbitrary_frames_round_trip (frame : list Z) : bool :=
  assert_eq (Decoder.push Decoder.default (Slip.encode frame)).2 [Ok frame].

Definition arbitrary_fragmentation_round_trips (frame : list Z) (chunk_size : nat) : bool :=
  assert_eq (push_chunks Decoder.default (chunks chunk_size (Slip.encode frame))).2 [Ok frame].

Definition escapes_reserved_bytes : bool :=
  assert_eq (Slip.encode [END; ESC; 1]) [END; ESC; ESC_END; ESC; ESC_ESC; 1; END].

Definition handles_fragmented_and_coalesced_frames : bool :=
  let stream := Slip.encode [1; END; 2] ++ Slip.encode [3; ESC; 4] in
  assert_eq (push_chunks Decoder.default (chunks 2 stream)).2 [Ok [1; END; 2]; Ok [3; ESC; 4]].

(** [decoder.push(input)] for each input in turn, and what each gives *)
Fixpoint pushes (decoder : Decoder.t) (inputs : list (list Z)) : list (list (KlfResult (list Z))) :=
  match inputs with
  | [] => []
  | input :: inputs =>
      let (decoder, frames) := Decoder.push decoder input in frames :: pushes decoder inputs
  end.

Definition ignores_noise_empty_frames_and_incomplete_input : bool :=
  assert_eq (pushes Decoder.default [[1; 2; 3]; [END; END; END]; [1; 2]; [END]])
    [[]; []; []; [Ok [1; 2]]].

Definition reports_malformed_input_and_recovers_at_the_next_boundary : bool :=
  assert_eq
    (pushes (Decoder.new 2)
       [[END; ESC; 0x42]; [9; END; 1; 2; END]; [1; 2; 3]; [END]; [ESC; END]])
    [[Err (KlfError.InvalidSlipEscape 0x42)]; [Ok [1; 2]]; [Err (KlfError.SlipFrameTooLarge 2)];
     []; [Err KlfError.IncompleteSlipEscape]].

Definition tests : list (string * bool) :=
  [("escapes_reserved_bytes", escapes_reserved_bytes);
   ("handles_fragmented_and_coalesced_frames", handles_fragmented_and_coalesced_frames);
   ("ignores_noise_empty_frames_and_incomplete_input",
    ignores_noise_empty_frames_and_incomplete_input);
   ("reports_malformed_input_and_recovers_at_the_next_boundary",
    reports_malformed_input_and_recovers_at_the_next_boundary)].

Lemma slip_tests_pass : failing tests = [].
Proof. vm_compute. reflexivity. Qed.

(** The sampled properties hold of every frame of the sampled lengths, under every chunk size. *)
Lemma arbitrary_frames_pass (frame : list Z) :
  (1 ≤ length frame < 512)%nat → arbitrary_frames_round_trip frame = true.
Proof.
  intros Hf. apply bool_decide_eq_true.
  rewrite push_encode_ok; [done|by intros ->; simpl in Hf; lia|].
  change (Decoder.maximum_length Decoder.default) with 1024%nat. lia.
Qed.

Lemma arbitrary_fragmentation_passes (frame : list Z) (chunk_size : nat) :
  (1 ≤ length frame < 512)%nat → (1 ≤ chunk_size < 32)%nat →
  arbitrary_fragmentation_round_trips frame chunk_size = true.
Proof.
  intros Hf Hs. unfold arbitrary_fragmentation_round_trips.
  rewrite slip_fragmentation, concat_chunks by lia. by apply arbitrary_frames_pass.
Qed.
End SlipTests.
