(* ===== verification/ResponseTests.v ===== *)
(** * The unit tests of the response decoding (klf200/response.rs, [mod tests])

    The source's own vectors of all the notifications and confirmations, and of malformed ones,
    asked of the model. *)

From S2P Require Import Prelude RustStd CommandIds Error Types Frame ResponseTypes Response.
From S2P Require Import Redaction Testing.

Module ResponseTests.

(** [Response::decode(Frame::new(command, payload))], and its expected value *)
Definition decoded (command : CommandId) (payload : list Z) : KlfResult Response.t :=
  decode (Frame.new command payload).
Definition decodes (command : CommandId) (payload : list Z) (response : Response.t) : bool :=
  assert_eq (decoded command payload) (Ok response).

(** The loop of the tests of fixed lengths: one byte less, and one byte more *)
Definition exact_length (entry : CommandId * nat) : bool :=
  let '(command, expected) := entry in
  ((expected =? 0)%nat || is_truncated (decoded command (zeros (expected - 1))))
  && is_invalid_length (decoded command (zeros (expected + 1))).

Definition first_byte (nodes : NodeSet.t) : option Z := head (ActuatorSet.as_bytes (NodeSet.actuators nodes)).

Definition half : StandardParameter.t := StandardParameter.Relative (Percentage.from_percent 50).

Definition decodes_version_and_protocol_version_vectors : bool :=
  decodes GW_GET_VERSION_CFM [0; 2; 0; 0; 71; 0; 6; 14; 3]
    (Response.Version (Version.mk [0; 2; 0; 0; 71; 0] 6 14 3))
  && decodes GW_GET_PROTOCOL_VERSION_CFM [0; 3; 0; 18]
       (Response.ProtocolVersion (ProtocolVersion.mk 3 18)).

Definition decodes_gateway_network_time_and_password_vectors : bool :=
  decodes GW_LEAVE_LEARN_STATE_CFM [1] (Response.OperationStatus GW_LEAVE_LEARN_STATE_CFM 1)
  && decodes GW_GET_NETWORK_SETUP_CFM [192; 168; 1; 78; 255; 255; 255; 0; 192; 168; 1; 1; 1]
       (Response.NetworkSetup
          (NetworkSetup.mk [192; 168; 1; 78] [255; 255; 255; 0] [192; 168; 1; 1] true))
  && forallb (λ command, decodes command [] (Response.Acknowledgement command))
       [GW_SET_NETWORK_SETUP_CFM; GW_SET_UTC_CFM]
  && decodes GW_RTC_SET_TIME_ZONE_CFM [1] (Response.OperationStatus GW_RTC_SET_TIME_ZONE_CFM 1)
  && decodes GW_GET_LOCAL_TIME_CFM
       [0x65; 0x53; 0xF1; 0x00; 59; 58; 23; 31; 11; 0; 123; 0; 1; 0x6C; 0xFF]
       (Response.LocalTime
          (LocalTime.mk (ProtocolTimestamp.from_unix_seconds 0x6553F100) 59 58 23 31 11 123 0 364 (-1)))
  && decodes GW_PASSWORD_CHANGE_CFM [0] (Response.PasswordChanged true)
  && match decoded GW_PASSWORD_CHANGE_NTF (written_at 0 (bytes_of "replacement") (zeros 32)) with
     | Ok changed =>
         assert_eq changed (Response.PasswordChangedNotification
                              (PasswordChangedNotification.mk "replacement"))
         && match debug_response changed with
            | Debug.Tuple name [Debug.Text field] =>
                String.eqb name "PasswordChangedNotification"
                && String.eqb field "PasswordChangedNotification([REDACTED])"
            | _ => false
            end
     | _ => false
     end.

Definition rejects_malformed_gateway_network_time_and_password_payloads : bool :=
  forallb (λ '(command, expected),
      ((expected =? 0)%nat
       || assert_eq (decoded command (zeros (expected - 1)))
            (Err (KlfError.TruncatedPayload command expected (expected - 1))))
      && assert_eq (decoded command (zeros (expected + 1)))
           (Err (KlfError.InvalidPayloadLength command expected (expected + 1))))
    [(GW_LEAVE_LEARN_STATE_CFM, 1%nat); (GW_GET_NETWORK_SETUP_CFM, 13%nat);
     (GW_SET_NETWORK_SETUP_CFM, 0%nat); (GW_SET_UTC_CFM, 0%nat);
     (GW_RTC_SET_TIME_ZONE_CFM, 1%nat); (GW_GET_LOCAL_TIME_CFM, 15%nat);
     (GW_PASSWORD_CHANGE_CFM, 1%nat); (GW_PASSWORD_CHANGE_NTF, 32%nat)].

Definition decodes_configuration_service_table_and_discovery_vectors : bool :=
  forallb (λ command, decodes command [] (Response.Acknowledgement command))
    [GW_CS_GET_SYSTEMTABLE_DATA_CFM; GW_CS_DISCOVER_NODES_CFM; GW_CS_VIRGIN_STATE_CFM;
     GW_CS_CONTROLLER_COPY_CFM; GW_CS_CONTROLLER_COPY_CANCEL_NTF; GW_CS_RECEIVE_KEY_CFM;
     GW_CS_GENERATE_NEW_KEY_CFM; GW_CS_REPAIR_KEY_CFM]
  && decodes GW_CS_GET_SYSTEMTABLE_DATA_NTF [1; 7; 1; 2; 3; 0x12; 0x34; 0xCD; 0x2A; 4; 5; 6; 9]
       (Response.SystemTableData
          (SystemTableData.mk [SystemTableObject.mk 7 [1; 2; 3] 0x1234 0xCD 0x2A [4; 5; 6]] 9))
  && match decoded GW_CS_DISCOVER_NODES_NTF
             (written_at 130 [7] (written_at 104 [6] (written_at 78 [5] (written_at 52 [4]
                (written_at 26 [3] (written_at 25 [2] (written_at 0 [1] (zeros 131)))))))) with
     | Ok (Response.NodeDiscoveryResult result) =>
         ActuatorSet.contains (NodeSet.actuators (NodeDiscoveryResult.added result)) 0
         && BeaconSet.contains (NodeSet.beacons (NodeDiscoveryResult.added result)) 1
         && assert_eq (first_byte (NodeDiscoveryResult.rf_connection_error result)) (Some 3)
         && assert_eq (first_byte (NodeDiscoveryResult.key_error_existing_node result)) (Some 4)
         && assert_eq (first_byte (NodeDiscoveryResult.removed result)) (Some 5)
         && assert_eq (first_byte (NodeDiscoveryResult.open result)) (Some 6)
         && assert_eq (NodeDiscoveryResult.status result) 7
     | _ => false
     end.

Definition decodes_configuration_service_job_and_change_vectors : bool :=
  decodes GW_CS_REMOVE_NODES_CFM [1] (Response.NodesRemoved true)
  && decodes GW_CS_CONTROLLER_COPY_NTF [1; 4]
       (Response.ControllerCopyResult (ControllerCopyResult.mk 1 4))
  && forallb (λ command,
         match decoded command
                 (written_at 26 [2; 4] (written_at 0 [0xFF; 1] (zeros 53))) with
         | Ok (Response.KeyChangeResult result) =>
             command_eqb (KeyChangeResult.command result) command
             && assert_eq (KeyChangeResult.status result) (-1)
             && assert_eq (first_byte (KeyChangeResult.changed result)) (Some 1)
             && BeaconSet.contains (NodeSet.beacons (KeyChangeResult.changed result)) 1
             && assert_eq (first_byte (KeyChangeResult.unchanged result)) (Some 4)
         | _ => false
         end)
       [GW_CS_RECEIVE_KEY_NTF; GW_CS_GENERATE_NEW_KEY_NTF; GW_CS_REPAIR_KEY_NTF]
  && decodes GW_CS_PGC_JOB_NTF [0; 2; 3] (Response.PgcJob (PgcJob.mk 0 2 3))
  && match decoded GW_CS_SYSTEM_TABLE_UPDATE_NTF
             (written_at 26 [2] (written_at 0 [1] (zeros 52))) with
     | Ok (Response.SystemTableUpdate update) =>
         assert_eq (first_byte (SystemTableUpdate.added update)) (Some 1)
         && assert_eq (first_byte (SystemTableUpdate.removed update)) (Some 2)
     | _ => false
     end
  && match decoded GW_CS_ACTIVATE_CONFIGURATION_MODE_CFM
             (written_at 78 [0xFF] (written_at 52 [4] (written_at 26 [2]
                (written_at 0 [1] (zeros 79))))) with
     | Ok (Response.ConfigurationActivationResult result) =>
         assert_eq (first_byte (ConfigurationActivationResult.activated result)) (Some 1)
         && assert_eq (first_byte (ConfigurationActivationResult.no_contact result)) (Some 2)
         && assert_eq (first_byte (ConfigurationActivationResult.other_error result)) (Some 4)
         && assert_eq (ConfigurationActivationResult.status result) (-1)
     | _ => false
     end.

Definition rejects_malformed_configuration_service_payloads : bool :=
  forallb (λ '(command, expected),
      if (expected =? 0)%nat then is_invalid_length (decoded command (zeros 1))
      else is_truncated (decoded command (zeros (expected - 1))))
    [(GW_CS_GET_SYSTEMTABLE_DATA_CFM, 0%nat); (GW_CS_DISCOVER_NODES_CFM, 0%nat);
     (GW_CS_DISCOVER_NODES_NTF, 131%nat); (GW_CS_REMOVE_NODES_CFM, 1%nat);
     (GW_CS_VIRGIN_STATE_CFM, 0%nat); (GW_CS_CONTROLLER_COPY_CFM, 0%nat);
     (GW_CS_CONTROLLER_COPY_NTF, 2%nat); (GW_CS_CONTROLLER_COPY_CANCEL_NTF, 0%nat);
     (GW_CS_RECEIVE_KEY_CFM, 0%nat); (GW_CS_RECEIVE_KEY_NTF, 53%nat); (GW_CS_PGC_JOB_NTF, 3%nat);
     (GW_CS_SYSTEM_TABLE_UPDATE_NTF, 52%nat); (GW_CS_GENERATE_NEW_KEY_CFM, 0%nat);
     (GW_CS_GENERATE_NEW_KEY_NTF, 53%nat); (GW_CS_REPAIR_KEY_CFM, 0%nat);
     (GW_CS_REPAIR_KEY_NTF, 53%nat); (GW_CS_ACTIVATE_CONFIGURATION_MODE_CFM, 79%nat)]
  && assert_eq (decoded GW_CS_GET_SYSTEMTABLE_DATA_NTF [1; 0])
       (Err (KlfError.TruncatedPayload GW_CS_GET_SYSTEMTABLE_DATA_NTF 13 2)).

Definition group_information_payload : list Z * GroupInformation.t :=
  let actuator_bytes := written_at 24 [0x80] (written_at 0 [0x81] (zeros 25)) in
  (written_at 97 [0x45; 0x67] (written_at 72 actuator_bytes (written_at 68 [2; 3; 1; 3]
     (written_at 4 (bytes_of "West windows") (written_at 0 [4; 0x12; 0x34; 7] (zeros 99))))),
   GroupInformation.mk (GroupId.new 4) 0x1234 7 "West windows" 2 3 1 3
     (ActuatorSet.from_bytes actuator_bytes) 0x4567).

Definition decodes_node_and_group_status_vectors : bool :=
  forallb (λ command, decodes command [2; 9]
             (Response.NodeMutationResult (NodeMutationResult.mk command 2 (NodeId.new 9))))
    [GW_SET_NODE_VARIATION_CFM; GW_SET_NODE_NAME_CFM; GW_SET_NODE_ORDER_AND_PLACEMENT_CFM]
  && forallb (λ command, decodes command [1; 4]
                (Response.GroupOperationResult (GroupOperationResult.mk command 1 (GroupId.new 4))))
       [GW_GET_GROUP_INFORMATION_CFM; GW_SET_GROUP_INFORMATION_CFM; GW_NEW_GROUP_CFM]
  && decodes GW_DELETE_GROUP_CFM [4; 2]
       (Response.GroupOperationResult (GroupOperationResult.mk GW_DELETE_GROUP_CFM 2 (GroupId.new 4))).

Definition decodes_group_notification_vectors : bool :=
  let (payload, information) := group_information_payload in
  forallb (λ command, decodes command payload
             (Response.GroupInformation (GroupInformationNotification.mk command information)))
    [GW_GET_GROUP_INFORMATION_NTF; GW_GET_ALL_GROUPS_INFORMATION_NTF]
  && decodes GW_GROUP_INFORMATION_CHANGED_NTF (1 :: payload)
       (Response.GroupChange (GroupChange.mk 1 (GroupId.new 4) (Some information)))
  && decodes GW_GROUP_INFORMATION_CHANGED_NTF [0; 4]
       (Response.GroupChange (GroupChange.mk 0 (GroupId.new 4) None))
  && decodes GW_GET_ALL_GROUPS_INFORMATION_CFM [0xFF; 200]
       (Response.AllGroupsAccepted (AllGroupsAccepted.mk (-1) 200))
  && decodes GW_GET_ALL_GROUPS_INFORMATION_FINISHED_NTF []
       (Response.Acknowledgement GW_GET_ALL_GROUPS_INFORMATION_FINISHED_NTF)
  && decodes GW_GROUP_DELETED_NTF [4] (Response.GroupDeleted (GroupId.new 4)).

Definition rejects_malformed_node_and_group_payloads : bool :=
  forallb exact_length
    [(GW_SET_NODE_VARIATION_CFM, 2%nat); (GW_SET_NODE_NAME_CFM, 2%nat);
     (GW_SET_NODE_ORDER_AND_PLACEMENT_CFM, 2%nat); (GW_GET_GROUP_INFORMATION_CFM, 2%nat);
     (GW_GET_GROUP_INFORMATION_NTF, 99%nat); (GW_SET_GROUP_INFORMATION_CFM, 2%nat);
     (GW_DELETE_GROUP_CFM, 2%nat); (GW_NEW_GROUP_CFM, 2%nat);
     (GW_GET_ALL_GROUPS_INFORMATION_CFM, 2%nat); (GW_GET_ALL_GROUPS_INFORMATION_NTF, 99%nat);
     (GW_GET_ALL_GROUPS_INFORMATION_FINISHED_NTF, 0%nat); (GW_GROUP_DELETED_NTF, 1%nat)]
  && is_truncated (decoded GW_GROUP_INFORMATION_CHANGED_NTF (written_at 0 [1] (zeros 99)))
  && is_invalid_length (decoded GW_GROUP_INFORMATION_CHANGED_NTF [0; 4; 0]).

Definition decodes_wink_limitation_and_mode_vectors : bool :=
  forallb (λ '(command, status), decodes command [0x12; 0x34; status]
             (Response.SessionCommandResult (SessionCommandResult.mk command session status)))
    [(GW_WINK_SEND_CFM, 1); (GW_SET_LIMITATION_CFM, 1); (GW_GET_LIMITATION_STATUS_CFM, 1);
     (GW_MODE_SEND_CFM, 0)]
  && decodes GW_WINK_SEND_NTF [0x12; 0x34] (Response.WinkFinished session)
  && decodes GW_LIMITATION_STATUS_NTF [0x12; 0x34; 9; 4; 0x32; 0; 0x96; 0; 1; 253]
       (Response.LimitationStatus
          (LimitationStatus.mk session (NodeId.new 9) 4
             (StandardParameter.Relative (Percentage.from_percent 25))
             (StandardParameter.Relative (Percentage.from_percent 75)) 1 253))
  && decodes GW_MODE_SEND_NTF [0x12; 0x34; 7] (Response.ModeNotification [0x12; 0x34; 7]).

Definition rejects_malformed_wink_and_limitation_payloads : bool :=
  forallb exact_length
    [(GW_WINK_SEND_CFM, 3%nat); (GW_WINK_SEND_NTF, 2%nat); (GW_SET_LIMITATION_CFM, 3%nat);
     (GW_GET_LIMITATION_STATUS_CFM, 3%nat); (GW_LIMITATION_STATUS_NTF, 10%nat);
     (GW_MODE_SEND_CFM, 3%nat)]
  && assert_eq (decoded GW_WINK_SEND_CFM [0; 0; 1])
       (Err (KlfError.InvalidRequest "session ID zero is reserved")).

Definition decodes_scene_status_and_list_vectors : bool :=
  forallb (λ command, decodes command [2] (Response.SceneStatusResult (SceneStatusResult.mk command 2)))
    [GW_INITIALIZE_SCENE_CFM; GW_INITIALIZE_SCENE_CANCEL_CFM; GW_RECORD_SCENE_CFM]
  && decodes GW_INITIALIZE_SCENE_NTF (written_at 0 [2; 0] (replicate 26 1))
       (Response.SceneInitializationResult
          (SceneInitializationResult.mk 2 (true :: replicate 24 false)))
  && forallb (λ command, decodes command [1; 4]
                (Response.SceneObjectResult (SceneObjectResult.mk command 1 4)))
       [GW_RECORD_SCENE_NTF; GW_DELETE_SCENE_CFM; GW_RENAME_SCENE_CFM; GW_GET_SCENE_INFOAMATION_CFM]
  && decodes GW_GET_SCENE_LIST_CFM [7] (Response.SceneListAccepted 7)
  && decodes GW_GET_SCENE_LIST_NTF
       (written_at 131 [3] (written_at 67 (bytes_of "Night") (written_at 66 [5]
          (written_at 2 (bytes_of "Evening") (written_at 0 [2; 4] (zeros 132))))))
       (Response.SceneList
          (SceneList.mk [SceneSummary.mk 4 "Evening"; SceneSummary.mk 5 "Night"] 3)).

Definition decodes_scene_product_group_and_contact_vectors : bool :=
  decodes GW_GET_SCENE_INFOAMATION_NTF
    (written_at 74 [1] (written_at 70 [10; 4; 0xC8; 0] (written_at 66 [9; 0; 0x64; 0]
       (written_at 65 [2] (written_at 1 (bytes_of "Evening") (written_at 0 [4] (zeros 75)))))))
    (Response.SceneInformation
       (SceneInformation.mk 4 "Evening"
          [SceneNode.mk (NodeId.new 9) 0 half;
           SceneNode.mk (NodeId.new 10) 4 (StandardParameter.Relative Percentage.FULLY_CLOSED)] 1))
  && forallb (λ command, decodes command [0; 0x12; 0x34]
                (Response.SceneSessionResult (SceneSessionResult.mk command 0 session)))
       [GW_ACTIVATE_SCENE_CFM; GW_STOP_SCENE_CFM]
  && decodes GW_SCENE_INFORMATION_CHANGED_NTF [1; 4] (Response.SceneChange (SceneChange.mk 1 4))
  && decodes GW_ACTIVATE_PRODUCTGROUP_CFM [0x12; 0x34; 0]
       (Response.ProductGroupResult (ProductGroupResult.mk session 0))
  && decodes GW_ACTIVATE_PRODUCTGROUP_NTF [1; 2; 3] (Response.ProductGroupNotification [1; 2; 3])
  && decodes GW_GET_CONTACT_INPUT_LINK_LIST_CFM
       [1; 2; 1; 7; 1; 3; 0; 0x64; 0; 2; 1; 3; 2; 1; 0; 3; 4; 5]
       (Response.ContactInputLinks [ContactInputLink.mk 2 1 7 1 3 0 half 2 1 [3; 2; 1; 0; 3] 4 5])
  && forallb (λ command, decodes command [2; 1]
                (Response.ContactInputOperationResult (ContactInputOperationResult.mk command 2 1)))
       [GW_SET_CONTACT_INPUT_LINK_CFM; GW_REMOVE_CONTACT_INPUT_LINK_CFM].

Definition rejects_malformed_scene_and_contact_payloads : bool :=
  forallb exact_length
    [(GW_INITIALIZE_SCENE_CFM, 1%nat); (GW_INITIALIZE_SCENE_NTF, 26%nat);
     (GW_INITIALIZE_SCENE_CANCEL_CFM, 1%nat); (GW_RECORD_SCENE_CFM, 1%nat);
     (GW_RECORD_SCENE_NTF, 2%nat); (GW_DELETE_SCENE_CFM, 2%nat); (GW_RENAME_SCENE_CFM, 2%nat);
     (GW_GET_SCENE_LIST_CFM, 1%nat); (GW_GET_SCENE_INFOAMATION_CFM, 2%nat);
     (GW_ACTIVATE_SCENE_CFM, 3%nat); (GW_STOP_SCENE_CFM, 3%nat);
     (GW_SCENE_INFORMATION_CHANGED_NTF, 2%nat); (GW_ACTIVATE_PRODUCTGROUP_CFM, 3%nat);
     (GW_SET_CONTACT_INPUT_LINK_CFM, 2%nat); (GW_REMOVE_CONTACT_INPUT_LINK_CFM, 2%nat)]
  && forallb (λ '(command, payload), is_truncated (decoded command payload))
       [(GW_GET_SCENE_LIST_NTF, [1; 0]);
        (GW_GET_SCENE_INFOAMATION_NTF, written_at 65 [1] (zeros 67));
        (GW_GET_CONTACT_INPUT_LINK_LIST_CFM, [1])]
  && is_invalid_request (decoded GW_GET_SCENE_LIST_NTF [4; 0])
  && is_invalid_request (decoded GW_GET_SCENE_INFOAMATION_NTF (written_at 65 [46] (zeros 67)))
  && is_invalid_request (decoded GW_GET_CONTACT_INPUT_LINK_LIST_CFM [11]).

Definition decodes_activation_log_vectors : bool :=
  decodes GW_GET_ACTIVATION_LOG_HEADER_CFM [0x01; 0x00; 0; 7]
    (Response.ActivationLogHeader (ActivationLogHeader.mk 256 7))
  && forallb (λ command, decodes command [] (Response.Acknowledgement command))
       [GW_CLEAR_ACTIVATION_LOG_CFM; GW_ACTIVATION_LOG_UPDATED_NTF]
  && forallb (λ command, decodes command
         [0x65; 0x53; 0xF1; 0; 0x12; 0x34; 7; 9; 0; 0x64; 0; 2; 2; 0xDE; 0xAD; 0xBE; 0xEF]
         (Response.ActivationLogEntry
            (ActivationLogEntry.mk command (ProtocolTimestamp.from_unix_seconds 0x6553F100) session 7
               (NodeId.new 9) 0 half RunStatus.Active 2 0xDEADBEEF)))
       [GW_GET_ACTIVATION_LOG_LINE_CFM; GW_GET_MULTIPLE_ACTIVATION_LOG_LINES_NTF]
  && decodes GW_GET_MULTIPLE_ACTIVATION_LOG_LINES_CFM [0; 7; 1]
       (Response.MultipleActivationLogResult (MultipleActivationLogResult.mk 7 1)).

Definition rejects_malformed_activation_log_payloads : bool :=
  forallb exact_length
    [(GW_GET_ACTIVATION_LOG_HEADER_CFM, 4%nat); (GW_CLEAR_ACTIVATION_LOG_CFM, 0%nat);
     (GW_GET_ACTIVATION_LOG_LINE_CFM, 17%nat); (GW_ACTIVATION_LOG_UPDATED_NTF, 0%nat);
     (GW_GET_MULTIPLE_ACTIVATION_LOG_LINES_NTF, 17%nat);
     (GW_GET_MULTIPLE_ACTIVATION_LOG_LINES_CFM, 3%nat)].

Definition decodes_node_information_with_aliases : bool :=
  let functional payload :=
    foldl (λ payload offset, written_at offset (u16_to_be_bytes 0xF7FF) payload) payload
      [89; 91; 93; 95]%nat in
  let payload :=
    written_at 108 [0; 3; 0; 4] (written_at 104 [0; 1; 0; 2] (written_at 103 [2]
      (written_at 99 (u32_to_be_bytes 1700000000) (written_at 97 (u16_to_be_bytes 12) (functional
        (written_at 87 (u16_to_be_bytes 0xC800) (written_at 85 (u16_to_be_bytes 0x6400)
          (written_at 84 [4] (written_at 76 [0; 1; 2; 3; 4; 5; 6; 7] (written_at 71 [1; 2; 3; 1; 9]
            (written_at 69 (u16_to_be_bytes 0x1234) (written_at 68 [1]
              (written_at 4 (bytes_of "Office") (written_at 3 [2] (written_at 1 (u16_to_be_bytes 42)
                (written_at 0 [7] (zeros 124))))))))))))))))) in
  match decoded GW_GET_ALL_NODES_INFORMATION_NTF payload with
  | Ok (Response.NodeInformation node) =>
      assert_eq (NodeInformation.node_id node) (NodeId.new 7)
      && String.eqb (NodeInformation.name node) "Office"
      && assert_eq (NodeInformation.operating_state node) OperatingState.Executing
      && assert_eq (NodeInformation.current_position node) half
      && assert_eq (NodeInformation.aliases node) [Alias.mk 1 2; Alias.mk 3 4]
  | _ => false
  end
  && is_truncated (decoded GW_GET_NODE_INFORMATION_NTF (zeros 123))
  && is_invalid_length (decoded GW_GET_NODE_INFORMATION_NTF (zeros 125))
  && is_invalid_request (decoded GW_GET_NODE_INFORMATION_NTF (written_at 103 [6] (zeros 124))).

Definition decodes_main_status_and_preserves_unknown_enums : bool :=
  match decoded GW_STATUS_REQUEST_NTF
          [0; 9; 0xFE; 7; 0xA5; 0; 3; 0xC8; 0; 0x64; 0; 0; 12; 1; 2; 3; 4; 0xDD] with
  | Ok (Response.StatusNotification status) =>
      assert_eq (StatusNotification.run_status status) (RunStatus.Unknown 0xA5)
      && assert_eq (StatusNotification.status_id status) 0xFE
      && assert_eq (StatusNotification.detail status)
           (StatusNotificationDetail.Main (StandardParameter.Relative Percentage.FULLY_CLOSED)
              half 12 0x01020304 0xDD)
  | _ => false
  end.

Definition malformed_payloads_return_errors_without_panicking : bool :=
  forallb (λ length, assert_eq (decoded GW_GET_VERSION_CFM (zeros length))
             (Err (KlfError.TruncatedPayload GW_GET_VERSION_CFM 9 length))) (seq 0 9)
  && decodes (CommandId_new 0xDEAD) [1; 2] (Response.Unknown (CommandId_new 0xDEAD) [1; 2]).

Definition rejects_oversized_core_payloads : bool :=
  forallb (λ '(command, expected), is_invalid_length (decoded command (zeros (expected + 1))))
    [(GW_REBOOT_CFM, 0%nat); (GW_SET_FACTORY_DEFAULT_CFM, 0%nat); (GW_ERROR_NTF, 1%nat);
     (GW_GET_VERSION_CFM, 9%nat); (GW_GET_PROTOCOL_VERSION_CFM, 4%nat); (GW_GET_STATE_CFM, 6%nat);
     (GW_SET_NETWORK_SETUP_CFM, 0%nat); (GW_SET_UTC_CFM, 0%nat); (GW_LEAVE_LEARN_STATE_CFM, 1%nat);
     (GW_RTC_SET_TIME_ZONE_CFM, 1%nat); (GW_GET_NETWORK_SETUP_CFM, 13%nat);
     (GW_GET_LOCAL_TIME_CFM, 15%nat); (GW_PASSWORD_ENTER_CFM, 1%nat);
     (GW_PASSWORD_CHANGE_CFM, 1%nat); (GW_PASSWORD_CHANGE_NTF, 32%nat);
     (GW_GET_NODE_INFORMATION_CFM, 2%nat); (GW_GET_ALL_NODES_INFORMATION_CFM, 2%nat);
     (GW_GET_ALL_NODES_INFORMATION_FINISHED_NTF, 0%nat); (GW_NODE_INFORMATION_CHANGED_NTF, 69%nat);
     (GW_NODE_STATE_POSITION_CHANGED_NTF, 20%nat); (GW_COMMAND_REMAINING_TIME_NTF, 6%nat);
     (GW_HOUSE_STATUS_MONITOR_ENABLE_CFM, 0%nat); (GW_HOUSE_STATUS_MONITOR_DISABLE_CFM, 0%nat)]
  && forallb (λ '(command, payload), is_invalid_length (decoded command (payload ++ [0])))
       [(GW_GET_NODE_INFORMATION_NTF, zeros 124); (GW_COMMAND_SEND_CFM, [0; 1; 0]);
        (GW_COMMAND_RUN_STATUS_NTF, [0; 1; 0; 0; 0; 0; 0; 0; 0; 0; 0; 0; 0]);
        (GW_SESSION_FINISHED_NTF, [0; 1]); (GW_STATUS_REQUEST_CFM, [0; 1; 0]);
        (GW_STATUS_REQUEST_NTF, [0; 1; 0; 0; 0; 0; 0; 0])].

Definition tests : list (string * bool) :=
  [("decodes_version_and_protocol_version_vectors", decodes_version_and_protocol_version_vectors);
   ("decodes_gateway_network_time_and_password_vectors",
    decodes_gateway_network_time_and_password_vectors);
   ("rejects_malformed_gateway_network_time_and_password_payloads",
    rejects_malformed_gateway_network_time_and_password_payloads);
   ("decodes_configuration_service_table_and_discovery_vectors",
    decodes_configuration_service_table_and_discovery_vectors);
   ("decodes_configuration_service_job_and_change_vectors",
    decodes_configuration_service_job_and_change_vectors);
   ("rejects_malformed_configuration_service_payloads",
    rejects_malformed_configuration_service_payloads);
   ("decodes_node_and_group_status_vectors", decodes_node_and_group_status_vectors);
   ("decodes_group_notification_vectors", decodes_group_notification_vectors);
   ("rejects_malformed_node_and_group_payloads", rejects_malformed_node_and_group_payloads);
   ("decodes_wink_limitation_and_mode_vectors", decodes_wink_limitation_and_mode_vectors);
   ("rejects_malformed_wink_and_limitation_payloads",
    rejects_malformed_wink_and_limitation_payloads);
   ("decodes_scene_status_and_list_vectors", decodes_scene_status_and_list_vectors);
   ("decodes_scene_product_group_and_contact_vectors",
    decodes_scene_product_group_and_contact_vectors);
   ("rejects_malformed_scene_and_contact_payloads", rejects_malformed_scene_and_contact_payloads);
   ("decodes_activation_log_vectors", decodes_activation_log_vectors);
   ("rejects_malformed_activation_log_payloads", rejects_malformed_activation_log_payloads);
   ("decodes_node_information_with_aliases", decodes_node_information_with_aliases);
   ("decodes_main_status_and_preserves_unknown_enums",
    decodes_main_status_and_preserves_unknown_enums);
   ("malformed_payloads_return_errors_without_panicking",
    malformed_payloads_return_errors_without_panicking);
   ("rejects_oversized_core_payloads", rejects_oversized_core_payloads)].

(** Every unit test of the decoders passes on the model. *)
Lemma response_tests_pass : failing tests = [].
Proof. vm_compute. reflexivity. Qed.
End ResponseTests.
