(* ===== verification/Cli.v ===== *)
(** * The command line (bin/velux2mqtt.rs)

    The options, the conflict declared between two of them, their validation and the configuration
    [main] builds from them. How the library finds the options in the arguments and the
    environment is not modelled; reading the certificate's metadata is an input. *)

From S2P Require Import Prelude RustStd RustText CommandIds Error Types Tls Connection.
From S2P Require Import Mqtt MqttFacts HassDiscovery Bridge BridgeFacts.

Module Cli.
Record t := mk {
  klf_host : string;
  klf_port : Z;
  klf_password : string;
  klf_heartbeat_interval : Z;
  status_refresh_interval : Z;
  certificate : option string;
  klf_reboot_on_shutdown : bool;
  klf_reboot_reconnect_delay : Z;
  mqtt_addr : string;
  mqtt_port : Z;
  mqtt_ca_cert : option string;
  mqtt_insecure : bool;
  mqtt_user : string;
  mqtt_pass : string;
  mqtt_client_id : string;
  mqtt_base_topic : string;
  hass_discovery : bool
}.

(** The declared defaults, around the options that have none *)
Definition defaults (klf_host klf_password mqtt_addr : string) : t :=
  mk klf_host 51200 klf_password 30 300 None false 30 mqtt_addr 1883 None false "" "" "velux2mqtt"
    "velux" false.

(** The check [clap] makes of the options that were given: [mqtt_ca_cert] declares
    [conflicts_with = "mqtt_insecure"]. The flag counts as given if it is set; what the library makes
    of an environment variable that sets it to false is not modelled. *)
Module ErrorKind.
Inductive t := ArgumentConflict.
End ErrorKind.

Definition try_parse (given : t) : outcome ErrorKind.t t :=
  match mqtt_ca_cert given with
  | Some _ => if mqtt_insecure given then Err ErrorKind.ArgumentConflict else Ok given
  | None => Ok given
  end.

Section validate.
Context (metadata : string → outcome string unit).

Definition bail_if (condition : bool) (message : string) : outcome BridgeError.t unit :=
  if condition then Err (BridgeError.Bail message) else Ok tt.

Definition validate (c : t) : outcome BridgeError.t unit :=
  _ ← bail_if (String.eqb (trim (klf_host c)) "") "KLF host cannot be empty";
  _ ← bail_if (String.eqb (klf_password c) "") "KLF password cannot be empty";
  _ ← bail_if (klf_heartbeat_interval c =? 0) "KLF heartbeat interval must be greater than zero";
  _ ← bail_if (status_refresh_interval c =? 0) "status refresh interval must be greater than zero";
  _ ← bail_if (klf_reboot_reconnect_delay c =? 0)
        "KLF reboot reconnect delay must be greater than zero";
  _ ← bail_if (String.eqb (trim (mqtt_addr c)) "") "MQTT address cannot be empty";
  _ ← bail_if (String.eqb (trim (mqtt_client_id c)) "") "MQTT client ID cannot be empty";
  _ ← bail_if (String.eqb (trim_matches ["/"] (mqtt_base_topic c)) "") "MQTT base topic cannot be empty";
  match certificate c with
  | Some path =>
      match metadata path with
      | Ok _ => Ok tt
      | Err error => Err (BridgeError.Bail ("cannot read KLF certificate at " +:+ path))
      | Panic => Panic
      end
  | None => Ok tt
  end.
End validate.

(** The configuration [main] builds *)
Definition klf_config (c : t) : Klf200Config.t :=
  let config := Klf200Config.new (klf_host c) in
  Klf200Config.mk (Klf200Config.host config) (klf_port c) (certificate c)
    (Klf200Config.connect_timeout config) (Klf200Config.connection config).

Definition mqtt_config (c : t) : MqttConfig.t :=
  let config := MqttConfig.new (mqtt_addr c) in
  MqttConfig.mk (MqttConfig.server config) (mqtt_port c) (mqtt_ca_cert c) (mqtt_insecure c)
    (mqtt_client_id c) (mqtt_user c) (mqtt_pass c) (mqtt_base_topic c)
    (MqttConfig.keep_alive config) (MqttConfig.request_capacity config).

Definition bridge_config (c : t) : VeluxMqttBridgeConfig.t :=
  let config := VeluxMqttBridgeConfig.new (klf_config c) (klf_password c) (mqtt_config c) in
  VeluxMqttBridgeConfig.mk (VeluxMqttBridgeConfig.klf config)
    (VeluxMqttBridgeConfig.klf_password config) (VeluxMqttBridgeConfig.mqtt config)
    (hass_discovery c) (klf_reboot_on_shutdown c) (from_secs (klf_reboot_reconnect_delay c))
    (from_secs (klf_heartbeat_interval c)) (from_secs (status_refresh_interval c))
    (VeluxMqttBridgeConfig.status_response_timeout config)
    (VeluxMqttBridgeConfig.reconnect_min_delay config)
    (VeluxMqttBridgeConfig.reconnect_max_delay config).

(** [main] up to the bridge it runs *)
Definition main (metadata : string → outcome string unit) (read : string → outcome string (list Z))
    (start : Z) (c : t) : outcome BridgeError.t (Bridge.t * MqttOptions.t * TopicLayout.t) :=
  _ ← validate metadata c; Bridge.new read start (bridge_config c).

(** How the program ends: [clap] refuses the options and exits; or [main] returns a result, after
    what the bridge did; or it never does, waiting in a call. *)
Module ProgramEnd.
Inductive t :=
| Refused (kind : ErrorKind.t)
| Exited (history : list Action.t) (result : outcome BridgeError.t unit)
| Waiting (history : list Action.t) (call : Action.t).
End ProgramEnd.

(** The whole of [main]; [None] is a sequence of events that the bridge cannot be handed. *)
Definition program `{Environment} (metadata : string → outcome string unit)
    (read : string → outcome string (list Z)) (start : Z)
    (registered : outcome string unit) (first : ShutdownSignal.t) (cancelled : option GatewayHandle)
    (events : list BridgeEvent.t) (given : t) : option ProgramEnd.t :=
  match try_parse given with
  | Ok c =>
      match main metadata read start c with
      | Ok (bridge, _, _) =>
          match run registered first cancelled events (St.mk bridge []) with
          | Some (Ended.Returned s result) => Some (ProgramEnd.Exited (St.history s) result)
          | Some (Ended.Waiting h call) => Some (ProgramEnd.Waiting h call)
          | None => None
          end
      | Err e => Some (ProgramEnd.Exited [] (Err e))
      | Panic => Some (ProgramEnd.Exited [] Panic)
      end
  | Err kind => Some (ProgramEnd.Refused kind)
  | Panic => Some (ProgramEnd.Exited [] Panic)
  end.
End Cli.
Import Cli.

(** ** Facts *)
Lemma bail_if_Ok condition message : bail_if condition message = Ok tt ↔ condition = false.
Proof. by destruct condition. Qed.







Lemma from_secs_zero n : (from_secs n =? 0) = (n =? 0).
Proof. unfold from_secs. destruct (Z.eqb_spec n 0) as [->|]; [done|]. apply Z.eqb_neq. lia. Qed.

(** The verdict of the broker's validation on the configuration of the command line *)
Lemma mqtt_verdict (c : Cli.t) :
  (Mqtt.validate (mqtt_config c)).2 = Ok tt ↔
  ¬ (is_Some (mqtt_ca_cert c) ∧ mqtt_insecure c = true)
  ∧ trim (mqtt_addr c) ≠ "" ∧ trim (mqtt_client_id c) ≠ ""
  ∧ ∃ topics, TopicLayout.new (TopicLayout.normalise (mqtt_base_topic c)) = Ok topics.
Proof.
  rewrite validate_verdict. unfold mqtt_config, MqttConfig.new. cbn -[trim TopicLayout.normalise TopicLayout.new].
  assert (60000 ≠ 0 ∧ 256 ≠ 0) by lia. tauto.
Qed.

(** The verdict of the bridge on the configuration of the command line *)
Lemma bridge_verdict (c : Cli.t) :
  (VeluxMqttBridgeConfig.validate (bridge_config c)).2 = Ok tt ↔
  trim (klf_host c) ≠ "" ∧ klf_password c ≠ ""
  ∧ (Mqtt.validate (mqtt_config c)).2 = Ok tt
  ∧ klf_reboot_reconnect_delay c ≠ 0 ∧ klf_heartbeat_interval c ≠ 0 ∧ status_refresh_interval c ≠ 0.
Proof.
  unfold bridge_config, VeluxMqttBridgeConfig.validate, VeluxMqttBridgeConfig.new, klf_config.
  cbn -[trim Mqtt.validate mqtt_config from_secs from_millis].
  rewrite <- !String.eqb_neq, <- !Z.eqb_neq.
  destruct (String.eqb (trim _) ""); [split; [done|by intros [? _]]|].
  destruct (String.eqb _ ""); [split; [done|by intros (_&?&_)]|].
  destruct (Mqtt.validate _) as [mqtt [[]|e|]]; cbn -[from_secs from_millis];
    [|split; [done|by intros (_&_&?&_)]..].
  rewrite !from_secs_zero.
  destruct (klf_reboot_reconnect_delay c =? 0), (klf_heartbeat_interval c =? 0),
    (status_refresh_interval c =? 0); vm_compute; naive_solver.
Qed.

(** The verdict of the command line *)
Lemma cli_verdict metadata (c : Cli.t) :
  Cli.validate metadata c = Ok tt ↔
  (trim (klf_host c) ≠ "" ∧ klf_password c ≠ ""
   ∧ klf_reboot_reconnect_delay c ≠ 0 ∧ klf_heartbeat_interval c ≠ 0 ∧ status_refresh_interval c ≠ 0)
  ∧ (trim (mqtt_addr c) ≠ "" ∧ trim (mqtt_client_id c) ≠ "" ∧ trim_matches ["/"] (mqtt_base_topic c) ≠ "")
  ∧ (∀ path, certificate c = Some path → metadata path = Ok tt).
Proof.
  unfold Cli.validate. rewrite <- !String.eqb_neq, <- !Z.eqb_neq.
  unfold bail_if.
  destruct (String.eqb (trim (klf_host c)) ""); [naive_solver|].
  destruct (String.eqb (klf_password c) ""); [naive_solver|].
  destruct (klf_heartbeat_interval c =? 0); [naive_solver|].
  destruct (status_refresh_interval c =? 0); [naive_solver|].
  destruct (klf_reboot_reconnect_delay c =? 0); [naive_solver|].
  destruct (String.eqb (trim (mqtt_addr c)) ""); [naive_solver|].
  destruct (String.eqb (trim (mqtt_client_id c)) ""); [naive_solver|].
  destruct (String.eqb (trim_matches ["/"] (mqtt_base_topic c)) ""); [naive_solver|].
  cbn. destruct (certificate c) as [path|]; [|naive_solver].
  destruct (metadata path) as [[]| |] eqn:Hm; naive_solver congruence.
Qed.

(** What a base topic must be for the layout of the given number of normalisations of it *)
Definition base_accepted (times : nat) (topic : string) : Prop :=
  base_wf (Nat.iter times TopicLayout.normalise topic).

Lemma layout_accepts topic : (∃ topics, TopicLayout.new topic = Ok topics) ↔ base_accepted 1 topic.
Proof. rewrite new_spec. unfold base_accepted. cbn. case_decide; naive_solver. Qed.

Lemma layout_accepts_Ok topic :
  base_accepted 1 topic → TopicLayout.new topic = Ok (TopicLayout.mk (TopicLayout.normalise topic)).
Proof. rewrite new_spec. unfold base_accepted. cbn. by case_decide. Qed.

Lemma accepted_succ times topic :
  base_accepted times (TopicLayout.normalise topic) ↔ base_accepted (S times) topic.
Proof. unfold base_accepted. by rewrite <- Nat.iter_succ_r. Qed.





(** The certificate of the broker, if one is given, can be read. *)
Definition ca_readable (read : string → outcome string (list Z)) (c : Cli.t) : Prop :=
  ∀ path, mqtt_ca_cert c = Some path → ∃ ca, read path = Ok ca.

Lemma transport_Ok read config :
  (∃ transport, MqttConnection.transport read config = Ok transport) ↔
  (∀ path, MqttConfig.ca_cert config = Some path → ∃ ca, read path = Ok ca).
Proof.
  unfold MqttConnection.transport. destruct (MqttConfig.ca_cert config) as [path|]; [|naive_solver].
  destruct (read path) eqn:Hr; naive_solver congruence.
Qed.

Lemma connection_new_Ok read config :
  (∃ r, MqttConnection.new read config = Ok r) ↔
  (Mqtt.validate config).2 = Ok tt
  ∧ (∃ transport, MqttConnection.transport read (Mqtt.validate config).1 = Ok transport)
  ∧ (∃ topics, TopicLayout.new (MqttConfig.base_topic (Mqtt.validate config).1) = Ok topics).
Proof.
  unfold MqttConnection.new. destruct (Mqtt.validate config) as [c [[]| |]]; cbn; [|naive_solver..].
  destruct (MqttConnection.transport read c); cbn; [|naive_solver..].
  destruct (TopicLayout.new _); cbn; naive_solver.
Qed.

Lemma bridge_new_Ok read start config :
  let c := VeluxMqttBridgeConfig.validate config in
  (∃ r, Bridge.new read start config = Ok r) ↔
  c.2 = Ok tt
  ∧ (∃ topics, TopicLayout.new (MqttConfig.base_topic (VeluxMqttBridgeConfig.mqtt c.1)) = Ok topics)
  ∧ (∃ r, MqttConnection.new read (VeluxMqttBridgeConfig.mqtt c.1) = Ok r).
Proof.
  unfold Bridge.new. destruct (VeluxMqttBridgeConfig.validate config) as [c [[]| |]]; cbn;
    [|naive_solver..].
  destruct (TopicLayout.new _); [|naive_solver..].
  destruct (MqttConnection.new _ _) as [[]| |]; naive_solver.
Qed.

(** The broker's configuration the bridge keeps *)
Lemma bridge_mqtt c :
  (VeluxMqttBridgeConfig.validate (bridge_config c)).2 = Ok tt →
  VeluxMqttBridgeConfig.mqtt (VeluxMqttBridgeConfig.validate (bridge_config c)).1
  = (Mqtt.validate (mqtt_config c)).1.
Proof.
  unfold bridge_config, VeluxMqttBridgeConfig.validate, VeluxMqttBridgeConfig.new, klf_config.
  cbn -[trim Mqtt.validate mqtt_config from_secs from_millis].
  destruct (String.eqb (trim _) ""); [done|]. destruct (String.eqb _ ""); [done|].
  by destruct (Mqtt.validate _).
Qed.

(** The connection, opened with the broker's configuration after one validation *)
Lemma connection_opens read c :
  (Mqtt.validate (mqtt_config c)).2 = Ok tt →
  (∃ r, MqttConnection.new read (Mqtt.validate (mqtt_config c)).1 = Ok r) ↔
  ca_readable read c ∧ base_accepted 3 (mqtt_base_topic c).
Proof.
  intros Hv. rewrite connection_new_Ok. apply mqtt_verdict in Hv as (Htls&Hs&Hc&_).
  rewrite validate_verdict. rewrite (validate_normalised (mqtt_config c)) by done.
  rewrite (validate_normalised (MqttConfig.mk _ _ _ _ _ _ _ _ _ _)) by done.
  cbn -[trim TopicLayout.normalise TopicLayout.new]. rewrite transport_Ok.
  cbn -[trim TopicLayout.normalise TopicLayout.new].
  rewrite !trim_idemp, !layout_accepts, !accepted_succ. unfold ca_readable.
  assert (60000 ≠ 0 ∧ 256 ≠ 0) by lia. tauto.
Qed.

(** The command starts exactly when its command line validates, the two TLS options do not
    exclude each other, the certificate of the broker can be read and the base topic is accepted
    after the three normalisations of the topic layouts built one from the other: the bridge's,
    validation's, and the connection's, which validates once more. The configuration it starts
    with has durations the standard library represents. *)
Theorem main_starts (metadata : string → outcome string unit)
    (read : string → outcome string (list Z)) (start : Z) (c : Cli.t) :
  ((∃ bridge, main metadata read start c = Ok bridge) ↔
   Cli.validate metadata c = Ok tt ∧ ¬ (is_Some (mqtt_ca_cert c) ∧ mqtt_insecure c = true)
   ∧ ca_readable read c
   ∧ base_accepted 2 (mqtt_base_topic c) ∧ base_accepted 3 (mqtt_base_topic c))
  ∧ durations_wf (bridge_config c).
Proof.
  split; [|unfold durations_wf; vm_compute; intuition congruence].
  pose proof (bridge_verdict c) as Hb. pose proof (mqtt_verdict c) as Hm.
  pose proof (cli_verdict metadata c) as Hc. pose proof (bridge_new_Ok read start (bridge_config c)) as Hn.
  cbn zeta in Hn. pose proof (bridge_mqtt c) as He. pose proof (connection_opens read c) as Ho.
  pose proof (layout_accepts (TopicLayout.normalise (mqtt_base_topic c))) as Hl.
  rewrite accepted_succ in Hl.
  assert ((∃ bridge, main metadata read start c = Ok bridge) ↔
          Cli.validate metadata c = Ok tt ∧ ∃ r, Bridge.new read start (bridge_config c) = Ok r) as ->.
  { unfold main. destruct (Cli.validate metadata c) as [[]| |]; cbn.
    - split; [by intros|by intros [_ H]].
    - split; [by intros []|by intros []].
    - split; [by intros []|by intros []]. }
  rewrite Hn. split.
  - intros (Hv&Hbv&Ht&Hr). destruct (proj1 Hb Hbv) as (_&_&Hmv&_).
    rewrite (He Hbv), (Ho Hmv) in Hr. destruct (proj1 Hm Hmv) as (Htls&_&_&H2%Hl), Hr as [Hca H3].
    done.
  - intros (Hv&Htls&Hca&H2&H3). destruct (proj1 Hc Hv) as ((?&?&?&?&?)&(?&?&?)&_).
    assert ((Mqtt.validate (mqtt_config c)).2 = Ok tt) as Hmv.
    { apply Hm. split_and!; try done. by apply Hl. }
    assert ((VeluxMqttBridgeConfig.validate (bridge_config c)).2 = Ok tt) as Hbv by (apply Hb; done).
    rewrite (He Hbv), (Ho Hmv), validate_normalised by done. split_and!; try done. by apply Hl.
Qed.

Definition sample : Cli.t := defaults "gateway" "password" "broker".

(** The declared defaults start. *)
Example defaults_start :
  ∃ bridge, main (λ _, Err "none") (λ _, Err "none") 0 sample = Ok bridge.
Proof. eexists. vm_compute. reflexivity. Qed.
