(* ===== verification/Program.v ===== *)
(** * The program, from its command line to its exit (bin/velux2mqtt.rs, [main])

    The composition of the command line, the start of the bridge, its loop and its shutdown. *)

From S2P Require Import Prelude RustStd RustText CommandIds Error Types Tls Connection.
From S2P Require Import Mqtt MqttFacts HassDiscovery Bridge BridgeLogic BridgeFacts BridgeQueue.
From S2P Require Import BridgeRun Setup SetupFacts Cli.
Import Bridge Cli.

(** ** Starting does not panic *)
Lemma validate_returns metadata c :
  (∀ path, metadata path ≠ Panic) → Cli.validate metadata c ≠ Panic.
Proof.
  intros Hm. unfold Cli.validate, bail_if.
  repeat (apply outcome_bind_total; [by case_match|intros _]).
  destruct (certificate c) as [path|]; [|done]. specialize (Hm path). by destruct (metadata path).
Qed.

Lemma layout_new_returns topic : TopicLayout.new topic ≠ Panic.
Proof. rewrite new_spec. by case_decide. Qed.

Lemma mqtt_validate_returns c : (Mqtt.validate c).2 ≠ Panic.
Proof.
  destruct c. unfold Mqtt.validate. destruct (_ && _); [done|]. cbn [snd].
  destruct (String.eqb _ ""); [done|]. destruct (String.eqb _ ""); [done|].
  apply outcome_bind_total; [apply layout_new_returns|]. intros topics. by repeat case_match.
Qed.

Lemma bridge_validate_returns c : (VeluxMqttBridgeConfig.validate c).2 ≠ Panic.
Proof.
  destruct c as [klf password mqtt hass reboot reboot_delay heartbeat refresh timeout lo hi].
  unfold VeluxMqttBridgeConfig.validate.
  destruct (String.eqb _ ""); [done|]. destruct (String.eqb _ ""); [done|].
  pose proof (mqtt_validate_returns mqtt). destruct (Mqtt.validate mqtt) as [mqtt' v]. cbn [snd] in *.
  destruct v; [|done|done]. by destruct (_ || _).
Qed.

Lemma connection_new_returns read c :
  (∀ path, read path ≠ Panic) → MqttConnection.new read c ≠ Panic.
Proof.
  intros Hr. unfold MqttConnection.new. pose proof (mqtt_validate_returns c) as Hv.
  destruct (Mqtt.validate c) as [c' v]. apply outcome_bind_total; [done|intros _].
  apply outcome_bind_total.
  - unfold MqttConnection.transport. destruct (MqttConfig.ca_cert c') as [path|]; [|done].
    specialize (Hr path). by destruct (read path).
  - intros transport. by apply outcome_bind_total; [apply layout_new_returns|].
Qed.

Lemma main_returns metadata read start c :
  (∀ path, metadata path ≠ Panic) → (∀ path, read path ≠ Panic) → main metadata read start c ≠ Panic.
Proof.
  intros Hm Hr. apply outcome_bind_total; [by apply validate_returns|intros _]. unfold Bridge.new.
  pose proof (bridge_validate_returns (bridge_config c)) as Hv.
  destruct (VeluxMqttBridgeConfig.validate _) as [config v]. apply outcome_bind_total; [done|intros _].
  pose proof (layout_new_returns (MqttConfig.base_topic (VeluxMqttBridgeConfig.mqtt config))).
  destruct (TopicLayout.new _); [|done|done].
  pose proof (connection_new_returns read (VeluxMqttBridgeConfig.mqtt config) Hr).
  by destruct (MqttConnection.new _ _) as [[]| |].
Qed.

Lemma bridge_config_durations c : durations_wf (bridge_config c).
Proof. unfold durations_wf. vm_compute. intuition congruence. Qed.

(** ** The run *)
Section program.
Context `{E : Environment} `{L : !Lawful E}.

(** The clock represents every instant the bridge computes with a configuration. *)
Definition clock_holds (c : VeluxMqttBridgeConfig.t) : Prop :=
  ∀ h, now h + Z.max (longest_delay c)
                 (Z.max (VeluxMqttBridgeConfig.heartbeat_interval c)
                    (VeluxMqttBridgeConfig.status_refresh_interval c)) ≤ instant_max.

(** A bridge that [main] built is at the start of a run. *)
Lemma main_running metadata read start c b o t :
  main metadata read start c = Ok (b, o, t) →
  clock_holds (VeluxMqttBridgeConfig.validate (bridge_config c)).1 →
  running (bridge_config c) (St.mk b []) ∧ intervals_fit (St.mk b []).
Proof.
  intros ([] & _ & Hnew)%outcome_bind_Ok Hclock. split.
  - split; [apply bridge_config_durations|]. split; [intros h; specialize (Hclock h); lia|].
    exists read, start, b, o, t. split; [done|]. apply reachable_start.
  - unfold intervals_fit. cbn [St.bridge St.history]. rewrite (new_config _ _ _ _ _ _ Hnew).
    specialize (Hclock []). lia.
Qed.

Lemma reboot_flag config s :
  running config s →
  VeluxMqttBridgeConfig.reboot_on_shutdown (Bridge.config (St.bridge s))
  = VeluxMqttBridgeConfig.reboot_on_shutdown config.
Proof.
  intros (l & Hs & _)%running_inv. rewrite (inv_config _ _ _ Hs). destruct config as [klf password mqtt].
  unfold VeluxMqttBridgeConfig.validate. destruct (String.eqb _ ""); [done|].
  destruct (String.eqb _ ""); [done|]. by destruct (Mqtt.validate mqtt).
Qed.

Section ending.
Context `{G : Gateway} `{LG : !LawfulGateway G}.

(** The set-up in progress at the shutdown, cancelled where the gateway's answers end *)
Definition set_up (password : string) : Trace * ended PreparedGateway.t := prepare_gateway password [].

(** The gateway of that set-up was closed: by the bridge, with a reboot if configured, if the set-up
    had completed nevertheless; otherwise by the set-up itself, as the last thing it did, and
    never with a reboot. *)
Definition set_up_closed (password : string) (g : GatewayHandle) (reboot : bool)
    (ending : list Action.t) : Prop :=
  Action.GatewayShutdown g reboot ∈ ending
  ∨ ∃ t, (set_up password).1 = t ++ [SetupAction.Shutdown false]
         ∧ ∀ r, SetupAction.Shutdown r ∉ t.

(** What an orderly shutdown does last *)
Definition orderly (b : Bridge.t) (password : string) (reboot : bool) (ending : list Action.t) : Prop :=
  let offline := TopicLayout.availability_publication (topics b) false in
  (∀ g, gateway b = Some g → Action.GatewayShutdown g reboot ∈ ending)
  ∧ (∀ g, setup b = true → connect_answer [] = Some (Ok g) → set_up_closed password g reboot ending)
  ∧ (∀ g r, Action.GatewayShutdown g r ∈ ending →
       r = reboot ∧ (gateway b = Some g ∨ setup b = true ∧ connect_answer [] = Some (Ok g)))
  ∧ (∀ p accepted, Action.Publish p accepted ∈ ending → p = offline)
  ∧ (mqtt_connected b = true →
       last ending = Some Action.MqttDisconnect ∧ ∃ accepted, Action.Publish offline accepted ∈ ending).

Lemma announcement_offline_only s a :
  a ∈ announcement s false →
  mqtt_connected (St.bridge s) = true
  ∧ ∃ accepted, a = Action.Publish (TopicLayout.availability_publication (topics (St.bridge s)) false) accepted.
Proof.
  unfold announcement. destruct (mqtt_connected _); [|by intros ?%not_elem_of_nil].
  intros ->%list_elem_of_singleton. split; [done|]. by eexists.
Qed.

(** What a cancelled set-up leaves to the bridge is the gateway it connected; otherwise it closed it. *)
Lemma cancel_set_up password :
  match cancel_setup (set_up password).2 with
  | Some g => connect_answer [] = Some (Ok g)
  | None => ∀ g reboot ending,
      connect_answer [] = Some (Ok g) → set_up_closed password g reboot ending
  end.
Proof.
  unfold set_up_closed, set_up. pose proof (prepare_gateway_cases password) as H.
  destruct (prepare_gateway password []) as [h [p|e| |]]; cbn [snd fst cancel_setup] in *; [|..|done|done].
  { by destruct H. }
  intros g reboot ending Hg. right. rewrite Hg in H. destruct H as (t & -> & Ht).
  exists (SetupAction.Connect :: t). split; [done|].
  intros r [?|Hr]%elem_of_cons; [done|]. rewrite Forall_forall in Ht. by specialize (Ht _ Hr).
Qed.

Lemma shutdown_orderly config s password :
  running config s →
  let (s', r) := shutdown (cancel_setup (set_up password).2) s in
  (r = Ok tt ∨ ∃ e, r = Err e)
  ∧ ∃ ending, St.history s' = St.history s ++ ending
      ∧ orderly (St.bridge s) password (VeluxMqttBridgeConfig.reboot_on_shutdown config) ending.
Proof.
  intros Hs. pose proof (cancel_set_up password) as Hup. set (cancelled := cancel_setup _) in *.
  pose proof (shutdown_effects config s cancelled Hs) as H. pose proof (reboot_flag _ _ Hs) as Hb.
  destruct (shutdown cancelled s) as [s' r]. cbv zeta in H. rewrite Hb in H.
  destruct H as (Hh & _ & _ & Hr). split.
  { revert Hr. destruct (if mqtt_connected _ then disconnect_result _ else _); intros Hr; [by left|by right; eexists|done]. }
  rewrite <- !app_assoc in Hh. eexists. split; [exact Hh|]. split_and!.
  - intros g ->. set_solver.
  - intros g -> Hg. destruct cancelled as [g'|]; [left|by apply Hup]. simplify_eq. set_solver.
  - intros g r' Hin. rewrite !elem_of_app in Hin. destruct Hin as [Hin|[Hin|[Hin|Hin]]].
    + destruct (setup _); [|set_solver]. destruct cancelled; [|set_solver].
      apply list_elem_of_singleton in Hin as [= -> ->]. auto.
    + by apply announcement_offline_only in Hin as (_ & ? & ?).
    + destruct (gateway _); [|set_solver]. apply list_elem_of_singleton in Hin as [= -> ->]. auto.
    + by destruct (mqtt_connected _); [apply list_elem_of_singleton in Hin|set_solver].
  - intros p acc Hp. rewrite !elem_of_app in Hp. destruct Hp as [Hp|[Hp|[Hp|Hp]]].
    + repeat case_match; set_solver.
    + apply announcement_offline_only in Hp as (_ & acc' & [= -> _]). done.
    + repeat case_match; set_solver.
    + repeat case_match; set_solver.
  - intros Hm. rewrite Hm, !app_assoc, last_snoc. split; [done|]. eexists.
    rewrite !elem_of_app. left. left. right. unfold announcement. cbn [St.bridge]. rewrite Hm. by left.
Qed.

(** C7: the program as a whole: with a clock that represents its intervals it never panics,
    whatever the events, the broker and the gateway do. It is refused only for giving both TLS
    options. Unless it is handed an event that cannot occur, it exits, or it waits in a call of
    the bridge that never returns, after calls that did. If it exits successfully, its command
    line was valid, it handled every event and got a shutdown signal, and its last actions shut
    down the gateway that was connected, with a reboot exactly if the command line asks for it,
    and no other gateway than that of a set-up in progress, which is shut down the same way if the
    set-up completed before it could be cancelled and otherwise was closed by the set-up itself,
    without a reboot (and that closing is taken to return). They said nothing to the broker but
    "offline", and, if the broker was connected, said that and then disconnected. *)
Theorem program_ends (metadata : string → outcome string unit)
    (read : string → outcome string (list Z)) (start : Z) (registered : outcome string unit)
    (first : ShutdownSignal.t) (events : list BridgeEvent.t) (c : Cli.t) :
  let cancelled := cancel_setup (set_up (klf_password c)).2 in
  (∀ path, metadata path ≠ Panic) → (∀ path, read path ≠ Panic) →
  shutdown_signal registered first ≠ Panic → Forall event_wf events →
  clock_holds (VeluxMqttBridgeConfig.validate (bridge_config c)).1 →
  match program metadata read start registered first cancelled events c with
  | None => ∃ b o t before event rest s',
      main metadata read start c = Ok (b, o, t) ∧ events = before ++ event :: rest
      ∧ after before (St.mk b []) = Some s' ∧ enabled (St.bridge s') event = false
  | Some (ProgramEnd.Refused _) => is_Some (mqtt_ca_cert c) ∧ mqtt_insecure c = true
  | Some (ProgramEnd.Waiting h call) => ∃ b o t,
      main metadata read start c = Ok (b, o, t)
      ∧ stalled (shutdown_signal registered first) cancelled events (St.mk b []) h call
  | Some (ProgramEnd.Exited h result) =>
      result ≠ Panic
      ∧ (result = Ok tt → ∃ b o t s' ending,
           main metadata read start c = Ok (b, o, t) ∧ after events (St.mk b []) = Some s'
           ∧ shutdown_signal registered first = Ok tt ∧ h = St.history s' ++ ending
           ∧ orderly (St.bridge s') (klf_password c) (klf_reboot_on_shutdown c) ending)
  end.
Proof.
  intros cancelled Hmeta Hread Hsig Hw Hclock. unfold program.
  destruct (try_parse c) as [c'|[]|] eqn:Htry.
  2: { unfold try_parse in Htry. destruct (mqtt_ca_cert c); [|done]. by destruct (mqtt_insecure c). }
  2: { unfold try_parse in Htry. by repeat case_match. }
  assert (c' = c) as -> by (unfold try_parse in Htry; by repeat case_match; simplify_eq).
  pose proof (main_returns metadata read start c Hmeta Hread) as Hmain.
  destruct (main metadata read start c) as [[[b o] t]|e|] eqn:Hm; [|by split|done].
  destruct (main_running _ _ _ _ _ _ _ Hm Hclock) as [Hrun Hfit].
  unfold run. rewrite run_until_serves by done.
  pose proof (serve_cases (bridge_config c) (shutdown_signal registered first) cancelled events _ Hrun Hw) as H.
  destruct (serve _ cancelled events _) as [[ended result|h call]|].
  - destruct H as (s' & Ha & Hs' & Hended).
    destruct (shutdown_signal registered first) as [[]|e|]; [| |done].
    + pose proof (shutdown_orderly _ s' (klf_password c) Hs') as Ho.
      change ((lift id (Ok tt) ≫= λ _ : (), shutdown cancelled) s') with (shutdown cancelled s') in Hended.
      fold cancelled in Ho. rewrite <- Hended in Ho. destruct Ho as (Hr & ending & Hh & Ho). split.
      { by destruct Hr as [->|[e ->]]. }
      intros _. by exists b, o, t, s', ending.
    + injection Hended as -> ->. by split.
  - by exists b, o, t.
  - destruct H as (before & event & rest & s' & ? & ? & ?). by exists b, o, t, before, event, rest, s'.
Qed.
End ending.
End program.

(** The defaults, with the set-up, a connection of the broker and SIGTERM *)
Abbreviation sample_program :=
  (@program quiet (λ _, Err "none") (λ _, Err "none") 0 (Ok tt) ShutdownSignal.Terminate
     (cancel_setup (@set_up sample_gateway_env (klf_password sample)).2) sample_events sample)
  (only parsing).

Lemma sample_program_ends : ∃ h, sample_program = Some (ProgramEnd.Exited h (Ok tt)).
Proof. eexists. vm_compute. reflexivity. Qed.

Lemma quiet_clock_holds : @clock_holds quiet (VeluxMqttBridgeConfig.validate (bridge_config sample)).1.
Proof. intros h. apply Z.leb_le. vm_compute. reflexivity. Qed.

Lemma program_ends_witness :
  ∃ h b s' ending, sample_program = Some (ProgramEnd.Exited h (Ok tt))
    ∧ @after quiet sample_events (St.mk b []) = Some s' ∧ h = St.history s' ++ ending
    ∧ @orderly sample_gateway_env (St.bridge s') (klf_password sample) (klf_reboot_on_shutdown sample) ending.
Proof.
  destruct sample_program_ends as [h Hh].
  pose proof (@program_ends quiet quiet_lawful sample_gateway_env sample_gateway_lawful
    (λ _, Err "none") (λ _, Err "none") 0 (Ok tt)
    ShutdownSignal.Terminate sample_events sample ltac:(discriminate) ltac:(discriminate)
    ltac:(discriminate) sample_events_wf quiet_clock_holds) as H.
  cbv zeta in H. revert Hh H. generalize sample_program as p. intros p -> [_ H].
  destruct (H eq_refl) as (b & o & t & s' & ending & _ & Ha & _ & Hend & Ho).
  exists h, b, s', ending. split; [reflexivity|]. split; [exact Ha|]. split; [exact Hend|exact Ho].
Defined.
